(* ===== verification/_CoqProject ===== *)
-Q . S2P
Prelude.v
Interleave.v
Locks.v
CInt.v
CString.v
Protocol.v
Hash.v
Posix.v
Control.v
Startup.v
Auth.v
RoomStore.v
FileDb.v
SharedOffset.v
Wal.v
Tear.v
Ring.v
Jitter.v
World.v
RoomManager.v
RoomInv.v
RoomState.v
Rooms.v
RoomLocks.v
RoomCalls.v
Threads.v
Joins.v
ServerState.v
Mixer.v
MixerSpec.v
ClientHandler.v
HandlerSpec.v
Network.v
System.v
EventLoop.v
Boot.v
Display.v
ServerLocks.v
ServerRuns.v
Races.v
Workers.v
Clock.v
ClientApp.v
ClientMain.v
