(* ===== verification/Prelude.v ===== *)
(** * VoxOS / EchoLink: a verification library for the voice server

    VoxOS is a group voice server in C.  Clients hold a TCP connection for
    text commands (LOGIN, CREATE, JOIN, KICK, ...) and send UDP packets of
    16-bit audio; the server mixes, every 20 ms, the voices of each room and
    sends every member the mix of the others.  This library is a shallow
    embedding of the server's and the client's code and the theorems about it.

    ** The program and the files that model it

    One epoll thread ([network.c]) accepts clients, queues their commands for
    eight workers ([client_handler.c]) and puts audio packets into a shared
    ring ([ipc_manager.c]).  The mixer thread ([audio_mixer.c]) moves packets
    from the ring to one jitter buffer per client and mixes.  Rooms are a
    doubly linked list in memory ([room_manager.c]) mirrored in a file with a
    write-ahead log ([file_db.c]); accounts are a file of fixed-size records
    ([auth.c]).  A thread prints a status screen ([console_display.c]), another
    reads an emergency FIFO ([ipc_manager.c]).  The client ([client.c]) sends
    lines and microphone frames and plays what it receives.  The paths are
    those under [src/src].

    - [Prelude]: the monad [C S A] of computations on a state [S] that may be
      undefined, its rules, and lemmas on lists and maps.
    - [CInt], [CString], [Posix]: the C that the code uses.  Integers are [Z]
      with the wrap-around of their width; character arrays are the list of
      their bytes, and [strcpy], [strncpy], [strcmp], [strtok], [strstr],
      [sscanf], [snprintf] work on those; a file is its bytes with the
      outcomes of the coming [write] calls (all of it, a part, or an error).
    - [Protocol]: [common/protocol.h], every constant and struct, with the
      object representations of what is stored or sent.
    - [Hash]: [common/utils.c], [sha256_hash] and [safe_memcmp].
    - [Interleave]: threads as sequences of atomic sections and their
      schedules.  [Locks]: programs that take and give back mutexes, their
      interleavings, and the discipline that excludes deadlock.
    - [Control]: the signal handler of [server/main.c] and the FIFO thread of
      [server/ipc_manager.c].  [Startup]: the set-up of sockets, epoll, shared
      memory and FIFO with its error paths, and their release, on the table of
      open descriptors.
    - [Auth]: [server/auth.c]; every operation scans the users file.
    - [RoomStore]: the interface between room manager and room file: the
      class [RoomStore] of operations and [RoomStoreLaws] of what they
      promise.  [FileDb] ([server/file_db.c]) is the implementation, with its
      instance; the room manager, handlers, mixer and network are proved
      against the class.  [Wal] proves crash recovery, [Tear] that of a crash
      in the middle of a write.  [SharedOffset] cuts the operations on
      accounts and room records into their system calls, which share one file
      offset among all threads.
    - [Ring]: [ring_buffer_push]/[pop] of [server/ipc_manager.c]; [Jitter]:
      the jitter buffers of [server/audio_mixer.c].
    - [World]: the heap of rooms and clients, and the room list's globals;
      [RoomManager]: [server/room_manager.c].  [RoomInv], [RoomState] and
      [Rooms] have the abstract rooms, the representation invariant and the
      refinement of [Module RoomSpec].  [RoomLocks] has the operations as
      programs with their mutexes, over a class [StoreCalls] of programs for
      the room database: one access each, or, in [RoomCalls], the system calls
      of [file_db.c] with their shared offsets.  [Threads] and [Joins]
      interleave the operations: races that the locks allow, and what holds
      when clients join at the same time.
    - [ServerState]: the globals of all components; [Mixer] and [MixerSpec]:
      the rest of [server/audio_mixer.c]; [ClientHandler] and [HandlerSpec]:
      [server/client_handler.c]; [Network]: [server/network.c]; [System]:
      events, workers and mixer as a sequence of steps, from the
      initialisation of [main.c] to [shutdown_server].
    - [EventLoop]: [network_event_loop], which handler an entry of epoll runs
      and what it does; [Boot]: [main] from the files on the disk to the exit of the process.
    - [Display]: [server/console_display.c], the text of a status screen.
    - [ServerLocks]: every handler, connection, tick, screen, the FIFO thread
      and the shutdown as a program with its mutexes, in loops that test
      [server_on]; [ServerRuns] shows that such a program
      without other threads is the operation of [System]; [Races] has runs of
      several threads that end in undefined behaviour, and the signal handler
      in the middle of a thread.
    - [Workers]: the worker threads around [task_cond] and the task queue.
      [Clock]: [get_time_ms], and the loop of [mixer_thread_main] in time: how
      long its iterations take and when its sleeps end.
    - [ClientApp]: [client/client.c], the command loop, the responses and the
      two audio threads, and the way of a voice through client, server and
      client.  [ClientMain]: its [main] with the error paths, [fgets], the
      help text.

    ** Undefined behaviour

    A computation gives [None] when the C code has no defined behaviour: a
    NULL or freed object is accessed, an array is indexed or copied outside
    its bounds, a list traversal does not end, [audio_seq]
    overflows.  The other counters, such as [active_speakers], are unbounded
    [Z]s without a check for overflow.  [malloc] takes its answers from a list, NULL included.  The objects that
    the code leaves uninitialised ([room_record rec] in [room_create], the
    packet that [recvfrom] fills partly, the [int] that a failed [sscanf]
    leaves) hold arbitrary values that are parameters of the model.

    ** Threads

    There are two levels.  In [System] one operation (a command, an accept, a
    datagram, a tick) is one step: [System.run_events] takes any sequence of
    events, so any order of workers, mixer and network at this granularity,
    and [ClientApp.run_client] any order of the client's three threads.  In
    [RoomLocks] and [ServerLocks] an operation is a program: it takes and
    gives back mutexes, and what it does under a lock, or an access to shared
    variables without one, is one atomic section; so is an access to the users
    file, and a call of the room database with [atomic_calls], while with
    [RoomCalls.db_calls] each of its system calls is.  [Locks.lstep]
    interleaves the programs of any number of threads; a thread that wants a
    mutex which is held waits.  The programs of one
    thread alone do what the steps of [System] do
    ([ServerRuns.server_threads_alone]), and so does a thread that is
    scheduled without interruption ([Locks.uninterrupted]): the theorems of
    the first level hold for executions in which operations do not overlap;
    [Threads], [Joins] and [Races] show where overlapping ones differ.  The
    mutexes have an order (clients, rooms, then task, room, jitter and ring,
    then log), so threads never wait for each other in a circle
    ([ServerLocks.server_deadlock_free]) and stop only at the end or at
    undefined behaviour, unless a signal comes inside [log_message]
    ([Races.signal_deadlocks_iff_logging]).  The atomic sections are
    sequentially consistent; [SharedOffset] goes down to the system calls on
    the users file and the room file; the [printf]s and the accesses of one section
    without a lock are not interleaved further, and taking the lock of a room
    that has been freed is not itself counted as undefined.
    In [Ring] the threads are interleaved at the semaphore calls and the
    critical section, in [Workers] at the sections under [task_mutex], the
    signals and the spurious wake-ups.

    ** Fuel

    A traversal of the room list has one unit more than there are allocated
    rooms ([S (size heap)]): a longer one has met a room twice and never
    ends, so running out is the undefined result, and the theorems show that
    it does not happen.  [mixer_tick] drains the ring with 129 units, one
    more than its capacity; [mixer_tick_correct] shows that this empties it.
    [print_int] has fuel for all decimal digits of an [int].

    ** The theorems

    - Memory safety: [System.server_never_undefined] for every sequence of
      events and the shutdown after it, [System.connections_consistent] for
      slots, descriptors and reference counts, [Boot.main_correct] for the
      whole process from its files; [EventLoop.epoll_entry_handled] for the
      dispatch of the event loop.
    - Commands: [HandlerSpec.every_command_answered], [login_required],
      [role_required], [login_grants_role]; [System.queued_commands_answered]
      for the queue and its workers.
    - Rooms: [Rooms.room_create_correct], [room_join_correct],
      [room_leave_correct] refine the abstract operations on every branch;
      [room_list_complete] for LIST, [Display.status_screen_correct] for the
      screen.
    - Concurrency: [ServerLocks.server_deadlock_free] for any number of
      threads and every interleaving, with [ServerRuns.server_threads_alone]
      and [Threads.threads_alone] for the programs it is about;
      [Joins.concurrent_joins_correct] for any number of joining clients, any
      schedule and the database at its system calls; [Workers.worker_pool_correct] (no
      lost wake-up, tasks in order) and [workers_empty_queue].  What the locks
      do not exclude: [Threads.join_races_with_leave],
      [racing_creates_duplicate], [Joins.join_count_lost],
      [SharedOffset.promote_overwrites_first_account], [registers_duplicate],
      [room_writes_collide] (alone: [shared_offset_alone]),
      [Races.mixer_races_with_disconnect], [mute_races_with_leave],
      [kick_races_with_disconnect], [kick_unlocks_other_room],
      [shutdown_races_with_threads],
      [signal_deadlocks_iff_logging], [Workers.stop_strands_workers].
    - Durability: [Wal.crash_atomicity] for a kill between any two of the
      writes and [Tear.torn_write_recovers] for one inside a write,
      [old_line_roundtrip] for the log text.
    - Accounts: [Auth.users_file_invariant], [register_then_login],
      [promote_then_login]; [Hash.safe_memcmp_decides],
      [sha256_hash_format].
    - Audio: [ClientApp.voice_end_to_end] from microphone to loudspeaker,
      [muted_mic_sends_nothing], [login_then_start]; [Ring.ring_is_fifo] and
      [ring_threads_progress] for any number of threads, [ring_refines_queue];
      [Jitter.burst_played_in_order], [underrun_rebuffers],
      [full_buffer_drops_oldest]; [MixerSpec.mixer_tick_correct],
      [mix_room_correct], [mix_of_few], [mix_is_average], [no_self_echo];
      [Clock.mixer_clock_exact].
    - Start and stop: [Startup.open_sockets_correct] for every error path,
      [shutdown_releases_startup], [System.shutdown_closes_everything],
      [Control.emergency_shutdown]; [ClientMain.client_main_correct].
    - Limits of the code, as theorems: oversized datagrams
      ([oversized_push_undefined], [oversized_datagram_undefined]), rooms of
      an earlier run ([stale_rooms_break_mixer]), the rollback and the
      recovery of special records ([rollback_restores_first_old],
      [recovery_stops_at_512_lines], [recovery_breaks_open_rooms],
      [recovery_erases_old_null_room], [torn_old_line_erases_room]),
      rejoining one's own room ([rejoin_alone_deletes_room]), blank commands
      ([blank_command_leaks_client]), short writes
      ([torn_registration_blocks_next]) and the hash
      ([hash_reveals_short_passwords], [colliding_password_logs_in]).

    ** Assumptions of the model

    Writes to the room file succeed where a theorem asks for [store_rep] (the
    failing write is [rollback_restores_first_old]).  [FileDb] is used with
    record ids that are not negative, where its [lseek] succeeds.  [send] and [sendto]
    record what is sent; their errors are only logged by the code.  Text in
    the records is NUL-terminated within its array, as the code writes it.
    The kernel gives descriptors that are not open.
    In [ServerLocks] a log line that the code writes only on an error is always
    written, and a loop over the ring that others keep filling is followed for
    as many packets as one chooses.

    ** Not modelled

    The creation and priority of threads (the set of threads is a parameter of
    the theorems), weak memory, socket options and addresses, the port number,
    the text of the log, and the [arecord] and [aplay] processes, which are
    byte streams here.  [server.h] only declares; [test_load.py] and the
    scripts are not part of the program. *)

From Stdlib Require Export ZArith Lia.
From stdpp Require Export base tactics numbers option list gmap sets strings.

#[global] Open Scope Z_scope.

(** ** A state monad with undefined behaviour

    The server is C code: a computation over a state [S] either runs to a
    result and a new state, or has no defined behaviour (an invalid pointer
    is dereferenced, an array is indexed out of range, a list traversal does
    not end).  [None] is the second case. *)
Definition C (S A : Type) : Type := S → option (A * S).

#[export] Instance C_ret S : MRet (C S) := λ A a s, Some (a, s).
#[export] Instance C_bind S : MBind (C S) := λ A B k m s,
  match m s with
  | Some (a, s') => k a s'
  | None => None
  end.

(** Read the state through a projection, replace it, update it. *)
Definition gets {S A} (f : S → A) : C S A := λ s, Some (f s, s).
Definition puts {S} (f : S → S) : C S unit := λ s, Some (tt, f s).
(** Lift a pure partial operation: undefined when it is. *)
Definition lift {S A} (o : option A) : C S A := λ s,
  match o with
  | Some a => Some (a, s)
  | None => None
  end.
(** Execute only when the condition holds. *)
Definition when {S} (b : bool) (m : C S unit) : C S unit :=
  if b then m else mret tt.

Declare Scope vox_scope.
Delimit Scope vox_scope with vox.
Notation "s ⊢ m ⇓ a ⊣ s'" := (m s = Some (a, s'))
  (at level 70, m at next level, a at next level, s' at next level, only parsing) : vox_scope.
#[global] Open Scope vox_scope.

Lemma C_bind_run {S A B} (m : C S A) (k : A → C S B) s a s' :
  m s = Some (a, s') → (m ≫= k) s = k a s'.
Proof. intros H. unfold mbind, C_bind. by rewrite H. Qed.

Lemma C_bind_inv {S A B} (m : C S A) (k : A → C S B) s r :
  (m ≫= k) s = Some r → ∃ a s', m s = Some (a, s') ∧ k a s' = Some r.
Proof.
  unfold mbind, C_bind. destruct (m s) as [[a s']|] eqn:E; naive_solver.
Qed.

Lemma C_bind_gets {S A B} (f : S → A) (k : A → C S B) s :
  (gets f ≫= k) s = k (f s) s.
Proof. reflexivity. Qed.

Lemma C_bind_puts {S B} (f : S → S) (k : unit → C S B) s :
  (puts f ≫= k) s = k tt (f s).
Proof. reflexivity. Qed.

Lemma C_bind_ret {S A B} (a : A) (k : A → C S B) s :
  (mret a ≫= k) s = k a s.
Proof. reflexivity. Qed.

Lemma C_bind_lift {S A B} (o : option A) (k : A → C S B) s a :
  o = Some a → (lift o ≫= k) s = k a s.
Proof. intros ->. reflexivity. Qed.

Lemma C_bind_lift_Some {S A B} (a : A) (k : A → C S B) s :
  (lift (Some a) ≫= k) s = k a s.
Proof. reflexivity. Qed.

Lemma C_bind_assoc {S A B D} (m : C S A) (f : A → C S B) (g : B → C S D) s :
  ((m ≫= f) ≫= g) s = (m ≫= (λ a, f a ≫= g)) s.
Proof. unfold mbind, C_bind. by destruct (m s) as [[a s']|]. Qed.

(** ** Tactics *)

(** Close a closed goal by computation. *)
Ltac vm_done := vm_compute; reflexivity.

(** Prove a decidable proposition by running its decision procedure. *)
Ltac by_decision := match goal with
  |- ?P => apply (bool_decide_eq_true_1 P); vm_compute; reflexivity
  end.

(** Step a monadic run: rewrite with the run of the head computation. *)
Ltac c_step := first
  [ rewrite C_bind_gets | rewrite C_bind_puts | rewrite C_bind_ret | rewrite C_bind_lift_Some
  | erewrite C_bind_lift by eassumption
  | erewrite C_bind_run by eassumption ]; cbn beta.
Ltac c_steps := repeat c_step.

(** Split every boolean comparison in the goal or the hypotheses. *)
Ltac case_bools := repeat match goal with
  | |- context [?a =? ?b] => destruct (Z.eqb_spec a b)
  | |- context [?a <? ?b] => destruct (Z.ltb_spec a b)
  | |- context [?a <=? ?b] => destruct (Z.leb_spec a b)
  | H : context [?a =? ?b] |- _ => destruct (Z.eqb_spec a b)
  | H : context [?a <? ?b] |- _ => destruct (Z.ltb_spec a b)
  | H : context [?a <=? ?b] |- _ => destruct (Z.leb_spec a b)
  end.

(** ** Hint databases: list lengths (rewriting), generic facts (resolution) *)
Create HintDb vox discriminated.
Create Rewrite HintDb len.

#[export] Hint Rewrite @length_app @length_take @length_drop @length_replicate
  @length_fmap @length_insert @length_reverse @length_seq @length_cons @length_nil : len.

Ltac len := autorewrite with len in *; lia.

(** ** Lists *)
Section lists.
Context {A : Type}.
Implicit Types l k : list A.

(** The longest prefix whose elements satisfy [P], and what follows it. *)
Fixpoint take_while (P : A → bool) l : list A :=
  match l with
  | [] => []
  | x :: l' => if P x then x :: take_while P l' else []
  end.

Fixpoint drop_while (P : A → bool) l : list A :=
  match l with
  | [] => []
  | x :: l' => if P x then drop_while P l' else l
  end.

Lemma take_while_app_stop P l x k :
  forallb P l = true → P x = false → take_while P (l ++ x :: k) = l.
Proof.
  intros Hl Hx. induction l as [|y l IH]; cbn in *; [by rewrite Hx|].
  apply andb_true_iff in Hl as [Hy Hl]. by rewrite Hy, IH.
Qed.

Lemma take_while_all P l : forallb P l = true → take_while P l = l.
Proof.
  induction l as [|y l IH]; cbn; [done|].
  intros [Hy Hl]%andb_true_iff. by rewrite Hy, IH.
Qed.

Lemma drop_while_app_stop P l x k :
  forallb P l = true → P x = false → drop_while P (l ++ x :: k) = x :: k.
Proof.
  intros Hl Hx. induction l as [|y l IH]; cbn in *; [by rewrite Hx|].
  apply andb_true_iff in Hl as [Hy Hl]. by rewrite Hy, IH.
Qed.

Lemma drop_while_all P l : forallb P l = true → drop_while P l = [].
Proof.
  induction l as [|y l IH]; cbn; [done|].
  intros [Hy Hl]%andb_true_iff. by rewrite Hy, IH.
Qed.

Lemma forallb_take_while P l : forallb P (take_while P l) = true.
Proof.
  induction l as [|x l IH]; cbn; [done|].
  destruct (P x) eqn:E; cbn; [by rewrite E|done].
Qed.

Lemma length_take_while P l : (length (take_while P l) ≤ length l)%nat.
Proof. induction l as [|x l IH]; cbn; [lia|]. case_match; cbn; lia. Qed.

(** Pointwise equality of lists of the same length. *)
Lemma list_eq_lookup l k :
  (∀ i : nat, l !! i = k !! i) → l = k.
Proof. apply list_eq. Qed.

Lemma forallb_Forall (P : A → bool) l :
  forallb P l = true ↔ Forall (λ x, P x = true) l.
Proof.
  induction l as [|x l IH]; cbn; [split; auto|].
  rewrite andb_true_iff, Forall_cons, IH. done.
Qed.

Lemma take_app_exact l k n : length l = n → take n (l ++ k) = l.
Proof. intros <-. apply take_app_length. Qed.

Lemma drop_app_exact l k n : length l = n → drop n (l ++ k) = k.
Proof. intros <-. apply drop_app_length. Qed.

Lemma drop_past l x k : drop (S (length l)) (l ++ x :: k) = k.
Proof. induction l; cbn; auto. Qed.

Lemma filter_all (P : A → Prop) `{∀ x, Decision (P x)} l : Forall P l → filter P l = l.
Proof.
  induction 1 as [|x l Hx _ IH]; [done|]. by rewrite filter_cons_True, IH by done.
Qed.

Lemma fold_left_ext {B} (f g : B → A → B) l b :
  (∀ b x, x ∈ l → f b x = g b x) → fold_left f l b = fold_left g l b.
Proof.
  revert b. induction l as [|x l IH]; intros b H; cbn; [done|].
  rewrite H by set_solver. apply IH. intros; apply H; set_solver.
Qed.
End lists.

#[export] Hint Resolve forallb_take_while : vox.
