(* ===== verification/Interleave.v ===== *)
(** * Threads as sequences of atomic sections

    A thread does a computation on the shared state atomically and goes on, or
    has ended.  A schedule says whose turn it is; a thread with nobody else
    runs its sections one after the other. *)
From S2P Require Import Prelude.


(** A thread has ended, or does something atomically and goes on. *)
Inductive thread (S A : Type) : Type :=
  | Return (a : A)
  | Atomic (B : Type) (m : C S B) (k : B → thread S A).
Arguments Return {S A} a.
Arguments Atomic {S A B} m k.

Fixpoint tbind {S A B} (t : thread S A) (k : A → thread S B) : thread S B :=
  match t with
  | Return a => k a
  | Atomic m f => Atomic m (λ b, tbind (f b) k)
  end.
#[export] Instance thread_ret S : MRet (thread S) := λ A a, Return a.
#[export] Instance thread_bind S : MBind (thread S) := λ A B k t, tbind t k.

(** One section. *)
Definition atomic {S A} (m : C S A) : thread S A := Atomic m Return.

(** The thread with nobody else. *)
Fixpoint alone {S A} (t : thread S A) : C S A :=
  match t with
  | Return a => mret a
  | Atomic m k => b ← m; alone (k b)
  end.

(** One turn of thread [i]; a thread that has ended does nothing. *)
Definition turn {S A} (i : nat) (ts : list (thread S A)) : C S (list (thread S A)) :=
  match ts !! i with
  | Some (Atomic m k) => b ← m; mret (<[i := k b]> ts)
  | _ => mret ts
  end.

(** The turns in the order of a schedule. *)
Fixpoint interleave {S A} (schedule : list nat) (ts : list (thread S A))
    : C S (list (thread S A)) :=
  match schedule with
  | [] => mret ts
  | i :: schedule' => ts' ← turn i ts; interleave schedule' ts'
  end.

Lemma alone_bind {S A B} (t : thread S A) (k : A → thread S B) s :
  alone (t ≫= k) s = (a ← alone t; alone (k a)) s.
Proof.
  revert s. induction t as [a|X m f IH]; intros s; [done|].
  change (alone (Atomic m f ≫= k)) with (b ← m; alone (f b ≫= k)).
  cbn [alone]. rewrite C_bind_assoc. destruct (m s) as [[b s']|] eqn:E.
  - rewrite !(C_bind_run _ _ _ _ _ E). apply IH.
  - unfold mbind, C_bind. by rewrite E.
Qed.

Lemma alone_atomic {S A} (m : C S A) s : alone (atomic m) s = m s.
Proof. cbn. unfold mbind, C_bind. by destruct (m s) as [[a s']|]. Qed.

Lemma alone_section {S A B} (m : C S A) (k : A → thread S B) s :
  alone (atomic m ≫= k) s = (a ← m; alone (k a)) s.
Proof.
  rewrite alone_bind. unfold mbind, C_bind. rewrite alone_atomic. by destruct (m s) as [[a s']|].
Qed.

Lemma interleave_app {S A} (xs ys : list nat) (ts : list (thread S A)) s :
  interleave (xs ++ ys) ts s = (ts' ← interleave xs ts; interleave ys ts') s.
Proof.
  revert ts s. induction xs as [|x xs IH]; intros ts s; [done|].
  cbn [app interleave]. rewrite C_bind_assoc. unfold mbind, C_bind in *.
  destruct (turn x ts s) as [[ts' s']|]; [apply IH|done].
Qed.

(** Scheduled without interruption a thread does what it does alone. *)
Lemma run_thread {S A} (t : thread S A) (i : nat) : ∀ ts s a s',
  ts !! i = Some t → alone t s = Some (a, s') →
  ∃ n, interleave (replicate n i) ts s = Some (<[i := Return a]> ts, s').
Proof.
  induction t as [b|B m k IH]; intros ts s a s' Hi Hrun.
  - cbn in Hrun. injection Hrun as -> ->. exists 0%nat. cbn. by rewrite list_insert_id.
  - cbn [alone] in Hrun. apply C_bind_inv in Hrun as (b&s1&Hm&Hrun).
    destruct (IH b (<[i := k b]> ts) s1 a s') as [n Hn]; [|done|].
    { apply list_lookup_insert_eq. by eapply lookup_lt_Some. }
    exists (Datatypes.S n). cbn [replicate interleave]. unfold turn. rewrite Hi.
    rewrite C_bind_assoc, (C_bind_run _ _ _ _ _ Hm), C_bind_ret, Hn.
    by rewrite list_insert_insert_eq.
Qed.

(** One turn of a thread that has a section to do. *)
Lemma turn_run {S A B} i (ts : list (thread S A)) (m : C S B) k s b s' :
  ts !! i = Some (Atomic m k) → m s = Some (b, s') → turn i ts s = Some (<[i := k b]> ts, s').
Proof. intros Hi Hm. unfold turn. by rewrite Hi, (C_bind_run _ _ _ _ _ Hm). Qed.

Lemma next_turn {S A B} ts (j : nat) (m : C S B) (k : B → thread S A) s b s' schedule :
  (j < length ts)%nat → m s = Some (b, s') →
  interleave (j :: schedule) (<[j := Atomic m k]> ts) s =
  interleave schedule (<[j := k b]> ts) s'.
Proof.
  intros Hj Hm. cbn [interleave].
  rewrite (C_bind_run _ _ _ _ _ (turn_run _ _ _ _ _ _ _ (list_lookup_insert_eq ts j _ Hj) Hm)).
  by rewrite list_insert_insert_eq.
Qed.

Lemma bind_cong {S A B} (m : C S A) (k l : A → C S B) s :
  (∀ a s', m s = Some (a, s') → k a s' = l a s') → (m ≫= k) s = (m ≫= l) s.
Proof. intros E. unfold mbind, C_bind. destruct (m s) as [[a s']|]; [by apply E|done]. Qed.

Lemma bind_head {S A B} (m m' : C S A) (k : A → C S B) s : m s = m' s →
  (m ≫= k) s = (m' ≫= k) s.
Proof. intros E. unfold mbind, C_bind. by rewrite E. Qed.

(** What does nothing at the end. *)
Lemma bind_end {S} (m : C S unit) (k : unit → C S unit) s :
  (∀ s', k tt s' = Some (tt, s')) → (m ≫= k) s = m s.
Proof. intros E. unfold mbind, C_bind. destruct (m s) as [[[] s']|]; [by rewrite E|done]. Qed.

(** Scheduled without interruption a thread comes to the end of its first part. *)
Lemma run_prefix {S A B} (t : thread S A) (k : A → thread S B) (i : nat) : ∀ ts s a s',
  ts !! i = Some (t ≫= k) → alone t s = Some (a, s') →
  ∃ n, interleave (replicate n i) ts s = Some (<[i := k a]> ts, s').
Proof.
  induction t as [b|X m f IH]; intros ts s a s' Hi Hrun.
  - cbn in Hrun. injection Hrun as -> ->. exists 0%nat. cbn. by rewrite list_insert_id.
  - cbn [alone] in Hrun. apply C_bind_inv in Hrun as (b&s1&Hm&Hrun).
    destruct (IH b (<[i := f b ≫= k]> ts) s1 a s') as [n Hn]; [|done|].
    { apply list_lookup_insert_eq. by eapply lookup_lt_Some. }
    exists (Datatypes.S n). cbn [replicate interleave].
    assert (turn i ts s = Some (<[i := f b ≫= k]> ts, s1)) as Ht
      by (by eapply (turn_run i ts m (λ b, f b ≫= k))).
    by rewrite (C_bind_run _ _ _ _ _ Ht), Hn, list_insert_insert_eq.
Qed.

Lemma interleave_trans {S A} (xs ys : list nat) (ts ts1 : list (thread S A)) s s1 r :
  interleave xs ts s = Some (ts1, s1) → interleave ys ts1 s1 = r →
  interleave (xs ++ ys) ts s = r.
Proof. intros Hx Hy. by rewrite interleave_app, (C_bind_run _ _ _ _ _ Hx). Qed.
