(* ===== verification/Locks.v ===== *)
(** * Programs with locks

    A program does atomic accesses to a shared state and takes and gives back
    mutexes.  Threads that run programs at the same time are interleaved at
    these points; a thread that wants a mutex somebody holds has to wait.  A
    program is disciplined when it takes mutexes in the order of a rank and
    ends holding none.  For disciplined programs: no deadlock, mutual exclusion
    and an end of every run. *)
From stdpp Require Import relations.
From S2P Require Import Prelude Interleave.

Inductive prog (L St A : Type) : Type :=
  | Done (a : A)
  | Do (B : Type) (m : C St B) (k : B → prog L St A)
  | Lock (l : L) (k : prog L St A)
  | Unlock (l : L) (k : prog L St A).
Arguments Done {L St A} a.
Arguments Do {L St A B} m k.
Arguments Lock {L St A} l k.
Arguments Unlock {L St A} l k.

Fixpoint pbind {L St A B} (p : prog L St A) (k : A → prog L St B) : prog L St B :=
  match p with
  | Done a => k a
  | Do m f => Do m (λ b, pbind (f b) k)
  | Lock l p' => Lock l (pbind p' k)
  | Unlock l p' => Unlock l (pbind p' k)
  end.
#[export] Instance prog_ret L St : MRet (prog L St) := λ A a, Done a.
#[export] Instance prog_bind L St : MBind (prog L St) := λ A B k p, pbind p k.

Definition act {L St A} (m : C St A) : prog L St A := Do m Done.
Definition lock {L St} (l : L) : prog L St unit := Lock l (Done tt).
Definition unlock {L St} (l : L) : prog L St unit := Unlock l (Done tt).
(** A critical section. *)
Definition holding {L St A} (l : L) (p : prog L St A) : prog L St A :=
  _ ← lock l; a ← p; _ ← unlock l; mret a.

(** ** The program with nobody else: its mutexes are free *)
Fixpoint sections {L St A} (p : prog L St A) : thread St A :=
  match p with
  | Done a => Return a
  | Do m k => Atomic m (λ b, sections (k b))
  | Lock _ p' | Unlock _ p' => sections p'
  end.
Definition run {L St A} (p : prog L St A) : C St A := alone (sections p).

(** A program on a part of the state. *)
Fixpoint lifted {L St St' A} (f : ∀ B, C St B → C St' B) (p : prog L St A) : prog L St' A :=
  match p with
  | Done a => Done a
  | Do m k => Do (f _ m) (λ b, lifted f (k b))
  | Lock l p' => Lock l (lifted f p')
  | Unlock l p' => Unlock l (lifted f p')
  end.

Section run.
Context {L St : Type}.
Implicit Types s : St.

Lemma run_bind {A B} (p : prog L St A) (k : A → prog L St B) s :
  run (p ≫= k) s = (a ← run p; run (k a)) s.
Proof.
  unfold run. change (p ≫= k) with (pbind p k).
  revert s. induction p as [a|X m f IH|l p IH|l p IH]; intros s; [done| |apply IH|apply IH].
  cbn [pbind sections alone]. rewrite C_bind_assoc. apply bind_cong. intros b s' _. apply IH.
Qed.

Lemma run_assoc {A B E} (p : prog L St A) (k : A → prog L St B) (k' : B → prog L St E) s :
  run ((p ≫= k) ≫= k') s = run (p ≫= λ a, k a ≫= k') s.
Proof.
  rewrite (run_bind (p ≫= k)), (bind_head _ _ _ _ (run_bind p k s)), C_bind_assoc, run_bind.
  apply bind_cong. intros a s' _. by rewrite run_bind.
Qed.
Lemma run_ret_bind {A B} (a : A) (k : A → prog L St B) s : run (mret a ≫= k) s = run (k a) s.
Proof. done. Qed.

Lemma run_act {A B} (m : C St A) (k : A → prog L St B) s :
  run (act m ≫= k) s = (a ← m; run (k a)) s.
Proof. done. Qed.
Lemma run_act_end {A} (m : C St A) s : run (act m : prog L St A) s = m s.
Proof. apply alone_atomic. Qed.

Lemma run_lock {B} l (k : unit → prog L St B) s : run (lock l ≫= k) s = run (k tt) s.
Proof. done. Qed.
Lemma run_unlock {B} l (k : unit → prog L St B) s : run (unlock l ≫= k) s = run (k tt) s.
Proof. done. Qed.

Lemma run_ret {A} (a : A) s : run (mret a : prog L St A) s = Some (a, s).
Proof. done. Qed.

Lemma run_holding_end {A} l (p : prog L St A) s : run (holding l p) s = run p s.
Proof.
  change (run (holding l p) s) with (run (p ≫= λ a, _ ← unlock l; mret a) s).
  rewrite run_bind. unfold mbind, C_bind. by destruct (run p s) as [[a s']|].
Qed.
Lemma run_holding {A B} l (p : prog L St A) (k : A → prog L St B) s :
  run (holding l p ≫= k) s = (a ← run p; run (k a)) s.
Proof. rewrite run_bind. unfold mbind, C_bind. by rewrite run_holding_end. Qed.

Lemma run_enter {A B} l (p : prog L St A) (k : A → prog L St B) s :
  run (holding l p ≫= k) s = run (p ≫= k) s.
Proof. by rewrite run_holding, run_bind. Qed.

Lemma run_holding_act {A B} l (m : C St A) (k : A → prog L St B) s :
  run (holding l (act m) ≫= k) s = (a ← m; run (k a)) s.
Proof. rewrite run_holding. unfold mbind, C_bind. by rewrite run_act_end. Qed.
End run.

(** A program on a part of the state does what it does there. *)
Lemma run_lifted {L St St' A} (f : ∀ B, C St B → C St' B) (p : prog L St A) :
  (∀ B (b : B) s, f _ (mret b) s = Some (b, s)) →
  (∀ B E (m : C St B) (k : B → C St E) s, f _ (m ≫= k) s = (b ← f _ m; f _ (k b)) s) →
  (∀ B (m m' : C St B), (∀ s, m s = m' s) → ∀ s, f _ m s = f _ m' s) →
  ∀ s, run (lifted f p) s = f _ (run p) s.
Proof.
  intros Hret Hbind Hext. unfold run.
  induction p as [a|X m k IH|l p IH|l p IH]; intros s; [|
    |apply IH|apply IH].
  - cbn. by rewrite Hret.
  - cbn [lifted sections alone]. rewrite Hbind. apply bind_cong. intros b s' _. apply IH.
Qed.

(** ** Threads that run programs *)
Section threads.
Context {L : Type} `{EqDecision L} {St A : Type}.
Implicit Types s : St.
Implicit Types l : L.

(** A thread: the mutexes it holds, and what it still has to do. *)
Record worker := Worker {
  wk_held : list L;
  wk_code : prog L St A
}.
Implicit Types ts : list worker.

Definition is_free l ts : bool := bool_decide (Forall (λ t, l ∉ wk_held t) ts).

(** One turn of thread [i].  A thread that has ended or has to wait does
    nothing.  To give back a mutex one does not hold is undefined. *)
Definition lturn (i : nat) ts : C St (list worker) :=
  match ts !! i with
  | Some (Worker h (Do m k)) => b ← m; mret (<[i := Worker h (k b)]> ts)
  | Some (Worker h (Lock l p)) =>
    if is_free l ts then mret (<[i := Worker (l :: h) p]> ts) else mret ts
  | Some (Worker h (Unlock l p)) =>
    if bool_decide (l ∈ h) then mret (<[i := Worker (filter (.≠ l) h) p]> ts) else λ _, None
  | _ => mret ts
  end.

Fixpoint linterleave (schedule : list nat) ts : C St (list worker) :=
  match schedule with
  | [] => mret ts
  | i :: schedule' => ts' ← lturn i ts; linterleave schedule' ts'
  end.

Definition fresh_worker (p : prog L St A) : worker := Worker [] p.

Definition ended (t : worker) : bool :=
  match wk_code t with Done _ => true | _ => false end.
(** Thread [i] has something to do and need not wait. *)
Definition enabled ts (i : nat) : bool :=
  match wk_code <$> ts !! i with
  | Some (Do _ _) | Some (Unlock _ _) => true
  | Some (Lock l _) => is_free l ts
  | _ => false
  end.

(** One turn of an enabled thread. *)
Inductive lstep : St * list worker → St * list worker → Prop :=
  | lstep_turn s ts i s' ts' : enabled ts i = true → lturn i ts s = Some (ts', s') →
      lstep (s, ts) (s', ts').

(** ** Discipline *)
Section discipline.
Context (rank : L → nat).

(** [locks h p h']: holding [h], the program takes only mutexes above those it
    holds, gives them back in reverse order, and ends holding [h'].  It may
    give back one it does not hold, since that is undefined. *)
Fixpoint locks {B} (h : list L) (p : prog L St B) (h' : list L) : Prop :=
  match p with
  | Done _ => h = h'
  | Do m k => ∀ x, locks h (k x) h'
  | Lock l p => (∀ l', l' ∈ h → (rank l' < rank l)%nat) ∧ locks (l :: h) p h'
  | Unlock l p => l ∉ h ∨ ∃ h0, h = l :: h0 ∧ locks h0 p h'
  end.

Definition disciplined {B} (p : prog L St B) : Prop := locks [] p [].
Definition disciplined_worker (t : worker) : Prop :=
  locks (wk_held t) (wk_code t) [] ∧ NoDup (wk_held t).

Lemma locks_bind {B E} h (p : prog L St B) h1 (k : B → prog L St E) h2 :
  locks h p h1 → (∀ b, locks h1 (k b) h2) → locks h (p ≫= k) h2.
Proof.
  change (p ≫= k) with (pbind p k). intros Hp Hk. revert h Hp.
  induction p as [a|X m f IH|l p IH|l p IH]; cbn [locks pbind]; intros h.
  - by intros ->.
  - auto.
  - intros [??]; auto.
  - intros [?|(h0&->&?)]; [by left|right]. exists h0; auto.
Qed.

(** A program that may be called holding any mutexes below [n], and gives back
    all it takes. *)
Record at_level {B} (n : nat) (p : prog L St B) : Prop := AtLevel {
  level_locks h : (∀ l, l ∈ h → (rank l < n)%nat) → locks h p h
}.

Lemma level_act {B} n (m : C St B) : at_level n (act m).
Proof. done. Qed.
Lemma level_ret {B} n (b : B) : at_level n (mret b).
Proof. done. Qed.
Lemma level_bind {B E} n (p : prog L St B) (k : B → prog L St E) :
  at_level n p → (∀ b, at_level n (k b)) → at_level n (p ≫= k).
Proof.
  intros [Hp] Hk. split. intros h Hh. eapply locks_bind; [by apply Hp|]. intros b. by apply Hk.
Qed.
Lemma level_holding {B} n m l (p : prog L St B) : (n ≤ rank l)%nat → m = S (rank l) →
  at_level m p → at_level n (holding l p).
Proof.
  intros Hl -> [Hp]. split. intros h Hh. split.
  - intros l' Hl'. specialize (Hh l' Hl'). lia.
  - eapply (locks_bind _ p); [apply Hp|].
    + intros l' [->|Hl']%elem_of_cons; [lia|]. specialize (Hh l' Hl'). lia.
    + intros b. right. by exists h.
Qed.
Lemma level_mono {B} n m (p : prog L St B) : (n ≤ m)%nat → at_level m p → at_level n p.
Proof.
  intros Hnm [Hp]. split. intros h Hh. apply Hp. intros l Hl. specialize (Hh l Hl). lia.
Qed.
Lemma level_disciplined {B} n (p : prog L St B) : at_level n p → disciplined p.
Proof. intros [Hp]. apply Hp. by intros l Hl%not_elem_of_nil. Qed.

(** ** The invariant of a run: nobody holds what another holds *)
Definition exclusive ts : Prop :=
  ∀ (i j : nat) t u l, ts !! i = Some t → ts !! j = Some u →
    l ∈ wk_held t → l ∈ wk_held u → i = j.

Record well_locked ts : Prop := {
  wl_exclusive : exclusive ts;
  wl_disciplined : Forall disciplined_worker ts
}.

Lemma started_well_locked (ps : list (prog L St A)) : Forall disciplined ps →
  well_locked (fresh_worker <$> ps).
Proof.
  intros Hps. split.
  - intros i j t u l Ht Hu Hl _. rewrite list_lookup_fmap in Ht.
    destruct (ps !! i); cbn in Ht; [|done]. simplify_eq. by apply not_elem_of_nil in Hl.
  - apply Forall_fmap. eapply Forall_impl; [exact Hps|]. intros p Hp.
    split; [exact Hp|constructor].
Qed.

(** A thread goes on with no more mutexes than before, but [l]. *)
Lemma exclusive_update ts (i : nat) t t' : exclusive ts → ts !! i = Some t →
  (∀ l, l ∈ wk_held t' → l ∈ wk_held t ∨ is_free l ts = true) →
  exclusive (<[i := t']> ts).
Proof.
  intros He Hi Hh j k u v l Hj Hk Hu Hv.
  assert (∀ (m : nat) x, m ≠ i → <[i := t']> ts !! m = Some x → ts !! m = Some x) as Hother.
  { intros m x Hm. by rewrite list_lookup_insert_ne. }
  assert (∀ m x, m ≠ i → <[i := t']> ts !! m = Some x → l ∈ wk_held x →
    l ∈ wk_held t' → False) as Hno.
  { intros m x Hm Hx Hlx Hlt. apply Hother in Hx; [|done].
    destruct (Hh l Hlt) as [Hlt'|Hf].
    - by apply Hm, (He m i x t l).
    - apply bool_decide_eq_true in Hf. rewrite Forall_lookup in Hf. by apply (Hf m x Hx). }
  assert (∀ x, <[i := t']> ts !! i = Some x → x = t') as Hsame.
  { intros x. rewrite list_lookup_insert_eq by (by eapply lookup_lt_Some). congruence. }
  destruct (decide (j = i)) as [->|Hji], (decide (k = i)) as [->|Hki]; [done|exfalso..|].
  - apply Hsame in Hj as ->. by eapply (Hno k v).
  - apply Hsame in Hk as ->. by eapply (Hno j u).
  - eapply He; eauto.
Qed.

Lemma lturn_well_locked ts i s ts' s' : well_locked ts → lturn i ts s = Some (ts', s') →
  well_locked ts'.
Proof.
  intros [He Hd]. unfold lturn. destruct (ts !! i) as [[h p]|] eqn:Hi.
  2: { intros [= <- _]. by split. }
  pose proof (Forall_lookup_1 _ _ _ _ Hd Hi) as [Hp Hn]. cbn in Hp, Hn.
  destruct p as [a|X m k|l p|l p]; cbn [locks] in Hp.
  - intros [= <- _]. by split.
  - intros (b&s1&_&[= <- _])%C_bind_inv. split.
    + eapply exclusive_update; [done..|]. cbn. tauto.
    + apply Forall_insert; [done|]. split; [apply Hp|done].
  - destruct Hp as [Hl Hp]. destruct (is_free l ts) eqn:Hf; intros [= <- _]; [|by split]. split.
    + eapply exclusive_update; [done..|]. cbn. intros l' [->|?]%elem_of_cons; [by right|by left].
    + apply Forall_insert; [done|]. split; [done|]. constructor; [|done].
      intros Hin. specialize (Hl l Hin). lia.
  - case_bool_decide as Hin; [|done]. intros [= <- _].
    destruct Hp as [|(h0&->&Hp)]; [done|]. apply NoDup_cons in Hn as [Hl0 Hn].
    assert (filter (.≠ l) (l :: h0) = h0) as ->.
    { rewrite filter_cons_False by (by intros []). apply filter_all, Forall_forall.
      by intros x Hx ->. }
    split; [|by apply Forall_insert].
    eapply exclusive_update; [done..|]. cbn. intros l' Hl'. left. by right.
Qed.

Lemma lstep_well_locked c c' : rtc lstep c c' → well_locked c.2 → well_locked c'.2.
Proof.
  induction 1 as [|c1 c2 c3 [s ts i s' ts' _ Ht] _ IH]; [done|].
  intros Hw. apply IH. by eapply lturn_well_locked.
Qed.

(** ** No deadlock *)
Context (top : nat) (rank_top : ∀ l, (rank l < top)%nat).

(** Somebody above a mutex that is wanted can go on. *)
Lemma somebody_enabled ts (n i : nat) l h p : well_locked ts →
  ts !! i = Some (Worker h (Lock l p)) → (top - rank l ≤ n)%nat → ∃ j, enabled ts j = true.
Proof.
  intros [He Hd]. revert i l h p. induction n as [|n IH]; intros i l h p Hi Hn.
  { pose proof (rank_top l). lia. }
  destruct (is_free l ts) eqn:Hf; [exists i; unfold enabled; by rewrite Hi|].
  apply bool_decide_eq_false, not_Forall_Exists, Exists_exists in Hf as ([h' q]&Hin&Hl); [|apply _].
  cbn in Hl. apply dec_stable in Hl. apply list_elem_of_lookup in Hin as [j Hj].
  pose proof (Forall_lookup_1 _ _ _ _ Hd Hj) as [Hq _]. cbn in Hq.
  destruct q as [a|X m k|l' q|l' q]; cbn [locks] in Hq.
  - subst h'. by apply not_elem_of_nil in Hl.
  - exists j. unfold enabled. by rewrite Hj.
  - destruct Hq as [Hq _]. apply (IH j l' h' q Hj). specialize (Hq l Hl). lia.
  - exists j. unfold enabled. by rewrite Hj.
Qed.

(** A thread that wants a mutex holds only mutexes of lower rank. *)
Lemma wants_above ts (i : nat) h l p : well_locked ts → ts !! i = Some (Worker h (Lock l p)) →
  ∀ l', l' ∈ h → (rank l' < rank l)%nat.
Proof. intros [_ Hd] Hi. by destruct (Forall_lookup_1 _ _ _ _ Hd Hi) as [[Hl _] _]. Qed.

Lemma no_deadlock ts : well_locked ts → Forall (λ t, ended t = true) ts ∨ ∃ i, enabled ts i = true.
Proof.
  intros Hw. destruct (decide (Forall (λ t, ended t = true) ts)) as [|Hn]; [by left|right].
  apply not_Forall_Exists, Exists_exists in Hn as ([h p]&Hin&Hp); [|apply _].
  apply list_elem_of_lookup in Hin as [i Hi].
  destruct p as [a|X m k|l p|l p]; cbn in Hp; [done|..].
  - exists i. unfold enabled. by rewrite Hi.
  - by eapply (somebody_enabled ts _ i).
  - exists i. unfold enabled. by rewrite Hi.
Qed.
End discipline.

(** ** Every run ends *)
Definition child (q p : prog L St A) : Prop :=
  match p with
  | Done _ => False
  | Do _ k => ∃ b, q = k b
  | Lock _ p' | Unlock _ p' => q = p'
  end.

Lemma child_acc p : Acc child p.
Proof.
  induction p as [a|X m k IH|l p IH|l p IH]; constructor; intros q; cbn; [done| | |].
  - intros [b ->]. apply IH.
  - by intros ->.
  - by intros ->.
Qed.

(** One of the programs advances. *)
Definition advances (qs ps : list (prog L St A)) : Prop :=
  ∃ (i : nat) p q, ps !! i = Some p ∧ child q p ∧ qs = <[i := q]> ps.

Lemma advances_acc ps : Acc advances ps.
Proof.
  induction ps as [|p ps IH].
  { constructor. by intros qs (i&p&q&Hi&_). }
  revert ps IH. induction (child_acc p) as [p _ IHp]. intros ps Hps.
  induction Hps as [ps Hps IHps]. constructor. intros qs ([|i]&r&q&Hi&Hq&->); cbn in Hi.
  - injection Hi as ->. apply IHp; [done|by constructor].
  - change (<[S i := q]> (p :: ps)) with (p :: <[i := q]> ps).
    apply IHps. by exists i, r, q.
Qed.

Lemma lstep_advances s ts s' ts' : lstep (s, ts) (s', ts') →
  advances (wk_code <$> ts') (wk_code <$> ts).
Proof.
  inversion_clear 1 as [? ? i ? ? He Ht]. unfold enabled in He. unfold lturn in Ht.
  destruct (ts !! i) as [[h p]|] eqn:Hi; [|done]. cbn in He.
  exists i, p. rewrite list_lookup_fmap, Hi. cbn.
  destruct p as [a|X m k|l p|l p]; [done|..].
  - apply C_bind_inv in Ht as (b&s1&_&[= <- _]). exists (k b).
    rewrite list_fmap_insert. split_and!; [done|by exists b|done].
  - rewrite He in Ht. injection Ht as <- _. exists p. by rewrite list_fmap_insert.
  - case_bool_decide; [|done]. injection Ht as <- _. exists p. by rewrite list_fmap_insert.
Qed.

Lemma lsteps_end c : sn lstep c.
Proof.
  destruct c as [s ts]. remember (wk_code <$> ts) as ps eqn:E. revert s ts E.
  induction (advances_acc ps) as [ps _ IH]. intros s ts ->. constructor.
  intros [s' ts'] Hs. eapply IH; [by eapply lstep_advances|done].
Qed.

(** ** Schedules *)

(** A turn of a thread that is not enabled changes nothing. *)
Lemma lturn_disabled ts i s : enabled ts i = false → lturn i ts s = Some (ts, s).
Proof.
  unfold enabled, lturn. destruct (ts !! i) as [[h [a|X m k|l p|l p]]|]; cbn; try done.
  by intros ->.
Qed.
(** A turn of one that is enabled happens, or has no defined behaviour. *)
Lemma enabled_turn ts i s : enabled ts i = true →
  (∃ c, lstep (s, ts) c) ∨ lturn i ts s = None.
Proof.
  intros He. destruct (lturn i ts s) as [[ts' s']|] eqn:E; [left|by right].
  exists (s', ts'). by econstructor.
Qed.
Lemma linterleave_steps schedule ts s ts' s' : linterleave schedule ts s = Some (ts', s') →
  rtc lstep (s, ts) (s', ts').
Proof.
  revert ts s. induction schedule as [|i schedule IH]; intros ts s; cbn [linterleave].
  { by intros [= -> ->]. }
  intros (ts1&s1&Hi&Hr%IH)%C_bind_inv. destruct (enabled ts i) eqn:E.
  - eapply rtc_l; [by econstructor|done].
  - rewrite lturn_disabled in Hi by done. by injection Hi as -> ->.
Qed.

(** A thread that was not interrupted until it had ended has done what its
    program does alone. *)
Lemma uninterrupted (i n : nat) : ∀ (p : prog L St A) h ts s ts' s' h' a,
  ts !! i = Some (Worker h p) → linterleave (replicate n i) ts s = Some (ts', s') →
  ts' !! i = Some (Worker h' (Done a)) → run p s = Some (a, s').
Proof.
  induction n as [|n IH]; intros p h ts s ts' s' h' a Hi Hr Hd; cbn in Hr.
  { injection Hr as <- <-. rewrite Hi in Hd. by injection Hd as _ ->. }
  apply C_bind_inv in Hr as (ts1&s1&Ht&Hr). unfold lturn in Ht. rewrite Hi in Ht.
  assert (∀ t, <[i := t]> ts !! i = Some t) as Hi'
    by (intros t; by eapply list_lookup_insert_eq, lookup_lt_Some).
  destruct p as [b|X m k|l p|l p].
  - injection Ht as <- <-. by eapply IH.
  - apply C_bind_inv in Ht as (b&s2&Hm&[= <- <-]). unfold run. cbn [sections alone].
    rewrite (C_bind_run _ _ _ _ _ Hm). by eapply (IH (k b)).
  - case_match; injection Ht as <- <-; [by eapply (IH p)|by eapply (IH (Lock l p))].
  - case_match; [|done]. injection Ht as <- <-. by eapply (IH p).
Qed.
End threads.
Arguments worker L St A : clear implicits.

Lemma level_lifted {L} `{EqDecision L} {St St' B} (rank : L → nat) n
    (f : ∀ X, C St X → C St' X) (p : prog L St B) :
  at_level rank n p → at_level rank n (lifted f p).
Proof.
  intros [Hp]. split. intros h Hh. specialize (Hp h Hh). clear Hh. revert Hp. generalize h at 2 4. revert h.
  induction p as [b|X m k IH|l p IH|l p IH]; cbn [locks lifted]; intros h h'.
  - done.
  - auto.
  - intros [??]; auto.
  - intros [?|(h0&->&?)]; [by left|right]. exists h0. auto.
Qed.

(** Levels of programs, by their structure and the levels of what they call. *)
Create HintDb locks discriminated.
Ltac level_step := first
  [ progress intros
  | simple apply level_ret
  | simple apply level_act
  | simple apply level_lifted
  | simple eapply level_holding; [cbn; lia|cbn; reflexivity|]
  | simple apply level_bind
  | solve [eauto with locks]
  | eapply level_mono; [|solve [eauto with locks]]; cbn; lia
  | case_match ].
Ltac leveled := repeat level_step.
