(* ===== verification/CInt.v ===== *)
(** * Machine integers of the C program

    A [w]-bit value is a [Z]; every conversion the program performs
    (assignment to [uint16_t], a cast to [int32_t], an unsigned addition)
    is one of the wrap functions below.  [le_bytes]/[le_val] give the
    little-endian object representation the records have on disk and on the
    wire. *)
From S2P Require Import Prelude.

Definition INT16_MAX : Z := 32767.
Definition INT16_MIN : Z := -32768.

Definition u8 (z : Z) : Z := z mod 2 ^ 8.
Definition u16 (z : Z) : Z := z mod 2 ^ 16.
Definition u32 (z : Z) : Z := z mod 2 ^ 32.
Definition i16 (z : Z) : Z := (z + 2 ^ 15) mod 2 ^ 16 - 2 ^ 15.
Definition i32 (z : Z) : Z := (z + 2 ^ 31) mod 2 ^ 32 - 2 ^ 31.

Definition is_u8 (z : Z) : Prop := 0 ≤ z < 2 ^ 8.
Definition is_u16 (z : Z) : Prop := 0 ≤ z < 2 ^ 16.
Definition is_u32 (z : Z) : Prop := 0 ≤ z < 2 ^ 32.
Definition is_i16 (z : Z) : Prop := - 2 ^ 15 ≤ z < 2 ^ 15.
Definition is_i32 (z : Z) : Prop := - 2 ^ 31 ≤ z < 2 ^ 31.

#[export] Instance is_u8_dec z : Decision (is_u8 z).
Proof. unfold is_u8. apply _. Defined.
#[export] Instance is_u16_dec z : Decision (is_u16 z).
Proof. unfold is_u16. apply _. Defined.
#[export] Instance is_u32_dec z : Decision (is_u32 z).
Proof. unfold is_u32. apply _. Defined.
#[export] Instance is_i16_dec z : Decision (is_i16 z).
Proof. unfold is_i16. apply _. Defined.
#[export] Instance is_i32_dec z : Decision (is_i32 z).
Proof. unfold is_i32. apply _. Defined.

(** Unfold every width predicate and conversion, then arithmetic. *)
Ltac int_lia :=
  unfold is_u8, is_u16, is_u32, is_i16, is_i32, u8, u16, u32, i16, i32,
    INT16_MAX, INT16_MIN in *;
  change (2 ^ 8) with 256 in *; change (2 ^ 15) with 32768 in *;
  change (2 ^ 16) with 65536 in *; change (2 ^ 31) with 2147483648 in *;
  change (2 ^ 32) with 4294967296 in *;
  try (Z.to_euclidean_division_equations; lia).

Lemma u8_range z : is_u8 (u8 z).
Proof. int_lia. Qed.
Lemma u32_range z : is_u32 (u32 z).
Proof. int_lia. Qed.
Lemma u16_range z : is_u16 (u16 z).
Proof. int_lia. Qed.
Lemma i16_range z : is_i16 (i16 z).
Proof. int_lia. Qed.
Lemma i32_range z : is_i32 (i32 z).
Proof. int_lia. Qed.
Lemma u8_id z : is_u8 z → u8 z = z.
Proof. int_lia. Qed.
Lemma u16_id z : is_u16 z → u16 z = z.
Proof. int_lia. Qed.
Lemma u32_id z : is_u32 z → u32 z = z.
Proof. int_lia. Qed.
Lemma i16_id z : is_i16 z → i16 z = z.
Proof. int_lia. Qed.
Lemma i32_id z : is_i32 z → i32 z = z.
Proof. int_lia. Qed.
Lemma i32_u32 z : i32 (u32 z) = i32 z.
Proof. int_lia. Qed.

#[export] Hint Resolve u8_range u16_range u32_range i16_range i32_range : vox.

(** The signed difference of two sequence numbers, [(int32_t)(a - b)] on
    [uint32_t] operands: exact while they are less than half the range apart. *)
Definition seq_diff (a b : Z) : Z := i32 (u32 (a - b)).

Lemma seq_diff_window base i j :
  0 ≤ i < 2 ^ 31 → 0 ≤ j < 2 ^ 31 →
  seq_diff (u32 (base + i)) (u32 (base + j)) = i - j.
Proof. unfold seq_diff. int_lia. Qed.

(** ** Object representation *)
Fixpoint le_bytes (n : nat) (z : Z) : list Z :=
  match n with
  | O => []
  | S n' => z mod 256 :: le_bytes n' (z / 256)
  end.

Fixpoint le_val (l : list Z) : Z :=
  match l with
  | [] => 0
  | b :: l' => b + 256 * le_val l'
  end.

Lemma length_le_bytes n z : length (le_bytes n z) = n.
Proof. revert z. induction n as [|n IH]; intros z; cbn; [done|]. by rewrite IH. Qed.
#[export] Hint Rewrite length_le_bytes : len.

Lemma le_val_bytes n z : le_val (le_bytes n z) = z mod 256 ^ Z.of_nat n.
Proof.
  revert z. induction n as [|n IH]; intros z; cbn [le_bytes le_val].
  - by rewrite Z.mod_1_r.
  - rewrite IH, Nat2Z.inj_succ, Z.pow_succ_r by lia.
    rewrite Z.rem_mul_r; lia.
Qed.

Lemma le_bytes_range n z : Forall is_u8 (le_bytes n z).
Proof.
  revert z. induction n as [|n IH]; intros z; cbn; constructor; [int_lia|apply IH].
Qed.

(** A signed 32-bit field read back from its four bytes. *)
Lemma i32_le_bytes z : is_i32 z → i32 (le_val (le_bytes 4 z)) = z.
Proof.
  intros Hz. rewrite le_val_bytes. change (256 ^ Z.of_nat 4) with (2 ^ 32). int_lia.
Qed.

Lemma u32_le_bytes z : is_u32 z → le_val (le_bytes 4 z) = z.
Proof.
  intros Hz. rewrite le_val_bytes. change (256 ^ Z.of_nat 4) with (2 ^ 32). int_lia.
Qed.

Lemma u16_le_bytes z : is_u16 z → le_val (le_bytes 2 z) = z.
Proof.
  intros Hz. rewrite le_val_bytes. change (256 ^ Z.of_nat 2) with (2 ^ 16). int_lia.
Qed.

#[global] Arguments le_bytes : simpl never.
#[global] Arguments le_val : simpl never.
