(* ===== verification/CString.v ===== *)
(** * C strings and the parts of <string.h>/<stdio.h> the program uses

    A [char] array is the [list Z] of its bytes, a C string is the prefix of
    an array before its first NUL ([c_str]).  The functions below are
    [strcpy], [strncpy], [strcmp], [strcasecmp], [strncmp]/[strstr] as
    tests, [strtok]/[strtok_r], [sscanf] on the directives the program uses
    ([%d], [%Ns], literals, blanks) and the [%d]/[%s]/[%-Ns] conversions of
    [snprintf]. *)
From S2P Require Import Prelude CInt.
From Stdlib Require Import Ascii.
From stdpp Require Import list.

#[local] Open Scope Z_scope.

Abbreviation bytes := (list Z).

(** The bytes of a string literal. *)
Fixpoint str (s : string) : bytes :=
  match s with
  | EmptyString => []
  | String a s' => Z.of_N (N_of_ascii a) :: str s'
  end.

Definition not_nul (c : Z) : bool := negb (c =? 0).
Definition no_nul (s : bytes) : Prop := forallb not_nul s = true.

Definition c_str (a : bytes) : bytes := take_while not_nul a.
Definition strlen (a : bytes) : nat := length (c_str a).

(** [strcpy(dst,src)]: the array grows when [src] does not fit, so a length
    invariant on the array rules the overflow out. *)
Definition strcpy (dst src : bytes) : bytes :=
  c_str src ++ 0 :: drop (S (strlen src)) dst.

(** [strncpy(dst,src,n)]: at most [n] bytes, padded with NULs up to [n]. *)
Definition strncpy (dst src : bytes) (n : nat) : bytes :=
  let s := take n (c_str src) in
  s ++ replicate (n - length s) 0 ++ drop n dst.

Definition memset (c : Z) (n : nat) : bytes := replicate n c.

Definition strcmp_eq (a b : bytes) : bool := bool_decide (c_str a = c_str b).

Definition tolower (c : Z) : Z :=
  if (65 <=? c) && (c <=? 90) then c + 32 else c.
Definition strcasecmp_eq (a b : bytes) : bool :=
  bool_decide (tolower <$> c_str a = tolower <$> c_str b).

(** [strncmp(s,p,strlen(p)) == 0] and [strstr(s,p) != NULL]. *)
Definition starts_with (p s : bytes) : bool :=
  bool_decide (take (length p) s = p).
Fixpoint strstr (p s : bytes) : bool :=
  starts_with p s ||
  match s with
  | [] => false
  | _ :: s' => strstr p s'
  end.

(** ** [strtok]: the next token and the text after its delimiter *)
Definition is_delim (ds : bytes) (c : Z) : bool := existsb (Z.eqb c) ds.
Definition strtok (ds s : bytes) : option (bytes * bytes) :=
  let s' := drop_while (is_delim ds) s in
  match s' with
  | [] => None
  | _ => let tok := take_while (λ c, negb (is_delim ds c)) s' in
         Some (tok, drop (S (length tok)) s')
  end.

(** The tokens of [s], at most [n] of them. *)
Fixpoint strtok_n (ds : bytes) (n : nat) (s : bytes) : list bytes :=
  match n with
  | O => []
  | S n' =>
    match strtok ds s with
    | None => []
    | Some (tok, rest) => tok :: strtok_n ds n' rest
    end
  end.

(** ** [sscanf] *)
Definition is_space (c : Z) : bool :=
  (c =? 32) || ((9 <=? c) && (c <=? 13)).
Definition is_digit (c : Z) : bool := (48 <=? c) && (c <=? 57).

Definition skip_space (s : bytes) : bytes := drop_while is_space s.

Inductive directive :=
  | DLit (c : Z)      (** an ordinary character *)
  | DSpace            (** white space in the format *)
  | DInt              (** [%d] *)
  | DStr (n : nat).   (** [%ns] *)

Inductive scanned :=
  | SInt (z : Z)
  | SStr (s : bytes).

(** The value of a run of digits, starting from [acc]. *)
Fixpoint scan_digits (acc : Z) (s : bytes) : Z * bytes :=
  match s with
  | c :: s' => if is_digit c then scan_digits (10 * acc + (c - 48)) s'
               else (acc, s)
  | [] => (acc, s)
  end.

Definition scan_nat (s : bytes) : option (Z * bytes) :=
  match s with
  | c :: _ => if is_digit c then Some (scan_digits 0 s) else None
  | [] => None
  end.

(** [%d]: blanks, an optional sign, at least one digit. *)
Definition scan_int (s : bytes) : option (Z * bytes) :=
  match skip_space s with
  | [] => None
  | c :: s' =>
    if c =? 45 then '(z, r) ← scan_nat s'; Some (i32 (- z), r)
    else if c =? 43 then '(z, r) ← scan_nat s'; Some (i32 z, r)
    else '(z, r) ← scan_nat (c :: s'); Some (i32 z, r)
  end.

(** [%ns]: blanks, then at least one and at most [n] non-blank bytes. *)
Definition scan_word (n : nat) (s : bytes) : option (bytes * bytes) :=
  let s' := skip_space s in
  match take n (take_while (λ c, negb (is_space c)) s') with
  | [] => None
  | w => Some (w, drop (length w) s')
  end.

(** The values assigned, in order; the call stops at the first directive
    that fails. *)
Fixpoint sscanf (fmt : list directive) (s : bytes) : list scanned :=
  match fmt with
  | [] => []
  | DLit c :: fmt' =>
    match s with
    | c' :: s' => if c =? c' then sscanf fmt' s' else []
    | [] => []
    end
  | DSpace :: fmt' => sscanf fmt' (skip_space s)
  | DInt :: fmt' =>
    match scan_int s with
    | Some (z, s') => SInt z :: sscanf fmt' s'
    | None => []
    end
  | DStr n :: fmt' =>
    match scan_word n s with
    | Some (w, s') => SStr w :: sscanf fmt' s'
    | None => []
    end
  end.

(** ** [printf] conversions *)
Fixpoint dec_digits (fuel : nat) (z : Z) (acc : bytes) : bytes :=
  match fuel with
  | O => acc
  | S fuel' =>
    let acc' := 48 + z mod 10 :: acc in
    if z / 10 =? 0 then acc' else dec_digits fuel' (z / 10) acc'
  end.

(** [%d]; twenty digits are more than a 32-bit value has. *)
Definition print_int (z : Z) : bytes :=
  if z <? 0 then 45 :: dec_digits 20 (- z) [] else dec_digits 20 z [].

(** [%-ns] on an already converted field. *)
Definition pad_right (n : nat) (s : bytes) : bytes :=
  s ++ replicate (n - length s) 32.

(** [snprintf(buf,size,...)]: what is stored of the text, without its NUL. *)
Definition snprintf (size : nat) (text : bytes) : bytes :=
  take (size - 1) (c_str text).

(** ** Lemmas: strings and arrays *)

Lemma str_app s t : str (s +:+ t) = str s ++ str t.
Proof. induction s as [|a s IH]; cbn; [done|]. by rewrite <-IH. Qed.

Lemma no_nul_app s t : no_nul s → no_nul t → no_nul (s ++ t).
Proof. unfold no_nul. rewrite forallb_app. intros -> ->. done. Qed.

Lemma no_nul_app_inv s t : no_nul (s ++ t) → no_nul s ∧ no_nul t.
Proof. unfold no_nul. rewrite forallb_app. apply andb_true_iff. Qed.

Lemma no_nul_take n s : no_nul s → no_nul (take n s).
Proof.
  intros H. rewrite <-(take_drop n s) in H. by apply no_nul_app_inv in H as [??].
Qed.

Lemma c_str_no_nul a : no_nul (c_str a).
Proof. apply forallb_take_while. Qed.

Lemma c_str_id s : no_nul s → c_str s = s.
Proof. apply take_while_all. Qed.

Lemma snprintf_fits n s : no_nul s → (length s < n)%nat → snprintf n s = s.
Proof. intros Hs Hl. unfold snprintf. rewrite c_str_id by done. apply take_ge. lia. Qed.

Lemma c_str_app_nul s t : no_nul s → c_str (s ++ 0 :: t) = s.
Proof. intros H. by apply take_while_app_stop. Qed.

Lemma c_str_idemp a : c_str (c_str a) = c_str a.
Proof. apply c_str_id, c_str_no_nul. Qed.

Lemma c_str_strcpy dst src : c_str (strcpy dst src) = c_str src.
Proof. apply c_str_app_nul, c_str_no_nul. Qed.

Lemma length_strcpy dst src :
  (strlen src < length dst)%nat → length (strcpy dst src) = length dst.
Proof. unfold strcpy, strlen. intros H. len. Qed.

Lemma c_str_replicate_nul n : c_str (replicate n 0) = [].
Proof. by destruct n. Qed.

Lemma c_str_strncpy dst src n :
  (strlen src < n)%nat → c_str (strncpy dst src n) = c_str src.
Proof.
  intros H. unfold strlen in H. unfold strncpy.
  rewrite (take_ge (c_str src)) by lia.
  destruct (n - length (c_str src))%nat eqn:E; [lia|].
  cbn. apply c_str_app_nul, c_str_no_nul.
Qed.

Lemma length_strncpy dst src n :
  (n ≤ length dst)%nat → length (strncpy dst src n) = length dst.
Proof. unfold strncpy. intros H. len. Qed.

(** [strncpy(dst,src,n); dst[n]=0;] on an array of [n+1] bytes. *)
Lemma bounded_copy dst src n : length dst = S n →
  let s := take n (c_str src) in
  <[n := 0]> (strncpy dst src n) = s ++ 0 :: replicate (n - length s) 0.
Proof.
  intros Hl s. unfold strncpy. fold s.
  assert (length s ≤ n)%nat as Hs by (unfold s; len).
  assert (∃ x, drop n dst = [x]) as [x ->].
  { assert (length (drop n dst) = 1)%nat as H by len.
    destruct (drop n dst) as [|x [|]]; [done|by exists x|done]. }
  rewrite app_assoc, insert_app_r_alt by len.
  replace (n - length (s ++ replicate (n - length s) 0%Z))%nat with 0%nat by len.
  cbn [insert list_insert]. rewrite <-app_assoc, <-replicate_S_end. done.
Qed.

Lemma c_str_bounded_copy dst src n : length dst = S n →
  c_str (<[n := 0]> (strncpy dst src n)) = take n (c_str src).
Proof.
  intros H. rewrite bounded_copy by done. apply c_str_app_nul, no_nul_take, c_str_no_nul.
Qed.

Lemma strcmp_eq_true a b : strcmp_eq a b = true ↔ c_str a = c_str b.
Proof. unfold strcmp_eq. apply bool_decide_eq_true. Qed.

Lemma strcmp_eq_false a b : strcmp_eq a b = false ↔ c_str a ≠ c_str b.
Proof. unfold strcmp_eq. apply bool_decide_eq_false. Qed.

Create Rewrite HintDb cstr.
#[export] Hint Rewrite c_str_strcpy c_str_idemp c_str_replicate_nul : cstr.
#[export] Hint Resolve c_str_no_nul no_nul_app no_nul_take : vox.

(** ** Lemmas: words *)

(** A word is what [%s] reads: not empty, no blank, no NUL. *)
Definition word_char (c : Z) : bool := negb (is_space c) && not_nul c.
Definition is_word (s : bytes) : bool :=
  negb (bool_decide (s = [])) && forallb word_char s.

(** What may follow a word: nothing, or a blank. *)
Definition word_end (s : bytes) : bool :=
  match s with
  | [] => true
  | c :: _ => is_space c
  end.

Lemma is_word_inv s : is_word s = true →
  ∃ c s', s = c :: s' ∧ is_space c = false ∧
    forallb (λ c, negb (is_space c)) s = true ∧ no_nul s.
Proof.
  unfold is_word. intros [Hne Hall]%andb_true_iff.
  destruct s as [|c s']; [done|]. exists c, s'.
  unfold no_nul. rewrite !forallb_Forall in *.
  assert (is_space c = false ∧ Forall (λ c, negb (is_space c) = true) (c :: s')
    ∧ Forall (λ c, not_nul c = true) (c :: s')) as (?&?&?); [|done].
  split_and!.
  - inversion Hall as [|?? Hc _]. unfold word_char in Hc.
    by destruct (is_space c).
  - eapply Forall_impl; [exact Hall|]. intros ? [? ?]%andb_true_iff. done.
  - eapply Forall_impl; [exact Hall|]. intros ? [? ?]%andb_true_iff. done.
Qed.

Lemma is_word_no_nul s : is_word s = true → no_nul s.
Proof. intros (c&s'&->&?&?&?)%is_word_inv. done. Qed.

Lemma take_while_word s k : is_word s = true → word_end k = true →
  take_while (λ c, negb (is_space c)) (s ++ k) = s.
Proof.
  intros (c&s'&Hs&?&Hall&?)%is_word_inv Hk. destruct k as [|d k].
  - rewrite app_nil_r. by apply take_while_all.
  - apply take_while_app_stop; [done|]. cbn in Hk. by rewrite Hk.
Qed.

Lemma scan_word_word n s k :
  is_word s = true → (length s ≤ n)%nat → word_end k = true →
  scan_word n (s ++ k) = Some (s, k).
Proof.
  intros Hs Hn Hk. unfold scan_word, skip_space.
  pose proof Hs as (c&s'&Heq&Hc&_&_)%is_word_inv.
  assert (drop_while is_space (s ++ k) = s ++ k) as ->.
  { subst s. cbn. by rewrite Hc. }
  rewrite take_while_word by done. rewrite take_ge by done.
  rewrite Heq at 1. f_equal. rewrite <-Heq. by rewrite drop_app_length.
Qed.

Lemma scan_word_blank n s k :
  is_word s = true → (length s ≤ n)%nat → word_end k = true →
  scan_word n (32 :: s ++ k) = Some (s, k).
Proof. intros. rewrite <-(scan_word_word n s k) by done. done. Qed.

Lemma drop_while_no_nul P s : no_nul s → no_nul (drop_while P s).
Proof.
  unfold no_nul. induction s as [|c s IH]; cbn; [done|].
  intros [Hc Hs]%andb_true_iff. case_match; cbn; [auto|by rewrite Hc].
Qed.

Lemma take_while_no_nul P s : no_nul s → no_nul (take_while P s).
Proof.
  unfold no_nul. induction s as [|c s IH]; cbn; [done|].
  intros [Hc Hs]%andb_true_iff. case_match; cbn; [by rewrite Hc, IH|done].
Qed.

(** Whatever [%ns] stores is a word of at most [n] bytes. *)
Lemma scan_word_inv n s w r : no_nul s →
  scan_word n s = Some (w, r) → is_word w = true ∧ (length w ≤ n)%nat.
Proof.
  intros Hs. unfold scan_word.
  set (t := take_while _ _).
  assert (Forall (λ c, word_char c = true) t) as Ht.
  { assert (no_nul t) as H1 by apply take_while_no_nul, drop_while_no_nul, Hs.
    assert (forallb (λ c, negb (is_space c)) t = true) as H2
      by apply forallb_take_while.
    unfold no_nul in H1. rewrite forallb_Forall in H1, H2.
    rewrite Forall_forall in *. intros c Hc. unfold word_char.
    by rewrite H1, H2. }
  destruct (take n t) as [|c w'] eqn:E; intros [= <- <-].
  split.
  - unfold is_word. cbn [negb bool_decide].
    apply andb_true_iff. split; [done|].
    apply forallb_Forall. rewrite <-E. by apply Forall_take.
  - rewrite <-E. rewrite length_take. lia.
Qed.

(** ** Lemmas: printing and reading numbers *)

Lemma is_digit_mod z : is_digit (48 + z mod 10) = true.
Proof. unfold is_digit. case_bools; cbn; int_lia. Qed.

Lemma scan_digits_dec fuel z l :
  0 ≤ z < 10 ^ Z.of_nat fuel →
  scan_digits 0 (dec_digits fuel z l) = scan_digits z l.
Proof.
  revert z l. induction fuel as [|fuel IH]; intros z l Hz.
  - cbn in *. by replace z with 0 by lia.
  - rewrite Nat2Z.inj_succ, Z.pow_succ_r in Hz by lia.
    cbn [dec_digits]. destruct (Z.eqb_spec (z / 10) 0) as [E|E].
    + cbn [scan_digits]. rewrite is_digit_mod. f_equal.
      Z.to_euclidean_division_equations. lia.
    + rewrite IH by (Z.to_euclidean_division_equations; lia).
      cbn [scan_digits]. rewrite is_digit_mod. f_equal.
      Z.to_euclidean_division_equations. lia.
Qed.

Lemma dec_digits_head fuel z l :
  (fuel ≠ 0)%nat → ∃ d l', dec_digits fuel z l = d :: l' ∧ is_digit d = true.
Proof.
  revert z l. induction fuel as [|fuel IH]; intros z l Hf; [done|].
  cbn [dec_digits]. case_match; [eauto using is_digit_mod|].
  destruct fuel; [cbn; eauto using is_digit_mod|]. by apply IH.
Qed.

Lemma dec_digits_Forall fuel z l :
  Forall (λ c, is_digit c = true) l →
  Forall (λ c, is_digit c = true) (dec_digits fuel z l).
Proof.
  revert z l. induction fuel as [|fuel IH]; intros z l Hl; cbn; [done|].
  case_match; [|apply IH]; constructor; auto using is_digit_mod.
Qed.

Lemma length_dec_digits fuel z l k :
  0 ≤ z < 10 ^ Z.of_nat k → (0 < k)%nat →
  (length (dec_digits fuel z l) ≤ k + length l)%nat.
Proof.
  revert z l k. induction fuel as [|fuel IH]; intros z l k Hz Hk; cbn; [lia|].
  destruct (Z.eqb_spec (z / 10) 0) as [E|E]; cbn; [lia|].
  destruct k as [|k]; [lia|].
  rewrite Nat2Z.inj_succ, Z.pow_succ_r in Hz by lia.
  assert (0 < k)%nat.
  { destruct k; [cbn in Hz; Z.to_euclidean_division_equations; lia|lia]. }
  transitivity (k + length ((48 + z mod 10)%Z :: l))%nat; [|cbn; lia].
  apply IH; [Z.to_euclidean_division_equations; lia|lia].
Qed.

(** The text after a number does not extend it. *)
Definition no_digit_head (s : bytes) : bool :=
  match s with
  | [] => true
  | c :: _ => negb (is_digit c)
  end.

Lemma scan_digits_stop z s : no_digit_head s = true → scan_digits z s = (z, s).
Proof. destruct s as [|c s]; cbn; [done|]. by intros ->%negb_true_iff. Qed.

Lemma is_digit_facts c : is_digit c = true →
  is_space c = false ∧ c ≠ 0 ∧ c ≠ 45 ∧ c ≠ 43 ∧ c ≠ 10.
Proof.
  unfold is_digit, is_space. intros H.
  case_bools; cbn in *; try discriminate; split_and!; lia.
Qed.

Lemma scan_int_print_int z s :
  is_i32 z → no_digit_head s = true → scan_int (print_int z ++ s) = Some (z, s).
Proof.
  intros Hz Hs.
  assert (∀ v, 0 ≤ v ≤ 2 ^ 31 → scan_nat (dec_digits 20 v [] ++ s) = Some (v, s)) as H.
  { intros v Hv.
    assert (∀ f l, dec_digits f v l ++ s = dec_digits f v (l ++ s)) as Happ.
    { intros f. clear. revert v. induction f as [|f IH]; intros v l; cbn; [done|].
      case_match; [done|]. apply IH. }
    rewrite Happ. cbn [app]. unfold scan_nat.
    destruct (dec_digits_head 20 v s) as (d&l'&E&Hd); [done|].
    rewrite E, Hd, <-E. f_equal. rewrite scan_digits_dec by (cbn; lia).
    by apply scan_digits_stop. }
  unfold scan_int, print_int. destruct (Z.ltb_spec z 0) as [Hlt|Hge].
  - change ((45 :: dec_digits 20 (- z) []) ++ s) with (45 :: dec_digits 20 (- z) [] ++ s).
    unfold skip_space. cbn [drop_while].
    change (is_space 45) with false. change (45 =? 45) with true. cbv iota beta.
    rewrite H by int_lia. cbn. by rewrite Z.opp_involutive, i32_id.
  - destruct (dec_digits_head 20 z []) as (d&l'&E&Hd); [done|].
    pose proof (is_digit_facts d Hd) as (Hsp&_&H45&H43&_).
    specialize (H z ltac:(int_lia)). rewrite E in H |- *.
    change ((d :: l') ++ s) with (d :: l' ++ s) in *.
    unfold skip_space. cbn [drop_while]. rewrite Hsp.
    rewrite (proj2 (Z.eqb_neq d 45)), (proj2 (Z.eqb_neq d 43)) by done.
    rewrite H. cbn. by rewrite i32_id.
Qed.

Lemma scan_int_blank s : scan_int (32 :: s) = scan_int s.
Proof. done. Qed.

Lemma print_int_Forall z :
  Forall (λ c, is_digit c = true ∨ c = 45) (print_int z).
Proof.
  assert (∀ v, Forall (λ c, is_digit c = true ∨ c = 45) (dec_digits 20 v [])) as H.
  { intros v. eapply Forall_impl; [by apply dec_digits_Forall|]. auto. }
  unfold print_int. case_match; [constructor|]; auto.
Qed.

Lemma print_int_ne z : print_int z ≠ [].
Proof.
  unfold print_int. case_match; [done|].
  destruct (dec_digits_head 20 z []) as (d&l'&->&_); done.
Qed.

Lemma print_int_char c z :
  c ∈ print_int z → is_space c = false ∧ c ≠ 0 ∧ c ≠ 10.
Proof.
  intros Hc. pose proof (print_int_Forall z) as H. rewrite Forall_forall in H.
  destruct (H c Hc) as [Hd| ->]; [|done].
  destruct (is_digit_facts c Hd) as (?&?&_&_&?). auto.
Qed.

Lemma print_int_word z : is_word (print_int z) = true.
Proof.
  unfold is_word. apply andb_true_iff. split.
  - rewrite bool_decide_eq_false_2; [done|apply print_int_ne].
  - apply forallb_Forall, Forall_forall. intros c (Hsp&H&_)%print_int_char.
    unfold word_char, not_nul. rewrite Hsp. destruct (Z.eqb_spec c 0); done.
Qed.

Lemma length_print_int z : is_i32 z → (length (print_int z) ≤ 11)%nat.
Proof.
  intros Hz. unfold is_i32 in Hz. cbn in Hz.
  pose proof (length_dec_digits 20 (- z) [] 10) as Hn.
  pose proof (length_dec_digits 20 z [] 10) as Hp.
  change (10 ^ Z.of_nat 10) with 10000000000 in *. cbn [length] in *.
  unfold print_int. case_bools; cbn [length]; lia.
Qed.

#[export] Hint Resolve print_int_word is_word_no_nul : vox.
