(* ===== verification/Protocol.v ===== *)
(** * [src/common/protocol.h]: constants, records and their layouts

    Every struct of the header as a [Record], character arrays as the list
    of their bytes, pointers as [option loc].  The records that are stored
    or sent have an encoder/decoder giving the object representation (x86-64
    ABI: little endian, natural alignment). *)
From S2P Require Import Prelude CInt CString.
#[local] Open Scope Z_scope.

Definition MAX_CLIENTS : Z := 50.
Definition MAX_ROOMS : Z := 32.
Definition MAX_USERNAME_LEN : nat := 32.
Definition MAX_PASSWORD_LEN : nat := 64.
Definition MAX_ROLE_LEN : nat := 16.
Definition MAX_ROOM_NAME_LEN : nat := 32.
Definition MAX_PACKET_SIZE : nat := 4096.
Definition AUDIO_PAYLOAD_SIZE : nat := 2048.
Definition JITTER_BUFFER_SIZE : nat := 20.
Definition MAX_SPEAKERS_PER_ROOM : Z := 10.
Definition RING_BUFFER_CAPACITY : Z := 128.
Definition DEFAULT_PORT : Z := 8080.

Definition ROLE_ADMIN : Z := 1.
Definition ROLE_MODERATOR : Z := 2.
Definition ROLE_USER : Z := 3.
Definition ROLE_GUEST : Z := 4.

Definition CMD_LOGIN : Z := 1.
Definition CMD_LOGOUT : Z := 2.
Definition CMD_CREATE : Z := 3.
Definition CMD_JOIN : Z := 4.
Definition CMD_LEAVE : Z := 5.
Definition CMD_LIST : Z := 6.
Definition CMD_KICK : Z := 7.
Definition CMD_MUTE : Z := 8.
Definition CMD_STATUS : Z := 9.
Definition CMD_PROMOTE : Z := 10.

Definition STATUS_OK : Z := 200.
Definition STATUS_ERR_AUTH : Z := 401.
Definition STATUS_ERR_NOT_FOUND : Z := 404.
Definition STATUS_ERR_FORBIDDEN : Z := 403.
Definition STATUS_ERR_CONFLICT : Z := 409.
Definition STATUS_ERR_FULL : Z := 507.
Definition STATUS_ERR_INTERNAL : Z := 500.

(** Addresses of heap objects. *)
Abbreviation loc := positive.

(** [user_record]; the three padding bytes before [is_active] are part of
    the object representation that is read and written. *)
Record user_record := UserRecord {
  ur_user_id : Z;
  ur_username : bytes;       (** [char username[32]] *)
  ur_role : bytes;           (** [char role[16]] *)
  ur_password_hash : bytes;  (** [char password_hash[65]] *)
  ur_padding : bytes;
  ur_is_active : Z
}.

Record room_record := RoomRecord {
  rr_room_id : Z;
  rr_room_name : bytes;      (** [char room_name[32]] *)
  rr_password : bytes;       (** [char password[64]] *)
  rr_is_active : Z;
  rr_user_count : Z
}.

Record audio_packet := AudioPacket {
  ap_room_id : Z;
  ap_sender_id : Z;
  ap_seq_num : Z;
  ap_timestamp : Z;
  ap_payload_size : Z;
  ap_payload : bytes         (** [uint8_t payload[2048]] *)
}.

Record response_packet := ResponsePacket {
  rp_opcode : Z;
  rp_status : Z;
  rp_message : bytes;        (** the string in [char message[256]] *)
  rp_data : bytes            (** the string in [char data[4096]] *)
}.

Record client := Client {
  c_fd : Z;
  c_slot : Z;
  c_user_id : Z;
  c_username : bytes;        (** [char username[32]] *)
  c_role : Z;
  c_current_room : option loc;
  c_is_mute : Z;
  c_is_active : Z;
  c_ref_count : Z;
  c_udp_addr : bytes;        (** [struct sockaddr_in], opaque *)
  c_udp_addr_len : Z
}.

Record room := Room {
  r_room_id : Z;
  r_room_name : bytes;       (** [char room_name[32]] *)
  r_password : bytes;        (** [char password[64]] *)
  r_participants : list (option loc);  (** [client *participants[50]] *)
  r_participant_count : Z;
  r_active_speakers : Z;
  r_prev : option loc;
  r_next : option loc
}.

Record jitter_entry := JitterEntry {
  je_seq_num : Z;
  je_timestamp : Z;
  je_payload_size : Z;
  je_payload : bytes;        (** [uint8_t payload[2048]] *)
  je_valid : Z
}.

Record jitter_buffer := JitterBuffer {
  jb_buffer : list jitter_entry;  (** [jitter_entry buffer[20]] *)
  jb_head : Z;
  jb_tail : Z;
  jb_count : Z;
  jb_buffering : Z;
  jb_next_expected_seq : Z
}.

Record ring_buffer := RingBuffer {
  rb_packets : list audio_packet;  (** [audio_packet packets[128]] *)
  rb_head : Z;
  rb_tail : Z;
  rb_count : Z
}.

(** ** Object representations *)
Definition sizeof_user_record : nat := 124.
Definition sizeof_room_record : nat := 108.
(** Offset 18 of [payload], plus 2048, rounded up to the alignment 4. *)
Definition sizeof_audio_packet : nat := 2068.
Definition offsetof_payload : nat := 18.
Definition sizeof_response_packet : nat := 4360.

Definition encode_user (r : user_record) : bytes :=
  le_bytes 4 (ur_user_id r) ++ ur_username r ++ ur_role r ++
  ur_password_hash r ++ ur_padding r ++ le_bytes 4 (ur_is_active r).

Definition decode_user (b : bytes) : user_record :=
  UserRecord (i32 (le_val (take 4 b))) (take 32 (drop 4 b))
    (take 16 (drop 36 b)) (take 65 (drop 52 b)) (take 3 (drop 117 b))
    (i32 (le_val (take 4 (drop 120 b)))).

Definition encode_room (r : room_record) : bytes :=
  le_bytes 4 (rr_room_id r) ++ rr_room_name r ++ rr_password r ++
  le_bytes 4 (rr_is_active r) ++ le_bytes 4 (rr_user_count r).

Definition decode_room (b : bytes) : room_record :=
  RoomRecord (i32 (le_val (take 4 b))) (take 32 (drop 4 b))
    (take 64 (drop 36 b)) (i32 (le_val (take 4 (drop 100 b))))
    (i32 (le_val (take 4 (drop 104 b)))).

(** The datagram of the first [n] bytes of a packet object ([padding] are
    its two tail bytes). *)
Definition encode_packet (p : audio_packet) (padding : bytes) : bytes :=
  le_bytes 4 (ap_room_id p) ++ le_bytes 4 (ap_sender_id p) ++
  le_bytes 4 (ap_seq_num p) ++ le_bytes 4 (ap_timestamp p) ++
  le_bytes 2 (ap_payload_size p) ++ ap_payload p ++ padding.

Definition decode_packet (b : bytes) : audio_packet :=
  AudioPacket (le_val (take 4 b)) (le_val (take 4 (drop 4 b)))
    (le_val (take 4 (drop 8 b))) (le_val (take 4 (drop 12 b)))
    (le_val (take 2 (drop 16 b))) (take 2048 (drop 18 b)).

(** A response: [message] and [data] are the strings in zeroed arrays. *)
Definition encode_response (r : response_packet) : bytes :=
  le_bytes 4 (rp_opcode r) ++ le_bytes 4 (rp_status r) ++
  strcpy (memset 0 256) (rp_message r) ++ strcpy (memset 0 4096) (rp_data r).

Definition decode_response (b : bytes) : response_packet :=
  ResponsePacket (le_val (take 4 b)) (le_val (take 4 (drop 4 b)))
    (c_str (take 256 (drop 8 b))) (c_str (take 4096 (drop 264 b))).

(** The arrays have their declared sizes and the numbers their widths. *)
Record wf_user_record (r : user_record) : Prop := {
  wur_id : is_i32 (ur_user_id r);
  wur_username : length (ur_username r) = 32%nat;
  wur_role : length (ur_role r) = 16%nat;
  wur_hash : length (ur_password_hash r) = 65%nat;
  wur_padding : length (ur_padding r) = 3%nat;
  wur_active : is_i32 (ur_is_active r)
}.

Record wf_room_record (r : room_record) : Prop := {
  wrr_id : is_i32 (rr_room_id r);
  wrr_name : length (rr_room_name r) = 32%nat;
  wrr_password : length (rr_password r) = 64%nat;
  wrr_active : is_i32 (rr_is_active r);
  wrr_count : is_i32 (rr_user_count r)
}.

Record wf_audio_packet (p : audio_packet) : Prop := {
  wap_room : is_u32 (ap_room_id p);
  wap_sender : is_u32 (ap_sender_id p);
  wap_seq : is_u32 (ap_seq_num p);
  wap_time : is_u32 (ap_timestamp p);
  wap_size : is_u16 (ap_payload_size p);
  wap_payload : length (ap_payload p) = AUDIO_PAYLOAD_SIZE
}.

(** Read a field at offset [n] of a concatenation of fields. *)
Lemma take_drop_field (a b c : bytes) n k :
  length a = n → length b = k → take k (drop n (a ++ b ++ c)) = b.
Proof. intros <- <-. by rewrite drop_app_length, take_app_length. Qed.

Lemma length_encode_user r : wf_user_record r →
  length (encode_user r) = sizeof_user_record.
Proof. intros []. unfold encode_user, sizeof_user_record. len. Qed.

Lemma length_encode_room r : wf_room_record r →
  length (encode_room r) = sizeof_room_record.
Proof. intros []. unfold encode_room, sizeof_room_record. len. Qed.

(** Reading a field skips the fields before it, one after the other. *)
Lemma drop_field (a b : bytes) n k :
  length a = k → (k ≤ n)%nat → drop n (a ++ b) = drop (n - k) b.
Proof. intros <- ?. rewrite drop_app_ge by lia. done. Qed.

Lemma take_field (a b : bytes) n : length a = n → take n (a ++ b) = a.
Proof. apply take_app_exact. Qed.

Ltac read_field :=
  repeat (erewrite drop_field by (first [eassumption | apply length_le_bytes | lia]);
          cbn [Nat.sub]);
  rewrite ?drop_0;
  first [ erewrite take_field by (first [eassumption | apply length_le_bytes])
        | rewrite take_ge by len ].

Lemma decode_encode_user r : wf_user_record r → decode_user (encode_user r) = r.
Proof.
  intros []. destruct r. cbn in *. unfold decode_user, encode_user. cbn.
  f_equal; read_field; auto using i32_le_bytes.
Qed.

Lemma decode_encode_room r : wf_room_record r → decode_room (encode_room r) = r.
Proof.
  intros []. destruct r. cbn in *. unfold decode_room, encode_room. cbn.
  f_equal; read_field; auto using i32_le_bytes.
Qed.

Lemma decode_encode_response r junk :
  is_u32 (rp_opcode r) → is_u32 (rp_status r) →
  (strlen (rp_message r) < 256)%nat → (strlen (rp_data r) < 4096)%nat →
  decode_response (encode_response r ++ junk) =
  ResponsePacket (rp_opcode r) (rp_status r) (c_str (rp_message r)) (c_str (rp_data r)).
Proof.
  intros Ho Hs Hm Hd. unfold decode_response, encode_response. rewrite <-!app_assoc.
  assert (length (strcpy (memset 0 256) (rp_message r)) = 256%nat) as Hlm.
  { rewrite length_strcpy; unfold memset; len. }
  assert (length (strcpy (memset 0 4096) (rp_data r)) = 4096%nat) as Hld.
  { rewrite length_strcpy; unfold memset; len. }
  f_equal; read_field; auto using u32_le_bytes, c_str_strcpy.
Qed.

(** A datagram of the header and [k] bytes of the payload, over other bytes. *)
Lemma decode_packet_prefix p padding junk (k : nat) : wf_audio_packet p → (k ≤ 2048)%nat →
  length junk = sizeof_audio_packet →
  let d := take (offsetof_payload + k) (encode_packet p padding) in
  let p' := decode_packet (d ++ drop (length d) junk) in
  ap_room_id p' = ap_room_id p ∧ ap_sender_id p' = ap_sender_id p ∧
  ap_seq_num p' = ap_seq_num p ∧ ap_timestamp p' = ap_timestamp p ∧
  ap_payload_size p' = ap_payload_size p ∧ take k (ap_payload p') = take k (ap_payload p) ∧
  length (ap_payload p') = AUDIO_PAYLOAD_SIZE.
Proof.
  intros [Hr Hs Hq Ht Hz Hl] Hk Hj. cbn zeta. unfold AUDIO_PAYLOAD_SIZE in *.
  assert (take (offsetof_payload + k) (encode_packet p padding) =
    le_bytes 4 (ap_room_id p) ++ le_bytes 4 (ap_sender_id p) ++ le_bytes 4 (ap_seq_num p) ++
    le_bytes 4 (ap_timestamp p) ++ le_bytes 2 (ap_payload_size p) ++ take k (ap_payload p)) as ->.
  { match goal with |- _ = ?hdr => replace (encode_packet p padding)
      with (hdr ++ drop k (ap_payload p) ++ padding) end.
    - apply take_app_exact. unfold offsetof_payload. len.
    - unfold encode_packet. by rewrite <-!app_assoc, (app_assoc (take k _)), take_drop. }
  set (rest := drop _ junk). assert (length rest = 2050 - k)%nat as Hrest.
  { unfold rest. unfold sizeof_audio_packet in Hj. len. }
  unfold decode_packet. rewrite <-!app_assoc.
  assert (length (take k (ap_payload p)) = k) as Hlk by len.
  cbn [ap_room_id ap_sender_id ap_seq_num ap_timestamp ap_payload_size ap_payload].
  split_and!; try (read_field; auto using u32_le_bytes, u16_le_bytes).
  all: repeat (erewrite drop_field by (first [apply length_le_bytes | lia]); cbn [Nat.sub]);
    rewrite drop_0.
  - rewrite take_take, Nat.min_l, take_field by (done || lia). done.
  - len.
Qed.

#[global] Arguments encode_user : simpl never.
#[global] Arguments decode_user : simpl never.
#[global] Arguments encode_room : simpl never.
#[global] Arguments decode_room : simpl never.
#[global] Arguments encode_packet : simpl never.
#[global] Arguments decode_packet : simpl never.
#[global] Arguments encode_response : simpl never.
#[global] Arguments decode_response : simpl never.
