(* ===== verification/Hash.v ===== *)
(** * [src/common/utils.c]: the password hash and the constant-time compare

    [sha256_hash] is the program's XOR/add mixing function (not SHA-256) and
    [safe_memcmp] the comparison that reads every byte. *)
From S2P Require Import Prelude CInt CString.
#[local] Open Scope Z_scope.

(** The [int] value of a (signed) [char]. *)
Definition char_val (c : Z) : Z := if c <? 128 then c else c - 256.

(** The loop over the input, [i] being the loop index. *)
Fixpoint hash_loop (i : nat) (input hash : bytes) : bytes :=
  match input with
  | [] => hash
  | c :: input' =>
    let hash1 := alter (λ h, u8 (Z.lxor h (char_val c))) (i mod 32)%nat hash in
    let hash2 := alter (λ h, u8 (h + char_val c)) ((i + 1) mod 32)%nat hash1 in
    hash_loop (S i) input' hash2
  end.

(** [%x] of one hexadecimal digit, [%02x] of a byte. *)
Definition hex_digit (n : Z) : Z := if n <? 10 then 48 + n else 87 + n.
Definition print_hex2 (b : Z) : bytes := [hex_digit (b / 16); hex_digit (b mod 16)].

(** The 65 bytes stored in [output]. *)
Definition sha256_hash (input : bytes) : bytes :=
  concat (print_hex2 <$> hash_loop 0 (c_str input) (memset 0 32)) ++ [0].

Definition safe_memcmp (a b : bytes) (size : nat) : Z :=
  fold_left (λ result i, u8 (Z.lor result (Z.lxor (nth i a 0) (nth i b 0))))
    (seq 0 size) 0.

(** ** The comparison *)

Lemma u8_of_log2 x : 0 ≤ x → (x = 0 ∨ Z.log2 x < 8) → is_u8 x.
Proof.
  unfold is_u8. intros Hx [->|Hl]; [done|]. split; [done|].
  destruct (Z.eq_dec x 0) as [->|]; [done|]. apply Z.log2_lt_pow2; lia.
Qed.

Lemma log2_u8 x : is_u8 x → Z.log2 x < 8.
Proof.
  unfold is_u8. intros Hx. destruct (Z.eq_dec x 0) as [->|]; [done|].
  apply Z.log2_lt_pow2; lia.
Qed.

Lemma lxor_u8 a b : is_u8 a → is_u8 b → is_u8 (Z.lxor a b).
Proof.
  intros Ha Hb. pose proof (log2_u8 a Ha). pose proof (log2_u8 b Hb).
  destruct Ha, Hb. apply u8_of_log2; [apply Z.lxor_nonneg; lia|].
  right. pose proof (Z.log2_lxor a b). lia.
Qed.

Lemma lor_u8 a b : is_u8 a → is_u8 b → is_u8 (Z.lor a b).
Proof.
  intros Ha Hb. pose proof (log2_u8 a Ha). pose proof (log2_u8 b Hb).
  destruct Ha, Hb. apply u8_of_log2; [apply Z.lor_nonneg; lia|].
  right. rewrite Z.log2_lor; lia.
Qed.

Lemma nth_u8 i l : Forall is_u8 l → is_u8 (nth i l 0).
Proof.
  revert i. induction l as [|x l IH]; intros i Hl; destruct i; cbn; try done.
  - by inversion Hl.
  - apply IH. by inversion Hl.
Qed.

Lemma safe_memcmp_spec a b size :
  Forall is_u8 a → Forall is_u8 b →
  safe_memcmp a b size = 0 ↔ ∀ i, (i < size)%nat → nth i a 0 = nth i b 0.
Proof.
  intros Ha Hb. unfold safe_memcmp.
  assert (∀ l r, is_u8 r →
    fold_left (λ result i, u8 (Z.lor result (Z.lxor (nth i a 0) (nth i b 0)))) l r = 0
    ↔ r = 0 ∧ ∀ i, i ∈ l → nth i a 0 = nth i b 0) as H.
  { induction l as [|i l IH]; intros r Hr; cbn [fold_left].
    { split; [intros ->; split; [done|]; by intros ? ?%elem_of_nil | by intros [-> _]]. }
    rewrite u8_id by auto using lor_u8, lxor_u8, nth_u8.
    rewrite IH by auto using lor_u8, lxor_u8, nth_u8.
    rewrite Z.lor_eq_0_iff, Z.lxor_eq_0_iff.
    setoid_rewrite elem_of_cons. split.
    - intros [[-> Hx] Hl]. split; [done|]. intros j [->|Hj]; auto.
    - intros [-> Hl]. auto. }
  rewrite H by done. setoid_rewrite elem_of_seq.
  split; [intros [_ Hi] i Hi'; apply Hi; lia|].
  intros Hi. split; [done|]. intros i Hi'. apply Hi. lia.
Qed.

(** [safe_memcmp] decides equality of the first [size] bytes. *)
Lemma safe_memcmp_eq a b size :
  Forall is_u8 a → Forall is_u8 b →
  (size ≤ length a)%nat → (size ≤ length b)%nat →
  safe_memcmp a b size = 0 ↔ take size a = take size b.
Proof.
  intros Ha Hb Hla Hlb. rewrite safe_memcmp_spec by done. split; intros H.
  - apply list_eq. intros i.
    destruct (decide (i < size)%nat) as [Hi|Hi].
    + rewrite !lookup_take_lt by done.
      destruct (lookup_lt_is_Some_2 a i) as [x Hx]; [lia|].
      destruct (lookup_lt_is_Some_2 b i) as [y Hy]; [lia|].
      specialize (H i Hi). rewrite !nth_lookup, Hx, Hy in H. cbn in H. congruence.
    + rewrite !lookup_take_ge by lia. done.
  - intros i Hi.
    rewrite <-(take_drop size a), <-(take_drop size b), H.
    rewrite !app_nth1; [done| |]; len.
Qed.

(** ** The hash *)

Lemma char_val_u8 c : is_u8 c → u8 (char_val c) = c.
Proof. unfold char_val. intros Hc. case_bools; int_lia. Qed.

Lemma u8_lxor a b : u8 (Z.lxor a b) = Z.lxor (u8 a) (u8 b).
Proof.
  unfold u8. apply Z.bits_inj'. intros n Hn.
  rewrite Z.lxor_spec. destruct (Z.lt_ge_cases n 8).
  - by rewrite !Z.mod_pow2_bits_low, Z.lxor_spec by lia.
  - by rewrite !Z.mod_pow2_bits_high by lia.
Qed.

(** The sign extension of [input[i]] is cut off again by the [unsigned char]
    result. *)
Lemma lxor_char_val h c : is_u8 h → is_u8 c →
  u8 (Z.lxor h (char_val c)) = Z.lxor h c.
Proof. intros Hh Hc. by rewrite u8_lxor, char_val_u8, u8_id. Qed.

(** What an input of at most 31 bytes leaves in the hash: each byte xored
    with the one before it, then the last byte. *)
Fixpoint xor_chain (prev : Z) (s : bytes) : bytes :=
  match s with
  | [] => [prev]
  | c :: s' => Z.lxor prev c :: xor_chain c s'
  end.

Lemma length_xor_chain prev s : length (xor_chain prev s) = S (length s).
Proof. revert prev. induction s; intros; cbn; auto. Qed.

Lemma hash_loop_chain i s done prev :
  length done = i → is_u8 prev → Forall is_u8 s → (i + length s ≤ 31)%nat →
  hash_loop i s (done ++ prev :: replicate (31 - i) 0) =
  done ++ xor_chain prev s ++ replicate (31 - i - length s) 0.
Proof.
  revert i done prev. induction s as [|c s IH]; intros i done prev Hi Hp Hs Hlen.
  { cbn [hash_loop xor_chain length]. by rewrite Nat.sub_0_r. }
  inversion_clear Hs as [|?? Hc Hs']. cbn [length] in Hlen. cbn [hash_loop xor_chain].
  rewrite !Nat.mod_small by lia.
  destruct (31 - i)%nat as [|m] eqn:Em; [lia|].
  rewrite alter_app_r_alt by lia. rewrite Hi, Nat.sub_diag. cbn [alter list_alter].
  rewrite lxor_char_val by done.
  rewrite alter_app_r_alt by lia.
  replace (i + 1 - length done)%nat with 1%nat by lia.
  cbn [replicate alter list_alter]. rewrite Z.add_0_l, char_val_u8 by done.
  rewrite cons_middle, app_assoc.
  replace m with (31 - S i)%nat by lia.
  rewrite IH by (first [done | len | lia]).
  rewrite <-app_assoc. cbn [app length]. repeat f_equal; lia.
Qed.

(** Reading the input back from the hash. *)
Fixpoint xor_unchain (prev : Z) (h : bytes) : bytes :=
  match h with
  | [] => []
  | x :: h' => let c := Z.lxor prev x in
               if c =? 0 then [] else c :: xor_unchain c h'
  end.

Definition unhex_digit (c : Z) : Z := if c <? 58 then c - 48 else c - 87.
Fixpoint unhex (s : bytes) : bytes :=
  match s with
  | a :: b :: s' => 16 * unhex_digit a + unhex_digit b :: unhex s'
  | _ => []
  end.

(** The password a stored hash was computed from. *)
Definition recover_password (hash : bytes) : bytes := xor_unchain 0 (unhex hash).

Lemma lxor_cancel a b : Z.lxor a (Z.lxor a b) = b.
Proof. by rewrite <-Z.lxor_assoc, Z.lxor_nilpotent, Z.lxor_0_l. Qed.

Lemma xor_unchain_chain prev s k :
  no_nul s → xor_unchain prev (xor_chain prev s ++ k) = s.
Proof.
  unfold no_nul. revert prev. induction s as [|c s IH]; intros prev Hs; cbn in *.
  - by rewrite Z.lxor_nilpotent.
  - apply andb_true_iff in Hs as [Hc Hs]. rewrite lxor_cancel.
    apply negb_true_iff in Hc. rewrite Hc. by rewrite IH.
Qed.

Lemma hex_digit_facts n : 0 ≤ n < 16 →
  unhex_digit (hex_digit n) = n ∧ not_nul (hex_digit n) = true ∧
  (is_digit (hex_digit n) = true ∨ 97 ≤ hex_digit n ≤ 102).
Proof.
  intros Hn. unfold unhex_digit, hex_digit, not_nul, is_digit.
  case_bools; cbn; try lia; split_and!; first [done | lia | by left].
Qed.

Lemma unhex_print l : Forall is_u8 l → unhex (concat (print_hex2 <$> l)) = l.
Proof.
  induction 1 as [|b l Hb _ IH]; cbn; [done|]. rewrite IH. f_equal.
  assert (0 ≤ b / 16 < 16 ∧ 0 ≤ b mod 16 < 16) as [H1 H2] by int_lia.
  apply hex_digit_facts in H1 as [-> _]. apply hex_digit_facts in H2 as [-> _].
  int_lia.
Qed.

Lemma unhex_app l k : Forall is_u8 l →
  unhex (concat (print_hex2 <$> l) ++ k) = l ++ unhex k.
Proof.
  induction 1 as [|b l Hb _ IH]; cbn; [done|]. rewrite IH. f_equal.
  assert (0 ≤ b / 16 < 16 ∧ 0 ≤ b mod 16 < 16) as [H1 H2] by int_lia.
  apply hex_digit_facts in H1 as [-> _]. apply hex_digit_facts in H2 as [-> _].
  int_lia.
Qed.

Lemma alter_Forall_u8 (f : Z → Z) i l :
  (∀ h, is_u8 h → is_u8 (f h)) → Forall is_u8 l → Forall is_u8 (alter f i l).
Proof.
  intros Hf Hl. rewrite Forall_lookup in *. intros j x.
  destruct (decide (i = j)) as [->|].
  - rewrite list_lookup_alter_eq. destruct (l !! j) eqn:E; cbn; [|done].
    intros [= <-]. eauto.
  - rewrite list_lookup_alter_ne by done. apply Hl.
Qed.

Lemma hash_loop_range i s h :
  Forall is_u8 h → length h = 32%nat →
  Forall is_u8 (hash_loop i s h) ∧ length (hash_loop i s h) = 32%nat.
Proof.
  revert i h. induction s as [|c s IH]; intros i h Hh Hl; cbn; [done|].
  apply IH; [|by rewrite !length_alter].
  repeat apply alter_Forall_u8; auto using u8_range.
Qed.

Lemma hash_bytes_range s :
  Forall is_u8 (hash_loop 0 (c_str s) (memset 0 32)) ∧
  length (hash_loop 0 (c_str s) (memset 0 32)) = 32%nat.
Proof. apply hash_loop_range; [|done]. apply Forall_replicate; int_lia. Qed.

Lemma length_hex l : length (concat (print_hex2 <$> l)) = (2 * length l)%nat.
Proof. induction l as [|b l IH]; cbn; [done|]. cbn in IH. lia. Qed.

Lemma hex_digits_Forall l : Forall is_u8 l →
  Forall (λ c, not_nul c = true ∧ (is_digit c = true ∨ 97 ≤ c ≤ 102))
    (concat (print_hex2 <$> l)).
Proof.
  induction 1 as [|b l Hb _ IH]; cbn; [done|].
  assert (0 ≤ b / 16 < 16 ∧ 0 ≤ b mod 16 < 16) as [H1 H2] by int_lia.
  apply hex_digit_facts in H1 as (_&?&?). apply hex_digit_facts in H2 as (_&?&?).
  auto.
Qed.

Lemma length_sha256_hash s : length (sha256_hash s) = 65%nat.
Proof.
  unfold sha256_hash. rewrite length_app, length_hex.
  destruct (hash_bytes_range s) as [_ ->]. done.
Qed.

Lemma sha256_hash_bytes s : Forall is_u8 (sha256_hash s).
Proof.
  unfold sha256_hash. apply Forall_app. split; [|repeat constructor; int_lia].
  destruct (hash_bytes_range s) as [H _].
  eapply Forall_impl; [by apply hex_digits_Forall|].
  intros c (_&[Hd|?]); unfold is_u8; [|lia].
  unfold is_digit in Hd. case_bools; cbn in *; try done; lia.
Qed.

(** The hash of at most 31 bytes, spelled out. *)
Lemma sha256_hash_short s :
  Forall is_u8 s → no_nul s → (length s ≤ 31)%nat →
  hash_loop 0 (c_str s) (memset 0 32) =
  xor_chain 0 s ++ replicate (31 - length s) 0.
Proof.
  intros Hb Hn Hl. rewrite c_str_id by done. unfold memset.
  pose proof (hash_loop_chain 0 s [] 0 eq_refl ltac:(int_lia) Hb ltac:(lia)) as H.
  cbn [app Nat.sub] in H. exact H.
Qed.

Lemma recover_password_ok s :
  Forall is_u8 s → no_nul s → (length s ≤ 31)%nat →
  recover_password (sha256_hash s) = s.
Proof.
  intros Hb Hn Hl. unfold recover_password, sha256_hash.
  rewrite unhex_app by apply hash_bytes_range. cbn [unhex]. rewrite app_nil_r.
  rewrite sha256_hash_short by done. by apply xor_unchain_chain.
Qed.

Lemma sha256_hash_inj s t :
  Forall is_u8 s → no_nul s → (length s ≤ 31)%nat →
  Forall is_u8 t → no_nul t → (length t ≤ 31)%nat →
  sha256_hash s = sha256_hash t → s = t.
Proof.
  intros ?????? H. rewrite <-(recover_password_ok s), <-(recover_password_ok t) by done.
  by rewrite H.
Qed.

(** The string part of a stored hash is its first 64 bytes. *)
Lemma c_str_sha256_hash s : c_str (sha256_hash s) = take 64 (sha256_hash s).
Proof.
  unfold sha256_hash. destruct (hash_bytes_range s) as [H Hl].
  rewrite take_app_exact by (rewrite length_hex, Hl; done).
  apply c_str_app_nul. unfold no_nul. apply forallb_Forall.
  eapply Forall_impl; [by apply hex_digits_Forall|]. by intros ? [? _].
Qed.

#[global] Arguments sha256_hash : simpl never.
#[global] Arguments safe_memcmp : simpl never.

(** ** Properties *)

(** The comparison of the stored and the computed hash returns 0 exactly
    when the first [size] bytes agree, for byte arrays of at least that
    size. *)
Theorem safe_memcmp_decides a b size :
  Forall is_u8 a → Forall is_u8 b →
  (size ≤ length a)%nat → (size ≤ length b)%nat →
  (safe_memcmp a b size = 0 ↔ take size a = take size b) ∧
  0 ≤ safe_memcmp a b size < 256.
Proof.
  intros Ha Hb Hla Hlb. split; [by apply safe_memcmp_eq|].
  unfold safe_memcmp.
  assert (∀ l r, is_u8 r → is_u8 (fold_left (λ result i,
    u8 (Z.lor result (Z.lxor (nth i a 0) (nth i b 0)))) l r)) as H.
  { induction l as [|i l IH]; intros r Hr; cbn; [done|]. apply IH, u8_range. }
  pose proof (H (seq 0 size) 0 ltac:(int_lia)). int_lia.
Qed.

Lemma safe_memcmp_decides_witness :
  safe_memcmp (str "abc") (str "abd") 2 = 0 ∧ take 2 (str "abc") = take 2 (str "abd").
Proof.
  assert (∀ l, forallb (λ c, (0 <=? c) && (c <? 256)) l = true → Forall is_u8 l) as Hb.
  { intros l H%forallb_Forall. eapply Forall_impl; [exact H|].
    intros c [H1%Z.leb_le H2%Z.ltb_lt]%andb_true_iff. split; [done|exact H2]. }
  destruct (safe_memcmp_decides (str "abc") (str "abd") 2) as [H _];
    [by apply Hb|by apply Hb|cbn; lia|cbn; lia|].
  split; [vm_compute; reflexivity|]. apply H. vm_compute. reflexivity.
Defined.

(** The output array of the hash is 64 lower-case hexadecimal digits and a
    terminating NUL, whatever the input. *)
Theorem sha256_hash_format input :
  length (sha256_hash input) = 65%nat ∧
  sha256_hash input !! 64%nat = Some 0 ∧
  Forall (λ c, is_digit c = true ∨ 97 ≤ c ≤ 102) (c_str (sha256_hash input)) ∧
  strlen (sha256_hash input) = 64%nat.
Proof.
  pose proof (length_sha256_hash input) as Hlen. destruct (hash_bytes_range input) as [H Hl].
  assert (length (concat (print_hex2 <$> hash_loop 0 (c_str input) (memset 0 32))) = 64%nat)
    as H64 by (rewrite length_hex, Hl; done).
  split_and!; [done| | |].
  - unfold sha256_hash. by rewrite lookup_app_r, H64 by lia.
  - rewrite c_str_sha256_hash. unfold sha256_hash. rewrite take_app_exact by done.
    eapply Forall_impl; [by apply hex_digits_Forall|]. by intros ? [_ ?].
  - unfold strlen. rewrite c_str_sha256_hash, length_take. lia.
Qed.

(** A password of at most 31 bytes can be read back from its stored hash:
    the hash is injective on such passwords, and not one-way. *)
Theorem hash_reveals_short_passwords s :
  Forall is_u8 s → no_nul s → (length s ≤ 31)%nat →
  recover_password (sha256_hash s) = s.
Proof. apply recover_password_ok. Qed.

Lemma hash_reveals_short_passwords_witness :
  recover_password (sha256_hash (str "admin123")) = str "admin123".
Proof.
  apply hash_reveals_short_passwords; [|reflexivity|cbn; lia].
  repeat (constructor; [cbn; split; [discriminate|reflexivity]|]). constructor.
Defined.
