(* ===== verification/Posix.v ===== *)
(** * Regular files as the program uses them

    [read], [write], [lseek] and [ftruncate] on a regular file: its bytes and
    the outcomes the environment gives to the coming [write] calls (all of
    them succeed once the list is used up).  A write beyond the end fills the
    gap with zeros; a read at the end is short.  Advisory locks ([fcntl]) and
    [fsync] have no effect on what one process reads and are left out. *)
From S2P Require Import Prelude CInt CString.
#[local] Open Scope Z_scope.

(** The outcome of a [write] call: everything, a short count, or -1. *)
Inductive wres :=
  | WFull
  | WShort (n : nat)
  | WFail.

Record file := File { f_data : bytes; f_io : list wres }.

(** All coming writes of [f] succeed. *)
Definition healthy (f : file) : Prop := f_io f = [].

Definition file_read (data : bytes) (off n : nat) : bytes :=
  take n (drop off data).

Definition file_put (data : bytes) (off : nat) (b : bytes) : bytes :=
  take off data ++ replicate (off - length data) 0 ++ b ++
  drop (off + length b) data.

(** The outcome of the next write and the outcomes left. *)
Definition next_io (io : list wres) : wres * list wres :=
  match io with
  | [] => (WFull, [])
  | w :: io' => (w, io')
  end.

(** [lseek(fd,off,SEEK_SET); write(fd,b,len)]: the value [write] returns and
    the file after it. *)
Definition file_write (f : file) (off : nat) (b : bytes) : Z * file :=
  let '(w, io) := next_io (f_io f) in
  match w with
  | WFull => (Z.of_nat (length b), File (file_put (f_data f) off b) io)
  | WShort n => (Z.of_nat (length (take n b)),
                 File (file_put (f_data f) off (take n b)) io)
  | WFail => (-1, File (f_data f) io)
  end.

(** The records a loop [while(read(fd,&rec,n)==n)] sees: the full chunks. *)
Fixpoint chunks_fuel (fuel n : nat) (data : bytes) : list bytes :=
  match fuel with
  | O => []
  | S fuel' => if (n <=? length data)%nat
               then take n data :: chunks_fuel fuel' n (drop n data) else []
  end.
Definition chunks (n : nat) (data : bytes) : list bytes :=
  chunks_fuel (length data) n data.

(** ** Lemmas *)

Lemma file_write_healthy f off b : healthy f →
  file_write f off b =
  (Z.of_nat (length b), File (file_put (f_data f) off b) []).
Proof. unfold file_write, healthy. by intros ->. Qed.

(** Any fuel above the length sees the same chunks. *)
Lemma chunks_fuel_enough fuel n data : (0 < n)%nat →
  (length data ≤ fuel)%nat → chunks_fuel fuel n data = chunks n data.
Proof.
  intros Hn. unfold chunks. revert data.
  assert (∀ k j data, (length data ≤ k)%nat → (length data ≤ j)%nat →
    chunks_fuel k n data = chunks_fuel j n data) as H.
  { induction k as [|k IH]; intros j data Hk Hj.
    - assert (length data = 0)%nat as H0 by lia.
      destruct j; cbn; [done|]. rewrite H0. destruct (Nat.leb_spec n 0); [lia|done].
    - destruct j as [|j]; cbn.
      + destruct (Nat.leb_spec n (length data)); [lia|done].
      + destruct (Nat.leb_spec n (length data)); [|done].
        f_equal. apply IH; len. }
  intros data Hf. by apply H.
Qed.

Lemma chunks_app n b data : (0 < n)%nat → length b = n →
  chunks n (b ++ data) = b :: chunks n data.
Proof.
  intros Hn Hb. unfold chunks at 1. rewrite length_app, Hb.
  destruct (n + length data)%nat as [|m] eqn:E; [lia|]. cbn.
  destruct (Nat.leb_spec n (length (b ++ data))); [|len].
  rewrite take_app_exact, drop_app_exact by done.
  f_equal. apply chunks_fuel_enough; lia.
Qed.

Lemma chunks_short n data : (length data < n)%nat → chunks n data = [].
Proof.
  unfold chunks. destruct (length data) eqn:E; [done|]. intros.
  cbn. rewrite E. by destruct (Nat.leb_spec n (S n0)); [lia|].
Qed.

Lemma chunks_concat n bs : (0 < n)%nat → Forall (λ b, length b = n) bs →
  chunks n (concat bs) = bs.
Proof.
  intros Hn. induction 1 as [|b bs Hb _ IH]; cbn [concat]; [done|].
  by rewrite chunks_app, IH.
Qed.

Lemma length_chunks n data : (length (chunks n data) ≤ length data)%nat.
Proof.
  unfold chunks. generalize (length data). intros fuel. revert data.
  induction fuel as [|fuel IH]; intros data; cbn; [lia|].
  case_match; cbn; [|lia]. specialize (IH (drop n data)). lia.
Qed.

Lemma length_concat_uniform n (bs : list bytes) :
  Forall (λ b, length b = n) bs → length (concat bs) = (length bs * n)%nat.
Proof. induction 1 as [|b bs Hb _ IH]; cbn; [done|]. len. Qed.

(** The file of a list of [n]-byte records, read and written by index. *)
Section records.
Context (n : nat).
Implicit Types bs : list bytes.

Definition uniform bs : Prop := Forall (λ b, length b = n) bs.

Lemma take_concat bs i : uniform bs → (i ≤ length bs)%nat →
  take (i * n) (concat bs) = concat (take i bs).
Proof.
  intros H. revert i. induction H as [|b bs Hb _ IH]; intros i Hi.
  { cbn in *. by rewrite !take_nil. }
  destruct i as [|i]; [done|]. cbn [concat take length] in *.
  rewrite take_app, Hb, (take_ge b) by lia.
  replace (S i * n - n)%nat with (i * n)%nat by lia. by rewrite IH by lia.
Qed.

Lemma drop_concat bs i : uniform bs → drop (i * n) (concat bs) = concat (drop i bs).
Proof.
  intros H. revert i. induction H as [|b bs Hb _ IH]; intros i.
  { rewrite drop_nil. cbn [concat]. by rewrite drop_nil. }
  destruct i as [|i]; [done|]. cbn [concat drop].
  rewrite drop_app_ge by lia. rewrite Hb, <-IH. f_equal. lia.
Qed.

(** Reading record [i]: short exactly when there is no record [i]. *)
Lemma file_read_record bs i : uniform bs →
  file_read (concat bs) (i * n) n = default [] (bs !! i).
Proof.
  intros H. unfold file_read. rewrite drop_concat by done.
  destruct (bs !! i) as [b|] eqn:E; cbn.
  - rewrite (drop_S _ _ _ E). cbn. apply take_app_exact.
    unfold uniform in H. rewrite Forall_lookup in H. eauto.
  - rewrite drop_ge by by apply lookup_ge_None. cbn [concat]. apply take_nil.
Qed.

(** Writing record [i] replaces it, or appends it at the end. *)
Lemma file_put_record bs i b : uniform bs → length b = n →
  (i ≤ length bs)%nat →
  file_put (concat bs) (i * n) b =
  concat (take i bs ++ b :: drop (S i) bs).
Proof.
  intros H Hb Hi. unfold file_put.
  rewrite take_concat by done. rewrite (length_concat_uniform n) by done.
  replace (i * n - length bs * n)%nat with 0%nat by nia.
  replace (i * n + length b)%nat with (S i * n)%nat by lia.
  rewrite drop_concat by done. by rewrite concat_app.
Qed.

Lemma uniform_put bs i b : uniform bs → length b = n →
  uniform (take i bs ++ b :: drop (S i) bs).
Proof.
  intros H Hb. unfold uniform in *. apply Forall_app; split.
  - by apply Forall_take.
  - constructor; [done|]. by apply Forall_drop.
Qed.
End records.
