(* ===== verification/Control.v ===== *)
(** * Stopping the server: [src/server/ipc_manager.c] and [src/server/main.c]

    The thread that reads commands from the emergency FIFO and the signal
    handler; both clear [server_on], which every loop of the server tests. *)
From S2P Require Import Prelude CInt CString Posix.
#[local] Open Scope Z_scope.

Definition SIGINT : Z := 2.
Definition SIGTERM : Z := 15.

(** [server_on] and [fifo_fd]. *)
Record control := Control {
  ct_server_on : bool;
  ct_fifo_fd : Z
}.

Definition handle_signal (sig : Z) (ct : control) : control :=
  if (sig =? SIGINT) || (sig =? SIGTERM) then Control false (ct_fifo_fd ct) else ct.

(** What a [read] of the FIFO gives; after the end of the stream the FIFO is
    opened again, with this descriptor. *)
Inductive fifo_read :=
  | FifoData (data : bytes)
  | FifoEnd (reopened : Z)
  | FifoError.

Definition is_trimmed (c : Z) : bool := (c =? 10) || (c =? 13) || (c =? 32).

(** The loop that overwrites the line ends and blanks at the end by NULs, [p]
    being the number of bytes up to and with the one looked at. *)
Fixpoint trim_end (p : nat) (buf : bytes) : bytes :=
  match p with
  | O => buf
  | S p' =>
    match buf !! p' with
    | Some c => if is_trimmed c then trim_end p' (<[p' := 0]> buf) else buf
    | None => buf
    end
  end.

(** The trimmed message is the command; [buf] has 256 bytes. *)
Definition is_shutdown (data : bytes) : bool :=
  strcmp_eq (trim_end (length (take 255 data)) (take 255 data ++ [0])) (str "SHUTDOWN").

(** One iteration of [fifo_thread_main]. *)
Definition fifo_turn (r : fifo_read) (ct : control) : control :=
  match r with
  | FifoData [] => ct
  | FifoData data => if is_shutdown data then Control false (ct_fifo_fd ct) else ct
  | FifoEnd fd => Control (ct_server_on ct) fd
  | FifoError => ct
  end.

(** [while(server_on)], over the reads to come. *)
Fixpoint fifo_thread_main (reads : list fifo_read) (ct : control) : control :=
  match reads with
  | [] => ct
  | r :: reads' => if ct_server_on ct then fifo_thread_main reads' (fifo_turn r ct) else ct
  end.

(** ** What is trimmed *)

Lemma trim_end_blanks text blanks : no_nul text → Forall (λ c, is_trimmed c = true) blanks →
  (match last text with Some c => is_trimmed c | None => false end) = false →
  ∀ zeros, trim_end (length text + length blanks) (text ++ blanks ++ zeros) =
  text ++ replicate (length blanks) 0 ++ zeros.
Proof.
  intros Ht Hb Hlast. induction blanks as [|c blanks IH] using rev_ind; intros zeros.
  - cbn. rewrite Nat.add_0_r. destruct text as [|t0 text0 _] using rev_ind; [done|].
    rewrite last_snoc in Hlast. rewrite length_app, Nat.add_1_r. cbn [trim_end].
    assert (((text0 ++ [t0]) ++ zeros) !! length text0 = Some t0) as ->
      by (rewrite <-app_assoc; by apply list_lookup_middle).
    by rewrite Hlast.
  - apply Forall_app in Hb as [Hb Hc]. inv Hc as [|? ? Hc' _].
    assert (text ++ (blanks ++ [c]) ++ zeros = (text ++ blanks) ++ c :: zeros) as ->
      by (by rewrite <-!app_assoc).
    rewrite length_app, Nat.add_1_r, Nat.add_succ_r, <-length_app. cbn [trim_end].
    rewrite list_lookup_middle by done. rewrite Hc', insert_app_r_alt, Nat.sub_diag by lia.
    cbn [insert list_insert]. rewrite length_app, <-app_assoc, (IH Hb (0 :: zeros)).
    rewrite replicate_S_end, <-!app_assoc. done.
Qed.

(** Every text is its trimmed part and blanks. *)
Lemma split_blanks (s : bytes) : ∃ text blanks, s = text ++ blanks ∧
  Forall (λ c, is_trimmed c = true) blanks ∧
  (match last text with Some c => is_trimmed c | None => false end) = false.
Proof.
  induction s as [|c s (text&blanks&->&Hb&Hl)] using rev_ind.
  - by exists [], [].
  - destruct (is_trimmed c) eqn:Ec.
    + exists text, (blanks ++ [c]). rewrite app_assoc. split_and!; [done| |done].
      apply Forall_app. by split; [|constructor].
    + exists ((text ++ blanks) ++ [c]), []. rewrite app_nil_r, last_snoc. by split_and!.
Qed.

(** The string left of a text of fewer than 256 bytes. *)
Lemma trimmed_string text blanks : no_nul text → Forall (λ c, is_trimmed c = true) blanks →
  (match last text with Some c => is_trimmed c | None => false end) = false →
  c_str (trim_end (length (text ++ blanks)) ((text ++ blanks) ++ [0])) = text.
Proof.
  intros Ht Hb Hl. rewrite length_app, <-app_assoc, trim_end_blanks by done.
  destruct (length blanks); cbn; by apply c_str_app_nul.
Qed.

(** The emergency command: a message of at most 255 bytes without NULs stops
    the server exactly when it is SHUTDOWN followed by line ends and blanks;
    then the thread ends whatever is read later, and any other message leaves
    everything as it is. *)
Theorem emergency_shutdown data later ct : data ≠ [] → no_nul data → (length data ≤ 255)%nat →
  ct_server_on ct = true →
  (ct_server_on (fifo_turn (FifoData data) ct) = false ↔
     ∃ blanks, Forall (λ c, is_trimmed c = true) blanks ∧ data = str "SHUTDOWN" ++ blanks) ∧
  (ct_server_on (fifo_turn (FifoData data) ct) = false →
     fifo_thread_main (FifoData data :: later) ct = Control false (ct_fifo_fd ct)) ∧
  (ct_server_on (fifo_turn (FifoData data) ct) = true →
     fifo_thread_main (FifoData data :: later) ct = fifo_thread_main later ct).
Proof.
  intros Hne Hnn Hlen Hon.
  assert (fifo_turn (FifoData data) ct =
    if strcmp_eq (trim_end (length data) (data ++ [0])) (str "SHUTDOWN")
    then Control false (ct_fifo_fd ct) else ct) as E.
  { destruct data as [|b data]; [done|]. cbv beta iota zeta delta [fifo_turn is_shutdown].
    by rewrite take_ge by lia. }
  cbn [fifo_thread_main]. rewrite Hon, E. clear E.
  destruct (split_blanks data) as (text&blanks&->&Hb&Hl). pose proof Hnn as [Ht _]%no_nul_app_inv.
  pose proof (trimmed_string text blanks Ht Hb Hl) as Hstr.
  destruct (strcmp_eq _ _) eqn:Ecmp.
  - apply strcmp_eq_true in Ecmp. rewrite Hstr in Ecmp. cbn [ct_server_on]. split_and!.
    + split; [|done]. intros _. exists blanks. by rewrite Ecmp.
    + by destruct later.
    + done.
  - apply strcmp_eq_false in Ecmp. rewrite Hstr in Ecmp. rewrite Hon. split_and!; [|done|done].
    split; [done|]. intros (blanks'&Hb'&E). exfalso. apply Ecmp.
    change (c_str (str "SHUTDOWN")) with (str "SHUTDOWN").
    rewrite <-(trimmed_string (str "SHUTDOWN") blanks') by done. rewrite <-E. by rewrite Hstr.
Qed.

Lemma emergency_shutdown_witness :
  ct_server_on (fifo_turn (FifoData (str "SHUTDOWN" ++ [13; 10])) (Control true 5)) = false.
Proof.
  apply (emergency_shutdown (str "SHUTDOWN" ++ [13; 10]) [] (Control true 5)).
  - discriminate.
  - reflexivity.
  - cbn. lia.
  - reflexivity.
  - exists [13; 10]. split; [repeat constructor|reflexivity].
Defined.
