(* ===== verification/Startup.v ===== *)
(** * The resources of the process: [network.c], [ipc_manager.c], [main.c]

    [network_init] and [ipc_manager_init] obtain sockets, an epoll instance,
    shared memory and a FIFO; each call can fail, and most failures close what
    was opened and [exit(1)].  [shutdown_server] and [ipc_manager_cleanup] give
    the resources back.  This file models these calls on the table of open
    descriptors and proves what is open at the end of each path. *)
From S2P Require Import Prelude CInt CString Posix.
#[local] Open Scope Z_scope.

(** ** Processes that can exit *)

(** The open descriptors, those in non-blocking mode, the interest list of
    [epoll_fd], the global descriptors ([-1] before they are opened), whether
    the ring is mapped, and the names present in the system. *)
Record process := Process {
  p_open : list Z;
  p_nonblock : list Z;
  p_watched : list Z;
  p_tcp_listen_fd : Z;
  p_udp_fd : Z;
  p_epoll_fd : Z;
  p_fifo_fd : Z;
  p_mapped : bool;
  p_shm_name : bool;
  p_fifo_name : bool
}.

(** A computation that ends with a value or with [exit(1)] ([None]). *)
Definition X (A : Type) : Type := process → option A * process.
#[export] Instance X_ret : MRet X := λ A a p, (Some a, p).
#[export] Instance X_bind : MBind X := λ A B k m p,
  match m p with
  | (Some a, p') => k a p'
  | (None, p') => (None, p')
  end.
Definition exit1 {A} : X A := λ p, (None, p).
Definition upd (f : process → process) : X unit := λ p, (Some tt, f p).
Definition ask {A} (f : process → A) : X A := λ p, (Some (f p), p).

Definition xwhen (b : bool) (m : X unit) : X unit := if b then m else mret tt.

Definition with_open (o : list Z) (p : process) : process :=
  Process o (p_nonblock p) (p_watched p) (p_tcp_listen_fd p) (p_udp_fd p) (p_epoll_fd p)
    (p_fifo_fd p) (p_mapped p) (p_shm_name p) (p_fifo_name p).
Definition with_nonblock (o : list Z) (p : process) : process :=
  Process (p_open p) o (p_watched p) (p_tcp_listen_fd p) (p_udp_fd p) (p_epoll_fd p)
    (p_fifo_fd p) (p_mapped p) (p_shm_name p) (p_fifo_name p).
Definition with_watched (o : list Z) (p : process) : process :=
  Process (p_open p) (p_nonblock p) o (p_tcp_listen_fd p) (p_udp_fd p) (p_epoll_fd p)
    (p_fifo_fd p) (p_mapped p) (p_shm_name p) (p_fifo_name p).
Definition with_sockets (tcp udp epoll : Z) (p : process) : process :=
  Process (p_open p) (p_nonblock p) (p_watched p) tcp udp epoll
    (p_fifo_fd p) (p_mapped p) (p_shm_name p) (p_fifo_name p).
Definition with_ipc (fifo : Z) (mapped shm_name fifo_name : bool) (p : process) : process :=
  Process (p_open p) (p_nonblock p) (p_watched p) (p_tcp_listen_fd p) (p_udp_fd p)
    (p_epoll_fd p) fifo mapped shm_name fifo_name.

(** A call that creates a descriptor: the one it gives, or -1. *)
Definition sys_open (fd : Z) : X Z :=
  _ ← upd (λ p, if fd =? -1 then p else with_open (p_open p ++ [fd]) p); mret fd.
(** The table without a descriptor. *)
Definition without (l : list Z) (fd : Z) : list Z := filter (λ g, g ≠ fd) l.
Definition sys_close (fd : Z) : X unit :=
  upd (λ p, with_open (without (p_open p) fd) p).
(** [fcntl(fd,F_SETFL,flags|O_NONBLOCK)]. *)
Definition set_nonblock (fd : Z) : X unit :=
  upd (λ p, with_nonblock (p_nonblock p ++ [fd]) p).
(** [epoll_ctl(epoll_fd,EPOLL_CTL_ADD,fd,&ev)] succeeds or not. *)
Definition epoll_add (ok : bool) (fd : Z) : X bool :=
  _ ← upd (λ p, if ok then with_watched (p_watched p ++ [fd]) p else p); mret ok.

(** [if(!ok) { ...; exit(1); }] with the descriptors closed before. *)
Definition check (ok : bool) (closing : list Z) : X unit :=
  if ok then mret tt
  else (_ ← foldr (λ fd k, _ ← sys_close fd; k) (mret tt) closing; exit1).

(** ** [network_init] *)

(** What its calls give: descriptors or -1, success or not. *)
Record net_env := NetEnv {
  ne_tcp : Z; ne_bind_tcp : bool; ne_listen : bool;
  ne_udp : Z; ne_bind_udp : bool;
  ne_epoll : Z; ne_add_tcp : bool; ne_add_udp : bool
}.

Definition open_sockets (e : net_env) : X unit :=
  tcp ← sys_open (ne_tcp e);
  _ ← upd (λ p, with_sockets tcp (p_udp_fd p) (p_epoll_fd p) p);
  _ ← check (negb (tcp =? -1)) [];
  _ ← set_nonblock tcp;
  _ ← check (ne_bind_tcp e) [tcp];
  _ ← check (ne_listen e) [tcp];
  udp ← sys_open (ne_udp e);
  _ ← upd (λ p, with_sockets (p_tcp_listen_fd p) udp (p_epoll_fd p) p);
  _ ← check (negb (udp =? -1)) [tcp];
  _ ← set_nonblock udp;
  _ ← check (ne_bind_udp e) [tcp; udp];
  epoll ← sys_open (ne_epoll e);
  _ ← upd (λ p, with_sockets (p_tcp_listen_fd p) (p_udp_fd p) epoll p);
  _ ← check (negb (epoll =? -1)) [tcp; udp];
  added ← epoll_add (ne_add_tcp e) tcp;
  _ ← check added [];
  added ← epoll_add (ne_add_udp e) udp;
  check added [].

(** ** [ipc_manager_init] and [ipc_manager_cleanup] *)
Record ipc_env := IpcEnv {
  ie_shm : Z; ie_truncate : bool; ie_map : bool; ie_mkfifo : bool; ie_fifo : Z
}.

Definition map_ring (e : ipc_env) : X unit :=
  shm_fd ← sys_open (ie_shm e);
  _ ← check (negb (shm_fd =? -1)) [];
  _ ← upd (λ p, with_ipc (p_fifo_fd p) (p_mapped p) true (p_fifo_name p) p);
  _ ← check (ie_truncate e) [shm_fd];
  _ ← check (ie_map e) [shm_fd];
  _ ← upd (λ p, with_ipc (p_fifo_fd p) true (p_shm_name p) false p);
  xwhen (ie_mkfifo e)
    (fifo ← sys_open (ie_fifo e);
     upd (λ p, with_ipc fifo (p_mapped p) (p_shm_name p) true p)).

Definition ipc_manager_cleanup : X unit :=
  mapped ← ask p_mapped;
  _ ← xwhen mapped (upd (λ p, with_ipc (p_fifo_fd p) false false (p_fifo_name p) p));
  fifo ← ask p_fifo_fd;
  _ ← xwhen (negb (fifo =? -1)) (sys_close fifo);
  upd (λ p, with_ipc (p_fifo_fd p) (p_mapped p) (p_shm_name p) false p).

(** ** [shutdown_server], after the clients *)

(** The globals it closes, in its order. *)
Definition server_fds (users_fd rooms_fd wal_fd : Z) (p : process) : list Z :=
  [p_tcp_listen_fd p; p_udp_fd p; p_epoll_fd p; users_fd; rooms_fd; wal_fd].

Fixpoint close_open (fds : list Z) : X unit :=
  match fds with
  | [] => mret tt
  | fd :: fds' => _ ← xwhen (negb (fd =? -1)) (sys_close fd); close_open fds'
  end.

Definition give_back (users_fd rooms_fd wal_fd : Z) : X unit :=
  fds ← ask (server_fds users_fd rooms_fd wal_fd);
  _ ← close_open fds;
  ipc_manager_cleanup.

(** Run a computation on a known process. *)
Ltac x_step := cbn -[without app filter].
Ltac x_unfold := unfold check, epoll_add, set_nonblock, sys_open, sys_close, xwhen, upd, ask,
  exit1, mbind, X_bind, mret, X_ret; x_step.

(** ** Closing *)

Lemma without_notin l fd : fd ∉ l → without l fd = l.
Proof.
  unfold without. induction l as [|g l IH]; [done|]. rewrite not_elem_of_cons.
  intros [Hg Hl]. rewrite filter_cons_True by auto. by rewrite IH.
Qed.

Lemma without_last l fd : fd ∉ l → without (l ++ [fd]) fd = l.
Proof.
  intros H. unfold without. rewrite filter_app. fold (without l fd).
  rewrite without_notin by done. rewrite filter_cons_False by auto. apply app_nil_r.
Qed.

Lemma without_other l fd g : g ≠ fd → without (l ++ [g]) fd = without l fd ++ [g].
Proof. intros H. unfold without. rewrite filter_app. by rewrite (filter_cons_True _ g). Qed.

(** ** What each path leaves open *)

(** Every call up to [epoll_create1] succeeded. *)
Definition sockets_open (e : net_env) : bool :=
  negb (ne_tcp e =? -1) && ne_bind_tcp e && ne_listen e &&
  negb (ne_udp e =? -1) && ne_bind_udp e && negb (ne_epoll e =? -1).
Definition sockets_ok (e : net_env) : bool :=
  sockets_open e && ne_add_tcp e && ne_add_udp e.

(** The kernel gives descriptors that are not open. *)
Definition fresh_sockets (e : net_env) (p : process) : Prop :=
  (ne_tcp e ∉ p_open p) ∧ (ne_udp e ∉ p_open p) ∧ (ne_epoll e ∉ p_open p) ∧
  ne_tcp e ≠ ne_udp e ∧ ne_tcp e ≠ ne_epoll e ∧ ne_udp e ≠ ne_epoll e.

(** The process after a successful [network_init]. *)
Definition listening (e : net_env) (p : process) : process :=
  Process (p_open p ++ [ne_tcp e; ne_udp e; ne_epoll e])
    (p_nonblock p ++ [ne_tcp e; ne_udp e]) (p_watched p ++ [ne_tcp e; ne_udp e])
    (ne_tcp e) (ne_udp e) (ne_epoll e)
    (p_fifo_fd p) (p_mapped p) (p_shm_name p) (p_fifo_name p).

Lemma open_sockets_correct_run e p : fresh_sockets e p →
  let '(r, p') := open_sockets e p in
  if sockets_ok e then r = Some tt ∧ p' = listening e p
  else r = None ∧
    p_open p' = (if sockets_open e then p_open p ++ [ne_tcp e; ne_udp e; ne_epoll e]
                 else p_open p).
Proof.
  intros (Ht&Hu&_&Htu%not_eq_sym&_). unfold sockets_ok, sockets_open, listening.
  destruct e as [tcp bt ls udp bu epoll at_ au], p. unfold open_sockets.
  cbn [ne_tcp ne_bind_tcp ne_listen ne_udp ne_bind_udp ne_epoll ne_add_tcp ne_add_udp
    p_open] in *.
  x_unfold. destruct (tcp =? -1); x_step; [done|].
  destruct bt; x_step; [|by rewrite without_last].
  destruct ls; x_step; [|by rewrite without_last].
  destruct (udp =? -1); x_step; [by rewrite without_last|].
  destruct bu; x_step; [|by rewrite without_other, (without_last _ tcp), without_last].
  destruct (epoll =? -1); x_step; [by rewrite without_other, (without_last _ tcp), without_last|].
  rewrite <-!app_assoc. destruct at_; x_step; [|done]. destruct au; x_step; [|done].
  by rewrite <-app_assoc.
Qed.

(** C32. [network_init] succeeds exactly when all its calls do; then two
    non-blocking sockets and an epoll instance that watches both are open.
    Otherwise it exits, with every descriptor it had opened closed again,
    except that a failure of [epoll_ctl] leaves all three to the kernel. *)
Theorem open_sockets_correct e p : fresh_sockets e p →
  let '(r, p') := open_sockets e p in
  if sockets_ok e then r = Some tt ∧ p' = listening e p
  else r = None ∧
    p_open p' = (if sockets_open e then p_open p ++ [ne_tcp e; ne_udp e; ne_epoll e]
                 else p_open p).
Proof. apply open_sockets_correct_run. Qed.

(** The process after a successful [ipc_manager_init]. *)
Definition fifo_of (e : ipc_env) : list Z :=
  if ie_mkfifo e then filter (λ fd, fd ≠ -1) [ie_fifo e] else [].
Definition sharing (e : ipc_env) (p : process) : process :=
  Process (p_open p ++ ie_shm e :: fifo_of e) (p_nonblock p) (p_watched p)
    (p_tcp_listen_fd p) (p_udp_fd p) (p_epoll_fd p)
    (if ie_mkfifo e then ie_fifo e else p_fifo_fd p) true true (ie_mkfifo e).
Definition ipc_ok (e : ipc_env) : bool :=
  negb (ie_shm e =? -1) && ie_truncate e && ie_map e.

(** [ipc_manager_init] succeeds when the memory is mapped, with or without the
    FIFO; otherwise it exits and leaves no new descriptor open. *)
Lemma map_ring_correct e p : ie_shm e ∉ p_open p →
  let '(r, p') := map_ring e p in
  if ipc_ok e then r = Some tt ∧ p' = sharing e p
  else r = None ∧ p_open p' = p_open p.
Proof.
  intros Hs. unfold ipc_ok, map_ring, sharing, fifo_of.
  destruct e as [shm tr mp mk fifo], p.
  cbn [ie_shm ie_truncate ie_map ie_mkfifo ie_fifo p_open] in *.
  x_unfold. destruct (shm =? -1); x_step; [done|].
  destruct tr; x_step; [|by rewrite without_last].
  destruct mp; x_step; [|by rewrite without_last].
  destruct mk; x_step; [|done].
  destruct (Z.eqb_spec fifo (-1)) as [->|Hf]; x_step; [done|].
  rewrite filter_cons_True, <-app_assoc by done. done.
Qed.

Lemma elem_of_without l fd x : x ∈ without l fd ↔ x ∈ l ∧ x ≠ fd.
Proof. unfold without. rewrite list_elem_of_filter. tauto. Qed.

Lemma close_open_run fds : ∀ p, ∃ o, close_open fds p = (Some tt, with_open o p) ∧
  ∀ x, x ∈ o ↔ x ∈ p_open p ∧ (x ∉ fds ∨ x = -1).
Proof.
  induction fds as [|fd fds IH]; intros p; cbn [close_open].
  { exists (p_open p). split; [by destruct p|]. intros x.
    assert (x ∉ (@nil Z)) by apply not_elem_of_nil. tauto. }
  unfold xwhen. destruct (Z.eqb_spec fd (-1)) as [->|Hfd]; cbn [negb].
  - destruct (IH p) as (o&E&Ho). exists o. split; [exact E|]. intros x.
    rewrite Ho, not_elem_of_cons. destruct (decide (x = -1)); tauto.
  - destruct (IH (with_open (without (p_open p) fd) p)) as (o&E&Ho).
    exists o. split; [exact E|]. intros x. cbn in Ho.
    rewrite Ho, elem_of_without, not_elem_of_cons.
    destruct (decide (x = -1)) as [->|]; [|tauto].
    assert (-1 ≠ fd) by auto. tauto.
Qed.

(** After the start-up no entry of the table is -1. *)
Lemma no_minus_one e ie p : sockets_ok e = true → ipc_ok ie = true →
  Forall (λ fd, 0 ≤ fd) (p_open p) →
  (-1 ∉ p_open (sharing ie (listening e p))) ∧ ¬ (-1 = ie_shm ie ∨ -1 ∈ fifo_of ie).
Proof.
  unfold sockets_ok, sockets_open, ipc_ok. rewrite !andb_true_iff, !negb_true_iff, !Z.eqb_neq.
  intros He Hie H0. assert (-1 ∉ p_open p) as Hp.
  { intros Hin. rewrite Forall_forall in H0. apply H0 in Hin. lia. }
  assert (-1 ∉ fifo_of ie) as Hf.
  { unfold fifo_of. destruct (ie_mkfifo ie); [|by apply not_elem_of_nil].
    by intros [? _]%list_elem_of_filter. }
  unfold sharing, listening. cbn [p_open]. set_unfold. intuition congruence.
Qed.

Lemma give_back_run users_fd rooms_fd wal_fd p o :
  close_open (server_fds users_fd rooms_fd wal_fd p) p = (Some tt, with_open o p) →
  p_mapped p = true →
  give_back users_fd rooms_fd wal_fd p = (Some tt,
    with_ipc (p_fifo_fd p) false false false
      (with_open (if p_fifo_fd p =? -1 then o else without o (p_fifo_fd p)) p)).
Proof.
  intros Hrun Hm. unfold give_back, ipc_manager_cleanup, mbind, X_bind, ask. rewrite Hrun.
  destruct p. cbn in Hm. subst. x_unfold. by destruct (_ =? -1).
Qed.

Lemma startup_fresh e ie p :
  NoDup (p_open p ++ [ne_tcp e; ne_udp e; ne_epoll e; ie_shm ie] ++ fifo_of ie) →
  fresh_sockets e p ∧ ie_shm ie ∉ p_open (listening e p).
Proof.
  rewrite NoDup_app. cbn [app]. rewrite !NoDup_cons.
  unfold fresh_sockets, listening. cbn [p_open]. intros (_&Hp&Hnd).
  assert (∀ x, x ∈ [ne_tcp e; ne_udp e; ne_epoll e; ie_shm ie] → x ∉ p_open p) as Hnew.
  { intros x Hx Hin. apply (Hp x Hin).
    change (x ∈ [ne_tcp e; ne_udp e; ne_epoll e; ie_shm ie] ++ fifo_of ie).
    rewrite elem_of_app. by left. }
  rewrite !not_elem_of_cons in Hnd. rewrite not_elem_of_app, !not_elem_of_cons.
  assert (∀ x, x ∉ (@nil Z)) by apply not_elem_of_nil.
  split_and!; try (apply Hnew; rewrite !elem_of_cons; tauto);
    destruct_and!; auto using not_eq_sym.
Qed.

(** Releasing what a successful start-up has opened. *)
Lemma release_startup e ie users_fd rooms_fd wal_fd p :
  p_open p = [rooms_fd; wal_fd; users_fd] → p_fifo_fd p = -1 →
  sockets_ok e = true → ipc_ok ie = true → Forall (λ fd, 0 ≤ fd) (p_open p) →
  NoDup (p_open p ++ [ne_tcp e; ne_udp e; ne_epoll e; ie_shm ie] ++ fifo_of ie) →
  let r := give_back users_fd rooms_fd wal_fd (sharing ie (listening e p)) in
  r.1 = Some tt ∧ (∀ fd, fd ∈ p_open r.2 ↔ fd = ie_shm ie) ∧
  p_mapped r.2 = false ∧ p_shm_name r.2 = false ∧ p_fifo_name r.2 = false.
Proof.
  intros Ho Hfifo He Hie H0 Hnd.
  set (p2 := sharing ie (listening e p)).
  destruct (close_open_run (server_fds users_fd rooms_fd wal_fd p2) p2) as (o&Hrun&Hopen).
  rewrite (give_back_run _ _ _ _ _ Hrun) by done. cbn [fst snd].
  split_and!; [done| |done..].
  assert (∀ x, x ∈ o ↔ x = ie_shm ie ∨ x ∈ fifo_of ie) as Ho2.
  { intros x. rewrite Hopen. destruct (decide (x = -1)) as [->|Hx].
    - pose proof (no_minus_one e ie p He Hie H0) as [Hp2 ?]. tauto.
    - clear -Ho Hx Hnd. unfold p2, sharing, listening, server_fds. rewrite Ho in *.
      cbn [p_open p_tcp_listen_fd p_udp_fd p_epoll_fd app] in *.
      rewrite !NoDup_cons in Hnd. set_unfold. intuition (subst; congruence). }
  intros x. cbn [p_open with_ipc with_open]. change (p_fifo_fd p2) with (if ie_mkfifo ie then ie_fifo ie else p_fifo_fd p).
  rewrite Hfifo. unfold fifo_of in *.
  assert (ie_shm ie ∉ (if ie_mkfifo ie then filter (λ fd, fd ≠ -1) [ie_fifo ie] else []))
    as Hns by (rewrite Ho in Hnd; cbn [app] in Hnd; rewrite !NoDup_cons in Hnd; tauto).
  destruct (ie_mkfifo ie); [|cbn; rewrite Ho2, elem_of_nil; tauto].
  destruct (Z.eqb_spec (ie_fifo ie) (-1)) as [E|E]; rewrite ?elem_of_without, Ho2; clear Ho2 Hopen Hnd.
  - rewrite filter_cons_False by auto. cbn. rewrite elem_of_nil. tauto.
  - rewrite filter_cons_True in * by done. cbn in *. rewrite list_elem_of_singleton in *.
    intuition congruence.
Qed.

(** What the start-up opens the shutdown gives back: after a successful
    [network_init] and [ipc_manager_init], closing the globals and
    [ipc_manager_cleanup] leave one descriptor open, that of the shared memory
    object, which nothing closes; the memory is unmapped and neither its name
    nor that of the FIFO is left. *)
Theorem shutdown_releases_startup e ie users_fd rooms_fd wal_fd p :
  p_open p = [rooms_fd; wal_fd; users_fd] → p_fifo_fd p = -1 →
  sockets_ok e = true → ipc_ok ie = true → Forall (λ fd, 0 ≤ fd) (p_open p) →
  NoDup (p_open p ++ [ne_tcp e; ne_udp e; ne_epoll e; ie_shm ie] ++ fifo_of ie) →
  ∃ p1 p2 p3, open_sockets e p = (Some tt, p1) ∧ map_ring ie p1 = (Some tt, p2) ∧
    give_back users_fd rooms_fd wal_fd p2 = (Some tt, p3) ∧
    (∀ fd, fd ∈ p_open p3 ↔ fd = ie_shm ie) ∧
    p_mapped p3 = false ∧ p_shm_name p3 = false ∧ p_fifo_name p3 = false.
Proof.
  intros Ho Hfifo He Hie H0 Hnd. destruct (startup_fresh e ie p Hnd) as [Hfs Hshm].
  pose proof (open_sockets_correct_run e p Hfs) as H1. rewrite He in H1.
  destruct (open_sockets e p) as [r1 p1] eqn:E1. destruct H1 as [-> ->].
  pose proof (map_ring_correct ie (listening e p) Hshm) as H2. rewrite Hie in H2.
  destruct (map_ring ie (listening e p)) as [r2 p2'] eqn:E2. destruct H2 as [-> ->].
  destruct (release_startup e ie users_fd rooms_fd wal_fd p Ho Hfifo He Hie H0 Hnd)
    as (H3&Hrest). cbn zeta in *.
  destruct (give_back _ _ _ _) as [r p3] eqn:E3. cbn [fst snd] in *. subst r.
  exists (listening e p), (sharing ie (listening e p)), p3. split_and!; try done; apply Hrest.
Qed.

(** ** Witnesses: the descriptors a process on Linux gets *)
Definition new_descriptors : process :=
  Process [3; 4; 5] [] [] (-1) (-1) (-1) (-1) false false false.
Definition net_success : net_env := NetEnv 6 true true 7 true 8 true true.
Definition ipc_success : ipc_env := IpcEnv 9 true true true 10.

Lemma open_sockets_correct_witness :
  fresh_sockets net_success new_descriptors ∧
  open_sockets net_success new_descriptors =
    (Some tt, listening net_success new_descriptors).
Proof.
  assert (fresh_sockets net_success new_descriptors) as H.
  { unfold fresh_sockets. cbn. set_unfold. lia. }
  split; [exact H|]. pose proof (open_sockets_correct _ _ H) as Hc.
  destruct (open_sockets net_success new_descriptors) as [r p].
  by destruct Hc as [-> ->].
Defined.

Lemma shutdown_releases_startup_witness : ∃ p1 p2 p3,
  open_sockets net_success new_descriptors = (Some tt, p1) ∧
  map_ring ipc_success p1 = (Some tt, p2) ∧
  give_back 5 3 4 p2 = (Some tt, p3) ∧ ∀ fd, fd ∈ p_open p3 ↔ fd = 9.
Proof.
  destruct (shutdown_releases_startup net_success ipc_success 5 3 4 new_descriptors)
    as (p1&p2&p3&H1&H2&H3&H4&_); [done|done|done|done| |by_decision|].
  { repeat (constructor; [lia|]). constructor. }
  exists p1, p2, p3. split; [exact H1|]. split; [exact H2|]. split; [exact H3|exact H4].
Defined.

(** A port in use: the listening socket is closed again. *)
Example port_in_use :
  (λ '(r, p), (r, p_open p)) (open_sockets (NetEnv 6 false true 7 true 8 true true) new_descriptors) =
  (None, [3; 4; 5]).
Proof. reflexivity. Qed.
