(* ===== verification/Auth.v ===== *)
(** * [src/server/auth.c]: accounts, authentication, permissions

    The users file is the concatenation of fixed-size [user_record]s; every
    operation scans it from the start.  The operations come first, then the
    invariant [users_rep] (the file holds well-formed records with distinct
    active names and their index as id) and what each operation does to it. *)
From S2P Require Import Prelude CInt CString Protocol Hash Posix.
#[local] Open Scope Z_scope.

Definition user_records (data : bytes) : list user_record :=
  decode_user <$> chunks sizeof_user_record data.

(** [memset(&rec,0,sizeof rec)] followed by the assignments of [auth_init]
    and [auth_add_user]. *)
Definition new_user_record (id : Z) (username password role : bytes) : user_record :=
  UserRecord id (strcpy (memset 0 32) username) (strcpy (memset 0 16) role)
    (sha256_hash password) (memset 0 3) 1.

Definition admin_record : user_record :=
  new_user_record 0 (str "admin") (str "admin123") (str "ADMIN").

Definition write_default_admin (f : file) : file :=
  (file_write f 0 (encode_user admin_record)).2.

(** The users file the server starts with: the existing one, or a new one
    with the default administrator; [None] is [exit(1)]. *)
Definition auth_init (existing : option file) (created : option file) : option file :=
  match existing with
  | Some f => Some f
  | None =>
    match created with
    | None => None
    | Some f => Some (write_default_admin f)
    end
  end.

(** The scan for an active record of that name, with its index. *)
Fixpoint find_user (recs : list user_record) (username : bytes) (i : nat)
    : option (nat * user_record) :=
  match recs with
  | [] => None
  | rec :: recs' =>
    if negb (ur_is_active rec =? 0) && strcmp_eq (ur_username rec) username
    then Some (i, rec) else find_user recs' username (S i)
  end.

Definition role_code (role : bytes) : Z :=
  if strcmp_eq role (str "ADMIN") then ROLE_ADMIN
  else if strcmp_eq role (str "MODERATOR") then ROLE_MODERATOR
  else ROLE_USER.

(** [Some role] is the return value 1 with [*role_out = role]. *)
Definition auth_authenticate (f : file) (username password : bytes) : option Z :=
  match find_user (user_records (f_data f)) username 0 with
  | None => None
  | Some (_, rec) =>
    let computed_hash := sha256_hash password in
    if negb (safe_memcmp computed_hash (ur_password_hash rec) 64 =? 0) then None
    else Some (role_code (ur_role rec))
  end.

Definition auth_check_permission (role command : Z) : bool :=
  if (command =? CMD_LOGIN) || (command =? CMD_LOGOUT) || (command =? CMD_JOIN)
     || (command =? CMD_LEAVE) || (command =? CMD_LIST) || (command =? CMD_STATUS)
  then true
  else if command =? CMD_PROMOTE then role =? ROLE_ADMIN
  else if (command =? CMD_CREATE) || (command =? CMD_KICK) || (command =? CMD_MUTE)
  then (role =? ROLE_ADMIN) || (role =? ROLE_MODERATOR)
  else false.

(** The loop of [auth_add_user]: [None] when the name is taken, else the
    number of active records. *)
Fixpoint count_users (recs : list user_record) (username : bytes) (user_count : Z)
    : option Z :=
  match recs with
  | [] => Some user_count
  | rec :: recs' =>
    let active := negb (ur_is_active rec =? 0) in
    let user_count' := if active then user_count + 1 else user_count in
    if active && strcmp_eq (ur_username rec) username then None
    else count_users recs' username user_count'
  end.

Definition auth_add_user (f : file) (username password role : bytes) : bool * file :=
  match count_users (user_records (f_data f)) username 0 with
  | None => (false, f)
  | Some user_count =>
    let new_user := new_user_record user_count username password role in
    let '(n, f') := file_write f (length (f_data f)) (encode_user new_user) in
    (n =? Z.of_nat sizeof_user_record, f')
  end.

(** [strncpy(rec.role,new_role,15); rec.role[15]=0]. *)
Definition set_user_role (rec : user_record) (new_role : bytes) : user_record :=
  UserRecord (ur_user_id rec) (ur_username rec)
    (<[(MAX_ROLE_LEN - 1)%nat := 0]>
       (strncpy (ur_role rec) new_role (MAX_ROLE_LEN - 1)))
    (ur_password_hash rec) (ur_padding rec) (ur_is_active rec).

Definition auth_promote_user (f : file) (username new_role : bytes) : bool * file :=
  match find_user (user_records (f_data f)) username 0 with
  | None => (false, f)
  | Some (i, rec) =>
    let rec' := set_user_role rec new_role in
    let '(n, f') := file_write f (i * sizeof_user_record) (encode_user rec') in
    (n =? Z.of_nat sizeof_user_record, f')
  end.

(** [db_read_user_by_name] of [file_db.c] on the descriptor [users_fd]: the
    record of the same scan. *)
Definition db_read_user_by_name (users_fd : Z) (f : file) (username : bytes)
    : option user_record :=
  if users_fd =? -1 then None
  else snd <$> find_user (user_records (f_data f)) username 0.

(** ** The invariant of the users file *)

Definition active (rec : user_record) : bool := negb (ur_is_active rec =? 0).

(** A record as the program writes them: sizes, and terminated strings. *)
Record good_user (i : nat) (rec : user_record) : Prop := {
  gu_wf : wf_user_record rec;
  gu_active : ur_is_active rec = 1;
  gu_id : ur_user_id rec = Z.of_nat i;
  gu_name : (strlen (ur_username rec) < 32)%nat;
  gu_role : (strlen (ur_role rec) < 16)%nat;
  gu_hash : Forall is_u8 (ur_password_hash rec)
}.

Record users_rep (data : bytes) (recs : list user_record) : Prop := {
  ur_data : data = concat (encode_user <$> recs);
  ur_good : ∀ i rec, recs !! i = Some rec → good_user i rec;
  ur_names : NoDup (c_str ∘ ur_username <$> recs)
}.

Lemma users_rep_uniform data recs : users_rep data recs →
  uniform sizeof_user_record (encode_user <$> recs).
Proof.
  intros []. apply Forall_fmap, Forall_lookup. intros i rec H.
  apply length_encode_user. by apply (ur_good0 i).
Qed.

Lemma users_rep_records data recs : users_rep data recs → user_records data = recs.
Proof.
  intros H. pose proof (users_rep_uniform _ _ H) as Hu. destruct H as [-> Hg _].
  unfold user_records. rewrite chunks_concat by (done || unfold sizeof_user_record; lia).
  rewrite <-list_fmap_compose. apply list_eq. intros i.
  rewrite list_lookup_fmap. destruct (recs !! i) as [rec|] eqn:E; cbn; [|done].
  f_equal. apply decode_encode_user. by apply (Hg i).
Qed.

Lemma find_user_Some recs u i j rec :
  find_user recs u j = Some (i, rec) →
  ∃ k, i = (j + k)%nat ∧ recs !! k = Some rec ∧ active rec = true ∧
    c_str (ur_username rec) = c_str u.
Proof.
  revert j. induction recs as [|r recs IH]; intros j; cbn; [done|].
  destruct (negb (ur_is_active r =? 0) && _) eqn:E.
  - intros [= <- <-]. apply andb_true_iff in E as [Ha Hn].
    exists 0%nat. split_and!; [lia|done|done|by apply strcmp_eq_true].
  - intros (k&->&?&?&?)%IH. exists (S k). split_and!; auto; lia.
Qed.

Lemma find_user_None recs u j :
  find_user recs u j = None ↔
  ∀ rec, rec ∈ recs → active rec = true → c_str (ur_username rec) ≠ c_str u.
Proof.
  revert j. induction recs as [|r recs IH]; intros j; cbn.
  { split; [intros _ ? ?%elem_of_nil; done|done]. }
  setoid_rewrite elem_of_cons.
  destruct (negb (ur_is_active r =? 0) && _) eqn:E.
  - apply andb_true_iff in E as [Ha Hn%strcmp_eq_true]. split; [done|].
    intros H. by destruct (H r (or_introl eq_refl) Ha).
  - rewrite IH. split; intros H rec; [|by auto].
    intros [->|Hin] Ha; [|by auto]. unfold active in Ha. rewrite Ha in E.
    by apply strcmp_eq_false in E.
Qed.

(** With distinct names and active records the scan is a lookup. *)
Lemma find_user_unique recs u i rec : NoDup (c_str ∘ ur_username <$> recs) →
  recs !! i = Some rec → active rec = true → c_str (ur_username rec) = c_str u →
  find_user recs u 0 = Some (i, rec).
Proof.
  intros Hnd Hi Ha Hu. destruct (find_user recs u 0) as [[k r]|] eqn:E.
  - apply find_user_Some in E as (k'&->&Hk&_&Hn).
    assert (k' = i) as ->.
    { eapply (NoDup_lookup _ _ _ (c_str u) Hnd); rewrite list_lookup_fmap.
      - rewrite Hk. cbn. by rewrite Hn.
      - rewrite Hi. cbn. by rewrite Hu. }
    by simplify_eq.
  - rewrite find_user_None in E. destruct (E rec); [|done|done].
    by eapply list_elem_of_lookup_2.
Qed.

Lemma count_users_None recs u n :
  count_users recs u n = None ↔ ∃ r, find_user recs u 0 = Some r.
Proof.
  assert (∀ n j, count_users recs u n = None ↔ ∃ r, find_user recs u j = Some r) as H.
  { clear n. induction recs as [|r recs IH]; intros n j; cbn; [split; [done|by intros []]|].
    destruct (negb (ur_is_active r =? 0) && _); [|apply IH].
    split; [by eauto|done]. }
  apply H.
Qed.

Lemma count_users_all_active recs u n k :
  (∀ rec, rec ∈ recs → active rec = true) →
  count_users recs u n = Some k → k = n + Z.of_nat (length recs).
Proof.
  revert n. induction recs as [|r recs IH]; intros n Ha; cbn.
  { intros [= <-]. lia. }
  pose proof (Ha r (list_elem_of_here r recs)) as Hr. unfold active in Hr.
  rewrite Hr. cbn. destruct (strcmp_eq _ _); [done|].
  intros H%IH; [lia|]. intros rec Hin. apply Ha. by constructor.
Qed.

Lemma good_user_active i rec : good_user i rec → active rec = true.
Proof. intros []. unfold active. by rewrite gu_active0. Qed.

Lemma users_rep_active data recs rec : users_rep data recs → rec ∈ recs →
  active rec = true.
Proof.
  intros [_ Hg _] [i Hi]%list_elem_of_lookup_1. eauto using good_user_active.
Qed.

(** What a new record holds. *)
Lemma good_new_user i u p r :
  (strlen u < 32)%nat → (strlen r < 16)%nat → is_i32 (Z.of_nat i) →
  good_user i (new_user_record (Z.of_nat i) u p r).
Proof.
  intros Hu Hr Hi. unfold new_user_record. split; cbn; try done.
  - split; cbn; try done.
    + rewrite length_strcpy; [done|cbn; lia].
    + rewrite length_strcpy; [done|cbn; lia].
    + apply length_sha256_hash.
  - unfold strlen. by rewrite c_str_strcpy.
  - unfold strlen. by rewrite c_str_strcpy.
  - apply sha256_hash_bytes.
Qed.

(** The index of a record fits the [int32_t] id for any file the program
    can address. *)
Definition small_file (recs : list user_record) : Prop :=
  Z.of_nat (length recs) < 2 ^ 31.

Lemma users_rep_snoc data recs u p r :
  users_rep data recs → small_file recs →
  (strlen u < 32)%nat → (strlen r < 16)%nat → find_user recs u 0 = None →
  let rec := new_user_record (Z.of_nat (length recs)) u p r in
  users_rep (data ++ encode_user rec) (recs ++ [rec]).
Proof.
  intros Hrep Hs Hu Hr Hf rec. pose proof (λ r', users_rep_active _ _ r' Hrep) as Hact.
  destruct Hrep as [-> Hg Hnd]. split.
  - rewrite fmap_app, concat_app. cbn. by rewrite app_nil_r.
  - intros i r' [[_ Hi]|[-> <-]]%lookup_snoc_Some; [by apply Hg|].
    apply good_new_user; [done..|]. unfold small_file in Hs. int_lia.
  - rewrite fmap_app. apply NoDup_app. split_and!; [done| |apply NoDup_singleton].
    intros x (r'&->&Hin)%list_elem_of_fmap Hx%list_elem_of_singleton.
    cbn in Hx. rewrite c_str_strcpy in Hx.
    rewrite find_user_None in Hf. eapply Hf; eauto.
Qed.

(** ** The abstract specification: a map of accounts *)
Module AccountSpec.
Record account := Account { acc_hash : bytes; acc_role : bytes }.

Definition authenticate (m : gmap bytes account) (u p : bytes) : option Z :=
  a ← m !! u;
  if bool_decide (acc_hash a = take 64 (sha256_hash p))
  then Some (role_code (acc_role a)) else None.

Definition register (m : gmap bytes account) (u p r : bytes)
    : bool * gmap bytes account :=
  match m !! u with
  | Some _ => (false, m)
  | None => (true, <[u := Account (take 64 (sha256_hash p)) r]> m)
  end.

Definition promote (m : gmap bytes account) (u r : bytes)
    : bool * gmap bytes account :=
  match m !! u with
  | None => (false, m)
  | Some a => (true, <[u := Account (acc_hash a) r]> m)
  end.
End AccountSpec.
Import AccountSpec.

Definition account_entry (rec : user_record) : bytes * account :=
  (c_str (ur_username rec),
   Account (take 64 (ur_password_hash rec)) (c_str (ur_role rec))).

(** The accounts a users file stands for. *)
Definition accounts (recs : list user_record) : gmap bytes account :=
  list_to_map (account_entry <$> recs).

Lemma accounts_names recs :
  (account_entry <$> recs).*1 = c_str ∘ ur_username <$> recs.
Proof. by rewrite <-list_fmap_compose. Qed.

Lemma accounts_lookup data recs u : users_rep data recs → no_nul u →
  accounts recs !! u =
  (λ '(_, rec), (account_entry rec).2) <$> find_user recs u 0.
Proof.
  intros Hrep Hu. pose proof (ur_names _ _ Hrep) as Hnd.
  destruct (find_user recs u 0) as [[i rec]|] eqn:E; cbn.
  - apply find_user_Some in E as (k&->&Hk&_&Hn).
    rewrite (c_str_id u) in Hn by done.
    apply elem_of_list_to_map_1; [by rewrite accounts_names|].
    apply list_elem_of_fmap. exists rec. split; [|by eapply list_elem_of_lookup_2].
    unfold account_entry. by rewrite Hn.
  - apply not_elem_of_list_to_map_1. rewrite accounts_names.
    intros (rec&->&Hin)%list_elem_of_fmap. rewrite find_user_None in E.
    eapply E; [done|by eapply users_rep_active|]. cbn. by rewrite c_str_idemp.
Qed.

Lemma role_code_c_str r : role_code (c_str r) = role_code r.
Proof. unfold role_code, strcmp_eq. by rewrite c_str_idemp. Qed.

#[local] Arguments role_code : simpl never.
#[local] Arguments take : simpl never.
Lemma authenticate_refines f recs u p :
  users_rep (f_data f) recs → no_nul u →
  auth_authenticate f u p = authenticate (accounts recs) u p.
Proof.
  intros Hrep Hu. unfold auth_authenticate, authenticate.
  rewrite (users_rep_records _ _ Hrep), (accounts_lookup _ _ _ Hrep) by done.
  destruct (find_user recs u 0) as [[i rec]|] eqn:E; cbn; [|done].
  apply find_user_Some in E as (k&->&Hk&_&_).
  pose proof (ur_good _ _ Hrep _ _ Hk) as [Hwf _ _ _ _ Hh].
  pose proof (safe_memcmp_eq (sha256_hash p) (ur_password_hash rec) 64
    (sha256_hash_bytes p) Hh) as Hcmp.
  rewrite length_sha256_hash, (wur_hash _ Hwf) in Hcmp.
  specialize (Hcmp ltac:(lia) ltac:(lia)). rewrite role_code_c_str.
  destruct (Z.eqb_spec (safe_memcmp (sha256_hash p) (ur_password_hash rec) 64) 0) as [H|H];
    cbn.
  - rewrite bool_decide_eq_true_2; [done|]. symmetry. by apply Hcmp.
  - rewrite bool_decide_eq_false_2; [done|]. intros He. apply H, Hcmp. done.
Qed.

Lemma find_user_accounts data recs u : users_rep data recs → no_nul u →
  find_user recs u 0 = None ↔ accounts recs !! u = None.
Proof.
  intros Hrep Hu. rewrite (accounts_lookup _ _ _ Hrep Hu).
  by destruct (find_user recs u 0) as [[i rec]|].
Qed.

(** The lookup finds the account of that name, if there is one. *)
Lemma db_read_user_refines users_fd f recs u : users_fd ≠ -1 →
  users_rep (f_data f) recs → no_nul u →
  (λ rec, (account_entry rec).2) <$> db_read_user_by_name users_fd f u = accounts recs !! u.
Proof.
  intros Hfd Hrep Hu. unfold db_read_user_by_name.
  rewrite (proj2 (Z.eqb_neq _ _) Hfd), (users_rep_records _ _ Hrep).
  rewrite (accounts_lookup _ _ _ Hrep Hu).
  by destruct (find_user recs u 0) as [[i rec]|].
Qed.

Lemma count_users_free data recs u : users_rep data recs →
  find_user recs u 0 = None →
  count_users recs u 0 = Some (Z.of_nat (length recs)).
Proof.
  intros Hrep Hf. destruct (count_users recs u 0) as [k|] eqn:E.
  - f_equal. apply count_users_all_active in E; [lia|].
    intros rec. by eapply users_rep_active.
  - apply count_users_None in E as [? ?]. congruence.
Qed.

Lemma register_taken f recs u p r : users_rep (f_data f) recs →
  find_user recs u 0 ≠ None → auth_add_user f u p r = (false, f).
Proof.
  intros Hrep Hf. unfold auth_add_user. rewrite (users_rep_records _ _ Hrep).
  destruct (find_user recs u 0) eqn:E; [|done].
  assert (count_users recs u 0 = None) as ->; [|done].
  apply count_users_None. eauto.
Qed.

Lemma register_free f recs u p r : users_rep (f_data f) recs → healthy f →
  small_file recs → (strlen u < 32)%nat → (strlen r < 16)%nat →
  find_user recs u 0 = None →
  let rec := new_user_record (Z.of_nat (length recs)) u p r in
  auth_add_user f u p r = (true, File (f_data f ++ encode_user rec) []).
Proof.
  intros Hrep Hh Hs Hu Hr Hf rec. unfold auth_add_user.
  rewrite (users_rep_records _ _ Hrep), (count_users_free _ _ _ Hrep Hf).
  rewrite file_write_healthy by done. fold rec.
  assert (wf_user_record rec) as Hwf.
  { apply (good_new_user (length recs)); [done..|]. unfold small_file in Hs. int_lia. }
  rewrite length_encode_user by done. cbn [Z.eqb]. rewrite Z.eqb_refl.
  unfold file_put. do 2 f_equal.
  rewrite take_ge, Nat.sub_diag, drop_ge by lia. cbn. by rewrite app_nil_r.
Qed.

Lemma register_refines f recs u p r : users_rep (f_data f) recs → healthy f →
  small_file recs → no_nul u → (length u < 32)%nat →
  no_nul r → (length r < 16)%nat →
  let '(ok, f') := auth_add_user f u p r in
  ∃ recs', users_rep (f_data f') recs' ∧ healthy f' ∧
    register (accounts recs) u p r = (ok, accounts recs').
Proof.
  intros Hrep Hh Hs Hu Hul Hr Hrl. unfold register.
  assert (strlen u < 32)%nat by (unfold strlen; rewrite c_str_id; done).
  assert (strlen r < 16)%nat by (unfold strlen; rewrite c_str_id; done).
  destruct (find_user recs u 0) eqn:E.
  - rewrite (register_taken _ _ _ _ _ Hrep) by congruence.
    exists recs. split_and!; [done..|].
    rewrite (accounts_lookup _ _ _ Hrep), E by done. by destruct p0.
  - rewrite (register_free _ _ _ _ _ Hrep) by done.
    eexists. split; [by apply users_rep_snoc|]. split; [done|].
    rewrite (proj1 (find_user_accounts _ _ _ Hrep Hu)) by done.
    f_equal. unfold accounts. rewrite fmap_app, list_to_map_app. cbn.
    rewrite !c_str_strcpy, !c_str_id by done.
    apply map_eq. intros k. rewrite lookup_union. destruct (decide (k = u)) as [->|].
    + rewrite !lookup_insert_eq.
      apply (find_user_accounts _ _ _ Hrep Hu) in E. unfold accounts in E.
      by rewrite E.
    + rewrite !lookup_insert_ne, lookup_empty by done.
      by destruct (list_to_map _ !! k).
Qed.

(** ** Promotion *)

(** The role array after the bounded copy and its terminator. *)
Lemma set_role_array dst r : length dst = 16%nat →
  let s := take 15 (c_str r) in
  <[(MAX_ROLE_LEN - 1)%nat := 0]> (strncpy dst r (MAX_ROLE_LEN - 1)) =
  s ++ 0 :: replicate (15 - length s) 0.
Proof. apply bounded_copy. Qed.

Lemma c_str_set_role dst r : length dst = 16%nat →
  c_str (<[(MAX_ROLE_LEN - 1)%nat := 0]> (strncpy dst r (MAX_ROLE_LEN - 1))) =
  take 15 (c_str r).
Proof. apply c_str_bounded_copy. Qed.

Lemma set_user_role_good i rec r : good_user i rec → good_user i (set_user_role rec r).
Proof.
  intros [[] ? ? ? ? ?]. split; cbn [set_user_role ur_user_id ur_username ur_role
    ur_password_hash ur_padding ur_is_active]; try done.
  - split; try done. cbn [set_user_role ur_role]. rewrite set_role_array by done. len.
  - unfold strlen. rewrite c_str_set_role by done. len.
Qed.

Lemma names_insert (recs : list user_record) (i : nat) rec rec' : recs !! i = Some rec →
  c_str (ur_username rec') = c_str (ur_username rec) →
  c_str ∘ ur_username <$> <[i:=rec']> recs = c_str ∘ ur_username <$> recs.
Proof.
  intros Hi Hn. rewrite list_fmap_insert. apply list_insert_id.
  rewrite list_lookup_fmap, Hi. cbn. by rewrite Hn.
Qed.

(** Overwriting one record by another of the same name. *)
Lemma users_rep_insert data recs (i : nat) rec rec' :
  users_rep data recs → recs !! i = Some rec → good_user i rec' →
  c_str (ur_username rec') = c_str (ur_username rec) →
  users_rep (file_put data (i * sizeof_user_record) (encode_user rec'))
    (<[i:=rec']> recs).
Proof.
  intros Hrep Hi Hg Hn. pose proof (users_rep_uniform _ _ Hrep) as Hu.
  destruct Hrep as [-> Hall Hnd].
  pose proof (lookup_lt_Some _ _ _ Hi) as Hlt. split.
  - rewrite file_put_record by
      (first [done | len | by apply length_encode_user, gu_wf with i]).
    f_equal. rewrite list_fmap_insert, insert_take_drop by len. done.
  - intros j r [(->&<-&_)|[_ Hj]]%list_lookup_insert_Some; [done|by apply Hall].
  - by rewrite (names_insert _ _ rec).
Qed.

Lemma accounts_insert data recs (i : nat) rec rec' u : users_rep data recs →
  recs !! i = Some rec → c_str (ur_username rec) = u →
  c_str (ur_username rec') = u → good_user i rec' →
  accounts (<[i:=rec']> recs) = <[u := (account_entry rec').2]> (accounts recs).
Proof.
  intros Hrep Hi Hu Hu' Hg.
  pose proof (lookup_lt_Some _ _ _ Hi) as Hlt.
  assert (NoDup (account_entry <$> <[i:=rec']> recs).*1) as Hnd.
  { rewrite accounts_names, (names_insert _ _ rec) by congruence. apply Hrep. }
  pose proof (ur_names _ _ Hrep) as Hnd'.
  apply map_eq. intros k. destruct (decide (k = u)) as [->|Hk].
  - rewrite lookup_insert_eq. apply elem_of_list_to_map_1; [done|].
    apply list_elem_of_fmap. exists rec'. split.
    + unfold account_entry. by rewrite Hu'.
    + eapply list_elem_of_lookup_2. by apply list_lookup_insert_eq.
  - rewrite lookup_insert_ne by done. apply option_eq. intros a. unfold accounts.
    rewrite <-!elem_of_list_to_map by (done || by rewrite accounts_names).
    rewrite !list_elem_of_fmap.
    split; intros (r&Heq&[j Hj]%list_elem_of_lookup_1); exists r;
      (split; [done|eapply list_elem_of_lookup_2]);
      unfold account_entry in Heq; injection Heq as -> ->.
    + apply list_lookup_insert_Some in Hj as [(->&<-&_)|[_ Hj]]; [congruence|done].
    + destruct (decide (i = j)) as [->|]; [congruence|].
      by rewrite list_lookup_insert_ne.
Qed.

Lemma promote_refines f recs u r : users_rep (f_data f) recs → healthy f →
  no_nul u → no_nul r → (length r < 16)%nat →
  let '(ok, f') := auth_promote_user f u r in
  ∃ recs', users_rep (f_data f') recs' ∧ healthy f' ∧ length recs' = length recs ∧
    promote (accounts recs) u r = (ok, accounts recs').
Proof.
  intros Hrep Hh Hu Hr Hrl. unfold auth_promote_user, promote.
  rewrite (users_rep_records _ _ Hrep), (accounts_lookup _ _ _ Hrep) by done.
  destruct (find_user recs u 0) as [[i rec]|] eqn:E; cbn; [|by eauto].
  apply find_user_Some in E as (k&->&Hk&_&Hn). cbn.
  pose proof (ur_good _ _ Hrep _ _ Hk) as Hg.
  pose proof (set_user_role_good _ _ r Hg) as Hg'.
  rewrite file_write_healthy by done.
  rewrite length_encode_user by apply Hg'. rewrite Z.eqb_refl.
  eexists. split; [by eapply users_rep_insert|]. split; [done|].
  split; [by rewrite length_insert|]. f_equal.
  rewrite (c_str_id u) in Hn by done.
  rewrite (accounts_insert (f_data f) _ _ rec _ u) by done.
  f_equal. cbn [account_entry snd]. f_equal.
  cbn [set_user_role ur_role]. rewrite c_str_set_role by apply Hg.
  rewrite c_str_id by done. by rewrite take_ge by lia.
Qed.

(** ** Properties *)

(** A password of at most 31 bytes: the hash determines it. *)
Definition short_password (p : bytes) : Prop :=
  Forall is_u8 p ∧ no_nul p ∧ (length p ≤ 31)%nat.

Lemma take_sha256_inj p q : take 64 (sha256_hash p) = take 64 (sha256_hash q) →
  sha256_hash p = sha256_hash q.
Proof.
  unfold sha256_hash. destruct (hash_bytes_range p) as [_ Hp].
  destruct (hash_bytes_range q) as [_ Hq].
  rewrite !take_app_exact by (rewrite length_hex; lia). by intros ->.
Qed.

Lemma short_password_hash p q : short_password p → short_password q →
  bool_decide (take 64 (sha256_hash p) = take 64 (sha256_hash q)) = bool_decide (q = p).
Proof.
  intros (Hp1&Hp2&Hp3) (Hq1&Hq2&Hq3). apply bool_decide_ext. split; [|by intros ->].
  intros H%take_sha256_inj. symmetry. by eapply sha256_hash_inj.
Qed.

(** A name or role that fits its array. *)
Definition fits (n : nat) (s : bytes) : Prop := no_nul s ∧ (length s < n)%nat.

Lemma fits_dec n s :
  forallb not_nul s && (length s <? n)%nat = true → fits n s.
Proof. by intros [? ?%Nat.ltb_lt]%andb_true_iff. Qed.

(** C26. Registering a free name succeeds; afterwards that name logs in with
    exactly the registered password (both of at most 31 bytes) and gets the
    role USER, and every other name logs in exactly as before. *)
Theorem register_then_login f recs u p q v w :
  users_rep (f_data f) recs → healthy f → small_file recs →
  fits 32 u → find_user recs u 0 = None →
  short_password p → short_password q → no_nul v → v ≠ u →
  let '(ok, f') := auth_add_user f u p (str "USER") in
  ok = true ∧
  auth_authenticate f' u q = (if bool_decide (q = p) then Some ROLE_USER else None) ∧
  auth_authenticate f' v w = auth_authenticate f v w.
Proof.
  intros Hrep Hh Hs [Hu Hul] Hf Hp Hq Hv Hne.
  pose proof (register_refines f recs u p (str "USER") Hrep Hh Hs Hu Hul
    eq_refl ltac:(cbn; lia)) as H.
  destruct (auth_add_user _ _ _ _) as [ok f'].
  destruct H as (recs'&Hrep'&Hh'&Hreg). unfold register in Hreg.
  apply (find_user_accounts _ _ _ Hrep Hu) in Hf. rewrite Hf in Hreg.
  injection Hreg as <- Hacc. split; [done|].
  rewrite !(authenticate_refines _ _ _ _ Hrep') by done.
  rewrite (authenticate_refines _ _ _ _ Hrep) by done.
  unfold authenticate. rewrite <-Hacc, lookup_insert_eq, lookup_insert_ne by done.
  cbn [mbind option_bind acc_hash acc_role].
  rewrite short_password_hash by done. done.
Qed.

(** The users files the server can reach while its writes succeed. *)
Inductive users_reach : file → Prop :=
  | ureach_init f :
      auth_init None (Some (File [] [])) = Some f → users_reach f
  | ureach_register f u p r :
      users_reach f → small_file (user_records (f_data f)) →
      fits 32 u → fits 16 r →
      users_reach (auth_add_user f u p r).2
  | ureach_promote f u r :
      users_reach f → no_nul u → fits 16 r →
      users_reach (auth_promote_user f u r).2.

Lemma users_rep_init : users_rep (encode_user admin_record) [admin_record].
Proof.
  split.
  - cbn [fmap list_fmap concat]. by rewrite app_nil_r.
  - intros [|i] rec; cbn; [|done]. intros [= <-].
    apply (good_new_user 0); [vm_compute; lia | vm_compute; lia | int_lia].
  - cbn [fmap list_fmap]. apply NoDup_singleton.
Qed.

(** The hash of the default password. *)
Definition admin_hash : bytes := take 64 (sha256_hash (str "admin123")).

Lemma users_reach_rep f : users_reach f →
  healthy f ∧ ∃ recs, users_rep (f_data f) recs ∧
    ∃ r, accounts recs !! str "admin" = Some (Account admin_hash r).
Proof.
  induction 1 as [f Hi|f u p r _ [Hh (recs&Hrep&Ha)] Hs [Hu Hul] [Hr Hrl]
                 |f u r _ [Hh (recs&Hrep&Ha)] Hu [Hr Hrl]].
  - unfold auth_init in Hi. apply (inj Some) in Hi as <-. unfold write_default_admin.
    rewrite file_write_healthy by done. split; [done|].
    exists [admin_record]. split; [|exists (str "ADMIN"); vm_compute; reflexivity].
    unfold file_put. cbn [f_data snd length app take drop Nat.sub replicate].
    rewrite drop_nil, app_nil_r. apply users_rep_init.
  - rewrite (users_rep_records _ _ Hrep) in Hs.
    pose proof (register_refines f recs u p r Hrep Hh) as H.
    specialize (H Hs Hu Hul Hr Hrl).
    destruct (auth_add_user f u p r) as [ok f']; cbn [snd].
    destruct H as (recs'&Hrep'&Hh'&Hreg). split; [done|]. exists recs'.
    split; [done|]. unfold register in Hreg. destruct Ha as [ra Ha]. exists ra.
    destruct (accounts recs !! u) eqn:Eu; injection Hreg as _ <-; [done|].
    rewrite lookup_insert_ne; [done|]. intros ->. by rewrite Ha in Eu.
  - pose proof (promote_refines f recs u r Hrep Hh Hu Hr Hrl) as H.
    destruct (auth_promote_user f u r) as [ok f']; cbn [snd].
    destruct H as (recs'&Hrep'&Hh'&_&Hpr). split; [done|]. exists recs'.
    split; [done|]. unfold promote in Hpr. destruct Ha as [ra Ha].
    destruct (accounts recs !! u) as [a|] eqn:Eu; injection Hpr as _ <-; [|by exists ra].
    destruct (decide (u = str "admin")) as [->|Hne].
    + exists r. rewrite lookup_insert_eq. rewrite Ha in Eu. by injection Eu as <-.
    + exists ra. by rewrite lookup_insert_ne.
Qed.

(** C25. Every users file that comes from the initial one by registrations and
    promotions done one after the other, whose writes succeed, with names below
    32 bytes and roles below 16 (as the handlers scan them): the file is the
    concatenation of the records its scan reads, active names are pairwise
    distinct, the record at index [i] is active with user id [i], registering
    any existing name is refused without touching the file, and there is still
    an account named admin that logs in with the default password,
    which nothing changes; its role may be another after a PROMOTE.  Two
    workers at the same time can break this, see [SharedOffset]. *)
Theorem users_file_invariant f : users_reach f →
  let recs := user_records (f_data f) in
  f_data f = concat (encode_user <$> recs) ∧
  NoDup (c_str ∘ ur_username <$> recs) ∧
  (∀ i rec, recs !! i = Some rec →
    ur_is_active rec = 1 ∧ ur_user_id rec = Z.of_nat i ∧
    ∀ u p r, c_str u = c_str (ur_username rec) → auth_add_user f u p r = (false, f)) ∧
  ∃ i rec, find_user recs (str "admin") 0 = Some (i, rec) ∧
    auth_authenticate f (str "admin") (str "admin123") = Some (role_code (ur_role rec)).
Proof.
  intros (_&recs&Hrep&Hadm)%users_reach_rep recs'.
  assert (recs' = recs) as -> by (by apply users_rep_records).
  split_and!; [apply Hrep|apply Hrep| |].
  - intros i rec Hi. pose proof (ur_good _ _ Hrep _ _ Hi) as Hg.
    split_and!; [apply Hg|apply Hg|]. intros u p r Hu.
    apply (register_taken _ _ _ _ _ Hrep). rewrite find_user_None. intros H.
    apply (H rec); [by eapply list_elem_of_lookup_2|by eapply good_user_active|done].
  - destruct Hadm as [r Hadm]. rewrite (authenticate_refines _ _ _ _ Hrep) by done.
    unfold authenticate. rewrite Hadm. cbn [mbind option_bind acc_hash acc_role].
    rewrite bool_decide_eq_true_2 by done. rewrite (accounts_lookup _ _ _ Hrep) in Hadm by done.
    destruct (find_user recs (str "admin") 0) as [[i rec]|]; [|done].
    injection Hadm as _ <-. exists i, rec. split; [done|]. by rewrite role_code_c_str.
Qed.

(** Promoting a user whose password is known succeeds; the user then logs
    in with the new role and the same passwords as before, and nobody else's
    login changes. *)
Theorem promote_then_login f recs u r p old q v w :
  users_rep (f_data f) recs → healthy f → fits 16 r → no_nul u → no_nul v → v ≠ u →
  auth_authenticate f u p = Some old →
  let '(ok, f') := auth_promote_user f u r in
  ok = true ∧
  auth_authenticate f' u q =
    (λ _, role_code r) <$> auth_authenticate f u q ∧
  auth_authenticate f' v w = auth_authenticate f v w.
Proof.
  intros Hrep Hh [Hr Hrl] Hu Hv Hne Hauth.
  pose proof (promote_refines f recs u r Hrep Hh Hu Hr Hrl) as H.
  destruct (auth_promote_user f u r) as [ok f'].
  destruct H as (recs'&Hrep'&_&_&Hpr).
  rewrite !(authenticate_refines _ _ _ _ Hrep') by done.
  rewrite !(authenticate_refines _ _ _ _ Hrep) in * by done.
  unfold promote, authenticate in *.
  destruct (accounts recs !! u) as [a|]; [|done].
  injection Hpr as <- <-. rewrite lookup_insert_eq, lookup_insert_ne by done.
  split_and!; [done| |done]. cbn [mbind option_bind acc_hash acc_role].
  by case_bool_decide.
Qed.

(** The permission table: moderators and administrators may create rooms,
    kick and mute, only administrators may promote, everybody may log in and
    out, join, leave, list and ask for the status; nothing else is allowed,
    and a role never has less rights than a role below it. *)
Theorem permission_table role command :
  (auth_check_permission role command = true ↔
   command ∈ [CMD_LOGIN; CMD_LOGOUT; CMD_JOIN; CMD_LEAVE; CMD_LIST; CMD_STATUS] ∨
   command ∈ [CMD_CREATE; CMD_KICK; CMD_MUTE] ∧
     (role = ROLE_ADMIN ∨ role = ROLE_MODERATOR) ∨
   command = CMD_PROMOTE ∧ role = ROLE_ADMIN) ∧
  ∀ higher, ROLE_ADMIN ≤ higher ≤ role →
    auth_check_permission role command = true →
    auth_check_permission higher command = true.
Proof.
  rewrite !elem_of_cons, !elem_of_nil. unfold auth_check_permission.
  unfold CMD_LOGIN, CMD_LOGOUT, CMD_JOIN, CMD_LEAVE, CMD_LIST, CMD_STATUS, CMD_CREATE,
    CMD_KICK, CMD_MUTE, CMD_PROMOTE, ROLE_ADMIN, ROLE_MODERATOR.
  split; [|intros higher Hh]; repeat case_match;
    rewrite ?orb_true_iff, ?orb_false_iff, ?Z.eqb_eq, ?Z.eqb_neq in *; lia.
Qed.

(** A file on which the first write is cut short after 10 bytes. *)
Definition torn_users_file : file :=
  File (encode_user admin_record) [WShort 10].

(** A registration whose [write] is cut short is reported as failed but
    leaves its bytes in the file, so the next registration, reported as
    successful, is misaligned and its user can never log in. *)
Theorem torn_registration_blocks_next :
  let '(ok1, f1) := auth_add_user torn_users_file (str "ann") (str "pw") (str "USER") in
  let '(ok2, f2) := auth_add_user f1 (str "bob") (str "pw") (str "USER") in
  ok1 = false ∧ ok2 = true ∧ healthy f2 ∧
  auth_authenticate f2 (str "bob") (str "pw") = None.
Proof. vm_compute. done. Qed.

(** ** Witnesses *)

Definition demo_users : file := write_default_admin (File [] []).

Lemma demo_users_rep : users_rep (f_data demo_users) [admin_record].
Proof.
  replace (f_data demo_users) with (encode_user admin_record) by (vm_compute; reflexivity).
  apply users_rep_init.
Defined.

Lemma short_password_dec p :
  forallb (λ c, (0 <=? c) && (c <? 256)) p && forallb not_nul p &&
  (length p <=? 31)%nat = true → short_password p.
Proof.
  intros [[Hb Hn]%andb_true_iff Hl%Nat.leb_le]%andb_true_iff. split_and!; [|done|done].
  apply forallb_Forall in Hb. eapply Forall_impl; [exact Hb|].
  intros c [H1%Z.leb_le H2%Z.ltb_lt]%andb_true_iff. split; [done|exact H2].
Qed.

Lemma register_then_login_witness :
  let '(ok, f') := auth_add_user demo_users (str "ann") (str "secret") (str "USER") in
  ok = true ∧
  auth_authenticate f' (str "ann") (str "secret") = Some ROLE_USER ∧
  auth_authenticate f' (str "admin") (str "admin123") =
    auth_authenticate demo_users (str "admin") (str "admin123").
Proof.
  pose proof (register_then_login demo_users [admin_record] (str "ann") (str "secret")
    (str "secret") (str "admin") (str "admin123") demo_users_rep eq_refl eq_refl
    (fits_dec 32 (str "ann") eq_refl) eq_refl
    (short_password_dec (str "secret") eq_refl)
    (short_password_dec (str "secret") eq_refl) eq_refl ltac:(done)) as H.
  exact H.
Defined.

Lemma users_file_invariant_witness :
  users_reach demo_users ∧
  auth_add_user demo_users (str "admin") (str "x") (str "USER") = (false, demo_users).
Proof.
  assert (users_reach demo_users) as H by (apply ureach_init; reflexivity).
  split; [exact H|].
  destruct (users_file_invariant demo_users H) as (_&_&Hi&_).
  apply (proj2 (proj2 (Hi 0%nat admin_record ltac:(vm_compute; reflexivity)))).
  vm_compute. reflexivity.
Defined.

Lemma promote_then_login_witness :
  let '(ok, f') := auth_promote_user demo_users (str "admin") (str "MODERATOR") in
  ok = true ∧
  auth_authenticate f' (str "admin") (str "admin123") = Some ROLE_MODERATOR ∧
  auth_authenticate f' (str "ann") (str "x") = auth_authenticate demo_users (str "ann") (str "x").
Proof.
  pose proof (promote_then_login demo_users [admin_record] (str "admin") (str "MODERATOR")
    (str "admin123") ROLE_ADMIN (str "admin123") (str "ann") (str "x") demo_users_rep
    eq_refl (fits_dec 16 (str "MODERATOR") eq_refl) eq_refl eq_refl ltac:(done)
    ltac:(vm_compute; reflexivity)) as H.
  exact H.
Defined.

(** Two passwords of 32 bytes that differ in every byte. *)
Definition collide1 : bytes := concat (replicate 16 (str "bc")).
Definition collide2 : bytes := concat (replicate 16 (str "cb")).

(** From 32 bytes on the hash has collisions: an account registered with
    one password is opened by another one. *)
Theorem colliding_password_logs_in :
  collide1 ≠ collide2 ∧ length collide1 = 32%nat ∧
  let '(ok, f) := auth_add_user demo_users (str "ann") collide1 (str "USER") in
  ok = true ∧ auth_authenticate f (str "ann") collide2 = Some ROLE_USER.
Proof. split; [vm_compute; discriminate|]. vm_compute. done. Qed.
