(* ===== verification/RoomStore.v ===== *)
(** * The interface between the room manager and the room database

    What [room_manager.c] calls in [file_db.c], as a class of operations, and
    what it relies on, as a class of laws over an abstract list of records:
    reads see the records, a write replaces one record or appends one, the
    next free id is the index of the first inactive record.  [FileDb] is the
    implementation; [RoomManager] is proved against the laws. *)
From S2P Require Import Prelude CInt CString Protocol.
#[local] Open Scope Z_scope.

(** The index of the first inactive record, or the number of records. *)
Fixpoint first_free (recs : list room_record) (id : Z) : Z :=
  match recs with
  | [] => id
  | r :: recs' => if rr_is_active r =? 0 then id else first_free recs' (id + 1)
  end.

Definition put_record {A} (recs : list A) (i : nat) (r : A) : list A :=
  take i recs ++ r :: drop (S i) recs.

Class RoomStore (D : Type) := {
  store_read_raw : D → Z → option room_record;
  store_read : D → Z → option room_record;
  store_write : D → Z → room_record → bool * D;
  store_next_free : D → Z
}.

Class RoomStoreLaws (D : Type) {S : RoomStore D} := {
  store_rep : D → list room_record → Prop;
  store_read_raw_law d recs id : store_rep d recs → 0 ≤ id →
    store_read_raw d id = recs !! Z.to_nat id;
  store_read_law d recs id : store_rep d recs → 0 ≤ id →
    store_read d id =
    (r ← recs !! Z.to_nat id; if rr_is_active r =? 0 then None else Some r);
  store_write_law d recs id r : store_rep d recs →
    0 ≤ id ≤ Z.of_nat (length recs) → wf_room_record r →
    ∃ d', store_write d id r = (true, d') ∧
          store_rep d' (put_record recs (Z.to_nat id) r);
  store_next_free_law d recs : store_rep d recs →
    store_next_free d = first_free recs 0
}.

(** ** Lemmas on records by index *)
Section put.
Context {A : Type}.
Implicit Types recs : list A.

Lemma put_record_lookup recs i r j : (i ≤ length recs)%nat →
  put_record recs i r !! j = if decide (j = i) then Some r else recs !! j.
Proof.
  intros Hi. unfold put_record. case_decide as Hj; subst.
  - by rewrite list_lookup_middle by len.
  - destruct (decide (j < i)%nat).
    + by rewrite lookup_app_l, lookup_take_lt by len.
    + rewrite lookup_app_r, length_take, Nat.min_l by len.
      destruct (j - i)%nat as [|k] eqn:E; [lia|].
      change ((r :: drop (S i) recs) !! S k) with (drop (S i) recs !! k).
      rewrite lookup_drop. f_equal. lia.
Qed.

Lemma put_record_insert recs i r : (i < length recs)%nat →
  put_record recs i r = <[i := r]> recs.
Proof. intros. unfold put_record. by rewrite insert_take_drop. Qed.

Lemma put_record_snoc recs r : put_record recs (length recs) r = recs ++ [r].
Proof. unfold put_record. by rewrite take_ge, drop_ge by lia. Qed.

Lemma length_put_record recs i r : (i ≤ length recs)%nat →
  length (put_record recs i r) = Nat.max (length recs) (S i).
Proof. intros. unfold put_record. len. Qed.
End put.

Lemma first_free_spec recs k :
  k ≤ first_free recs k ≤ k + Z.of_nat (length recs) ∧
  (∀ i r, recs !! i = Some r → Z.of_nat i < first_free recs k - k →
     rr_is_active r ≠ 0) ∧
  (∀ r, recs !! Z.to_nat (first_free recs k - k) = Some r → rr_is_active r = 0).
Proof.
  revert k. induction recs as [|r recs IH]; intros k; cbn [first_free length].
  { split_and!; try lia. intros r Hr. by rewrite lookup_nil in Hr. }
  destruct (Z.eqb_spec (rr_is_active r) 0) as [E|E].
  - rewrite Z.sub_diag. split_and!; try (intros; lia). by intros r' [= <-].
  - destruct (IH (k + 1)) as (H1&H2&H3). split_and!; try lia.
    + intros [|i] r' Hi Hlt; cbn in Hi; [by simplify_eq|]. apply (H2 i); [done|lia].
    + intros r'. replace (Z.to_nat (first_free recs (k + 1) - k))
        with (S (Z.to_nat (first_free recs (k + 1) - (k + 1)))) by lia.
      cbn. apply H3.
Qed.
