(* ===== verification/FileDb.v ===== *)
(** * [src/server/file_db.c]: the room file and its write-ahead log

    [db_write_room] logs the old and the new record before it writes the
    room file and a COMMIT (or ROLLBACK) line after it; [wal_recover] reads
    the log at start-up and puts back the OLD record of every transaction
    that has no end line.  This file holds the operations; [Wal] proves what
    recovery does, and the instance at the end of this file is what the room
    manager relies on. *)
From S2P Require Import Prelude CInt CString Protocol Posix RoomStore.
#[local] Open Scope Z_scope.

(** The descriptors, the two files, the position of [wal_fd], the outcomes
    of the coming [malloc] calls ([false] is NULL; they succeed once the list
    is used up), whether [ftruncate] succeeds, and the indeterminate value an
    [int] has that a failed [sscanf] did not assign. *)
Record db := Db {
  db_rooms_fd : Z;
  db_rooms : file;
  db_wal_fd : Z;
  db_wal : file;
  db_wal_pos : nat;
  db_malloc : list bool;
  db_truncate : bool;
  db_junk : Z
}.

Definition with_rooms (d : db) (f : file) : db :=
  Db (db_rooms_fd d) f (db_wal_fd d) (db_wal d) (db_wal_pos d)
    (db_malloc d) (db_truncate d) (db_junk d).
Definition with_wal (d : db) (f : file) (pos : nat) : db :=
  Db (db_rooms_fd d) (db_rooms d) (db_wal_fd d) f pos
    (db_malloc d) (db_truncate d) (db_junk d).

(** [malloc(n) != NULL]. *)
Definition malloc_ok (d : db) : bool :=
  match db_malloc d with
  | [] => true
  | b :: _ => b
  end.
Definition malloc_next (d : db) : db :=
  Db (db_rooms_fd d) (db_rooms d) (db_wal_fd d) (db_wal d) (db_wal_pos d)
    (tail (db_malloc d)) (db_truncate d) (db_junk d).

(** ** Log lines *)
Definition nl : Z := 10.
Definition begin_line (id : Z) : bytes := str "BEGIN " ++ print_int id.
Definition commit_line (id : Z) : bytes := str "COMMIT " ++ print_int id.
Definition rollback_line (id : Z) : bytes := str "ROLLBACK " ++ print_int id.
(** ["%d %s %s %d %d"] of a record. *)
Definition record_text (r : room_record) : bytes :=
  print_int (rr_room_id r) ++ 32 :: c_str (rr_room_name r) ++
  32 :: c_str (rr_password r) ++ 32 :: print_int (rr_is_active r) ++
  32 :: print_int (rr_user_count r).
Definition old_line (old : option room_record) : bytes :=
  match old with
  | Some r => str "OLD " ++ record_text r
  | None => str "OLD NULL"
  end.
Definition new_line (r : room_record) : bytes := str "NEW " ++ record_text r.

(** ** Writing the log *)
Definition wal_write (d : db) (buf : bytes) : db :=
  let '(n, f) := file_write (db_wal d) (db_wal_pos d) buf in
  with_wal d f (db_wal_pos d + Z.to_nat n).

Definition wal_begin (d : db) (record_id : Z) (old_rec : option room_record)
    (new_rec : room_record) : db :=
  let d1 := wal_write d (begin_line record_id ++ [nl]) in
  let d2 := wal_write d1 (old_line old_rec ++ [nl]) in
  wal_write d2 (new_line new_rec ++ [nl]).

Definition wal_commit (d : db) (record_id : Z) : db :=
  wal_write d (commit_line record_id ++ [nl]).

(** ** Reading it back *)

(** [sscanf(line, "<word> %d", &id)]: [id] keeps its indeterminate value when
    the conversion fails. *)
Definition scan_id (word : string) (line : bytes) (junk : Z) : Z :=
  match sscanf ((DLit <$> str word) ++ [DSpace; DInt]) line with
  | SInt z :: _ => z
  | _ => junk
  end.

Definition old_format : list directive :=
  (DLit <$> str "OLD") ++
  [DSpace; DInt; DSpace; DStr 31; DSpace; DStr 63; DSpace; DInt; DSpace; DInt].

Definition zero32 : bytes := memset 0 32.
Definition zero64 : bytes := memset 0 64.

(** The zeroed record after the assignments of the [sscanf] of an OLD line. *)
Definition parse_old (line : bytes) : room_record :=
  match sscanf old_format line with
  | SInt id :: SStr name :: SStr password :: SInt active :: SInt count :: _ =>
      RoomRecord id (strcpy zero32 name) (strcpy zero64 password) active count
  | SInt id :: SStr name :: SStr password :: SInt active :: _ =>
      RoomRecord id (strcpy zero32 name) (strcpy zero64 password) active 0
  | SInt id :: SStr name :: SStr password :: _ =>
      RoomRecord id (strcpy zero32 name) (strcpy zero64 password) 0 0
  | SInt id :: SStr name :: _ => RoomRecord id (strcpy zero32 name) zero64 0 0
  | SInt id :: _ => RoomRecord id zero32 zero64 0 0
  | _ => RoomRecord 0 zero32 zero64 0 0
  end.

Definition empty_record : room_record := RoomRecord 0 zero32 zero64 0 0.

(** The lines of the log: at most 512, empty ones skipped. *)
Definition wal_lines (d : db) : list bytes :=
  strtok_n [nl] 512 (c_str (f_data (db_wal d))).

Definition rooms_write (d : db) (id : Z) (r : room_record) : Z * db :=
  let '(n, f) := file_write (db_rooms d) (Z.to_nat id * sizeof_room_record)
                   (encode_room r) in
  (n, with_rooms d f).

(** [wal_restore_old(record_id, lines, start, line_count)] on the lines from
    [start] on; [first] marks the line [start] itself. *)
Fixpoint wal_restore_old (d : db) (record_id : Z) (first : bool)
    (lines : list bytes) : db :=
  match lines with
  | [] => d
  | l :: lines' =>
    if negb first && starts_with (str "BEGIN") l then d
    else if starts_with (str "OLD") l then
      if strstr (str "OLD NULL") l then (rooms_write d record_id empty_record).2
      else (rooms_write d record_id (parse_old l)).2
    else wal_restore_old d record_id false lines'
  end.

(** The loop of [wal_rollback] that looks for the transaction. *)
Fixpoint rollback_loop (d : db) (record_id : Z) (lines : list bytes) : db :=
  match lines with
  | [] => d
  | l :: lines' =>
    if starts_with (str "BEGIN") l && (scan_id "BEGIN" l (db_junk d) =? record_id)
    then wal_restore_old d record_id true lines
    else rollback_loop d record_id lines'
  end.

Definition wal_rollback (d : db) (record_id : Z) : db :=
  let d1 := wal_write d (rollback_line record_id ++ [nl]) in
  let size := length (f_data (db_wal d1)) in
  if (size =? 0)%nat then with_wal d1 (db_wal d1) size
  else if negb (malloc_ok d1) then malloc_next (with_wal d1 (db_wal d1) 0)
  else
    let d2 := malloc_next (with_wal d1 (db_wal d1) size) in
    rollback_loop d2 record_id (wal_lines d2).

(** The search for the COMMIT or ROLLBACK line of a transaction, up to the
    next BEGIN. *)
Fixpoint tx_completed (record_id junk : Z) (lines : list bytes) : bool :=
  match lines with
  | [] => false
  | l :: lines' =>
    if starts_with (str "BEGIN") l then false
    else if starts_with (str "COMMIT") l && (scan_id "COMMIT" l junk =? record_id)
    then true
    else if starts_with (str "ROLLBACK") l && (scan_id "ROLLBACK" l junk =? record_id)
    then true
    else tx_completed record_id junk lines'
  end.

Fixpoint recover_loop (d : db) (lines : list bytes) : db :=
  match lines with
  | [] => d
  | l :: lines' =>
    if starts_with (str "BEGIN") l then
      let record_id := scan_id "BEGIN" l (db_junk d) in
      if tx_completed record_id (db_junk d) lines' then recover_loop d lines'
      else recover_loop (wal_restore_old d record_id true lines) lines'
    else recover_loop d lines'
  end.

Definition wal_recover (d : db) : db :=
  if db_wal_fd d =? -1 then d
  else
    let size := length (f_data (db_wal d)) in
    if (size =? 0)%nat then with_wal d (db_wal d) size
    else if negb (malloc_ok d) then malloc_next (with_wal d (db_wal d) 0)
    else
      let d1 := malloc_next (with_wal d (db_wal d) size) in
      let d2 := recover_loop d1 (wal_lines d1) in
      with_wal d2
        (if db_truncate d2 then File [] (f_io (db_wal d2)) else db_wal d2) 0.

(** ** The operations on room records *)
Definition db_read_room_raw (d : db) (room_id : Z) : option room_record :=
  if db_rooms_fd d =? -1 then None
  else
    let b := file_read (f_data (db_rooms d)) (Z.to_nat room_id * sizeof_room_record)
               sizeof_room_record in
    if (length b =? sizeof_room_record)%nat then Some (decode_room b) else None.

Definition db_read_room (d : db) (room_id : Z) : option room_record :=
  match db_read_room_raw d room_id with
  | None => None
  | Some r => if rr_is_active r =? 0 then None else Some r
  end.

Definition db_write_room (d : db) (room_id : Z) (rec : room_record) : bool * db :=
  if db_rooms_fd d =? -1 then (false, d)
  else
    let old := db_read_room_raw d room_id in
    let d1 := wal_begin d room_id old rec in
    let '(n, d2) := rooms_write d1 room_id rec in
    if n =? Z.of_nat sizeof_room_record then (true, wal_commit d2 room_id)
    else (false, wal_rollback d2 room_id).

Definition room_records (data : bytes) : list room_record :=
  decode_room <$> chunks sizeof_room_record data.

Definition db_next_free_room_id (d : db) : Z :=
  first_free (room_records (f_data (db_rooms d))) 0.

(** [file_db_init]: open or create the two files, then recover.  [None] is
    [exit(1)]; the arguments are what the two [open] calls of each file
    give. *)
Definition file_db_init (rooms rooms_created wal wal_created : option file)
    (mallocs : list bool) (truncate : bool) (junk : Z) : option db :=
  let opened o c := match o with Some f => Some f | None => c end in
  r ← opened rooms rooms_created;
  w ← opened wal wal_created;
  Some (wal_recover (Db 3 r 4 w 0 mallocs truncate junk)).

(** ** The implementation of the store interface *)
#[export] Instance file_db_store : RoomStore db := {|
  store_read_raw := db_read_room_raw;
  store_read := db_read_room;
  store_write := db_write_room;
  store_next_free := db_next_free_room_id
|}.

(** The room file holds exactly these well-formed records, and its writes
    succeed.  Nothing is required of the log. *)
Record db_rep (d : db) (recs : list room_record) : Prop := {
  dr_fd : db_rooms_fd d ≠ -1;
  dr_healthy : healthy (db_rooms d);
  dr_data : f_data (db_rooms d) = concat (encode_room <$> recs);
  dr_wf : Forall wf_room_record recs
}.

Lemma db_rep_uniform d recs : db_rep d recs →
  uniform sizeof_room_record (encode_room <$> recs).
Proof.
  intros [_ _ _ H]. apply Forall_fmap. eapply Forall_impl; [exact H|].
  apply length_encode_room.
Qed.

Lemma decode_encode_rooms recs : Forall wf_room_record recs →
  decode_room <$> (encode_room <$> recs) = recs.
Proof.
  induction 1 as [|r recs Hr _ IH]; cbn; [done|]. by rewrite decode_encode_room, IH.
Qed.

Lemma db_rep_records d recs : db_rep d recs →
  room_records (f_data (db_rooms d)) = recs.
Proof.
  intros H. pose proof (db_rep_uniform _ _ H). destruct H as [_ _ -> Hwf].
  unfold room_records. rewrite chunks_concat by (done || unfold sizeof_room_record; lia).
  by apply decode_encode_rooms.
Qed.

Lemma db_read_raw_rep d recs id : db_rep d recs →
  db_read_room_raw d id = recs !! Z.to_nat id.
Proof.
  intros H. pose proof (db_rep_uniform _ _ H) as Hu. destruct H as [Hfd _ Hdata Hwf].
  unfold db_read_room_raw. rewrite (proj2 (Z.eqb_neq _ _) Hfd), Hdata.
  rewrite file_read_record by done. rewrite list_lookup_fmap.
  destruct (recs !! Z.to_nat id) as [r|] eqn:E; cbn [fmap option_fmap option_map default from_option];
    [unfold Datatypes.id|done].
  assert (wf_room_record r) as Hr by (rewrite Forall_lookup in Hwf; eauto).
  rewrite length_encode_room by done.
  by rewrite Nat.eqb_refl, decode_encode_room.
Qed.

(** Writes to the log leave the room file alone. *)
Lemma wal_write_rooms d buf :
  db_rooms (wal_write d buf) = db_rooms d ∧ db_rooms_fd (wal_write d buf) = db_rooms_fd d.
Proof. unfold wal_write. by destruct (file_write _ _ _). Qed.

Lemma wal_begin_rooms d id old r :
  db_rooms (wal_begin d id old r) = db_rooms d ∧
  db_rooms_fd (wal_begin d id old r) = db_rooms_fd d.
Proof. unfold wal_begin. by rewrite !(proj1 (wal_write_rooms _ _)), !(proj2 (wal_write_rooms _ _)). Qed.

Lemma rooms_write_rep d recs id r : db_rep d recs → wf_room_record r →
  0 ≤ id ≤ Z.of_nat (length recs) →
  ∃ d', rooms_write d id r = (Z.of_nat sizeof_room_record, d') ∧
        db_rep d' (put_record recs (Z.to_nat id) r) ∧
        d' = with_rooms d (db_rooms d').
Proof.
  intros H Hr Hid. pose proof (db_rep_uniform _ _ H) as Hu.
  destruct H as [Hfd Hh Hdata Hwf]. unfold rooms_write.
  rewrite file_write_healthy, length_encode_room by done.
  eexists. split; [done|]. split; [|done]. split; cbn; try done.
  - rewrite Hdata, file_put_record by
      (first [done | by apply length_encode_room | len]).
    f_equal. unfold put_record. by rewrite fmap_app, fmap_take, fmap_cons, fmap_drop.
  - unfold put_record. apply Forall_app. split; [by apply Forall_take|].
    constructor; [done|]. by apply Forall_drop.
Qed.

Lemma db_write_rep d recs id r : db_rep d recs → wf_room_record r →
  0 ≤ id ≤ Z.of_nat (length recs) →
  ∃ d', db_write_room d id r = (true, d') ∧
        db_rep d' (put_record recs (Z.to_nat id) r).
Proof.
  intros H Hr Hid. unfold db_write_room.
  rewrite (proj2 (Z.eqb_neq _ _) (dr_fd _ _ H)).
  assert (db_rep (wal_begin d id (db_read_room_raw d id) r) recs) as H1.
  { destruct H. destruct (wal_begin_rooms d id (db_read_room_raw d id) r) as [E1 E2].
    split; rewrite ?E1, ?E2; done. }
  destruct (rooms_write_rep _ _ _ _ H1 Hr Hid) as (d'&->&[]&_).
  rewrite Z.eqb_refl. eexists. split; [done|]. unfold wal_commit.
  destruct (wal_write_rooms d' (commit_line id ++ [nl])) as [E1 E2].
  split; rewrite ?E1, ?E2; done.
Qed.

#[export] Program Instance file_db_laws : RoomStoreLaws db := {|
  store_rep := db_rep
|}.
Next Obligation. intros d recs id H _. by apply db_read_raw_rep. Qed.
Next Obligation.
  intros d recs id H _. cbn. unfold db_read_room.
  rewrite (db_read_raw_rep _ _ _ H). by destruct (recs !! Z.to_nat id).
Qed.
Next Obligation. intros d recs id r H Hid Hr. by apply db_write_rep. Qed.
Next Obligation.
  intros d recs H. cbn. unfold db_next_free_room_id. by rewrite (db_rep_records _ _ H).
Qed.
