(* ===== verification/SharedOffset.v ===== *)
(** * One file offset for all threads

    The descriptors of the users file and of the room file are shared by all
    workers, and so is their offset; [auth.c] and [file_db.c] position it with
    [lseek] and then [read] or [write], holding no mutex (a record lock of
    [fcntl] excludes other processes, not other threads).  Here the operations
    are threads of system calls.  Alone they are the operations of [Auth] and
    [FileDb]; with another thread between two calls they read and write the
    wrong records. *)
From S2P Require Import Prelude CInt CString Protocol Hash Posix Auth FileDb Interleave.
#[local] Open Scope Z_scope.

(** ** System calls *)

(** An open file: its contents and the offset. *)
Record open_file := OpenFile {
  of_file : file;
  of_pos : nat
}.

Definition lseek_set (off : nat) : C open_file unit :=
  puts (λ s, OpenFile (of_file s) off).
Definition lseek_end : C open_file unit :=
  puts (λ s, OpenFile (of_file s) (length (f_data (of_file s)))).
Definition fd_read (n : nat) : C open_file bytes := λ s,
  let b := file_read (f_data (of_file s)) (of_pos s) n in
  Some (b, OpenFile (of_file s) (of_pos s + length b)).
Definition fd_write (b : bytes) : C open_file Z := λ s,
  let '(r, f) := file_write (of_file s) (of_pos s) b in
  Some (r, OpenFile f (of_pos s + Z.to_nat r)).

(** [while(read(fd,&rec,n)==n)] with a body that goes on or ends the loop;
    [fuel] bounds the records. *)
Fixpoint read_loop {R A} (n : nat) (decode : bytes → R) (body : A → R → A + A) (fuel : nat) (acc : A)
    : thread open_file A :=
  match fuel with
  | O => atomic (λ _, None)
  | S fuel' =>
    b ← atomic (fd_read n);
    if (length b =? n)%nat then
      match body acc (decode b) with
      | inl acc' => read_loop n decode body fuel' acc'
      | inr acc' => mret acc'
      end
    else mret acc
  end.

(** The same loop on the records of a file. *)
Fixpoint fold_records {R A} (body : A → R → A + A) (recs : list R) (acc : A) : A :=
  match recs with
  | [] => acc
  | r :: recs' =>
    match body acc r with
    | inl acc' => fold_records body recs' acc'
    | inr acc' => acc'
    end
  end.

(** ** [auth.c] *)

(** The scan for a name: the records passed, and the one found. *)
Definition find_body (username : bytes) (acc : nat * option user_record) (rec : user_record)
    : nat * option user_record + nat * option user_record :=
  if negb (ur_is_active rec =? 0) && strcmp_eq (ur_username rec) username
  then inr (acc.1, Some rec) else inl (S acc.1, None).
Definition scan_user (fuel : nat) (username : bytes) : thread open_file (nat * option user_record) :=
  read_loop sizeof_user_record decode_user (find_body username) fuel (0%nat, None).

Definition authenticate_thread (fuel : nat) (username password : bytes)
    : thread open_file (option Z) :=
  _ ← atomic (lseek_set 0);
  r ← scan_user fuel username;
  mret (match r.2 with
        | None => None
        | Some rec =>
          if negb (safe_memcmp (sha256_hash password) (ur_password_hash rec) 64 =? 0) then None
          else Some (role_code (ur_role rec))
        end).

(** The loop of [auth_add_user]: the active records, [None] when the name is
    taken. *)
Definition count_body (username : bytes) (acc : option Z) (rec : user_record)
    : option Z + option Z :=
  let active := negb (ur_is_active rec =? 0) in
  if active && strcmp_eq (ur_username rec) username then inr None
  else inl (if active then Z.succ <$> acc else acc).

Definition add_user_thread (fuel : nat) (username password role : bytes) : thread open_file bool :=
  _ ← atomic (lseek_set 0);
  n ← read_loop sizeof_user_record decode_user (count_body username) fuel (Some 0);
  match n with
  | None => mret false
  | Some user_count =>
    _ ← atomic lseek_end;
    r ← atomic (fd_write (encode_user (new_user_record user_count username password role)));
    mret (r =? Z.of_nat sizeof_user_record)
  end.

Definition promote_user_thread (fuel : nat) (username new_role : bytes) : thread open_file bool :=
  _ ← atomic (lseek_set 0);
  r ← scan_user fuel username;
  match r.2 with
  | None => mret false
  | Some rec =>
    _ ← atomic (lseek_set (r.1 * sizeof_user_record));
    n ← atomic (fd_write (encode_user (set_user_role rec new_role)));
    mret (n =? Z.of_nat sizeof_user_record)
  end.

(** ** [file_db.c] *)
Definition read_room_thread (room_id : nat) : thread open_file (option room_record) :=
  _ ← atomic (lseek_set (room_id * sizeof_room_record));
  b ← atomic (fd_read sizeof_room_record);
  mret (if (length b =? sizeof_room_record)%nat then Some (decode_room b) else None).
(** The write of [db_write_room]: what [write] returns. *)
Definition write_room_thread (room_id : nat) (rec : room_record) : thread open_file Z :=
  _ ← atomic (lseek_set (room_id * sizeof_room_record));
  atomic (fd_write (encode_room rec)).

(** ** Alone, they are the operations of [Auth] and [FileDb] *)
Lemma chunks_next n data : (0 < n)%nat → (n ≤ length data)%nat →
  chunks n data = take n data :: chunks n (drop n data).
Proof.
  intros Hn Hl. rewrite <-(take_drop n data) at 1. apply chunks_app; [done|len].
Qed.

Lemma read_loop_alone {R A} n (decode : bytes → R) (body : A → R → A + A) f :
  (0 < n)%nat → ∀ fuel p acc, (length (chunks n (drop p (f_data f))) < fuel)%nat →
  ∃ p', alone (read_loop n decode body fuel acc) (OpenFile f p) =
    Some (fold_records body (decode <$> chunks n (drop p (f_data f))) acc, OpenFile f p').
Proof.
  intros Hn. induction fuel as [|fuel IH]; intros p acc Hf; [lia|]. cbn [read_loop].
  set (d := drop p (f_data f)) in *.
  assert (fd_read n (OpenFile f p) = Some (take n d, OpenFile f (p + length (take n d)))) as Hr
    by done.
  rewrite alone_section, (C_bind_run _ _ _ _ _ Hr).
  destruct (Nat.le_gt_cases n (length d)) as [Hl|Hl].
  - rewrite length_take_le, Nat.eqb_refl by done. rewrite (chunks_next n d) in * by done.
    cbn [fmap list_fmap fold_records length] in *.
    destruct (body acc _) as [acc'|acc']; [|by eexists].
    destruct (IH (p + n)%nat acc') as [p' Hp'].
    { rewrite <-drop_drop. fold d. lia. }
    exists p'. rewrite Hp'. by rewrite <-drop_drop.
  - rewrite take_ge by lia. destruct (Nat.eqb_spec (length d) n); [lia|].
    rewrite chunks_short by done. by eexists.
Qed.

Lemma fold_find username recs : ∀ i,
  fold_records (find_body username) recs (i, None) =
  match find_user recs username i with
  | Some (k, rec) => (k, Some rec)
  | None => (i + length recs, None)%nat
  end.
Proof.
  induction recs as [|rec recs IH]; intros i; cbn; [by rewrite Nat.add_0_r|].
  unfold find_body. destruct (negb _ && _); [done|]. cbn. rewrite IH.
  destruct (find_user _ _ _) as [[k r]|]; [done|]. f_equal. lia.
Qed.
Lemma fold_count username recs : ∀ n,
  fold_records (count_body username) recs (Some n) = count_users recs username n.
Proof.
  induction recs as [|rec recs IH]; intros n; cbn; [done|].
  unfold count_body. destruct (negb _ && _) eqn:E; [done|].
  destruct (negb (ur_is_active rec =? 0)); cbn; apply IH.
Qed.

Lemma size_pos : (0 < sizeof_user_record)%nat.
Proof. unfold sizeof_user_record. lia. Qed.

Lemma scan_alone f fuel username : (length (user_records (f_data f)) < fuel)%nat →
  ∃ p', alone (scan_user fuel username) (OpenFile f 0) =
    Some (match find_user (user_records (f_data f)) username 0 with
          | Some (k, rec) => (k, Some rec)
          | None => (length (user_records (f_data f)), None)
          end, OpenFile f p').
Proof.
  intros Hf. unfold user_records in Hf. rewrite length_fmap in Hf.
  destruct (read_loop_alone sizeof_user_record decode_user (find_body username) f size_pos
    fuel 0 (0%nat, None)) as [p' Hp']; [by rewrite drop_0|].
  exists p'. unfold scan_user. rewrite Hp', drop_0. do 2 f_equal. apply fold_find.
Qed.

Lemma fd_write_run f p b r f' : file_write f p b = (r, f') →
  fd_write b (OpenFile f p) = Some (r, OpenFile f' (p + Z.to_nat r)).
Proof. intros E. unfold fd_write. cbn [of_file of_pos]. by rewrite E. Qed.

Section alone.
Context (f : file) (fuel : nat).
Hypothesis enough : (length (user_records (f_data f)) < fuel)%nat.

Lemma authenticate_alone username password p : ∃ p',
  alone (authenticate_thread fuel username password) (OpenFile f p) =
  Some (auth_authenticate f username password, OpenFile f p').
Proof.
  destruct (scan_alone f fuel username enough) as [p' Hp']. exists p'.
  unfold authenticate_thread. rewrite alone_section.
  rewrite (C_bind_run (lseek_set 0) _ (OpenFile f p) tt (OpenFile f 0) eq_refl), alone_bind, (C_bind_run _ _ _ _ _ Hp').
  unfold auth_authenticate. by destruct (find_user _ _ _) as [[k rec]|].
Qed.

Lemma add_user_alone username password role p : ∃ p',
  alone (add_user_thread fuel username password role) (OpenFile f p) =
  Some ((auth_add_user f username password role).1,
        OpenFile (auth_add_user f username password role).2 p').
Proof.
  unfold user_records in enough. rewrite length_fmap in enough.
  destruct (read_loop_alone sizeof_user_record decode_user (count_body username) f size_pos
    fuel 0 (Some 0)) as [p' Hp']; [by rewrite drop_0|].
  unfold add_user_thread, auth_add_user, user_records.
  rewrite drop_0, fold_count in Hp'.
  destruct (count_users _ _ _) as [n|] eqn:E.
  - destruct (file_write f (length (f_data f)) _) as [r f'] eqn:Ew. eexists. rewrite alone_section.
    rewrite (C_bind_run (lseek_set 0) _ (OpenFile f p) tt (OpenFile f 0) eq_refl), alone_bind, (C_bind_run _ _ _ _ _ Hp').
    rewrite alone_section, (C_bind_run lseek_end _ (OpenFile f p') tt (OpenFile f (length (f_data f))) eq_refl).
    by rewrite alone_section, (C_bind_run _ _ _ _ _ (fd_write_run _ _ _ _ _ Ew)).
  - eexists. rewrite alone_section.
    by rewrite (C_bind_run (lseek_set 0) _ (OpenFile f p) tt (OpenFile f 0) eq_refl), alone_bind, (C_bind_run _ _ _ _ _ Hp').
Qed.

Lemma promote_user_alone username new_role p : ∃ p',
  alone (promote_user_thread fuel username new_role) (OpenFile f p) =
  Some ((auth_promote_user f username new_role).1,
        OpenFile (auth_promote_user f username new_role).2 p').
Proof.
  destruct (scan_alone f fuel username enough) as [p' Hp'].
  unfold promote_user_thread, auth_promote_user.
  destruct (find_user _ _ _) as [[k rec]|] eqn:E.
  - destruct (file_write f (k * sizeof_user_record) _) as [r f'] eqn:Ew. eexists. rewrite alone_section.
    rewrite (C_bind_run (lseek_set 0) _ (OpenFile f p) tt (OpenFile f 0) eq_refl), alone_bind, (C_bind_run _ _ _ _ _ Hp').
    cbn [fst snd]. rewrite alone_section.
    rewrite (C_bind_run (lseek_set _) _ (OpenFile f p') tt (OpenFile f (k * sizeof_user_record)) eq_refl).
    by rewrite alone_section, (C_bind_run _ _ _ _ _ (fd_write_run _ _ _ _ _ Ew)).
  - eexists. rewrite alone_section.
    by rewrite (C_bind_run (lseek_set 0) _ (OpenFile f p) tt (OpenFile f 0) eq_refl), alone_bind, (C_bind_run _ _ _ _ _ Hp').
Qed.
End alone.

Lemma read_room_alone d p room_id : db_rooms_fd d ≠ -1 → ∃ p',
  alone (read_room_thread room_id) (OpenFile (db_rooms d) p) =
  Some (db_read_room_raw d (Z.of_nat room_id), OpenFile (db_rooms d) p').
Proof.
  intros Hfd. eexists. unfold read_room_thread, db_read_room_raw.
  rewrite (proj2 (Z.eqb_neq _ _) Hfd), Nat2Z.id. rewrite alone_section.
  rewrite (C_bind_run (lseek_set _) _ (OpenFile (db_rooms d) p) tt
    (OpenFile (db_rooms d) (room_id * sizeof_room_record)) eq_refl).
  by rewrite alone_section.
Qed.
Lemma write_room_alone d p room_id rec : ∃ p',
  alone (write_room_thread room_id rec) (OpenFile (db_rooms d) p) =
  Some ((rooms_write d (Z.of_nat room_id) rec).1,
        OpenFile (db_rooms (rooms_write d (Z.of_nat room_id) rec).2) p').
Proof.
  unfold write_room_thread, rooms_write. rewrite Nat2Z.id.
  destruct (file_write _ _ _) as [r f'] eqn:Ew. eexists. rewrite alone_section.
  rewrite (C_bind_run (lseek_set _) _ (OpenFile (db_rooms d) p) tt
    (OpenFile (db_rooms d) (room_id * sizeof_room_record)) eq_refl).
  rewrite alone_atomic. by apply fd_write_run.
Qed.

(** C37. A thread that no other interrupts: its system calls make up the operation
    on accounts or on a room record, with the same result and the same file,
    from any offset; a loop over the records needs one unit of fuel more than
    there are. *)
Theorem shared_offset_alone f fuel p : (length (user_records (f_data f)) < fuel)%nat →
  (∀ username password, ∃ p',
     alone (authenticate_thread fuel username password) (OpenFile f p) =
     Some (auth_authenticate f username password, OpenFile f p')) ∧
  (∀ username password role, ∃ p',
     alone (add_user_thread fuel username password role) (OpenFile f p) =
     Some ((auth_add_user f username password role).1,
           OpenFile (auth_add_user f username password role).2 p')) ∧
  (∀ username new_role, ∃ p',
     alone (promote_user_thread fuel username new_role) (OpenFile f p) =
     Some ((auth_promote_user f username new_role).1,
           OpenFile (auth_promote_user f username new_role).2 p')) ∧
  (∀ d room_id rec, db_rooms d = f → db_rooms_fd d ≠ -1 →
     (∃ p', alone (read_room_thread room_id) (OpenFile f p) =
        Some (db_read_room_raw d (Z.of_nat room_id), OpenFile f p')) ∧
     (∃ p', alone (write_room_thread room_id rec) (OpenFile f p) =
        Some ((rooms_write d (Z.of_nat room_id) rec).1,
              OpenFile (db_rooms (rooms_write d (Z.of_nat room_id) rec).2) p'))).
Proof.
  intros Hf. split_and!; intros; [by apply authenticate_alone|by apply add_user_alone
    |by apply promote_user_alone|].
  subst f. split; [by apply read_room_alone|apply write_room_alone].
Qed.

(** ** With another thread between the calls *)
Lemma user_records_concat recs : Forall wf_user_record recs →
  user_records (concat (encode_user <$> recs)) = recs.
Proof.
  intros Hwf. unfold user_records.
  rewrite chunks_concat; [|apply size_pos|apply Forall_fmap; eapply Forall_impl;
    [exact Hwf|intros r; apply length_encode_user]].
  rewrite <-list_fmap_compose. rewrite <-(list_fmap_id recs) at 2. apply list_fmap_ext.
  intros i r Hr. cbn. rewrite Forall_lookup in Hwf. by apply decode_encode_user, (Hwf i).
Qed.

Section races.
Context (f : file) (recs : list user_record) (fuel : nat).
Hypothesis rep : users_rep (f_data f) recs.
Hypothesis good : healthy f.
Hypothesis enough : (length recs < fuel)%nat.

(** A worker that promotes, at the point between [lseek] and [write]. *)
Definition before_write (rec : user_record) (new_role : bytes) : thread open_file bool :=
  n ← atomic (fd_write (encode_user (set_user_role rec new_role)));
  mret (n =? Z.of_nat sizeof_user_record).

Lemma promote_up_to_write username new_role (i : nat) rec t p :
  find_user recs username 0 = Some (i, rec) →
  ∃ schedule,
    interleave schedule [promote_user_thread fuel username new_role; t] (OpenFile f p) =
    Some ([before_write rec new_role; t], OpenFile f (i * sizeof_user_record)).
Proof.
  intros Hu. destruct (scan_alone f fuel username) as [p' Hp'].
  { by rewrite (users_rep_records _ _ rep). }
  rewrite (users_rep_records _ _ rep), Hu in Hp'.
  set (k := λ r : nat * option user_record,
    match r.2 with
    | None => mret false
    | Some rec =>
      _ ← atomic (lseek_set (r.1 * sizeof_user_record)); before_write rec new_role
    end : thread open_file bool).
  destruct (run_prefix (scan_user fuel username) k 0 [scan_user fuel username ≫= k; t]
    (OpenFile f 0) _ _ eq_refl Hp') as [n Hn].
  exists ([0%nat] ++ replicate n 0%nat ++ [0%nat]).
  eapply (interleave_trans [0%nat]); [reflexivity|].
  eapply interleave_trans; [exact Hn|]. reflexivity.
Qed.

(** C23. PROMOTE of any account but the first, while another worker begins a
    REGISTER: its [lseek] between the [lseek] and the [write] of the first
    worker sends the record to the start of the file.  The write is reported
    as a success, the first account, that of the administrator, is gone, and
    its owner cannot log in with any password. *)
Theorem promote_overwrites_first_account username new_role (i : nat) rec first p v w :
  find_user recs username 0 = Some (i, rec) → (0 < i)%nat → recs !! 0%nat = Some first →
  ∃ schedule t f' p',
    interleave schedule [promote_user_thread fuel username new_role;
                         add_user_thread fuel v w (str "USER")] (OpenFile f p) =
      Some ([Return true; t], OpenFile f' p') ∧
    user_records (f_data f') = <[0%nat := set_user_role rec new_role]> recs ∧
    ∀ password, auth_authenticate f' (ur_username first) password = None.
Proof.
  intros Hu Hi H0. pose proof Hu as (k&->&Hk&Ha&Hn)%find_user_Some. cbn in Hi, Hu.
  set (rec' := set_user_role rec new_role).
  assert (good_user k rec') as Hg by (by apply set_user_role_good, (ur_good _ _ rep)).
  destruct (promote_up_to_write username new_role k rec
    (add_user_thread fuel v w (str "USER")) p Hu) as [schedule Hs].
  assert (length (encode_user rec') = sizeof_user_record) as Hlen
    by (by eapply length_encode_user, gu_wf).
  assert (file_write f 0 (encode_user rec') =
    (Z.of_nat sizeof_user_record, File (file_put (f_data f) 0 (encode_user rec')) [])) as Hw
    by (by rewrite file_write_healthy, Hlen).
  assert (user_records (file_put (f_data f) 0 (encode_user rec')) = <[0%nat := rec']> recs) as Hrecs.
  { destruct rep as [Hdata Hgood _]. rewrite Hdata. pose proof (users_rep_uniform _ _ rep) as Hun.
    assert (0 < length recs)%nat by (by eapply lookup_lt_Some).
    change 0%nat with (0 * sizeof_user_record)%nat at 1.
    rewrite file_put_record by (first [done | rewrite length_fmap; lia]).
    rewrite <-(user_records_concat (<[0%nat := rec']> recs)).
    - f_equal. f_equal. rewrite list_fmap_insert, insert_take_drop by (rewrite length_fmap; lia).
      done.
    - apply Forall_insert; [|by eapply gu_wf]. apply Forall_lookup. intros j r Hj.
      by eapply gu_wf, Hgood. }
  do 4 eexists. split.
  { eapply (interleave_trans schedule ([1%nat] ++ [0%nat])); [exact Hs|].
    eapply (interleave_trans [1%nat]); [reflexivity|]. cbn [interleave]. unfold turn. cbn.
    unfold before_write.
    rewrite C_bind_assoc, (C_bind_run _ _ _ _ _ (fd_write_run _ _ _ _ _ Hw)). reflexivity. }
  split; [exact Hrecs|]. intros password. unfold auth_authenticate. cbn [f_data].
  rewrite Hrecs. assert (find_user (<[0%nat := rec']> recs) (ur_username first) 0 = None) as ->; [|done].
  apply find_user_None. intros r [j Hj]%list_elem_of_lookup _ Hname.
  assert (∀ (m : nat) x, recs !! m = Some x → c_str (ur_username x) = c_str (ur_username first) →
    m = 0%nat) as Hfirst.
  { intros m x Hm Hx. eapply (NoDup_lookup _ _ _ _ (ur_names _ _ rep));
      rewrite list_lookup_fmap; [rewrite Hm|rewrite H0]; cbn; [by rewrite Hx|done]. }
  apply list_lookup_insert_Some in Hj as [(<-&<-&_)|[Hne Hj]].
  - apply (Hfirst k rec) in Hk; [lia|]. exact Hname.
  - apply Hne. symmetry. by eapply Hfirst.
Qed.

(** Two workers REGISTER the same free name: when the second does it while the
    first is between its scan and its write, both report a success, and the
    file has two accounts of that name with the same id. *)
Theorem registers_duplicate username password password' role p :
  small_file recs → (strlen username < 32)%nat → (strlen role < 16)%nat →
  find_user recs username 0 = None →
  ∃ schedule f' p',
    interleave schedule [add_user_thread fuel username password role;
                         add_user_thread fuel username password' role] (OpenFile f p) =
      Some ([Return true; Return true], OpenFile f' p') ∧
    f_data f' = f_data f ++
      encode_user (new_user_record (Z.of_nat (length recs)) username password' role) ++
      encode_user (new_user_record (Z.of_nat (length recs)) username password role).
Proof.
  intros Hs Hu Hr Hf. set (n := Z.of_nat (length recs)).
  set (rec1 := new_user_record n username password role).
  set (rec2 := new_user_record n username password' role).
  set (f2 := File (f_data f ++ encode_user rec2) []).
  assert (∀ pw, wf_user_record (new_user_record n username pw role)) as Hwf.
  { intros pw. apply (good_new_user (length recs)); [done..|]. unfold small_file in Hs. int_lia. }
  set (k := λ c : option Z, match c with
    | None => mret false
    | Some c => _ ← atomic lseek_end;
                r ← atomic (fd_write (encode_user (new_user_record c username password role)));
                mret (r =? Z.of_nat sizeof_user_record)
    end : thread open_file bool).
  set (t1 := add_user_thread fuel username password' role).
  set (scan := read_loop sizeof_user_record decode_user (count_body username) fuel (Some 0)).
  assert (length (user_records (f_data f)) < fuel)%nat as He
    by (by rewrite (users_rep_records _ _ rep)).
  destruct (read_loop_alone sizeof_user_record decode_user (count_body username) f size_pos
    fuel 0 (Some 0)) as [p1 Hscan].
  { unfold user_records in He. by rewrite length_fmap in He. }
  rewrite drop_0, fold_count in Hscan. fold (user_records (f_data f)) in Hscan.
  rewrite (users_rep_records _ _ rep), (count_users_free _ _ _ rep Hf) in Hscan. fold n in Hscan.
  destruct (run_prefix scan k 0 [scan ≫= k; t1] (OpenFile f 0) _ _ eq_refl Hscan) as [m1 Hm1].
  destruct (add_user_alone f fuel He username password' role p1) as [p2 Hadd].
  rewrite (register_free _ recs) in Hadd by done. cbn [fst snd] in Hadd. fold n rec2 f2 in Hadd.
  destruct (run_thread t1 1 [k (Some n); t1] _ _ _ eq_refl Hadd) as [m2 Hm2].
  assert (file_write f2 (length (f_data f2)) (encode_user rec1) =
    (Z.of_nat sizeof_user_record, File (f_data f2 ++ encode_user rec1) [])) as Hw.
  { rewrite file_write_healthy by done. rewrite (length_encode_user rec1 (Hwf password)).
    do 2 f_equal. unfold file_put. rewrite take_ge, Nat.sub_diag, drop_ge by lia. cbn.
    by rewrite app_nil_r. }
  do 3 eexists. split.
  { eapply (interleave_trans [0%nat]); [reflexivity|].
    eapply interleave_trans; [exact Hm1|]. cbn [list_insert insert].
    eapply interleave_trans; [exact Hm2|]. cbn [list_insert insert].
    eapply (interleave_trans [0%nat] [0%nat]); [reflexivity|].
    cbn [interleave]. unfold turn. cbn -[fd_write encode_user].
    rewrite C_bind_assoc, (C_bind_run _ _ _ _ _ (fd_write_run _ _ _ _ _ Hw)). reflexivity. }
  cbn [f_data f2]. by rewrite <-app_assoc.
Qed.
End races.

(** C24. Two workers write the records of two rooms: when both position the offset
    before either writes, the first record lands in the place of the second
    room, the second in the place after it, and both writes are reported as
    complete.  The record lock that [db_write_room] takes does not exclude
    this: it belongs to the process. *)
Theorem room_writes_collide f recs (a b : nat) ra rb p :
  f_data f = concat (encode_room <$> recs) → healthy f → Forall wf_room_record recs →
  wf_room_record ra → wf_room_record rb → (S b < length recs)%nat →
  ∃ schedule f' p',
    interleave schedule [write_room_thread a ra; write_room_thread b rb] (OpenFile f p) =
      Some ([Return (Z.of_nat sizeof_room_record); Return (Z.of_nat sizeof_room_record)],
            OpenFile f' p') ∧
    f_data f' = concat (encode_room <$> <[S b := rb]> (<[b := ra]> recs)).
Proof.
  intros Hdata Hg Hwf Ha Hb Hlt.
  assert (∀ (i : nat) r l, Forall wf_room_record l → wf_room_record r → (i < length l)%nat →
    file_put (concat (encode_room <$> l)) (i * sizeof_room_record) (encode_room r) =
    concat (encode_room <$> <[i := r]> l)) as Hput.
  { intros i r l Hl Hr Hi. rewrite file_put_record.
    - by rewrite list_fmap_insert, insert_take_drop by (by rewrite length_fmap).
    - apply Forall_fmap. eapply Forall_impl; [exact Hl|]. intros x. apply length_encode_room.
    - by apply length_encode_room.
    - rewrite length_fmap. lia. }
  set (f1 := File (concat (encode_room <$> <[b := ra]> recs)) []).
  assert (file_write f (b * sizeof_room_record) (encode_room ra) =
    (Z.of_nat sizeof_room_record, f1)) as Hw1
    by (rewrite file_write_healthy, length_encode_room, Hdata, Hput by (done || lia); done).
  assert (file_write f1 (b * sizeof_room_record + Z.to_nat (Z.of_nat sizeof_room_record))
      (encode_room rb) = (Z.of_nat sizeof_room_record,
       File (concat (encode_room <$> <[S b := rb]> (<[b := ra]> recs))) [])) as Hw2.
  { rewrite file_write_healthy, length_encode_room, Nat2Z.id by done. cbn [f1 f_data].
    rewrite Nat.add_comm. change (sizeof_room_record + b * sizeof_room_record)%nat
      with (S b * sizeof_room_record)%nat.
    rewrite Hput; [done|by apply Forall_insert|done|by rewrite length_insert]. }
  exists ([0; 1] ++ [0] ++ [1])%nat. do 2 eexists. split.
  { eapply (interleave_trans [0; 1]%nat); [reflexivity|].
    eapply (interleave_trans [0%nat] [1%nat]).
    - cbn [interleave]. unfold turn. cbn -[fd_write encode_room sizeof_room_record].
      rewrite C_bind_assoc, (C_bind_run _ _ _ _ _ (fd_write_run _ _ _ _ _ Hw1)). reflexivity.
    - cbn [interleave]. unfold turn. cbn -[fd_write encode_room sizeof_room_record].
      rewrite C_bind_assoc, (C_bind_run _ _ _ _ _ (fd_write_run _ _ _ _ _ Hw2)). reflexivity. }
  done.
Qed.

(** ** Witnesses *)
Definition bob_record : user_record := new_user_record 1 (str "bob") (str "secret") (str "USER").
Definition two_users : list user_record := [admin_record; bob_record].
Definition two_users_file : file := File (f_data demo_users ++ encode_user bob_record) [].

Lemma two_users_rep : users_rep (f_data two_users_file) two_users.
Proof.
  apply (users_rep_snoc (f_data demo_users) [admin_record]); [apply demo_users_rep|..];
    vm_compute; (done || lia).
Qed.

Lemma promote_overwrites_first_account_witness : ∃ schedule t f' p',
  interleave schedule [promote_user_thread 3 (str "bob") (str "MODERATOR");
                       add_user_thread 3 (str "eve") (str "x") (str "USER")]
    (OpenFile two_users_file 0) = Some ([Return true; t], OpenFile f' p') ∧
  auth_authenticate two_users_file (str "admin") (str "admin123") = Some ROLE_ADMIN ∧
  auth_authenticate f' (ur_username admin_record) (str "admin123") = None.
Proof.
  destruct (promote_overwrites_first_account two_users_file two_users 3 two_users_rep eq_refl
    ltac:(cbn; lia) (str "bob") (str "MODERATOR") 1 bob_record admin_record 0 (str "eve") (str "x")
    ltac:(vm_compute; reflexivity) ltac:(lia) eq_refl) as (schedule&t&f'&p'&Hrun&_&Hauth).
  exists schedule, t, f', p'. split; [exact Hrun|]. split; [vm_compute; reflexivity|apply Hauth].
Defined.

Lemma shared_offset_alone_witness : ∃ p',
  alone (authenticate_thread 3 (str "bob") (str "secret")) (OpenFile two_users_file 77) =
  Some (Some ROLE_USER, OpenFile two_users_file p').
Proof.
  assert (length (user_records (f_data two_users_file)) < 3)%nat as He
    by (vm_compute; lia).
  destruct (shared_offset_alone two_users_file 3 77 He) as (Ha&_).
  destruct (Ha (str "bob") (str "secret")) as [p' Hp]. exists p'. rewrite Hp.
  assert (auth_authenticate two_users_file (str "bob") (str "secret") = Some ROLE_USER) as ->
    by (vm_compute; reflexivity).
  reflexivity.
Defined.

(** Room 0 counts a member more, and room 2 too. *)
Definition four_rooms : list room_record := replicate 4 empty_record.
Definition counted : room_record := RoomRecord 0 zero32 zero64 1 2.
Lemma room_writes_collide_witness : ∃ schedule f' p',
  interleave schedule [write_room_thread 0 counted; write_room_thread 2 counted]
    (OpenFile (File (concat (encode_room <$> four_rooms)) []) 0) =
    Some ([Return 108; Return 108], OpenFile f' p').
Proof.
  assert (wf_room_record empty_record) as He by (split; cbn; (done || int_lia)).
  assert (wf_room_record counted) as Hc by (split; cbn; (done || int_lia)).
  destruct (room_writes_collide (File (concat (encode_room <$> four_rooms)) []) four_rooms 0 2
    counted counted 0) as (schedule&f'&p'&Hrun&_);
    [reflexivity|done|by apply Forall_replicate|exact Hc|exact Hc|cbn; lia|].
  by exists schedule, f', p'.
Defined.
