(* ===== verification/Wal.v ===== *)
(** * Crash recovery of the room database

    [db_write_room] is a sequence of five writes; a crash keeps a prefix of
    them.  The development below splits a log into lines, shows that
    [wal_recover] passes over every finished transaction, and that after a
    crash at any point it brings back the old or the new rooms.  It then
    proves the limits of the log: what recovery does to an empty password,
    to a name and password that together look like the marker OLD NULL, past
    512 lines, and what a rollback restores. *)
From S2P Require Import Prelude CInt CString Protocol Posix RoomStore FileDb.
#[local] Open Scope Z_scope.

(** ** Lines *)

(** A line without NUL or newline; a line of the log is one and not empty. *)
Definition clean_char (c : Z) : bool := not_nul c && negb (c =? nl).
Definition clean (s : bytes) : Prop := forallb clean_char s = true.
Definition log_line (s : bytes) : Prop := s ≠ [] ∧ clean s.

Definition lines_text (ls : list bytes) : bytes := concat ((λ l, l ++ [nl]) <$> ls).

Lemma clean_app s t : clean s → clean t → clean (s ++ t).
Proof. unfold clean. rewrite forallb_app. by intros -> ->. Qed.

Lemma clean_cons c s : clean_char c = true → clean s → clean (c :: s).
Proof. unfold clean. cbn. by intros -> ->. Qed.

Lemma clean_no_nul s : clean s → no_nul s.
Proof.
  unfold clean, no_nul. rewrite !forallb_Forall. intros H.
  eapply Forall_impl; [exact H|]. by intros c [? _]%andb_true_iff.
Qed.

Lemma lines_text_app ls ks : lines_text (ls ++ ks) = lines_text ls ++ lines_text ks.
Proof. unfold lines_text. by rewrite fmap_app, concat_app. Qed.

Lemma lines_text_no_nul ls : Forall log_line ls → no_nul (lines_text ls).
Proof.
  induction 1 as [|l ls [_ Hl] _ IH]; [done|].
  unfold lines_text. cbn [fmap list_fmap concat].
  apply no_nul_app; [|exact IH]. apply no_nul_app; [by apply clean_no_nul|done].
Qed.

Lemma strtok_line l t : log_line l → strtok [nl] (l ++ nl :: t) = Some (l, t).
Proof.
  intros [Hne Hl]. unfold strtok.
  assert (forallb (λ c, negb (is_delim [nl] c)) l = true) as Hd.
  { unfold clean in Hl. rewrite forallb_Forall in *.
    eapply Forall_impl; [exact Hl|]. intros c [_ Hc]%andb_true_iff.
    cbn. by rewrite orb_false_r. }
  destruct l as [|c l]; [done|]. cbn [app drop_while].
  cbn [forallb] in Hd. apply andb_true_iff in Hd as [Hc Hd].
  rewrite (proj1 (negb_true_iff _) Hc). cbn [take_while]. rewrite Hc. cbn [app].
  rewrite take_while_app_stop by done. cbn [length].
  change (c :: l ++ nl :: t) with ((c :: l) ++ nl :: t).
  by rewrite (drop_past (c :: l)).
Qed.

Lemma strtok_n_lines n ls t : Forall log_line ls →
  strtok_n [nl] n (lines_text ls ++ t) =
  take n ls ++ strtok_n [nl] (n - length ls) t.
Proof.
  intros H. revert n. induction H as [|l ls Hl _ IH]; intros n.
  { cbn. by rewrite take_nil, Nat.sub_0_r. }
  destruct n as [|n]; [done|]. unfold lines_text. cbn [fmap list_fmap concat].
  rewrite <-!app_assoc. cbn [app strtok_n]. rewrite strtok_line by done.
  cbn [take app length Nat.sub]. by rewrite <-IH.
Qed.

Lemma strtok_n_nil ds n : strtok_n ds n [] = [].
Proof. by destruct n. Qed.

Lemma c_str_lines ls t : Forall log_line ls →
  c_str (lines_text ls ++ t) = lines_text ls ++ c_str t.
Proof.
  intros H%lines_text_no_nul. revert H. generalize (lines_text ls) as s.
  induction s as [|c s IH]; intros H; [done|].
  unfold no_nul in H. cbn in H. apply andb_true_iff in H as [Hc Hs].
  unfold c_str in *. cbn. by rewrite Hc, IH.
Qed.

(** ** Prefix tests *)
Lemma starts_with_app p s : starts_with p (p ++ s) = true.
Proof. unfold starts_with. by rewrite bool_decide_eq_true, take_app_length. Qed.

Lemma starts_with_head a b p s : a ≠ b → starts_with (a :: p) (b :: s) = false.
Proof. unfold starts_with. rewrite bool_decide_eq_false. cbn. congruence. Qed.

Lemma sscanf_literal p fmt s :
  sscanf ((DLit <$> p) ++ fmt) (p ++ s) = sscanf fmt s.
Proof. induction p as [|c p IH]; cbn; [done|]. by rewrite Z.eqb_refl. Qed.

Lemma skip_space_word s k : is_word s = true → skip_space (s ++ k) = s ++ k.
Proof. intros (c&s'&->&Hc&_)%is_word_inv. cbn. by rewrite Hc. Qed.

Lemma sscanf_int_end fmt z : is_i32 z →
  sscanf (DSpace :: DInt :: fmt) (32 :: print_int z) = SInt z :: sscanf fmt [].
Proof.
  intros Hz. cbn [sscanf]. rewrite <-(app_nil_r (print_int z)).
  change (skip_space (32 :: print_int z ++ [])) with (skip_space (print_int z ++ [])).
  by rewrite skip_space_word, scan_int_print_int by auto with vox.
Qed.

Lemma scan_begin id junk : is_i32 id → scan_id "BEGIN" (begin_line id) junk = id.
Proof.
  intros H. unfold scan_id, begin_line.
  change (str "BEGIN ") with (str "BEGIN" ++ [32]). rewrite <-app_assoc, sscanf_literal.
  cbn [app]. by rewrite sscanf_int_end.
Qed.

Lemma scan_commit id junk : is_i32 id → scan_id "COMMIT" (commit_line id) junk = id.
Proof.
  intros H. unfold scan_id, commit_line.
  change (str "COMMIT ") with (str "COMMIT" ++ [32]). rewrite <-app_assoc, sscanf_literal.
  cbn [app]. by rewrite sscanf_int_end.
Qed.

Lemma scan_rollback id junk : is_i32 id → scan_id "ROLLBACK" (rollback_line id) junk = id.
Proof.
  intros H. unfold scan_id, rollback_line.
  change (str "ROLLBACK ") with (str "ROLLBACK" ++ [32]).
  rewrite <-app_assoc, sscanf_literal. cbn [app]. by rewrite sscanf_int_end.
Qed.

(** ** The text of a record, printed and read back *)

(** What the room manager stores: the strings are words that fit. *)
Record word_record (r : room_record) : Prop := {
  wr_wf : wf_room_record r;
  wr_name : is_word (c_str (rr_room_name r)) = true;
  wr_name_len : (strlen (rr_room_name r) ≤ 31)%nat;
  wr_password : is_word (c_str (rr_password r)) = true;
  wr_password_len : (strlen (rr_password r) ≤ 63)%nat
}.

(** A record up to what follows the terminators of its strings. *)
Definition content (r : room_record) : Z * bytes * bytes * Z * Z :=
  (rr_room_id r, c_str (rr_room_name r), c_str (rr_password r),
   rr_is_active r, rr_user_count r).

Lemma word_end_blank s : word_end (32 :: s) = true.
Proof. done. Qed.

Lemma sscanf_int fmt z s : is_i32 z → word_end s = true →
  sscanf (DSpace :: DInt :: fmt) (32 :: print_int z ++ s) = SInt z :: sscanf fmt s.
Proof.
  intros Hz Hs. cbn [sscanf].
  change (skip_space (32 :: print_int z ++ s)) with (skip_space (print_int z ++ s)).
  rewrite skip_space_word by auto with vox. rewrite scan_int_print_int; [done|done|].
  destruct s as [|c s]; [done|]. cbn in *. unfold is_space, is_digit in *.
  case_bools; cbn in *; done || lia.
Qed.

Lemma sscanf_word fmt n w s : is_word w = true → (length w ≤ n)%nat → word_end s = true →
  sscanf (DSpace :: DStr n :: fmt) (32 :: w ++ s) = SStr w :: sscanf fmt s.
Proof.
  intros Hw Hn Hs. cbn [sscanf].
  change (skip_space (32 :: w ++ s)) with (skip_space (w ++ s)).
  by rewrite skip_space_word, scan_word_word.
Qed.

(** The record restored from an OLD line has the logged content. *)
Lemma parse_old_record r : word_record r →
  wf_room_record (parse_old (old_line (Some r))) ∧
  content (parse_old (old_line (Some r))) = content r.
Proof.
  intros [Hwf Hn Hnl Hp Hpl]. unfold parse_old, old_line, old_format.
  change (str "OLD ") with (str "OLD" ++ [32]). rewrite <-app_assoc, sscanf_literal.
  unfold record_text. cbn [app].
  rewrite sscanf_int by (done || apply Hwf).
  rewrite sscanf_word by (done || unfold strlen in *; lia).
  rewrite sscanf_word by (done || unfold strlen in *; lia).
  rewrite sscanf_int by (done || apply Hwf).
  rewrite sscanf_int_end by apply Hwf. cbn [sscanf].
  unfold zero32, zero64, memset. split.
  - destruct Hwf. split; cbn [rr_room_id rr_room_name rr_password rr_is_active rr_user_count];
      try done; rewrite length_strcpy; try done;
      unfold strlen in *; rewrite c_str_idemp, length_replicate; lia.
  - unfold content. cbn [rr_room_id rr_room_name rr_password rr_is_active rr_user_count].
    by rewrite !c_str_strcpy, !c_str_idemp.
Qed.

(** ** Transactions *)
Record tx := Tx { tx_id : Z; tx_old : option room_record; tx_new : room_record;
                  tx_commit : bool }.
Definition tx_lines (t : tx) : list bytes :=
  [begin_line (tx_id t); old_line (tx_old t); new_line (tx_new t);
   if tx_commit t then commit_line (tx_id t) else rollback_line (tx_id t)].
Definition log_lines (txs : list tx) : list bytes := concat (tx_lines <$> txs).

(** The strings of a logged record keep the log one line per entry. *)
Definition clean_record (r : room_record) : Prop :=
  clean (c_str (rr_room_name r)) ∧ clean (c_str (rr_password r)).
Record tx_ok (t : tx) : Prop := {
  to_id : is_i32 (tx_id t);
  to_old : ∀ r, tx_old t = Some r → clean_record r;
  to_new : clean_record (tx_new t)
}.

Lemma clean_print_int z : clean (print_int z).
Proof.
  unfold clean. apply forallb_Forall, Forall_forall.
  intros c (_&H0&H10)%print_int_char. unfold clean_char, not_nul, nl.
  by rewrite (proj2 (Z.eqb_neq c 0)), (proj2 (Z.eqb_neq c 10)).
Qed.

Lemma clean_word s : is_word s = true → clean s.
Proof.
  unfold is_word, clean. rewrite !forallb_Forall. intros [_ H]%andb_true_iff.
  rewrite forallb_Forall in H. eapply Forall_impl; [exact H|].
  intros c [Hs Hn]%andb_true_iff. unfold clean_char. rewrite Hn. cbn.
  unfold nl, is_space in *. case_bools; cbn in *; done || lia.
Qed.

Lemma clean_record_text r : clean_record r → clean (record_text r).
Proof.
  intros [Hn Hp]. unfold record_text.
  apply clean_app; [apply clean_print_int|]. apply clean_cons; [done|].
  apply clean_app; [done|]. apply clean_cons; [done|].
  apply clean_app; [done|]. apply clean_cons; [done|].
  apply clean_app; [apply clean_print_int|]. apply clean_cons; [done|].
  apply clean_print_int.
Qed.

Lemma tag_line tag s : str tag ≠ [] → clean (str tag) → clean s → log_line (str tag ++ s).
Proof.
  intros Ht Hc Hs. split; [|by apply clean_app]. by intros [? _]%app_eq_nil.
Qed.

Lemma begin_log_line id : log_line (begin_line id).
Proof. apply tag_line; try done. apply clean_print_int. Qed.
Lemma commit_log_line id : log_line (commit_line id).
Proof. apply tag_line; try done. apply clean_print_int. Qed.
Lemma rollback_log_line id : log_line (rollback_line id).
Proof. apply tag_line; try done. apply clean_print_int. Qed.
Lemma new_log_line r : clean_record r → log_line (new_line r).
Proof. intros. apply tag_line; try done. by apply clean_record_text. Qed.
Lemma old_log_line o : (∀ r, o = Some r → clean_record r) → log_line (old_line o).
Proof.
  intros H. destruct o as [r|]; [|done]. apply tag_line; try done.
  by apply clean_record_text, H.
Qed.

Lemma tx_log_lines t : tx_ok t → Forall log_line (tx_lines t).
Proof.
  intros []. unfold tx_lines.
  apply Forall_cons_2; [apply begin_log_line|].
  apply Forall_cons_2; [by apply old_log_line|].
  apply Forall_cons_2; [by apply new_log_line|].
  apply Forall_cons_2; [|constructor].
  destruct (tx_commit t); [apply commit_log_line | apply rollback_log_line].
Qed.

Lemma log_lines_ok txs : Forall tx_ok txs → Forall log_line (log_lines txs).
Proof.
  induction 1 as [|t txs Ht _ IH]; [constructor|].
  apply Forall_app. split; [by apply tx_log_lines|done].
Qed.

Lemma length_log_lines txs : length (log_lines txs) = (4 * length txs)%nat.
Proof.
  induction txs as [|t txs IH]; [done|].
  change (log_lines (t :: txs)) with (tx_lines t ++ log_lines txs).
  rewrite length_app, IH. cbn [tx_lines length]. lia.
Qed.

(** ** Recovery over the lines of the log *)

(** The first letters tell the tags apart. *)
Lemma begin_starts id : starts_with (str "BEGIN") (begin_line id) = true.
Proof. apply (starts_with_app (str "BEGIN") (32 :: print_int id)). Qed.
Lemma old_not_begin o : starts_with (str "BEGIN") (old_line o) = false.
Proof. destruct o; by apply starts_with_head. Qed.
Lemma new_not_begin r : starts_with (str "BEGIN") (new_line r) = false.
Proof. by apply starts_with_head. Qed.
Lemma commit_not_begin id : starts_with (str "BEGIN") (commit_line id) = false.
Proof. by apply starts_with_head. Qed.
Lemma rollback_not_begin id : starts_with (str "BEGIN") (rollback_line id) = false.
Proof. by apply starts_with_head. Qed.
Lemma begin_not_old id : starts_with (str "OLD") (begin_line id) = false.
Proof. by apply starts_with_head. Qed.
Lemma old_starts o : starts_with (str "OLD") (old_line o) = true.
Proof.
  destruct o as [r|]; [|done].
  apply (starts_with_app (str "OLD") (32 :: record_text r)).
Qed.
Lemma old_not_commit o : starts_with (str "COMMIT") (old_line o) = false.
Proof. destruct o; by apply starts_with_head. Qed.
Lemma new_not_commit r : starts_with (str "COMMIT") (new_line r) = false.
Proof. by apply starts_with_head. Qed.
Lemma rollback_not_commit id : starts_with (str "COMMIT") (rollback_line id) = false.
Proof. by apply starts_with_head. Qed.
Lemma old_not_rollback o : starts_with (str "ROLLBACK") (old_line o) = false.
Proof. destruct o; by apply starts_with_head. Qed.
Lemma new_not_rollback r : starts_with (str "ROLLBACK") (new_line r) = false.
Proof. by apply starts_with_head. Qed.
Lemma commit_starts id : starts_with (str "COMMIT") (commit_line id) = true.
Proof. apply (starts_with_app (str "COMMIT") (32 :: print_int id)). Qed.
Lemma rollback_starts id : starts_with (str "ROLLBACK") (rollback_line id) = true.
Proof. apply (starts_with_app (str "ROLLBACK") (32 :: print_int id)). Qed.

Create Rewrite HintDb tags.
#[export] Hint Rewrite begin_starts old_not_begin new_not_begin commit_not_begin
  rollback_not_begin begin_not_old old_starts old_not_commit new_not_commit
  rollback_not_commit old_not_rollback new_not_rollback commit_starts
  rollback_starts : tags.

Lemma tx_completed_tx o r id (c : bool) junk ls : is_i32 id →
  tx_completed id junk (old_line o :: new_line r ::
    (if c then commit_line id else rollback_line id) :: ls) = true.
Proof.
  intros Hid. cbn [tx_completed]. autorewrite with tags. cbn [andb].
  destruct c; autorewrite with tags; cbn [andb];
    rewrite ?scan_commit, ?scan_rollback by done; by rewrite Z.eqb_refl.
Qed.

(** A finished transaction changes nothing. *)
Lemma recover_loop_tx d t ls : tx_ok t →
  recover_loop d (tx_lines t ++ ls) = recover_loop d ls.
Proof.
  intros [Hid _ _]. unfold tx_lines. cbn [app recover_loop].
  autorewrite with tags. rewrite scan_begin, tx_completed_tx by done.
  destruct (tx_commit t); by autorewrite with tags.
Qed.

Lemma recover_loop_log d txs ls : Forall tx_ok txs →
  recover_loop d (log_lines txs ++ ls) = recover_loop d ls.
Proof.
  intros H. revert ls. induction H as [|t txs Ht _ IH]; intros ls; [done|].
  change (log_lines (t :: txs)) with (tx_lines t ++ log_lines txs).
  by rewrite <-app_assoc, recover_loop_tx, IH.
Qed.

(** What restoring one OLD line does to the room file. *)
Definition restore_line (d : db) (id : Z) (o : option room_record) : db :=
  if strstr (str "OLD NULL") (old_line o)
  then (rooms_write d id empty_record).2
  else (rooms_write d id (parse_old (old_line o))).2.

(** An unfinished transaction is undone from its OLD line, once there is
    one. *)
Lemma recover_loop_partial d id o r k : is_i32 id → (k ≤ 3)%nat →
  recover_loop d (take k [begin_line id; old_line o; new_line r]) =
  if (2 <=? k)%nat then restore_line d id o else d.
Proof.
  intros Hid Hk. unfold restore_line.
  destruct k as [|[|[|[|]]]]; [| | | |lia]; cbn [take recover_loop]; [done| | |];
    autorewrite with tags; rewrite scan_begin by done;
    cbn [tx_completed]; autorewrite with tags; cbn [andb tx_completed];
    autorewrite with tags; cbn [andb];
    cbn [wal_restore_old negb andb]; autorewrite with tags; cbn [andb negb];
    autorewrite with tags; by destruct (strstr _ _).
Qed.

(** ** Crashes *)

(** The writes of [db_write_room], in order; a crash keeps a prefix. *)
Inductive disk_op :=
  | WalAppend (b : bytes)
  | RoomsPut (id : Z) (r : room_record).

Definition apply_op (d : db) (op : disk_op) : db :=
  match op with
  | WalAppend b => wal_write d b
  | RoomsPut id r => (rooms_write d id r).2
  end.

Definition db_write_ops (d : db) (id : Z) (rec : room_record) : list disk_op :=
  [WalAppend (begin_line id ++ [nl]);
   WalAppend (old_line (db_read_room_raw d id) ++ [nl]);
   WalAppend (new_line rec ++ [nl]);
   RoomsPut id rec;
   WalAppend (commit_line id ++ [nl])].

Definition crash_state (d : db) (id : Z) (rec : room_record) (k : nat) : db :=
  fold_left apply_op (take k (db_write_ops d id rec)) d.

(** The next process opens the log at its start. *)
Definition restart (d : db) : db := with_wal d (db_wal d) 0.

(** The log consists of these lines, writes to it succeed and are appended. *)
Record wal_at (d : db) (ls : list bytes) : Prop := {
  wa_fd : db_wal_fd d ≠ -1;
  wa_healthy : healthy (db_wal d);
  wa_data : f_data (db_wal d) = lines_text ls;
  wa_pos : db_wal_pos d = length (f_data (db_wal d));
  wa_malloc : db_malloc d = []
}.

Lemma wal_append d ls l : wal_at d ls → wal_at (wal_write d (l ++ [nl])) (ls ++ [l]).
Proof.
  intros [Hfd Hh Hd Hp Hm]. unfold wal_write. rewrite file_write_healthy by done.
  assert (file_put (f_data (db_wal d)) (db_wal_pos d) (l ++ [nl]) =
          lines_text (ls ++ [l])) as E.
  { unfold file_put. rewrite Hp, take_ge, Nat.sub_diag, drop_ge by lia.
    rewrite Hd, lines_text_app. cbn. by rewrite !app_nil_r. }
  split; cbn; try done.
  rewrite E. rewrite <-E. unfold file_put.
  rewrite Hp, take_ge, Nat.sub_diag, drop_ge by lia. len.
Qed.

Lemma wal_write_rep d recs b : db_rep d recs → db_rep (wal_write d b) recs.
Proof.
  intros []. destruct (wal_write_rooms d b) as [E1 E2]. by split; rewrite ?E1, ?E2.
Qed.

Lemma rooms_write_wal d ls id r : wal_at d ls → wal_at (rooms_write d id r).2 ls.
Proof. intros []. unfold rooms_write. by destruct (file_write _ _ _). Qed.

Lemma db_write_room_ops d recs id rec : db_rep d recs →
  0 ≤ id ≤ Z.of_nat (length recs) → wf_room_record rec →
  db_write_room d id rec = (true, crash_state d id rec 5).
Proof.
  intros Hrep Hid Hwf. unfold db_write_room, crash_state, db_write_ops.
  rewrite (proj2 (Z.eqb_neq _ _) (dr_fd _ _ Hrep)).
  cbn [take fold_left apply_op]. unfold wal_begin, wal_commit.
  set (d3 := wal_write (wal_write (wal_write d _) _) _).
  assert (db_rep d3 recs) as H3 by (by repeat apply wal_write_rep).
  destruct (rooms_write_rep _ _ _ _ H3 Hwf Hid) as (d'&->&_).
  by rewrite Z.eqb_refl.
Qed.

(** How many of the four log lines are written after [k] of the five writes. *)
Definition logged (k : nat) : nat := if (k <=? 3)%nat then k else (k - 1)%nat.

Lemma crash_state_spec d recs ls id rec k :
  db_rep d recs → wal_at d ls → 0 ≤ id ≤ Z.of_nat (length recs) →
  wf_room_record rec → (k ≤ 5)%nat →
  wal_at (crash_state d id rec k)
    (ls ++ take (logged k) (tx_lines (Tx id (recs !! Z.to_nat id) rec true))) ∧
  db_rep (crash_state d id rec k)
    (if (k <=? 3)%nat then recs else put_record recs (Z.to_nat id) rec).
Proof.
  intros Hrep Hw Hid Hwf Hk. unfold crash_state, db_write_ops, tx_lines.
  rewrite (db_read_raw_rep _ _ _ Hrep). cbn [tx_id tx_old tx_new tx_commit].
  set (b := begin_line id). set (o := old_line _). set (n := new_line rec).
  set (c := commit_line id).
  pose proof (wal_append _ _ b Hw) as W1. pose proof (wal_append _ _ o W1) as W2.
  pose proof (wal_append _ _ n W2) as W3.
  pose proof (wal_write_rep _ _ (b ++ [nl]) Hrep) as R1.
  pose proof (wal_write_rep _ _ (o ++ [nl]) R1) as R2.
  pose proof (wal_write_rep _ _ (n ++ [nl]) R2) as R3.
  pose proof (rooms_write_wal _ _ id rec W3) as W4.
  destruct (rooms_write_rep _ _ _ _ R3 Hwf Hid) as (d'&E&R4&_).
  pose proof (wal_append _ _ c W4) as W5. rewrite E in W4, W5.
  rewrite <-!app_assoc in *. cbn [snd app] in *.
  destruct k as [|[|[|[|[|[|]]]]]]; [..|lia];
    cbn [take fold_left apply_op logged Nat.leb Nat.sub]; rewrite ?app_nil_r, ?E;
    cbn [snd]; auto using wal_write_rep.
Qed.

(** The active room a slot of the file holds. *)
Definition live (recs : list room_record) (j : nat) : option (Z * bytes * bytes * Z * Z) :=
  r ← recs !! j; if rr_is_active r =? 0 then None else Some (content r).

(** The marker of a missing old record does not occur in a logged record. *)
Definition no_null_marker (r : room_record) : Prop :=
  strstr (str "OLD NULL") (old_line (Some r)) = false.

(** The log is these lines, followed by a last line that lacks its newline
    (or by nothing). *)
Record wal_text (d : db) (ls : list bytes) (p : bytes) : Prop := {
  wt_fd : db_wal_fd d ≠ -1;
  wt_data : f_data (db_wal d) = lines_text ls ++ p;
  wt_malloc : db_malloc d = []
}.
Definition last_line (p : bytes) : list bytes :=
  match p with
  | [] => []
  | _ => [p]
  end.

Lemma clean_not_delim c : clean_char c = true → is_delim [nl] c = false.
Proof.
  unfold clean_char. intros [_ Hc]%andb_true_iff. cbn. rewrite orb_false_r.
  by apply negb_true_iff.
Qed.

Lemma take_while_clean p : clean p → take_while (λ c, negb (is_delim [nl] c)) p = p.
Proof.
  unfold clean. induction p as [|c p IH]; [done|]. cbn [forallb].
  intros [Hc Hp]%andb_true_iff. cbn [take_while].
  by rewrite clean_not_delim, IH.
Qed.

Lemma strtok_last p : p ≠ [] → clean p → strtok [nl] p = Some (p, []).
Proof.
  intros Hne Hp. unfold strtok. destruct p as [|c p]; [done|].
  pose proof Hp as Hp'. unfold clean in Hp'. cbn [forallb] in Hp'.
  apply andb_true_iff in Hp' as [Hc _].
  cbn [drop_while]. rewrite clean_not_delim by done.
  rewrite take_while_clean by done. by rewrite drop_ge by (cbn; lia).
Qed.

Lemma strtok_n_last p n : clean p → (length (last_line p) ≤ n)%nat →
  strtok_n [nl] n p = last_line p.
Proof.
  intros Hp Hn. destruct p as [|c p]; [apply strtok_n_nil|].
  destruct n as [|n]; [cbn in Hn; lia|]. cbn [strtok_n last_line].
  by rewrite strtok_last, strtok_n_nil.
Qed.

Lemma wal_at_text d ls : wal_at d ls → wal_text d ls [].
Proof. intros []. split; [done| |done]. by rewrite app_nil_r. Qed.

Lemma db_rep_ext d d' recs : db_rooms d' = db_rooms d → db_rooms_fd d' = db_rooms_fd d →
  db_rep d recs → db_rep d' recs.
Proof. intros E1 E2 []. by split; rewrite ?E1, ?E2. Qed.

(** [wal_recover] is the loop over the lines, on a log of at most 512. *)
Lemma wal_recover_text d ls p : wal_text d ls p → Forall log_line ls → clean p →
  (length (ls ++ last_line p) ≤ 512)%nat →
  ∃ d0, db_rooms_fd d0 = db_rooms_fd d ∧ db_rooms d0 = db_rooms d ∧
    db_rooms (wal_recover (restart d)) = db_rooms (recover_loop d0 (ls ++ last_line p)) ∧
    db_rooms_fd (wal_recover (restart d)) =
      db_rooms_fd (recover_loop d0 (ls ++ last_line p)).
Proof.
  intros [Hfd Hd Hm] Hls Hp Hn. unfold wal_recover.
  change (db_wal_fd (restart d)) with (db_wal_fd d).
  change (f_data (db_wal (restart d))) with (f_data (db_wal d)).
  rewrite (proj2 (Z.eqb_neq _ _) Hfd).
  destruct (length (f_data (db_wal d)) =? 0)%nat eqn:E.
  - apply Nat.eqb_eq, nil_length_inv in E. rewrite Hd in E.
    apply app_eq_nil in E as [E ->].
    assert (ls = []) as ->.
    { destruct Hls as [|l ls]; [done|]. apply (f_equal length) in E.
      unfold lines_text in E. cbn in E. len. }
    by exists d.
  - unfold malloc_ok. change (db_malloc (restart d)) with (db_malloc d).
    rewrite Hm. cbn [negb]. set (d0 := malloc_next _). exists d0.
    assert (wal_lines d0 = ls ++ last_line p) as ->; [|done].
    unfold wal_lines. change (f_data (db_wal d0)) with (f_data (db_wal d)).
    rewrite Hd, c_str_lines, c_str_id, strtok_n_lines by auto using clean_no_nul.
    rewrite length_app in Hn. rewrite take_ge by lia. f_equal.
    apply strtok_n_last; [done|lia].
Qed.

(** Recovery passes over the finished transactions at the start of the log. *)
Lemma recover_rep d txs ls p : wal_text d (log_lines txs ++ ls) p →
  Forall tx_ok txs → Forall log_line ls → clean p →
  (4 * length txs + length ls + length (last_line p) ≤ 512)%nat →
  ∃ d0, db_rooms_fd d0 = db_rooms_fd d ∧ db_rooms d0 = db_rooms d ∧
    ∀ rs, db_rep (recover_loop d0 (ls ++ last_line p)) rs →
          db_rep (wal_recover (restart d)) rs.
Proof.
  intros Hw Htxs Hls Hp Hn.
  destruct (wal_recover_text d _ p Hw) as (d0&E1&E2&E3&E4); [|done| |].
  { apply Forall_app; split; [by apply log_lines_ok|done]. }
  { rewrite !length_app, length_log_lines. lia. }
  rewrite <-app_assoc, recover_loop_log in E3, E4 by done.
  exists d0. split_and!; [done..|]. intros rs. by apply db_rep_ext.
Qed.

Lemma put_record_twice {A} (recs : list A) i a b : (i ≤ length recs)%nat →
  put_record (put_record recs i a) i b = put_record recs i b.
Proof.
  intros Hi. apply list_eq. intros j.
  assert (i ≤ length (put_record recs i a))%nat by (rewrite length_put_record; lia).
  rewrite !put_record_lookup by done. by case_decide.
Qed.

Lemma restore_line_spec d recs id : db_rep d recs → 0 ≤ id ≤ Z.of_nat (length recs) →
  ∀ o, (∀ r, o = Some r → word_record r ∧ no_null_marker r) →
  ∃ x, db_rep (restore_line d id o) (put_record recs (Z.to_nat id) x) ∧
    content x = default (content empty_record) (content <$> o).
Proof.
  intros Hrep Hid o Ho. unfold restore_line.
  assert (∀ x, wf_room_record x → db_rep (rooms_write d id x).2
    (put_record recs (Z.to_nat id) x)) as Hput.
  { intros x Hx. by destruct (rooms_write_rep _ _ _ _ Hrep Hx Hid) as (d'&->&?&_). }
  destruct o as [r|].
  - destruct (Ho r eq_refl) as [Hw Hm]. unfold no_null_marker in Hm. rewrite Hm.
    destruct (parse_old_record r Hw). eauto.
  - exists empty_record. split; [|done]. by apply Hput.
Qed.

Lemma live_put recs i x j : (i ≤ length recs)%nat →
  live (put_record recs i x) j =
  if decide (j = i) then live [x] 0 else live recs j.
Proof. intros. unfold live. rewrite put_record_lookup by done. by case_decide. Qed.

Lemma live_content x y : content x = content y → live [x] 0 = live [y] 0.
Proof.
  intros H. unfold live. cbn. unfold content in *. injection H as -> -> -> -> ->. done.
Qed.

(** Putting back a record with the old content leaves the active rooms. *)
Lemma live_restored recs i x : (i ≤ length recs)%nat →
  content x = default (content empty_record) (content <$> recs !! i) →
  ∀ j, live (put_record recs i x) j = live recs j.
Proof.
  intros Hi Hc j. rewrite live_put by lia. case_decide as Hj; [subst j|done].
  destruct (recs !! i) as [r|] eqn:Eo; cbn in Hc;
    rewrite (live_content _ _ Hc); unfold live; by rewrite Eo.
Qed.

(** After a crash before the COMMIT line recovery undoes the transaction, if
    its OLD line was written, and does nothing else. *)
Lemma crash_recover d recs txs id rec k :
  db_rep d recs → wal_at d (log_lines txs) → Forall tx_ok txs →
  (4 * length txs + 4 ≤ 512)%nat →
  0 ≤ id ≤ Z.of_nat (length recs) → wf_room_record rec →
  tx_ok (Tx id (recs !! Z.to_nat id) rec true) → (k ≤ 5)%nat →
  ∃ d0, db_rep d0 (if (k <=? 3)%nat then recs else put_record recs (Z.to_nat id) rec) ∧
    ∀ rs, db_rep (if (2 <=? k)%nat && negb (k =? 5)%nat
                  then restore_line d0 id (recs !! Z.to_nat id) else d0) rs →
          db_rep (wal_recover (restart (crash_state d id rec k))) rs.
Proof.
  intros Hrep Hw Htxs Hlen Hid Hwf Ht Hk.
  destruct (crash_state_spec d recs _ id rec k Hrep Hw Hid Hwf Hk) as [Hcw Hcr].
  set (dk := crash_state d id rec k) in *. set (t := Tx id _ rec true) in *. clearbody dk.
  destruct (recover_rep dk txs (take (logged k) (tx_lines t)) []) as (d0&E1&E2&Hend);
    [by apply wal_at_text|done|by apply Forall_take, tx_log_lines|done| |].
  { rewrite length_take. cbn [tx_lines last_line length]. lia. }
  exists d0. split; [by eapply db_rep_ext|].
  intros rs Hrs. apply Hend. rewrite app_nil_r.
  enough (recover_loop d0 (take (logged k) (tx_lines t)) =
    if (2 <=? k)%nat && negb (k =? 5)%nat then restore_line d0 id (tx_old t) else d0)
    as -> by done.
  pose proof (to_id _ Ht) as Hid32.
  pose proof (recover_loop_partial d0 id (tx_old t) rec (logged k) Hid32) as Hp.
  destruct k as [|[|[|[|[|[|]]]]]]; [..|lia]; try (apply Hp; cbn; lia).
  cbn [logged Nat.leb Nat.sub andb negb Nat.eqb].
  change (take 4 (tx_lines t)) with (tx_lines t ++ []). by rewrite recover_loop_tx.
Qed.

Lemma word_record_clean r : word_record r → clean_record r.
Proof. intros []. split; by apply clean_word. Qed.

(** C2. Crash atomicity. [db_write_room] makes five writes: the three log lines
    of [wal_begin], the record, the COMMIT line.  The server is killed after
    any number [k] of them; the next start recovers from the log.  Then the room file holds well-formed records, and its
    active rooms are those before the write, or those after it when the
    COMMIT line was written ([k] = 5).  This holds for logs that fit the 512
    lines recovery reads, and for old records whose name and password are
    words and do not spell the marker of a missing record. *)
Theorem crash_atomicity d recs txs id rec k :
  db_rep d recs → wal_at d (log_lines txs) → Forall tx_ok txs →
  (4 * length txs + 4 ≤ 512)%nat →
  0 ≤ id ≤ Z.of_nat (length recs) → is_i32 id →
  wf_room_record rec → clean_record rec →
  (∀ old, recs !! Z.to_nat id = Some old → word_record old ∧ no_null_marker old) →
  (k ≤ 5)%nat →
  db_write_room d id rec = (true, crash_state d id rec 5) ∧
  wal_begin d id (db_read_room_raw d id) rec = crash_state d id rec 3 ∧
  ∃ recs', db_rep (wal_recover (restart (crash_state d id rec k))) recs' ∧
    ∀ j, live recs' j =
      live (if (k =? 5)%nat then put_record recs (Z.to_nat id) rec else recs) j.
Proof.
  intros Hrep Hw Htxs Hlen Hid Hi32 Hwf Hcl Hold Hk.
  split; [by eapply db_write_room_ops|]. split; [done|].
  assert (tx_ok (Tx id (recs !! Z.to_nat id) rec true)) as Ht.
  { split; [done| |done]. intros r Hr. by apply word_record_clean, (Hold r). }
  destruct (crash_recover d recs txs id rec k) as (d0&H0&Hend); [done..|].
  destruct (decide (k = 5%nat)) as [->|Hk5].
  { eexists. split; [by apply Hend, H0|done]. }
  rewrite (proj2 (Nat.eqb_neq k 5)) in * by done. rewrite andb_true_r in Hend.
  destruct (Nat.leb_spec 2 k) as [H2|H2].
  - destruct (restore_line_spec d0 _ id H0) with (o := recs !! Z.to_nat id)
      as (x&Hx&Hc); [|done|].
    { case_match; [done|]. rewrite length_put_record; lia. }
    exists (put_record recs (Z.to_nat id) x). split.
    + apply Hend. case_match; [done|]. by rewrite put_record_twice in Hx by lia.
    + apply live_restored; [lia|done].
  - exists recs. split; [|done]. apply Hend.
    destruct (Nat.leb_spec k 3); [done|lia].
Qed.

(** C40. The room text in the log reads back as the record it was printed from:
    a record whose name and password are words comes out of an OLD line with
    the same id, strings, active flag and user count. *)
Theorem old_line_roundtrip r : word_record r →
  wf_room_record (parse_old (old_line (Some r))) ∧
  content (parse_old (old_line (Some r))) = content r.
Proof. apply parse_old_record. Qed.

(** Recovery reads at most 512 lines, that is 128 finished transactions:
    whatever the log holds after them, a torn transaction included, the room
    file is left as it is (and the log is then cleared). *)
Theorem recovery_stops_at_512_lines d txs rest :
  db_wal_fd d ≠ -1 → db_malloc d = [] → Forall tx_ok txs → length txs = 128%nat →
  f_data (db_wal d) = lines_text (log_lines txs) ++ rest →
  db_rooms (wal_recover d) = db_rooms d.
Proof.
  intros Hfd Hm Htxs Hlen Hd. pose proof (log_lines_ok _ Htxs) as Hls.
  unfold wal_recover. rewrite (proj2 (Z.eqb_neq _ _) Hfd).
  destruct (length (f_data (db_wal d)) =? 0)%nat; [done|].
  unfold malloc_ok. rewrite Hm. cbn [negb].
  set (d0 := malloc_next _). unfold wal_lines.
  change (f_data (db_wal d0)) with (f_data (db_wal d)).
  rewrite Hd, c_str_lines, strtok_n_lines, length_log_lines, Hlen by done.
  cbn [Nat.sub Nat.mul Nat.add strtok_n]. rewrite app_nil_r, take_ge
    by (rewrite length_log_lines; lia).
  rewrite <-(app_nil_r (log_lines txs)), recover_loop_log by done. done.
Qed.

(** What an OLD line with an empty password is read as: the flag takes the
    place of the password, the user count that of the flag. *)
Lemma parse_old_no_password r : wf_room_record r →
  is_word (c_str (rr_room_name r)) = true → (strlen (rr_room_name r) ≤ 31)%nat →
  c_str (rr_password r) = [] →
  wf_room_record (parse_old (old_line (Some r))) ∧
  content (parse_old (old_line (Some r))) =
    (rr_room_id r, c_str (rr_room_name r), print_int (rr_is_active r),
     rr_user_count r, 0).
Proof.
  intros Hwf Hn Hnl Hp. unfold parse_old, old_line, old_format.
  change (str "OLD ") with (str "OLD" ++ [32]). rewrite <-app_assoc, sscanf_literal.
  unfold record_text. rewrite Hp. cbn [app].
  pose proof (length_print_int (rr_is_active r) (wrr_active _ Hwf)) as Hla.
  rewrite sscanf_int by (done || apply Hwf).
  rewrite sscanf_word by (done || unfold strlen in *; lia).
  change (sscanf (DSpace :: DStr 63 :: ?f) (32 :: 32 :: ?s))
    with (sscanf (DSpace :: DStr 63 :: f) (32 :: s)).
  rewrite sscanf_word by (auto with vox || lia).
  rewrite sscanf_int_end by apply Hwf.
  change (sscanf [DSpace; DInt] []) with (@nil scanned).
  assert (no_nul (print_int (rr_is_active r))) as Hnn by auto with vox.
  unfold zero32, zero64, memset. split.
  - split; cbn [rr_room_id rr_room_name rr_password rr_is_active rr_user_count];
      [apply Hwf| | |apply Hwf|by int_lia];
      rewrite length_strcpy; try (by rewrite length_replicate); unfold strlen in *;
      rewrite ?c_str_idemp, length_replicate, ?(c_str_id _ Hnn); lia.
  - unfold content. cbn [rr_room_id rr_room_name rr_password rr_is_active rr_user_count].
    by rewrite !c_str_strcpy, !c_str_idemp, (c_str_id _ Hnn).
Qed.

(** A room without a password does not survive recovery: when the server
    is killed while it updates such a room, recovery restores a record whose
    password is the active flag, whose active flag is the user count and whose
    user count is 0; an empty room is thus lost. *)
Theorem recovery_breaks_open_rooms d recs txs id rec old k :
  db_rep d recs → wal_at d (log_lines txs) → Forall tx_ok txs →
  (4 * length txs + 4 ≤ 512)%nat → 0 ≤ id → is_i32 id →
  wf_room_record rec → clean_record rec →
  recs !! Z.to_nat id = Some old →
  is_word (c_str (rr_room_name old)) = true → (strlen (rr_room_name old) ≤ 31)%nat →
  c_str (rr_password old) = [] → no_null_marker old → (2 ≤ k ≤ 4)%nat →
  ∃ recs', db_rep (wal_recover (restart (crash_state d id rec k))) recs' ∧
    live recs' (Z.to_nat id) =
      if rr_user_count old =? 0 then None
      else Some (rr_room_id old, c_str (rr_room_name old),
                 print_int (rr_is_active old), rr_user_count old, 0).
Proof.
  intros Hrep Hw Htxs Hlen Hid Hi32 Hwf Hcl Hold Hn Hnl Hp Hm Hk.
  pose proof (lookup_lt_Some _ _ _ Hold) as Hlt.
  assert (tx_ok (Tx id (recs !! Z.to_nat id) rec true)) as Ht.
  { split; [done| |done]. cbn. rewrite Hold. intros r [= <-]. split;
      [by apply clean_word|by rewrite Hp]. }
  destruct (crash_recover d recs txs id rec k) as (d0&H0&Hend); [done|done|done|done|lia|done..|lia|].
  rewrite Hold in Hend. destruct (Nat.leb_spec 2 k); [|lia].
  destruct (Nat.eqb_spec k 5); [lia|]. cbn [andb negb] in Hend.
  assert (wf_room_record old) as Hwo.
  { pose proof (dr_wf _ _ Hrep) as Hall. rewrite Forall_lookup in Hall. eauto. }
  destruct (parse_old_no_password old Hwo Hn Hnl Hp) as [Hwx Hcx].
  unfold restore_line in Hend. unfold no_null_marker in Hm. rewrite Hm in Hend.
  set (x := parse_old _) in *.
  destruct (rooms_write_rep d0 _ id x H0 Hwx) as (d'&E&Hr&_).
  { split; [done|]. case_match; [lia|]. rewrite length_put_record; lia. }
  rewrite E in Hend. eexists. split; [by apply Hend|].
  rewrite live_put by (case_match; [lia|rewrite length_put_record; lia]).
  rewrite decide_True by done. unfold live. cbn. rewrite Hcx.
  unfold content in Hcx. injection Hcx as _ _ _ -> _. done.
Qed.

Lemma strstr_app p a s : strstr p (a ++ p ++ s) = true.
Proof.
  induction a as [|c a IH]; cbn [app].
  - destruct (p ++ s) eqn:E; cbn [strstr]; rewrite <-E, starts_with_app; done.
  - cbn [strstr]. by rewrite IH, orb_true_r.
Qed.

(** A room whose name ends in OLD and whose password starts with NULL is
    taken for a missing record by recovery: when the server is killed while it
    updates such a room, the room is erased although the log holds its old
    contents. *)
Theorem recovery_erases_old_null_room d recs txs id rec old name_start password_end k :
  db_rep d recs → wal_at d (log_lines txs) → Forall tx_ok txs →
  (4 * length txs + 4 ≤ 512)%nat → 0 ≤ id → is_i32 id →
  wf_room_record rec → clean_record rec →
  recs !! Z.to_nat id = Some old → word_record old →
  c_str (rr_room_name old) = name_start ++ str "OLD" →
  c_str (rr_password old) = str "NULL" ++ password_end → (2 ≤ k ≤ 4)%nat →
  ∃ recs', db_rep (wal_recover (restart (crash_state d id rec k))) recs' ∧
    live recs' (Z.to_nat id) = None.
Proof.
  intros Hrep Hw Htxs Hlen Hid Hi32 Hwf Hcl Hold Hwo Hname Hpass Hk.
  pose proof (lookup_lt_Some _ _ _ Hold) as Hlt.
  assert (tx_ok (Tx id (recs !! Z.to_nat id) rec true)) as Ht.
  { split; [done| |done]. cbn. rewrite Hold. intros r [= <-].
    by apply word_record_clean. }
  destruct (crash_recover d recs txs id rec k) as (d0&H0&Hend);
    [done|done|done|done|lia|done..|lia|].
  rewrite Hold in Hend. destruct (Nat.leb_spec 2 k); [|lia].
  destruct (Nat.eqb_spec k 5); [lia|]. cbn [andb negb] in Hend.
  assert (strstr (str "OLD NULL") (old_line (Some old)) = true) as Hm.
  { unfold old_line, record_text. rewrite Hname, Hpass.
    change (str "OLD NULL") with (str "OLD" ++ 32 :: str "NULL").
    pose proof (strstr_app (str "OLD" ++ 32 :: str "NULL")
      (str "OLD " ++ print_int (rr_room_id old) ++ 32 :: name_start)
      (password_end ++ 32 :: print_int (rr_is_active old) ++
       32 :: print_int (rr_user_count old))) as H'.
    repeat (rewrite <-?app_assoc in H'; cbn [app] in H').
    repeat (rewrite <-?app_assoc; cbn [app]). exact H'. }
  unfold restore_line in Hend. rewrite Hm in Hend.
  destruct (rooms_write_rep d0 _ id empty_record H0) as (d'&E&Hr&_); [done| |].
  { split; [done|]. case_match; [lia|]. rewrite length_put_record; lia. }
  rewrite E in Hend. eexists. split; [by apply Hend|].
  rewrite live_put by (case_match; [lia|rewrite length_put_record; lia]).
  by rewrite decide_True.
Qed.

(** ** Rollback *)

Lemma rollback_loop_find d id txs t : Forall tx_ok txs →
  List.find (λ t, tx_id t =? id) txs = Some t →
  rollback_loop d id (log_lines txs) = restore_line d id (tx_old t).
Proof.
  intros H. induction H as [|t' txs Ht _ IH]; [done|]. cbn [List.find].
  change (log_lines (t' :: txs)) with (tx_lines t' ++ log_lines txs).
  unfold tx_lines. cbn [app rollback_loop]. autorewrite with tags. cbn [andb].
  rewrite scan_begin by apply Ht. destruct (tx_id t' =? id) eqn:E.
  - intros [= <-]. cbn [wal_restore_old negb andb]. autorewrite with tags. cbn [andb].
    unfold restore_line. by destruct (strstr _ _).
  - intros Hf. autorewrite with tags. cbn [andb].
    destruct (tx_commit t'); autorewrite with tags; by apply IH.
Qed.

(** Once its own ROLLBACK line completes the log, a rollback restores the OLD
    record of the first transaction of that room. *)
Lemma wal_rollback_find d recs ls txs id t :
  db_rep d recs → wal_at d ls → ls ++ [rollback_line id] = log_lines txs →
  Forall tx_ok txs → (4 * length txs ≤ 512)%nat →
  List.find (λ t, tx_id t =? id) txs = Some t →
  ∃ d', db_rep d' recs ∧ wal_rollback d id = restore_line d' id (tx_old t).
Proof.
  intros Hrep Hw Hls Htxs Hlen Hfind. unfold wal_rollback.
  pose proof (wal_append _ _ (rollback_line id) Hw) as [_ _ Hd _ Hm].
  pose proof (wal_write_rep _ _ (rollback_line id ++ [nl]) Hrep) as Hrep'.
  set (d3 := wal_write d _) in *. clearbody d3.
  destruct (length (f_data (db_wal d3)) =? 0)%nat eqn:E0.
  { apply Nat.eqb_eq in E0. rewrite Hd, lines_text_app in E0.
    unfold lines_text in E0. cbn in E0. len. }
  unfold malloc_ok. rewrite Hm. cbn [negb]. set (d4 := malloc_next _).
  exists d4. split; [by destruct Hrep'|].
  assert (wal_lines d4 = log_lines txs) as ->; [|by apply rollback_loop_find].
  unfold wal_lines. change (f_data (db_wal d4)) with (f_data (db_wal d3)).
  rewrite Hd, Hls, <-(app_nil_r (lines_text _)), c_str_lines by (by apply log_lines_ok).
  rewrite strtok_n_lines by (by apply log_lines_ok).
  rewrite take_ge by (by rewrite length_log_lines).
  destruct (512 - _)%nat; cbn; by rewrite app_nil_r.
Qed.

(** When the write of the room file fails, [db_write_room] reports it and
    rolls back from the log: to the OLD record of the first transaction of
    that room since the log was last cleared.  This is the record before the
    write only if it is the first one; a room created since then (its first
    OLD is NULL) is erased. *)
Theorem rollback_restores_first_old d recs txs id rec t :
  db_rep (with_rooms d (File (f_data (db_rooms d)) [])) recs →
  f_io (db_rooms d) = [WFail] →
  wal_at d (log_lines txs) → Forall tx_ok txs → (4 * length txs + 4 ≤ 512)%nat →
  0 ≤ id < Z.of_nat (length recs) → is_i32 id → clean_record rec →
  (∀ old, recs !! Z.to_nat id = Some old → clean_record old) →
  List.find (λ t, tx_id t =? id)
    (txs ++ [Tx id (recs !! Z.to_nat id) rec false]) = Some t →
  (∀ old, tx_old t = Some old → word_record old ∧ no_null_marker old) →
  let '(ok, d') := db_write_room d id rec in
  ok = false ∧ ∃ x, db_rep d' (put_record recs (Z.to_nat id) x) ∧
    content x = default (content empty_record) (content <$> tx_old t).
Proof.
  intros Hrep Hio Hw Htxs Hlen Hid Hi32 Hcl Hold Hfind Ht.
  assert (db_read_room_raw d id = recs !! Z.to_nat id) as Hread
    by (rewrite <-(db_read_raw_rep _ _ id Hrep); done).
  unfold db_write_room. rewrite Hread.
  rewrite (proj2 (Z.eqb_neq (db_rooms_fd d) _) (dr_fd _ _ Hrep)).
  set (o := recs !! Z.to_nat id) in *.
  destruct (wal_begin_rooms d id o rec) as [Er Ef].
  assert (wal_at (wal_begin d id o rec)
    (((log_lines txs ++ [begin_line id]) ++ [old_line o]) ++ [new_line rec])) as W3
    by (unfold wal_begin; by repeat apply wal_append).
  set (d1 := wal_begin d id o rec) in *. clearbody d1.
  unfold rooms_write. rewrite Er. unfold file_write. rewrite Hio. cbn [next_io].
  change (-1 =? Z.of_nat sizeof_room_record) with false. cbv iota beta.
  set (d2 := with_rooms d1 _). split; [done|].
  assert (wal_at d2 (((log_lines txs ++ [begin_line id]) ++ [old_line o]) ++
    [new_line rec])) as W2 by (by destruct W3).
  assert (db_rep d2 recs) as R2.
  { destruct Hrep. split; unfold d2; cbn; try done. by rewrite Ef. }
  edestruct (wal_rollback_find d2 recs _ (txs ++ [Tx id o rec false]) id t R2 W2)
    as (d'&Hd'&->).
  { unfold log_lines. rewrite fmap_app, concat_app, <-!app_assoc. done. }
  { apply Forall_app. split; [done|]. by constructor. }
  { rewrite length_app. cbn. lia. }
  { done. }
  destruct (restore_line_spec d' recs id Hd') with (o := tx_old t) as (x&Hx&Hc);
    [lia|done|]. eauto.
Qed.

(** ** Witnesses: a database with one room, created through the log *)

Definition mk_room (n p : bytes) (active count : Z) : room_record :=
  RoomRecord 0 (strcpy zero32 n) (strcpy zero64 p) active count.
Definition empty_db : db := Db 3 (File [] []) 4 (File [] []) 0 [] true 0.
Definition demo_db (n p : bytes) : db :=
  (db_write_room empty_db 0 (mk_room n p 1 0)).2.

(** The checks a strings pair has to pass, as one boolean. *)
Definition demo_ok (n p : bytes) : bool :=
  is_word n && (length n <=? 31)%nat && forallb clean_char p && (length p <=? 63)%nat.

Lemma demo_wf n p a c : demo_ok n p = true → is_i32 a → is_i32 c →
  wf_room_record (mk_room n p a c) ∧ clean_record (mk_room n p a c) ∧
  c_str (rr_room_name (mk_room n p a c)) = n ∧
  c_str (rr_password (mk_room n p a c)) = p.
Proof.
  unfold demo_ok. intros [[[Hn Hnl%Nat.leb_le]%andb_true_iff Hp]%andb_true_iff
    Hpl%Nat.leb_le]%andb_true_iff Ha Hc.
  pose proof (is_word_no_nul _ Hn) as Hn0. pose proof (clean_no_nul _ Hp) as Hp0.
  unfold mk_room, clean_record.
  cbn [rr_room_id rr_room_name rr_password rr_is_active rr_user_count].
  rewrite !c_str_strcpy, !c_str_id by done.
  split_and!; [|by apply clean_word|done|done|done]. split;
    cbn [rr_room_id rr_room_name rr_password rr_is_active rr_user_count];
    [by int_lia| | |done|done]; rewrite length_strcpy; try done;
    unfold strlen; rewrite c_str_id by done; unfold zero32, zero64, memset; len.
Qed.

Lemma demo_word n p a c : demo_ok n p = true → is_word p = true →
  is_i32 a → is_i32 c → word_record (mk_room n p a c).
Proof.
  intros Hok Hp Ha Hc. destruct (demo_wf n p a c Hok Ha Hc) as (Hwf&_&En&Ep).
  unfold demo_ok in Hok.
  apply andb_true_iff in Hok as [[[Hn Hnl%Nat.leb_le]%andb_true_iff _]%andb_true_iff
    Hpl%Nat.leb_le].
  split; unfold strlen; rewrite ?En, ?Ep; done.
Qed.

Lemma empty_db_rep : db_rep empty_db [].
Proof. by split. Qed.
Lemma empty_db_wal : wal_at empty_db [].
Proof. by split. Qed.

Lemma demo_rep n p : demo_ok n p = true →
  db_rep (demo_db n p) [mk_room n p 1 0] ∧
  wal_at (demo_db n p) (log_lines [Tx 0 None (mk_room n p 1 0) true]) ∧
  Forall tx_ok [Tx 0 None (mk_room n p 1 0) true].
Proof.
  intros Hok. destruct (demo_wf n p 1 0 Hok) as (Hwf&Hcl&_&_); [by int_lia..|].
  unfold demo_db.
  rewrite (db_write_room_ops empty_db [] 0 _ empty_db_rep) by (done || cbn; lia).
  destruct (crash_state_spec empty_db [] [] 0 (mk_room n p 1 0) 5 empty_db_rep empty_db_wal)
    as [Hw Hr]; [cbn; lia|done|lia|].
  split; [exact Hr|]. split; [exact Hw|]. constructor; [|constructor].
  split; [by int_lia|by intros|done].
Qed.

Lemma crash_atomicity_witness :
  ∃ recs', db_rep (wal_recover (restart (crash_state (demo_db (str "room") (str "pass")) 0
      (mk_room (str "room") (str "pass") 1 1) 4))) recs' ∧
    live recs' 0 = live [mk_room (str "room") (str "pass") 1 0] 0.
Proof.
  destruct (demo_rep (str "room") (str "pass") eq_refl) as (Hr&Hw&Ht).
  destruct (demo_wf (str "room") (str "pass") 1 1 eq_refl) as (Hwf&Hcl&_&_);
    [by int_lia..|].
  destruct (crash_atomicity _ _ _ 0 (mk_room (str "room") (str "pass") 1 1) 4 Hr Hw Ht)
    as (_&_&recs'&?&?); [cbn; lia|cbn; lia|by int_lia|done|done| |lia|].
  - intros old [= <-]. split; [|vm_compute; reflexivity].
    apply demo_word; [reflexivity|reflexivity|by int_lia|by int_lia].
  - eauto.
Defined.

Lemma old_line_roundtrip_witness :
  content (parse_old (old_line (Some (mk_room (str "room") (str "pass") 1 7)))) =
  (0, str "room", str "pass", 1, 7).
Proof.
  rewrite (proj2 (old_line_roundtrip (mk_room (str "room") (str "pass") 1 7)
    (demo_word (str "room") (str "pass") 1 7 eq_refl eq_refl ltac:(by int_lia)
      ltac:(by int_lia)))).
  vm_compute. reflexivity.
Defined.

Lemma recovery_stops_at_512_lines_witness :
  ∃ d, wal_at d (log_lines (replicate 128 (Tx 0 None (mk_room (str "a") (str "b") 1 0) true)
         ++ [Tx 0 None (mk_room (str "c") (str "d") 1 0) true]) ) ∧
    db_rooms (wal_recover d) = db_rooms d.
Proof.
  set (t := Tx 0 None (mk_room (str "a") (str "b") 1 0) true).
  set (t' := Tx 0 None (mk_room (str "c") (str "d") 1 0) true).
  destruct (demo_wf (str "a") (str "b") 1 0 eq_refl) as (_&Hcl&_&_); [by int_lia..|].
  set (text := lines_text (log_lines (replicate 128 t ++ [t']))).
  exists (Db 3 (File [] []) 4 (File text []) (length text) [] true 0).
  split; [by split|].
  apply (recovery_stops_at_512_lines _ (replicate 128 t) (lines_text (log_lines [t'])));
    [done|done| |done|].
  - apply Forall_replicate. split; [by int_lia|by intros|done].
  - unfold text, log_lines. rewrite fmap_app, concat_app. apply lines_text_app.
Defined.

Lemma recovery_breaks_open_rooms_witness :
  ∃ recs', db_rep (wal_recover (restart (crash_state (demo_db (str "room") []) 0
      (mk_room (str "room") [] 1 1) 4))) recs' ∧ live recs' 0 = None.
Proof.
  destruct (demo_rep (str "room") [] eq_refl) as (Hr&Hw&Ht).
  destruct (demo_wf (str "room") [] 1 1 eq_refl) as (Hwf&Hcl&_&_); [by int_lia..|].
  apply (recovery_breaks_open_rooms _ _ _ 0 (mk_room (str "room") [] 1 1)
    (mk_room (str "room") [] 1 0) 4 Hr Hw Ht);
    first [lia | by int_lia | done | vm_compute; reflexivity | vm_compute; lia].
Defined.

Lemma recovery_erases_old_null_room_witness :
  ∃ recs', db_rep (wal_recover (restart (crash_state (demo_db (str "OLD") (str "NULL")) 0
      (mk_room (str "OLD") (str "NULL") 1 1) 4))) recs' ∧ live recs' 0 = None.
Proof.
  destruct (demo_rep (str "OLD") (str "NULL") eq_refl) as (Hr&Hw&Ht).
  destruct (demo_wf (str "OLD") (str "NULL") 1 1 eq_refl) as (Hwf&Hcl&_&_); [by int_lia..|].
  apply (recovery_erases_old_null_room _ _ _ 0 (mk_room (str "OLD") (str "NULL") 1 1)
    (mk_room (str "OLD") (str "NULL") 1 0) [] [] 4 Hr Hw Ht);
    first [lia | by int_lia | done | vm_compute; reflexivity | vm_compute; lia |
           apply demo_word; by (reflexivity || int_lia)].
Defined.

(** A room created and updated in the same run: the failed second update is
    rolled back to nothing. *)
Lemma rollback_restores_first_old_witness :
  let d := demo_db (str "room") (str "pass") in
  let d' := with_rooms d (File (f_data (db_rooms d)) [WFail]) in
  let '(ok, d'') := db_write_room d' 0 (mk_room (str "room") (str "pass") 1 1) in
  ok = false ∧ ∃ x, db_rep d'' [x] ∧ content x = content empty_record.
Proof.
  intros d d'.
  destruct (demo_rep (str "room") (str "pass") eq_refl) as (Hr&Hw&Ht).
  destruct (demo_wf (str "room") (str "pass") 1 0 eq_refl) as (_&Hcl0&_&_); [by int_lia..|].
  destruct (demo_wf (str "room") (str "pass") 1 1 eq_refl) as (_&Hcl&_&_); [by int_lia..|].
  apply (rollback_restores_first_old d' [mk_room (str "room") (str "pass") 1 0]
    [Tx 0 None (mk_room (str "room") (str "pass") 1 0) true] 0
    (mk_room (str "room") (str "pass") 1 1)
    (Tx 0 None (mk_room (str "room") (str "pass") 1 0) true));
    first [done | by int_lia | cbn; lia | by destruct Hr | by destruct Hw | by intros ? [= <-]].
Defined.
