(* ===== verification/Tear.v ===== *)
(** * A write of the room database cut in the middle

    [Wal.crash_atomicity] stops the server between two of the five writes of
    [db_write_room].  Here the write under way when the server is killed is
    itself cut: only the first bytes of a log line, or of the record, reach
    the file.  Recovery still gives the rooms before or after the write, with
    one exception: an OLD line of an existing room that is cut after its tag
    is read as a record of zeros, and recovery erases the room. *)
From S2P Require Import Prelude CInt CString Protocol Posix RoomStore FileDb Wal.
#[local] Open Scope Z_scope.

(** ** Cut writes *)
Definition op_size (op : disk_op) : nat :=
  match op with
  | WalAppend b => length b
  | RoomsPut _ _ => sizeof_room_record
  end.

(** Only the first [n] bytes of the write are in the file. *)
Definition apply_torn (n : nat) (d : db) (op : disk_op) : db :=
  match op with
  | WalAppend b => wal_write d (take n b)
  | RoomsPut id r =>
      with_rooms d (File (file_put (f_data (db_rooms d))
        (Z.to_nat id * sizeof_room_record) (take n (encode_room r))) (f_io (db_rooms d)))
  end.

Lemma clean_take n l : clean l → clean (take n l).
Proof.
  unfold clean. rewrite !forallb_Forall. apply Forall_take.
Qed.

(** A cut log line is a last line without newline. *)
Lemma wal_torn d ls l n : wal_at d ls → (n < length (l ++ [nl]))%nat →
  wal_text (wal_write d (take n (l ++ [nl]))) ls (take n l).
Proof.
  intros [Hfd Hh Hd Hp Hm] Hn. unfold wal_write. rewrite file_write_healthy by done.
  rewrite take_app_le by len.
  split; cbn; [done| |done].
  unfold file_put. rewrite Hp, take_ge, Nat.sub_diag, drop_ge by lia.
  by rewrite Hd, app_nil_r.
Qed.

(** A record written over the first bytes of another leaves no trace of it. *)
Lemma file_put_over s off a b : (length a ≤ length b)%nat →
  file_put (file_put s off a) off b = file_put s off b.
Proof.
  intros Hab. unfold file_put.
  assert (length (take off s ++ replicate (off - length s) 0) = off) as Ho by len.
  rewrite !(app_assoc (take off s)). set (pre := take off s ++ _) in *.
  clearbody pre. subst off.
  rewrite take_app_length, !length_app.
  replace (length pre - _)%nat with 0%nat by lia. cbn [replicate app].
  do 2 f_equal. rewrite drop_app_add, drop_app_ge, drop_drop by done. f_equal. lia.
Qed.

(** ** Recovery over a cut last line *)

(** A cut line starts like the whole line or is missing. *)
Lemma take_head_not p c s n l : str p = c :: s →
  match l with c' :: _ => c' ≠ c | [] => False end →
  starts_with (str p) (take n l) = false.
Proof.
  intros ->. destruct l as [|c' l]; [done|]. intros Hc.
  destruct n; cbn [take]; [done|]. by apply starts_with_head.
Qed.

(** [H]: the cut line [take n l] does not start with the tag. *)
Ltac cut_tag H tag n l :=
  assert (starts_with (str tag) (take n l) = false) as H
    by (eapply take_head_not; [reflexivity|];
        first [done | match goal with |- context [old_line ?o] => by destruct o end]).

Lemma last_line_cases p : (p = [] ∧ last_line p = []) ∨ last_line p = [p].
Proof. destruct p; auto. Qed.

Lemma recover_last_begin d n id :
  recover_loop d (last_line (take n (begin_line id))) = d.
Proof.
  cut_tag Ho "OLD"%string n (begin_line id).
  destruct (take n (begin_line id)) as [|c p]; [done|]. cbn [last_line recover_loop].
  destruct (starts_with (str "BEGIN") _); [|done].
  cbn [tx_completed wal_restore_old negb andb]. by rewrite Ho.
Qed.

(** After the BEGIN line: an OLD line is obeyed however much of it is there. *)
Lemma recover_last_old d n id o : is_i32 id →
  recover_loop d (begin_line id :: last_line (take n (old_line o))) =
  if starts_with (str "OLD") (take n (old_line o)) then
    if strstr (str "OLD NULL") (take n (old_line o))
    then (rooms_write d id empty_record).2
    else (rooms_write d id (parse_old (take n (old_line o)))).2
  else d.
Proof.
  intros Hid.
  cut_tag Hb "BEGIN"%string n (old_line o). cut_tag Hc "COMMIT"%string n (old_line o).
  cut_tag Hr "ROLLBACK"%string n (old_line o).
  destruct (last_line_cases (take n (old_line o))) as [[-> ->]| ->].
  { cbn [recover_loop]. autorewrite with tags. rewrite scan_begin by done.
    cbn [tx_completed wal_restore_old negb andb]. by autorewrite with tags. }
  generalize dependent (take n (old_line o)). intros x Hb Hc Hr.
  cbn [recover_loop]. autorewrite with tags. rewrite scan_begin, Hb by done.
  cbn [tx_completed]. rewrite Hb, Hc, Hr.
  cbn [wal_restore_old negb andb]. autorewrite with tags. cbn [andb].
  rewrite Hb. by destruct (starts_with _ _), (strstr _ _).
Qed.

(** After the OLD line: a cut NEW line does not matter. *)
Lemma recover_last_new d n id o r : is_i32 id →
  recover_loop d (begin_line id :: old_line o :: last_line (take n (new_line r))) =
  restore_line d id o.
Proof.
  intros Hid.
  cut_tag Hb "BEGIN"%string n (new_line r). cut_tag Hc "COMMIT"%string n (new_line r).
  cut_tag Hr "ROLLBACK"%string n (new_line r).
  destruct (last_line_cases (take n (new_line r))) as [[-> ->]| ->].
  { by apply (recover_loop_partial d id o r 2); [|lia]. }
  generalize dependent (take n (new_line r)). intros x Hb Hc Hr.
  unfold restore_line. cbn [recover_loop]. autorewrite with tags.
  rewrite scan_begin, Hb by done. cbn [tx_completed]. autorewrite with tags. cbn [andb].
  rewrite Hb, Hc, Hr. cbn [wal_restore_old negb andb]. autorewrite with tags.
  cbn [andb]. autorewrite with tags. by destruct (strstr _ _).
Qed.

(** After the NEW line: a cut COMMIT line ends the transaction or does not. *)
Lemma recover_last_commit d n id o r : is_i32 id →
  recover_loop d (begin_line id :: old_line o :: new_line r ::
    last_line (take n (commit_line id))) = restore_line d id o ∨
  (6 ≤ n)%nat ∧ recover_loop d (begin_line id :: old_line o :: new_line r ::
    last_line (take n (commit_line id))) = d.
Proof.
  intros Hid.
  cut_tag Hb "BEGIN"%string n (commit_line id). cut_tag Ho "OLD"%string n (commit_line id).
  cut_tag Hr "ROLLBACK"%string n (commit_line id).
  assert (starts_with (str "COMMIT") (take n (commit_line id)) = true → (6 ≤ n)%nat) as Hn.
  { unfold starts_with. intros H%bool_decide_eq_true. apply (f_equal length) in H.
    rewrite length_take, length_take in H. change (length (str "COMMIT")) with 6%nat in H. lia. }
  destruct (last_line_cases (take n (commit_line id))) as [[-> ->]| ->].
  { left. by apply (recover_loop_partial d id o r 3); [|lia]. }
  generalize dependent (take n (commit_line id)). intros x Hb Ho Hr Hn.
  unfold restore_line. cbn [recover_loop]. autorewrite with tags.
  rewrite scan_begin, Hb by done. cbn [tx_completed]. autorewrite with tags. cbn [andb].
  rewrite Hb, Hr. cbn [andb].
  destruct (starts_with (str "COMMIT") x); cbn [andb]; [destruct (_ =? _)|].
  { right. auto. }
  all: left; cbn [wal_restore_old negb andb]; autorewrite with tags;
    cbn [andb]; autorewrite with tags; by destruct (strstr _ _).
Qed.

(** ** Recovery after a cut write *)
Section torn.
Context (d : db) (recs : list room_record) (txs : list tx) (id : Z) (rec : room_record).
Context (Hrep : db_rep d recs) (Hw : wal_at d (log_lines txs)) (Htxs : Forall tx_ok txs).
Context (Hlen : (4 * length txs + 4 ≤ 512)%nat) (Hid : 0 ≤ id ≤ Z.of_nat (length recs)).
Context (Hwf : wf_room_record rec) (Ht : tx_ok (Tx id (recs !! Z.to_nat id) rec true)).

(** The rooms in the file after [k] whole writes. *)
Definition rooms_after (k : nat) : list room_record :=
  if (k <=? 3)%nat then recs else put_record recs (Z.to_nat id) rec.

Lemma id_rooms_after k : 0 ≤ id ≤ Z.of_nat (length (rooms_after k)).
Proof using Hid. clear Hlen. unfold rooms_after. case_match; [done|]. rewrite length_put_record; lia. Qed.

Lemma cut_log k l n : (k ≤ 4)%nat → clean l → (n < length (l ++ [nl]))%nat →
  ∃ d0, db_rep d0 (rooms_after k) ∧
    ∀ rs, db_rep (recover_loop d0
        (take (logged k) (tx_lines (Tx id (recs !! Z.to_nat id) rec true)) ++
         last_line (take n l))) rs →
      db_rep (wal_recover (restart
        (wal_write (crash_state d id rec k) (take n (l ++ [nl]))))) rs.
Proof.
  intros Hk Hl Hn.
  destruct (crash_state_spec d recs _ id rec k Hrep Hw Hid Hwf ltac:(lia)) as [Hcw Hcr].
  destruct (recover_rep _ _ _ _ (wal_torn _ _ l n Hcw Hn) Htxs) as (d0&E1&E2&Hend).
  { by apply Forall_take, tx_log_lines. }
  { by apply clean_take. }
  { rewrite length_take. cbn [tx_lines length].
    assert (logged k ≤ 3)%nat by (destruct k as [|[|[|[|[|]]]]]; cbn; lia).
    destruct (take n l); cbn [last_line length]; lia. }
  exists d0. split; [|done]. eapply db_rep_ext; [exact E2|exact E1|].
  by apply wal_write_rep.
Qed.

(** Undoing the write brings back the active rooms. *)
Lemma undone d0 k : db_rep d0 (rooms_after k) →
  (∀ old, recs !! Z.to_nat id = Some old → word_record old ∧ no_null_marker old) →
  ∃ rs, db_rep (restore_line d0 id (recs !! Z.to_nat id)) rs ∧
    ∀ j, live rs j = live recs j.
Proof using Hid.
  clear Hlen. intros H0 Hold.
  destruct (restore_line_spec d0 _ id H0 (id_rooms_after k) _ Hold) as (x&Hx&Hc).
  exists (put_record recs (Z.to_nat id) x). split; [|by apply live_restored; [lia|]].
  unfold rooms_after in Hx. case_match; [done|]. by rewrite put_record_twice in Hx by lia.
Qed.

(** A cut record is overwritten by the undo. *)
Lemma cut_record n : (n ≤ sizeof_room_record)%nat →
  (∀ old, recs !! Z.to_nat id = Some old → word_record old ∧ no_null_marker old) →
  ∃ rs, db_rep (wal_recover (restart
      (apply_torn n (crash_state d id rec 3) (RoomsPut id rec)))) rs ∧
    ∀ j, live rs j = live recs j.
Proof.
  intros Hn Hold.
  destruct (crash_state_spec d recs _ id rec 3 Hrep Hw Hid Hwf ltac:(lia)) as [Hcw Hcr].
  set (d3 := crash_state d id rec 3) in *. set (d3t := apply_torn n d3 _).
  destruct (undone d3 3 Hcr Hold) as (rs&Hrs&Hlive). exists rs. split; [|done].
  assert (wal_text d3t (log_lines txs ++ take 3 (tx_lines (Tx id (recs !! Z.to_nat id) rec true))) [])
    as Hwt by (destruct (wal_at_text _ _ Hcw); by split).
  destruct (recover_rep _ _ _ _ Hwt Htxs) as (d0&E1&E2&Hend);
    [by apply Forall_take, tx_log_lines|done| |].
  { rewrite length_take. cbn [tx_lines last_line length]. lia. }
  apply Hend. cbn [last_line]. rewrite app_nil_r.
  assert (recover_loop d0 (take 3 (tx_lines (Tx id (recs !! Z.to_nat id) rec true))) =
    restore_line d0 id (recs !! Z.to_nat id)) as ->
    by (apply (recover_loop_partial d0 id _ rec 3 (to_id _ Ht)); lia).
  assert (∀ r, wf_room_record r → db_rooms (rooms_write d0 id r).2 =
    db_rooms (rooms_write d3 id r).2 ∧
    db_rooms_fd (rooms_write d0 id r).2 = db_rooms_fd (rooms_write d3 id r).2) as Hover.
  { intros r Hr. unfold rooms_write. rewrite E2.
    rewrite !file_write_healthy by apply Hcr. cbn.
    rewrite file_put_over; [by rewrite E1|].
    rewrite length_take, !length_encode_room by done. lia. }
  revert Hrs. unfold restore_line.
  destruct (recs !! Z.to_nat id) as [old|] eqn:Eo.
  - destruct (Hold old eq_refl) as [Hwo Hm]. unfold no_null_marker in Hm. rewrite Hm.
    destruct (Hover (parse_old (old_line (Some old)))); [by apply parse_old_record|].
    by apply db_rep_ext.
  - destruct (Hover empty_record); [done|]. by apply db_rep_ext.
Qed.
End torn.

(** A cut OLD NULL line either lacks its tag or is read as a record of zeros. *)
Lemma cut_old_null d id n : is_i32 id → (n ≤ 8)%nat →
  recover_loop d (begin_line id :: last_line (take n (old_line None))) =
  if (3 <=? n)%nat then restore_line d id None else d.
Proof.
  intros Hid Hn. rewrite recover_last_old by done.
  do 9 (destruct n as [|n]; [reflexivity|]). lia.
Qed.

(** C3. Crash atomicity when the write under way is itself cut: of the five
    writes of [db_write_room], [k] are complete and the next has put only its
    first [n] bytes into its file.  After the next start the room file holds
    well-formed records and its active rooms are those before the write; when
    the COMMIT line was cut after its tag they can also be those after it.

    This holds under the conditions that the statement lists.  The log before
    the write has finished transactions only, written by the server, and with
    the four lines of this one at most the 512 lines that recovery reads; the
    new record has no newline in its name and password; an existing record of
    this room has a name and a password that are single words (a room without
    a password does not) and do not contain the marker of a null record.  The
    last condition excludes one cut: an OLD line of an existing room that is
    cut after its tag ([k = 1], [n] ≥ 3).  Without the conditions it is false:
    [torn_old_line_erases_room] is the cut, [recovery_breaks_open_rooms] a room
    without a password and [recovery_stops_at_512_lines] a longer log. *)
Theorem torn_write_recovers d recs txs id rec k op n :
  db_rep d recs → wal_at d (log_lines txs) → Forall tx_ok txs →
  (4 * length txs + 4 ≤ 512)%nat →
  0 ≤ id ≤ Z.of_nat (length recs) → is_i32 id →
  wf_room_record rec → clean_record rec →
  (∀ old, recs !! Z.to_nat id = Some old → word_record old ∧ no_null_marker old) →
  db_write_ops d id rec !! k = Some op → (n < op_size op)%nat →
  (k = 1%nat → recs !! Z.to_nat id = None ∨ (n < 3)%nat) →
  ∃ recs', db_rep (wal_recover (restart (apply_torn n (crash_state d id rec k) op))) recs' ∧
    ((∀ j, live recs' j = live recs j) ∨
     k = 4%nat ∧ (6 ≤ n)%nat ∧
     ∀ j, live recs' j = live (put_record recs (Z.to_nat id) rec) j).
Proof.
  intros Hrep Hw Htxs Hlen Hid Hi32 Hwf Hcl Hold Hop Hn H1.
  assert (tx_ok (Tx id (recs !! Z.to_nat id) rec true)) as Ht.
  { split; [done| |done]. intros r Hr. by apply word_record_clean, (Hold r). }
  pose proof (cut_log d recs txs id rec Hrep Hw Htxs Hlen Hid Hwf Ht) as Hcut.
  pose proof (undone recs id rec Hid) as Hundo.
  destruct k as [|[|[|[|[|]]]]]; [..|done]; injection Hop as <-;
    rewrite ?(db_read_raw_rep _ _ _ Hrep) in *; cbn [op_size apply_torn] in *.
  - destruct (Hcut 0%nat (begin_line id) n) as (d0&H0&Hend);
      [lia|apply begin_log_line|done|].
    exists recs. split; [|by left]. apply Hend.
    by rewrite take_0, app_nil_l, recover_last_begin.
  - destruct (Hcut 1%nat (old_line (recs !! Z.to_nat id)) n) as (d0&H0&Hend);
      [lia|by apply old_log_line, (to_old _ Ht)|done|].
    cbn [logged Nat.leb take tx_lines app tx_id tx_old] in Hend.
    destruct (H1 eq_refl) as [Hnone|Hn3].
    + rewrite Hnone in *. change (length (old_line None ++ [nl])) with 9%nat in Hn.
      rewrite cut_old_null in Hend by (done || lia). destruct (3 <=? n)%nat; [|eauto].
      destruct (Hundo d0 1%nat H0) as (rs&Hrs&Hl); [done|]. eauto.
    + rewrite recover_last_old in Hend by done. exists recs. split; [|by left].
      apply Hend. by destruct (recs !! Z.to_nat id), n as [|[|[|]]]; try lia.
  - destruct (Hcut 2%nat (new_line rec) n) as (d0&H0&Hend);
      [lia|by apply new_log_line|done|].
    cbn [logged Nat.leb take tx_lines app tx_id tx_old] in Hend.
    rewrite recover_last_new in Hend by done.
    destruct (Hundo d0 2%nat H0 Hold) as (rs&Hrs&Hl). eauto.
  - destruct (cut_record d recs txs id rec) with (n := n) as (rs&Hrs&Hl);
      try done; [lia|]. eauto.
  - destruct (Hcut 4%nat (commit_line id) n) as (d0&H0&Hend);
      [lia|apply commit_log_line|done|].
    cbn [logged Nat.leb Nat.sub take tx_lines app tx_id tx_old tx_new] in Hend.
    destruct (recover_last_commit d0 n id (recs !! Z.to_nat id) rec Hi32) as [E|[H6 E]];
      rewrite E in Hend.
    + destruct (Hundo d0 4%nat H0 Hold) as (rs&Hrs&Hl). eauto.
    + exists (put_record recs (Z.to_nat id) rec). split; [|by right]. by apply Hend.
Qed.

(** Recovery loses a room that was never touched: when the server is killed
    while the first three or four bytes of the OLD line of an existing room are
    in the log, the room file still holds that room unchanged, but recovery
    reads the line as a record of zeros and writes it over the room. *)
Theorem torn_old_line_erases_room d recs txs id rec old n :
  db_rep d recs → wal_at d (log_lines txs) → Forall tx_ok txs →
  (4 * length txs + 4 ≤ 512)%nat → 0 ≤ id → is_i32 id →
  wf_room_record rec → clean_record rec →
  recs !! Z.to_nat id = Some old → clean_record old → (3 ≤ n ≤ 4)%nat →
  let torn := apply_torn n (crash_state d id rec 1) (WalAppend (old_line (Some old) ++ [nl])) in
  db_write_ops d id rec !! 1%nat = Some (WalAppend (old_line (Some old) ++ [nl])) ∧
  db_rooms torn = db_rooms d ∧
  ∃ recs', db_rep (wal_recover (restart torn)) recs' ∧
    live recs' (Z.to_nat id) = None.
Proof.
  intros Hrep Hw Htxs Hlen Hid Hi32 Hwf Hcl Hold Hclo Hn torn.
  pose proof (lookup_lt_Some _ _ _ Hold) as Hlt.
  assert (tx_ok (Tx id (recs !! Z.to_nat id) rec true)) as Ht.
  { split; [done| |done]. cbn. rewrite Hold. by intros r [= <-]. }
  split; [cbn; by rewrite (db_read_raw_rep _ _ _ Hrep), Hold|].
  split; [unfold torn; cbn; by rewrite !(proj1 (wal_write_rooms _ _))|].
  destruct (cut_log d recs txs id rec Hrep Hw Htxs Hlen ltac:(lia) Hwf Ht 1
    (old_line (Some old)) n) as (d0&H0&Hend);
    [lia|by apply old_log_line; intros ? [= <-]|rewrite length_app; cbn; lia|].
  cbn [logged Nat.leb take tx_lines app tx_id tx_old rooms_after] in H0, Hend.
  rewrite recover_last_old in Hend by done.
  destruct (rooms_write_rep d0 _ id empty_record H0) as (d'&E&Hr&_); [done|lia|].
  exists (put_record recs (Z.to_nat id) empty_record). split.
  - apply Hend. assert ((if starts_with (str "OLD") (take n (old_line (Some old))) then
      if strstr (str "OLD NULL") (take n (old_line (Some old)))
      then (rooms_write d0 id empty_record).2
      else (rooms_write d0 id (parse_old (take n (old_line (Some old))))).2
      else d0) = (rooms_write d0 id empty_record).2) as ->; [|by rewrite E].
    destruct n as [|[|[|[|[|]]]]]; [lia..| | |lia]; reflexivity.
  - rewrite live_put by lia. by rewrite decide_True.
Qed.

(** ** Witnesses: the database of [Wal] with one room *)
Lemma torn_write_recovers_witness :
  ∃ recs', db_rep (wal_recover (restart (apply_torn 50
      (crash_state (demo_db (str "room") (str "pass")) 0
        (mk_room (str "room") (str "pass") 1 1) 3)
      (RoomsPut 0 (mk_room (str "room") (str "pass") 1 1))))) recs' ∧
    ∀ j, live recs' j = live [mk_room (str "room") (str "pass") 1 0] j.
Proof.
  destruct (demo_rep (str "room") (str "pass") eq_refl) as (Hr&Hw&Ht).
  destruct (demo_wf (str "room") (str "pass") 1 1 eq_refl) as (Hwf&Hcl&_&_);
    [by int_lia..|].
  destruct (torn_write_recovers _ _ _ 0 (mk_room (str "room") (str "pass") 1 1) 3
    (RoomsPut 0 (mk_room (str "room") (str "pass") 1 1)) 50 Hr Hw Ht)
    as (recs'&?&[?|[? _]]); [cbn; lia|cbn; lia|by int_lia|done|done| |done| |done|eauto|done].
  - intros old [= <-]. split; [|vm_compute; reflexivity].
    apply demo_word; [reflexivity|reflexivity|by int_lia|by int_lia].
  - unfold op_size, sizeof_room_record. lia.
Defined.

Lemma torn_old_line_erases_room_witness :
  live [mk_room (str "room") (str "pass") 1 0] 0 ≠ None ∧
  ∃ recs', db_rep (wal_recover (restart (apply_torn 4
      (crash_state (demo_db (str "room") (str "pass")) 0
        (mk_room (str "room") (str "pass") 1 1) 1)
      (WalAppend (old_line (Some (mk_room (str "room") (str "pass") 1 0)) ++ [nl]))))) recs' ∧
    live recs' 0 = None.
Proof.
  split; [done|].
  destruct (demo_rep (str "room") (str "pass") eq_refl) as (Hr&Hw&Ht).
  destruct (demo_wf (str "room") (str "pass") 1 1 eq_refl) as (Hwf&Hcl&_&_);
    [by int_lia..|].
  destruct (demo_wf (str "room") (str "pass") 1 0 eq_refl) as (_&Hclo&_&_);
    [by int_lia..|].
  apply (torn_old_line_erases_room _ _ _ 0 (mk_room (str "room") (str "pass") 1 1)
    (mk_room (str "room") (str "pass") 1 0) 4 Hr Hw Ht);
    first [lia | by int_lia | done | cbn; lia].
Defined.
