(* ===== verification/Ring.v ===== *)
(** * [src/server/ipc_manager.c]: the shared ring of audio packets

    [ring_buffer_push] and [ring_buffer_pop] guard a circular buffer by two
    counting semaphores and a mutex.  The file has the two operations as
    functions on the ring and its semaphores, the abstract bounded queue they
    implement, and the interleaved execution of any number of threads, whose
    steps are the semaphore calls and the critical section. *)
From S2P Require Import Prelude CInt CString Protocol.
#[local] Open Scope Z_scope.

(** ** Operations *)

Record ring_state := RingState {
  rs_ring : ring_buffer;
  rs_empty : Z;    (** [ring_empty] *)
  rs_full : Z      (** [ring_full] *)
}.

(** [sem_trywait]: the new value, or [EAGAIN]. *)
Definition sem_trywait (v : Z) : option Z := if 0 <? v then Some (v - 1) else None.
Definition sem_post (v : Z) : Z := v + 1.

Definition zero_packet : audio_packet := AudioPacket 0 0 0 0 0 (memset 0 2048).

(** [memset(shm_ring,0,...)] and the two [sem_init] of [ipc_manager_init]. *)
Definition ring_init : ring_state :=
  RingState (RingBuffer (replicate 128 zero_packet) 0 0 0) RING_BUFFER_CAPACITY 0.

(** The critical section of a push: write at [tail], advance it.  [None] is a
    write outside the array. *)
Definition ring_enter_push (r : ring_buffer) (pkt : audio_packet) : option ring_buffer :=
  if (Z.to_nat (rb_tail r) <? length (rb_packets r))%nat then
    Some (RingBuffer (<[Z.to_nat (rb_tail r) := pkt]> (rb_packets r)) (rb_head r)
            (u32 (rb_tail r + 1) mod RING_BUFFER_CAPACITY) (u32 (rb_count r + 1)))
  else None.

(** The critical section of a pop: read at [head], advance it. *)
Definition ring_enter_pop (r : ring_buffer) : option (audio_packet * ring_buffer) :=
  pkt ← rb_packets r !! Z.to_nat (rb_head r);
  Some (pkt, RingBuffer (rb_packets r) (u32 (rb_head r + 1) mod RING_BUFFER_CAPACITY)
               (rb_tail r) (u32 (rb_count r - 1))).

Definition ring_buffer_push (pkt : audio_packet) : C ring_state bool := λ s,
  match sem_trywait (rs_empty s) with
  | None => Some (false, s)
  | Some e =>
    r ← ring_enter_push (rs_ring s) pkt;
    Some (true, RingState r e (sem_post (rs_full s)))
  end.

Definition ring_buffer_pop : C ring_state (option audio_packet) := λ s,
  match sem_trywait (rs_full s) with
  | None => Some (None, s)
  | Some f =>
    '(pkt, r) ← ring_enter_pop (rs_ring s);
    Some (Some pkt, RingState r (sem_post (rs_empty s)) f)
  end.

(** ** The ring as a queue *)

(** The ring holds the queue [q], oldest packet first. *)
Record ring_rep (r : ring_buffer) (q : list audio_packet) : Prop := {
  rr_length : length (rb_packets r) = 128%nat;
  rr_head : 0 ≤ rb_head r < 128;
  rr_count : rb_count r = Z.of_nat (length q);
  rr_bound : (length q ≤ 128)%nat;
  rr_tail : rb_tail r = (rb_head r + rb_count r) mod 128;
  rr_items : ∀ i p, q !! i = Some p →
    rb_packets r !! Z.to_nat ((rb_head r + Z.of_nat i) mod 128) = Some p
}.

Lemma ring_push_rep r q pkt : ring_rep r q → (length q < 128)%nat →
  ∃ r', ring_enter_push r pkt = Some r' ∧ ring_rep r' (q ++ [pkt]).
Proof.
  intros [Hl Hh Hc Hb Ht Hi] Hq. unfold ring_enter_push.
  assert (0 ≤ rb_tail r < 128) as Htr by (rewrite Ht; apply Z.mod_pos_bound; lia).
  destruct (Nat.ltb_spec (Z.to_nat (rb_tail r)) (length (rb_packets r))); [|lia].
  eexists. split; [done|]. unfold RING_BUFFER_CAPACITY.
  split; cbn [rb_packets rb_head rb_tail rb_count].
  - by rewrite length_insert.
  - done.
  - rewrite u32_id by int_lia. len.
  - len.
  - rewrite (u32_id (rb_tail r + 1)), (u32_id (rb_count r + 1)) by int_lia.
    rewrite Ht. Z.to_euclidean_division_equations. lia.
  - intros i p [[Hlt Hp]|[-> <-]]%lookup_snoc_Some.
    + rewrite list_lookup_insert_ne; [by apply Hi|].
      intros Heq. apply Z2Nat.inj in Heq; [|lia|apply Z.mod_pos_bound; lia].
      rewrite Ht in Heq. clear -Heq Hlt Hb Hc Hh Hq.
      Z.to_euclidean_division_equations. lia.
    + rewrite <-Hc, <-Ht. apply list_lookup_insert_eq. lia.
Qed.

Lemma ring_pop_rep r p q : ring_rep r (p :: q) →
  ∃ r', ring_enter_pop r = Some (p, r') ∧ ring_rep r' q.
Proof.
  intros [Hl Hh Hc Hb Ht Hi]. unfold ring_enter_pop.
  pose proof (Hi 0%nat p eq_refl) as H0. rewrite Z.add_0_r, Z.mod_small in H0 by done.
  rewrite H0. cbn [mbind option_bind]. eexists. split; [done|].
  cbn [length] in *. unfold RING_BUFFER_CAPACITY.
  split; cbn [rb_packets rb_head rb_tail rb_count].
  - done.
  - apply Z.mod_pos_bound. lia.
  - rewrite u32_id by int_lia. lia.
  - lia.
  - rewrite !u32_id by int_lia. rewrite Ht.
    clear -Hh Hc Hb. Z.to_euclidean_division_equations. lia.
  - intros i x Hx. rewrite u32_id by int_lia. rewrite <-(Hi (S i) x Hx).
    f_equal. f_equal. rewrite Zplus_mod_idemp_l. f_equal. lia.
Qed.

(** ** Threads *)

(** Where a thread is inside [ring_buffer_push] or [ring_buffer_pop]. *)
Inductive pc :=
  | Idle
  | PushReserved (pkt : audio_packet)  (** passed [sem_trywait(&ring_empty)] *)
  | PushDone                           (** left the critical section *)
  | PopReserved                        (** passed [sem_trywait(&ring_full)] *)
  | PopDone (pkt : audio_packet).      (** left the critical section *)

(** The shared state, the threads, and the history of the packets written to
    and read from the array. *)
Record sys := Sys {
  sy_ring : ring_buffer;
  sy_empty : Z;
  sy_full : Z;
  sy_threads : list pc;
  sy_written : list audio_packet;
  sy_read : list audio_packet
}.

Definition sys_init (n : nat) : sys :=
  Sys (rs_ring ring_init) (rs_empty ring_init) (rs_full ring_init)
    (replicate n Idle) [] [].

Inductive step : sys → sys → Prop :=
  | step_push_reserve r e f ts w rd i pkt e' :
      ts !! i = Some Idle → sem_trywait e = Some e' →
      step (Sys r e f ts w rd) (Sys r e' f (<[i := PushReserved pkt]> ts) w rd)
  | step_push_drop r e f ts w rd i :
      ts !! i = Some Idle → sem_trywait e = None →
      step (Sys r e f ts w rd) (Sys r e f ts w rd)
  | step_push_write r e f ts w rd i pkt r' :
      ts !! i = Some (PushReserved pkt) → ring_enter_push r pkt = Some r' →
      step (Sys r e f ts w rd) (Sys r' e f (<[i := PushDone]> ts) (w ++ [pkt]) rd)
  | step_push_post r e f ts w rd i :
      ts !! i = Some PushDone →
      step (Sys r e f ts w rd) (Sys r e (sem_post f) (<[i := Idle]> ts) w rd)
  | step_pop_reserve r e f ts w rd i f' :
      ts !! i = Some Idle → sem_trywait f = Some f' →
      step (Sys r e f ts w rd) (Sys r e f' (<[i := PopReserved]> ts) w rd)
  | step_pop_empty r e f ts w rd i :
      ts !! i = Some Idle → sem_trywait f = None →
      step (Sys r e f ts w rd) (Sys r e f ts w rd)
  | step_pop_read r e f ts w rd i pkt r' :
      ts !! i = Some PopReserved → ring_enter_pop r = Some (pkt, r') →
      step (Sys r e f ts w rd) (Sys r' e f (<[i := PopDone pkt]> ts) w (rd ++ [pkt]))
  | step_pop_post r e f ts w rd i pkt :
      ts !! i = Some (PopDone pkt) →
      step (Sys r e f ts w rd) (Sys r (sem_post e) f (<[i := Idle]> ts) w rd).

(** How many threads are at a place. *)
Definition reserved_push (p : pc) : nat := match p with PushReserved _ => 1 | _ => 0 end.
Definition done_push (p : pc) : nat := match p with PushDone => 1 | _ => 0 end.
Definition reserved_pop (p : pc) : nat := match p with PopReserved => 1 | _ => 0 end.
Definition done_pop (p : pc) : nat := match p with PopDone _ => 1 | _ => 0 end.
Definition at_pc (f : pc → nat) (ts : list pc) : nat := sum_list (f <$> ts).

#[global] Arguments at_pc : simpl never.

Lemma at_pc_cons f p ts : at_pc f (p :: ts) = (f p + at_pc f ts)%nat.
Proof. done. Qed.

Lemma at_pc_insert f (ts : list pc) (i : nat) p p' : ts !! i = Some p →
  (at_pc f (<[i := p']> ts) + f p = at_pc f ts + f p')%nat.
Proof.
  revert i. induction ts as [|q ts IH]; intros [|i] H; [done|done| |].
  - injection H as ->. change (<[0%nat := p']> (p :: ts)) with (p' :: ts).
    rewrite !at_pc_cons. lia.
  - change (<[S i := p']> (q :: ts)) with (q :: <[i := p']> ts).
    specialize (IH i H). rewrite !at_pc_cons. lia.
Qed.

Lemma at_pc_idle f n : f Idle = 0%nat → at_pc f (replicate n Idle) = 0%nat.
Proof. intros H. induction n; [done|]. cbn [replicate]. by rewrite at_pc_cons, H. Qed.

(** Every cell of the array is accounted for: free, reserved by a push,
    holding a queued packet, or read and not yet given back. *)
Record sys_inv (s : sys) : Prop := {
  si_queue : ∃ q, ring_rep (sy_ring s) q ∧ sy_written s = sy_read s ++ q ∧
    Z.of_nat (length q) =
      sy_full s + Z.of_nat (at_pc done_push (sy_threads s)) +
      Z.of_nat (at_pc reserved_pop (sy_threads s)) ∧
    sy_empty s + Z.of_nat (at_pc reserved_push (sy_threads s)) +
      Z.of_nat (length q) + Z.of_nat (at_pc done_pop (sy_threads s)) = 128;
  si_empty : 0 ≤ sy_empty s;
  si_full : 0 ≤ sy_full s
}.

Lemma sem_trywait_Some v v' : sem_trywait v = Some v' → 0 < v ∧ v' = v - 1.
Proof. unfold sem_trywait. case_bools; intros; simplify_eq; lia. Qed.

Lemma zero_ring_rep : ring_rep (rs_ring ring_init) [].
Proof. split; try done; cbn; lia. Qed.

Lemma sys_init_inv n : sys_inv (sys_init n).
Proof.
  split; cbn; [|unfold RING_BUFFER_CAPACITY; lia|lia].
  exists []. split; [apply zero_ring_rep|]. split; [done|].
  rewrite !at_pc_idle by done. done.
Qed.

(** A thread at a place is counted there. *)
Lemma at_pc_lookup f (ts : list pc) (i : nat) p : ts !! i = Some p → (f p ≤ at_pc f ts)%nat.
Proof.
  revert i. induction ts as [|q ts IH]; intros [|i] H; [done|done| |].
  - injection H as ->. rewrite at_pc_cons. lia.
  - specialize (IH i H). rewrite at_pc_cons. lia.
Qed.

(** Instantiate the counting lemmas for one thread moving from [p] to [p']. *)
Ltac count_thread H p' :=
  pose proof (at_pc_insert reserved_push _ _ _ p' H);
  pose proof (at_pc_insert done_push _ _ _ p' H);
  pose proof (at_pc_insert reserved_pop _ _ _ p' H);
  pose proof (at_pc_insert done_pop _ _ _ p' H);
  cbn [reserved_push done_push reserved_pop done_pop] in *.

(** While a push is reserved there is a free cell, while a pop is reserved a
    packet to read. *)
Lemma sys_inv_reserved_push s q i pkt : sys_inv s → ring_rep (sy_ring s) q →
  sy_threads s !! i = Some (PushReserved pkt) → (length q < 128)%nat.
Proof.
  intros [(q'&Hr&_&_&Hc) He Hf] Hq Hi.
  pose proof (at_pc_lookup reserved_push _ _ _ Hi). cbn in *.
  pose proof (rr_count _ _ Hr). pose proof (rr_count _ _ Hq). lia.
Qed.

Lemma sys_inv_reserved_pop s q i : sys_inv s → ring_rep (sy_ring s) q →
  sy_threads s !! i = Some PopReserved → q ≠ [].
Proof.
  intros [(q'&Hr&_&Hc&_) He Hf] Hq Hi ->.
  pose proof (at_pc_lookup reserved_pop _ _ _ Hi). cbn in *.
  pose proof (rr_count _ _ Hr). pose proof (rr_count _ _ Hq). cbn in *. lia.
Qed.

Lemma step_inv s s' : step s s' → sys_inv s → sys_inv s'.
Proof.
  intros Hs Hinv. pose proof Hinv as [(q&Hr&Hh&Hc1&Hc2) He Hf].
  destruct Hs as [r e f ts w rd i pkt e' Hi Ht|r e f ts w rd i Hi Ht
    |r e f ts w rd i pkt r' Hi Hp|r e f ts w rd i Hi|r e f ts w rd i f' Hi Ht
    |r e f ts w rd i Hi Ht|r e f ts w rd i pkt r' Hi Hp|r e f ts w rd i pkt Hi];
    cbn [sy_ring sy_empty sy_full sy_threads sy_written sy_read] in *.
  - apply sem_trywait_Some in Ht as [? ->]. count_thread Hi (PushReserved pkt).
    split; cbn; [exists q; split_and!; try done; lia|lia|lia].
  - done.
  - count_thread Hi PushDone.
    pose proof (sys_inv_reserved_push _ q i pkt Hinv Hr Hi) as Hlt.
    destruct (ring_push_rep r q pkt Hr Hlt) as (r2&E&Hr2). simplify_eq.
    split; cbn; [exists (q ++ [pkt])|lia|lia].
    split_and!; [done|by rewrite app_assoc|len|len].
  - count_thread Hi Idle. unfold sem_post.
    split; cbn; [exists q; split_and!; try done; lia|lia|lia].
  - apply sem_trywait_Some in Ht as [? ->]. count_thread Hi PopReserved.
    split; cbn; [exists q; split_and!; try done; lia|lia|lia].
  - done.
  - count_thread Hi (PopDone pkt).
    pose proof (sys_inv_reserved_pop _ q i Hinv Hr Hi) as Hne.
    destruct q as [|p q]; [done|].
    destruct (ring_pop_rep r p q Hr) as (r2&E&Hr2). simplify_eq.
    split; cbn; [exists q|lia|lia]. cbn [length] in *.
    split_and!; [done|by rewrite <-app_assoc|lia|lia].
  - count_thread Hi Idle. unfold sem_post.
    split; cbn; [exists q; split_and!; try done; lia|lia|lia].
Qed.

Lemma reachable_inv n s : rtc step (sys_init n) s → sys_inv s.
Proof.
  intros H. assert (∀ s0, sys_inv s0 → rtc step s0 s → sys_inv s) as Hpres.
  { intros s0 H0. induction 1 as [|s1 s2 s3 Hs _ IH]; eauto using step_inv. }
  eauto using sys_init_inv.
Qed.

(** ** The abstract bounded queue *)
Module QueueSpec.
Definition push (pkt : audio_packet) (q : list audio_packet)
    : bool * list audio_packet :=
  if (length q <? 128)%nat then (true, q ++ [pkt]) else (false, q).
Definition pop (q : list audio_packet) : option audio_packet * list audio_packet :=
  match q with
  | [] => (None, [])
  | p :: q' => (Some p, q')
  end.
End QueueSpec.

(** The ring at rest: no thread is inside an operation. *)
Definition ring_state_rep (s : ring_state) (q : list audio_packet) : Prop :=
  ring_rep (rs_ring s) q ∧ rs_full s = Z.of_nat (length q) ∧
  rs_empty s = 128 - Z.of_nat (length q).

(** ** Properties *)

(** C14. Any number of threads push and pop concurrently, interleaved at the
    semaphore calls and the critical section.  At every moment the packets
    read so far are a prefix of the packets written so far, in the same order,
    and the rest, at most 128, is what the array holds between head and tail:
    no packet is lost, duplicated, reordered or overwritten before it is
    read. *)
Theorem ring_is_fifo n s : rtc step (sys_init n) s →
  ∃ q, sy_written s = sy_read s ++ q ∧ (length q ≤ 128)%nat ∧ ring_rep (sy_ring s) q.
Proof.
  intros [(q&Hr&Hh&_) _ _]%reachable_inv. exists q. split_and!; [done| |done]. apply Hr.
Qed.

(** In every reachable state a thread that passed its semaphore finds its
    critical section defined: a reserved push has a cell to write inside the
    array and a reserved pop a packet to read, so no thread inside an operation
    is ever stuck. *)
Theorem ring_threads_progress n s i p : rtc step (sys_init n) s →
  sy_threads s !! i = Some p → p ≠ Idle → ∃ s', step s s' ∧ s' ≠ s.
Proof.
  intros Hinv%reachable_inv Hi Hp. pose proof Hinv as [(q&Hr&_) _ _].
  assert (∀ p', p' ≠ p → <[i := p']> (sy_threads s) ≠ sy_threads s) as Hne.
  { intros p' Hpp E. apply (f_equal (.!! i)) in E.
    rewrite list_lookup_insert_eq, Hi in E by (by eapply lookup_lt_Some). congruence. }
  destruct s as [r e f ts w rd]; cbn in *. destruct p as [|pkt| | |pkt]; [done| | | |].
  - destruct (ring_push_rep r q pkt Hr) as (r'&E&_).
    { by eapply (sys_inv_reserved_push (Sys r e f ts w rd)). }
    eexists. split; [by eapply step_push_write|]. intros [= _ E' _]. by apply Hne in E'.
  - eexists. split; [by eapply step_push_post|]. intros [= _ E']. by apply Hne in E'.
  - pose proof (sys_inv_reserved_pop _ q i Hinv Hr Hi) as Hq.
    destruct q as [|p q]; [done|]. destruct (ring_pop_rep r p q Hr) as (r'&E&_).
    eexists. split; [by eapply step_pop_read|]. intros [= _ E' _]. by apply Hne in E'.
  - eexists. split; [by eapply step_pop_post|]. intros [= _ E']. by apply Hne in E'.
Qed.

Lemma ring_push_run s q pkt : ring_state_rep s q →
  ∃ s', ring_buffer_push pkt s = Some ((QueueSpec.push pkt q).1, s') ∧
        ring_state_rep s' (QueueSpec.push pkt q).2.
Proof.
  intros (Hr&Hf&He). unfold ring_buffer_push, sem_trywait, QueueSpec.push. rewrite He.
  destruct (Nat.ltb_spec (length q) 128), (Z.ltb_spec 0 (128 - Z.of_nat (length q)));
    try lia; [|by eexists].
  destruct (ring_push_rep _ q pkt Hr) as (r'&->&Hr'); [done|].
  eexists. split; [done|]. unfold sem_post. split; cbn [rs_ring rs_full rs_empty snd];
    [done|]. rewrite length_app. cbn [length]. lia.
Qed.

Lemma ring_pop_run s q : ring_state_rep s q →
  ∃ s', ring_buffer_pop s = Some ((QueueSpec.pop q).1, s') ∧
        ring_state_rep s' (QueueSpec.pop q).2.
Proof.
  intros (Hr&Hf&He). unfold ring_buffer_pop, sem_trywait. rewrite Hf.
  destruct q as [|p q]; [by eexists|].
  destruct (Z.ltb_spec 0 (Z.of_nat (length (p :: q)))); [|cbn in *; lia].
  destruct (ring_pop_rep _ p q Hr) as (r'&->&Hr').
  eexists. split; [done|]. unfold sem_post. split;
    cbn [rs_ring rs_full rs_empty QueueSpec.pop snd]; [done|].
  cbn [length] in *. lia.
Qed.

(** Run one at a time, [ring_buffer_push] and [ring_buffer_pop] implement a
    queue of capacity 128: a push on a full queue reports failure and drops
    the packet, a pop of an empty one reports that, and neither is ever
    undefined. *)
Theorem ring_refines_queue s q pkt : ring_state_rep s q →
  (∃ s', ring_buffer_push pkt s = Some ((QueueSpec.push pkt q).1, s') ∧
         ring_state_rep s' (QueueSpec.push pkt q).2) ∧
  (∃ s', ring_buffer_pop s = Some ((QueueSpec.pop q).1, s') ∧
         ring_state_rep s' (QueueSpec.pop q).2).
Proof. intros H. split; [by apply ring_push_run|by apply ring_pop_run]. Qed.

(** ** Witnesses *)
Definition demo_packet : audio_packet := AudioPacket 1 7 42 0 640 (memset 3 2048).

Lemma demo_run : rtc step (sys_init 2)
  (Sys (rs_ring ring_init) 127 0 [PushReserved demo_packet; Idle] [] []).
Proof.
  eapply rtc_l; [|apply rtc_refl].
  apply (step_push_reserve (rs_ring ring_init) 128 0 [Idle; Idle] [] [] 0 demo_packet 127);
    reflexivity.
Defined.

Lemma ring_is_fifo_witness : ∃ q, [] = [] ++ q ∧ (length q ≤ 128)%nat ∧
  ring_rep (rs_ring ring_init) q.
Proof. apply (ring_is_fifo 2 _ demo_run). Defined.

Lemma ring_threads_progress_witness :
  ∃ s', step (Sys (rs_ring ring_init) 127 0 [PushReserved demo_packet; Idle] [] []) s'.
Proof.
  destruct (ring_threads_progress 2 _ 0 (PushReserved demo_packet) demo_run eq_refl)
    as (s'&Hs&_); [discriminate|]. by exists s'.
Defined.

Lemma ring_refines_queue_witness :
  ∃ s', ring_buffer_push demo_packet ring_init = Some (true, s') ∧
        ring_state_rep s' [demo_packet].
Proof.
  apply (ring_refines_queue ring_init [] demo_packet).
  split; [apply zero_ring_rep|]. split; reflexivity.
Defined.
