(* ===== verification/Jitter.v ===== *)
(** * [src/server/audio_mixer.c]: the jitter buffers

    One buffer of 20 entries per client slot, filled by the mixer thread from
    the ring and emptied once per tick.  An entry is overwritten only when the
    buffer is full, and a pop takes the entry with the oldest sequence number
    in serial-number order.  The file has [jitter_buffer_push] and
    [jitter_buffer_pop], their invariant, and what a whole burst of packets
    comes out as. *)
From S2P Require Import Prelude CInt CString Protocol.
From Stdlib Require Import Sorting.Sorted Sorting.Permutation.
#[local] Open Scope Z_scope.

(** ** Operations *)

(** [memcpy(dst,src,n)]; outside either array it is undefined. *)
Definition memcpy (dst src : bytes) (n : Z) : option bytes :=
  if (Z.to_nat n <=? length dst)%nat && (Z.to_nat n <=? length src)%nat
  then Some (take (Z.to_nat n) src ++ drop (Z.to_nat n) dst) else None.

(** The first entry that is not valid. *)
Fixpoint find_invalid (es : list jitter_entry) (i : nat) : option nat :=
  match es with
  | [] => None
  | e :: es' => if je_valid e =? 0 then Some i else find_invalid es' (S i)
  end.

(** The loop over the entries from [i] on that keeps the oldest one. *)
Fixpoint find_oldest (es : list jitter_entry) (i oldest_idx : nat) (oldest_seq : Z)
    : nat :=
  match es with
  | [] => oldest_idx
  | e :: es' =>
    if seq_diff (je_seq_num e) oldest_seq <? 0
    then find_oldest es' (S i) i (je_seq_num e)
    else find_oldest es' (S i) oldest_idx oldest_seq
  end.

Definition with_entry (jb : jitter_buffer) (idx : nat) (e : jitter_entry)
    (count : Z) : jitter_buffer :=
  JitterBuffer (<[idx := e]> (jb_buffer jb)) (jb_head jb) (jb_tail jb) count
    (jb_buffering jb) (jb_next_expected_seq jb).
Definition with_buffering (jb : jitter_buffer) (b : Z) : jitter_buffer :=
  JitterBuffer (jb_buffer jb) (jb_head jb) (jb_tail jb) (jb_count jb) b
    (jb_next_expected_seq jb).

Definition jitter_buffer_push (jb : jitter_buffer) (pkt : audio_packet)
    : option jitter_buffer :=
  '(idx, count) ←
    match find_invalid (jb_buffer jb) 0 with
    | Some idx => Some (idx, jb_count jb + 1)
    | None =>
      match jb_buffer jb with
      | [] => None
      | e0 :: es => Some (find_oldest es 1 0 (je_seq_num e0), jb_count jb)
      end
    end;
  old ← jb_buffer jb !! idx;
  payload ← memcpy (je_payload old) (ap_payload pkt) (ap_payload_size pkt);
  Some (with_entry jb idx
          (JitterEntry (ap_seq_num pkt) (ap_timestamp pkt) (ap_payload_size pkt) payload 1)
          count).

(** The loop of [jitter_buffer_pop]: index and sequence number of the oldest
    valid entry so far. *)
Fixpoint find_best (es : list jitter_entry) (i : nat) (best : option (nat * Z))
    : option (nat * Z) :=
  match es with
  | [] => best
  | e :: es' =>
    if je_valid e =? 0 then find_best es' (S i) best
    else
      match best with
      | None => find_best es' (S i) (Some (i, je_seq_num e))
      | Some (_, min_seq) =>
        if seq_diff (je_seq_num e) min_seq <? 0
        then find_best es' (S i) (Some (i, je_seq_num e))
        else find_best es' (S i) best
      end
  end.

Definition invalidate (e : jitter_entry) : jitter_entry :=
  JitterEntry (je_seq_num e) (je_timestamp e) (je_payload_size e) (je_payload e) 0.

Definition jitter_buffer_pop (jb : jitter_buffer) : option jitter_entry * jitter_buffer :=
  if jb_count jb =? 0 then (None, with_buffering jb 1)
  else if negb (jb_buffering jb =? 0) && (jb_count jb <? 5) then (None, jb)
  else
    let jb' := with_buffering jb 0 in
    match find_best (jb_buffer jb') 0 None with
    | None => (None, jb')
    | Some (idx, _) =>
      match jb_buffer jb' !! idx with
      | None => (None, jb')
      | Some e => (Some e, with_entry jb' idx (invalidate e) (jb_count jb' - 1))
      end
    end.

(** [memset(jitter_buffers,0,...)]. *)
Definition jitter_init : jitter_buffer :=
  JitterBuffer (replicate 20 (JitterEntry 0 0 0 (memset 0 2048) 0)) 0 0 0 0 0.

(** ** The invariant *)
Definition valid (e : jitter_entry) : bool := negb (je_valid e =? 0).

(** The packets waiting in the buffer. *)
Definition pending (jb : jitter_buffer) : list jitter_entry :=
  filter (λ e, valid e = true) (jb_buffer jb).

Record jitter_ok (jb : jitter_buffer) : Prop := {
  jo_length : length (jb_buffer jb) = 20%nat;
  jo_count : jb_count jb = Z.of_nat (length (pending jb));
  jo_payload : Forall (λ e, length (je_payload e) = AUDIO_PAYLOAD_SIZE) (jb_buffer jb);
  jo_seq : Forall (λ e, is_u32 (je_seq_num e)) (jb_buffer jb);
  jo_buffering : jb_buffering jb = 0 ∨ jb_buffering jb = 1
}.

(** Sequence numbers by their distance from a base; a window is half the
    range. *)
Definition offset (base s : Z) : Z := u32 (s - base).
Definition in_window (base s : Z) : Prop := is_u32 s ∧ offset base s < 2 ^ 31.

Lemma seq_diff_offset base s t : in_window base s → in_window base t →
  seq_diff s t = offset base s - offset base t.
Proof. unfold in_window, offset, seq_diff. intros [? ?] [? ?]. int_lia. Qed.

Lemma jitter_init_ok : jitter_ok jitter_init.
Proof.
  split; try done; [| |by left].
  - by apply Forall_replicate.
  - apply Forall_replicate. by int_lia.
Qed.

(** ** Replacing one entry *)
Section replace.
Context (es : list jitter_entry) (i : nat) (e e' : jitter_entry) (Hi : es !! i = Some e).

Let pend (l : list jitter_entry) := filter (λ e, valid e = true) l.

Lemma pend_one x : pend [x] = if valid x then [x] else [].
Proof.
  unfold pend. rewrite filter_cons, filter_nil.
  by destruct (valid x); case_decide.
Qed.

Lemma pending_split : pend es = pend (take i es) ++ pend [e] ++ pend (drop (S i) es).
Proof.
  unfold pend. rewrite <-!filter_app. f_equal. symmetry. by apply take_drop_middle.
Qed.

Lemma pending_insert_split :
  pend (<[i := e']> es) = pend (take i es) ++ pend [e'] ++ pend (drop (S i) es).
Proof.
  unfold pend. rewrite <-!filter_app. f_equal.
  apply insert_take_drop. by eapply lookup_lt_Some.
Qed.

(** An empty entry is filled. *)
Lemma pending_fill : valid e = false → valid e' = true →
  pend (<[i := e']> es) ≡ₚ e' :: pend es.
Proof.
  intros He He'. rewrite pending_insert_split, pending_split, !pend_one, He, He'.
  symmetry. apply Permutation_middle.
Qed.

(** An entry is taken out. *)
Lemma pending_take : valid e = true → valid e' = false →
  pend es ≡ₚ e :: pend (<[i := e']> es).
Proof.
  intros He He'. rewrite pending_insert_split, pending_split, !pend_one, He, He'.
  symmetry. apply Permutation_middle.
Qed.

(** A pending entry is replaced by another. *)
Lemma pending_replace : valid e = true → valid e' = true →
  ∃ rest, pend es ≡ₚ e :: rest ∧ pend (<[i := e']> es) ≡ₚ e' :: rest.
Proof.
  intros He He'. exists (pend (take i es) ++ pend (drop (S i) es)).
  rewrite pending_insert_split, pending_split, !pend_one, He, He'.
  split; symmetry; apply Permutation_middle.
Qed.
End replace.

(** ** The searches *)

Lemma find_invalid_Some es j i : find_invalid es j = Some i →
  ∃ k e, i = (j + k)%nat ∧ es !! k = Some e ∧ valid e = false.
Proof.
  revert j. induction es as [|e es IH]; intros j; cbn; [done|].
  destruct (je_valid e =? 0) eqn:E.
  - intros [= <-]. exists 0%nat, e. unfold valid. rewrite E. split_and!; [lia|done|done].
  - intros (k&e'&->&?&?)%IH. exists (S k), e'. split_and!; [lia|done|done].
Qed.

Lemma find_invalid_None es j : find_invalid es j = None →
  Forall (λ e, valid e = true) es.
Proof.
  revert j. induction es as [|e es IH]; intros j; cbn; [by constructor|].
  destruct (je_valid e =? 0) eqn:E; [done|]. intros H%IH.
  constructor; [|done]. unfold valid. by rewrite E.
Qed.

(** Whatever the search returns is in the window and not newer than any
    candidate it saw. *)
Record best_of (base : Z) (es : list jitter_entry) (j : nat) (best : option (nat * Z))
    (k : nat) (s : Z) : Prop := {
  bo_source : best = Some (k, s) ∨
    ∃ i e, k = (j + i)%nat ∧ es !! i = Some e ∧ valid e = true ∧ je_seq_num e = s;
  bo_min e : e ∈ es → valid e = true → offset base s ≤ offset base (je_seq_num e);
  bo_best b sb : best = Some (b, sb) → offset base s ≤ offset base sb
}.

Definition window (base : Z) (es : list jitter_entry) : Prop :=
  ∀ e, e ∈ es → valid e = true → in_window base (je_seq_num e).

Lemma best_of_cons base e es j best best' k s :
  best_of base es (S j) best' k s →
  (best' = best ∨ best' = Some (j, je_seq_num e) ∧ valid e = true) →
  (valid e = true → offset base s ≤ offset base (je_seq_num e)) →
  (∀ b sb, best = Some (b, sb) → offset base s ≤ offset base sb) →
  best_of base (e :: es) j best k s.
Proof.
  intros [Hs Hm Hb] Hbest He Hb'. split; [|intros x|done].
  - destruct Hs as [Hs|(i&x&->&Hx&Hv&Heq)].
    + destruct Hbest as [->|[-> Hv]]; [by left|]. right. injection Hs as <- <-.
      exists 0%nat, e. split_and!; [lia|done..].
    + right. exists (S i), x. split_and!; [lia|done..].
  - intros [->|Hx]%elem_of_cons; auto.
Qed.

Lemma find_best_spec base es j best : window base es →
  (∀ b sb, best = Some (b, sb) → in_window base sb) →
  match find_best es j best with
  | None => best = None ∧ Forall (λ e, valid e = false) es
  | Some (k, s) => best_of base es j best k s
  end.
Proof.
  revert j best. induction es as [|e es IH]; intros j best Hw Hbw; cbn [find_best].
  { destruct best as [[k s]|]; [|done].
    split; [by left|by intros ? ?%elem_of_nil|]. intros b sb [= -> ->]. lia. }
  assert (window base es) as Hw' by (intros x Hx; apply Hw; by constructor).
  assert (valid e = true → in_window base (je_seq_num e)) as He
    by (intros; apply Hw; [by constructor|done]).
  destruct (je_valid e =? 0) eqn:E.
  - assert (valid e = false) as Hv by (unfold valid; by rewrite E).
    specialize (IH (S j) best Hw' Hbw). destruct (find_best _ _ _) as [[k s]|].
    + eapply best_of_cons; [done|by left|by rewrite Hv|apply IH].
    + destruct IH. split; [done|by constructor].
  - assert (valid e = true) as Hv by (unfold valid; by rewrite E). specialize (He Hv).
    destruct best as [[b m]|].
    + specialize (Hbw b m eq_refl). rewrite (seq_diff_offset base) by done.
      destruct (Z.ltb_spec (offset base (je_seq_num e) - offset base m) 0) as [Hlt|Hge].
      * specialize (IH (S j) (Some (j, je_seq_num e)) Hw'
          ltac:(by intros ?? [= <- <-])).
        destruct (find_best _ _ _) as [[k s]|]; [|by destruct IH].
        pose proof (bo_best _ _ _ _ _ _ IH _ _ eq_refl).
        eapply best_of_cons; [done|by right|done|].
        intros ?? [= <- <-]. lia.
      * specialize (IH (S j) (Some (b, m)) Hw' ltac:(by intros ?? [= <- <-])).
        destruct (find_best _ _ _) as [[k s]|]; [|by destruct IH].
        pose proof (bo_best _ _ _ _ _ _ IH _ _ eq_refl).
        eapply best_of_cons; [done|by left|intros; lia|apply IH].
    + specialize (IH (S j) (Some (j, je_seq_num e)) Hw' ltac:(by intros ?? [= <- <-])).
      destruct (find_best _ _ _) as [[k s]|]; [|by destruct IH].
      pose proof (bo_best _ _ _ _ _ _ IH _ _ eq_refl).
      eapply best_of_cons; [done|by right|done|done].
Qed.

(** On a full buffer the search for the entry to overwrite is the search for
    the entry to play. *)
Lemma find_oldest_best es j i s : Forall (λ e, valid e = true) es →
  ∃ s', find_best es j (Some (i, s)) = Some (find_oldest es j i s, s').
Proof.
  intros H. revert j i s. induction H as [|e es Hv _ IH]; intros j i s; cbn; [by eauto|].
  assert ((je_valid e =? 0) = false) as -> by (by apply negb_true_iff in Hv).
  destruct (seq_diff _ _ <? 0); apply IH.
Qed.

Lemma find_oldest_lt es j i s : (i < j)%nat → (find_oldest es j i s < j + length es)%nat.
Proof.
  revert j i s. induction es as [|e es IH]; intros j i s Hij; cbn; [lia|].
  case_match; (eapply Nat.lt_le_trans; [apply IH; lia|lia]).
Qed.

(** ** Push *)

(** What a packet becomes in the buffer: the bytes past its payload are left
    over from the entry it overwrites. *)
Definition carries (e : jitter_entry) (pkt : audio_packet) : Prop :=
  je_seq_num e = ap_seq_num pkt ∧ je_timestamp e = ap_timestamp pkt ∧
  je_payload_size e = ap_payload_size pkt ∧
  take (Z.to_nat (ap_payload_size pkt)) (je_payload e) =
    take (Z.to_nat (ap_payload_size pkt)) (ap_payload pkt) ∧
  valid e = true.

(** A packet whose payload fits the array. *)
Definition pushable (pkt : audio_packet) : Prop :=
  wf_audio_packet pkt ∧ ap_payload_size pkt ≤ 2048.

Lemma memcpy_spec dst src n : (Z.to_nat n ≤ length dst)%nat → (Z.to_nat n ≤ length src)%nat →
  ∃ l, memcpy dst src n = Some l ∧ length l = length dst ∧
       take (Z.to_nat n) l = take (Z.to_nat n) src.
Proof.
  intros Hd Hs. unfold memcpy.
  destruct (Nat.leb_spec (Z.to_nat n) (length dst)); [|lia].
  destruct (Nat.leb_spec (Z.to_nat n) (length src)); [|lia].
  eexists. split_and!; [done|len|]. apply take_app_exact. len.
Qed.

Lemma length_valid_le es : (length (filter (λ e, valid e = true) es) ≤ length es)%nat.
Proof. apply length_filter. Qed.

(** The write to entry [idx] keeps the buffer well formed. *)
Lemma with_entry_ok jb idx e e' n : jitter_ok jb → jb_buffer jb !! idx = Some e →
  length (je_payload e') = AUDIO_PAYLOAD_SIZE → is_u32 (je_seq_num e') →
  n = Z.of_nat (length (pending (with_entry jb idx e' n))) →
  jitter_ok (with_entry jb idx e' n).
Proof.
  intros [Hl Hc Hp Hs Hb] Hi Hp' Hs' Hn. split; cbn in *; [by rewrite length_insert|done| | |done].
  - by apply Forall_insert.
  - by apply Forall_insert.
Qed.

Lemma pending_elem jb e : e ∈ pending jb ↔ e ∈ jb_buffer jb ∧ valid e = true.
Proof. unfold pending. rewrite list_elem_of_filter. tauto. Qed.

(** Where a push goes: the first free entry, or the oldest packet. *)
Lemma push_target base jb : jitter_ok jb →
  match find_invalid (jb_buffer jb) 0 with
  | Some idx => ∃ old, jb_buffer jb !! idx = Some old ∧ valid old = false
  | None => ∃ e0 es old, jb_buffer jb = e0 :: es ∧
      jb_buffer jb !! find_oldest es 1 0 (je_seq_num e0) = Some old ∧
      valid old = true ∧ length (pending jb) = 20%nat ∧
      (window base (jb_buffer jb) → ∀ x, x ∈ pending jb →
         offset base (je_seq_num old) ≤ offset base (je_seq_num x))
  end.
Proof.
  intros [Hl Hc Hp Hs Hb]. destruct (find_invalid _ _) as [idx|] eqn:E.
  { apply find_invalid_Some in E as (k&e&->&He&Hv). by exists e. }
  apply find_invalid_None in E.
  assert (length (pending jb) = 20%nat) as Hfull by (unfold pending; by rewrite filter_all).
  destruct (jb_buffer jb) as [|e0 es] eqn:Ees; [done|].
  destruct (lookup_lt_is_Some_2 (e0 :: es) (find_oldest es 1 0 (je_seq_num e0))) as [old Hold].
  { pose proof (find_oldest_lt es 1 0 (je_seq_num e0) ltac:(lia)). cbn. lia. }
  exists e0, es, old. split_and!; [done..|by apply (Forall_lookup_1 _ _ _ _ E Hold)|done|].
  intros Hw x [Hx Hxv]%pending_elem. rewrite Ees in Hx.
  destruct (find_oldest_best es 1 0 (je_seq_num e0) ltac:(by inv E)) as [s' Hf].
  pose proof (find_best_spec base (e0 :: es) 0 None Hw ltac:(done)) as Hspec.
  assert (find_best (e0 :: es) 0 None = Some (find_oldest es 1 0 (je_seq_num e0), s')) as Hfb.
  { cbn [find_best]. assert ((je_valid e0 =? 0) = false) as ->; [|done].
    inv E. by apply negb_true_iff. }
  rewrite Hfb in Hspec. destruct Hspec as [[|(i&old'&Hi&Hold'&Hv&Hseq)] Hmin _]; [done|].
  rewrite Nat.add_0_l in Hi. rewrite Hi, Hold' in Hold. injection Hold as ->.
  rewrite Hseq. by apply Hmin.
Qed.

Lemma jitter_push_spec base jb pkt : jitter_ok jb → pushable pkt →
  ∃ jb' e, jitter_buffer_push jb pkt = Some jb' ∧ jitter_ok jb' ∧ carries e pkt ∧
    jb_buffering jb' = jb_buffering jb ∧
    ((length (pending jb) < 20)%nat ∧ pending jb' ≡ₚ e :: pending jb ∨
     length (pending jb) = 20%nat ∧ ∃ old rest, pending jb ≡ₚ old :: rest ∧
       pending jb' ≡ₚ e :: rest ∧
       (window base (jb_buffer jb) → ∀ x, x ∈ pending jb →
          offset base (je_seq_num old) ≤ offset base (je_seq_num x))).
Proof.
  intros Hok [Hwf Hsize]. pose proof (push_target base jb Hok) as Ht.
  pose proof Hok as [Hl Hc Hp Hs Hb]. unfold jitter_buffer_push.
  assert (∀ old (idx : nat), jb_buffer jb !! idx = Some old →
    ∃ payload, memcpy (je_payload old) (ap_payload pkt) (ap_payload_size pkt) = Some payload ∧
      length payload = AUDIO_PAYLOAD_SIZE ∧
      carries (JitterEntry (ap_seq_num pkt) (ap_timestamp pkt) (ap_payload_size pkt) payload 1) pkt)
    as Hcopy.
  { intros old idx Hi. pose proof (Forall_lookup_1 _ _ _ _ Hp Hi) as Hlen. cbn in Hlen.
    destruct (memcpy_spec (je_payload old) (ap_payload pkt) (ap_payload_size pkt))
      as (l&->&Hll&Ht'); [rewrite Hlen|rewrite (wap_payload _ Hwf)|];
      [unfold AUDIO_PAYLOAD_SIZE; lia..|].
    exists l. split_and!; [done|by rewrite Hll|]. by split_and!. }
  destruct (find_invalid _ _) as [idx|].
  - destruct Ht as (old&Hi&Hv). destruct (Hcopy old idx Hi) as (l&Hm&Hll&Hcar).
    cbn. rewrite Hi. cbn. rewrite Hm. cbn.
    pose proof (pending_fill _ _ _ (JitterEntry (ap_seq_num pkt) (ap_timestamp pkt)
      (ap_payload_size pkt) l 1) Hi Hv eq_refl) as Hperm.
    pose proof (Permutation_length Hperm) as Hplen. cbn [length] in Hplen.
    eexists _, _. split_and!; [done| |exact Hcar|done|].
    + eapply with_entry_ok; [done..|apply Hwf|]. unfold pending in *; cbn. lia.
    + left. unfold pending; cbn. split; [|done].
      pose proof (length_valid_le (<[idx := JitterEntry (ap_seq_num pkt) (ap_timestamp pkt)
        (ap_payload_size pkt) l 1]> (jb_buffer jb))) as Hle.
      rewrite length_insert in Hle. unfold pending in *. lia.
  - destruct Ht as (e0&es&old&Hes&Hi&Hv&Hfull&Hmin). rewrite Hes. cbn [mbind option_bind].
    destruct (Hcopy old _ Hi) as (l&Hm&Hll&Hcar).
    rewrite <-Hes, Hi. cbn [mbind option_bind]. rewrite Hm. cbn [mbind option_bind].
    destruct (pending_replace _ _ _ (JitterEntry (ap_seq_num pkt) (ap_timestamp pkt)
      (ap_payload_size pkt) l 1) Hi Hv eq_refl) as (rest&Hp1&Hp2).
    pose proof (Permutation_length Hp1) as Hl1. pose proof (Permutation_length Hp2) as Hl2.
    cbn [length] in Hl1, Hl2.
    eexists _, _. split_and!; [done| |exact Hcar|done|].
    + eapply with_entry_ok; [done..|apply Hwf|]. unfold pending in *; cbn. lia.
    + right. split; [done|]. exists old, rest. by split_and!.
Qed.

(** ** Pop *)

Lemma pop_cases base jb : jitter_ok jb → window base (jb_buffer jb) →
  (jb_count jb = 0 ∧ jitter_buffer_pop jb = (None, with_buffering jb 1)) ∨
  (0 < jb_count jb < 5 ∧ jb_buffering jb = 1 ∧ jitter_buffer_pop jb = (None, jb)) ∨
  (0 < jb_count jb ∧ (jb_buffering jb = 0 ∨ 5 ≤ jb_count jb) ∧
   ∃ e jb', jitter_buffer_pop jb = (Some e, jb') ∧ jitter_ok jb' ∧ jb_buffering jb' = 0 ∧
     pending jb ≡ₚ e :: pending jb' ∧
     ∀ x, x ∈ pending jb → offset base (je_seq_num e) ≤ offset base (je_seq_num x)).
Proof.
  intros Hok Hw. pose proof Hok as [Hl Hc Hp Hs Hb]. unfold jitter_buffer_pop.
  destruct (Z.eqb_spec (jb_count jb) 0) as [|Hne]; [by left|right].
  assert (0 < jb_count jb) as Hpos by lia.
  destruct (negb (jb_buffering jb =? 0) && (jb_count jb <? 5)) eqn:E.
  { apply andb_true_iff in E as [E1 E2%Z.ltb_lt]. left.
    apply negb_true_iff, Z.eqb_neq in E1. split_and!; [lia..|done]. }
  right. split; [done|]. split.
  { apply andb_false_iff in E as [E%negb_false_iff%Z.eqb_eq|E%Z.ltb_ge]; auto. }
  cbn [jb_buffer with_buffering].
  pose proof (find_best_spec base (jb_buffer jb) 0 None Hw ltac:(done)) as Hspec.
  destruct (find_best _ _ _) as [[k s]|].
  - destruct Hspec as [[|(i&e&Hi&He&Hv&Hseq)] Hmin _]; [done|].
    rewrite Nat.add_0_l in Hi. subst k. rewrite He.
    pose proof (pending_take _ _ _ (invalidate e) He Hv eq_refl) as Hperm.
    pose proof (Permutation_length Hperm) as Hplen. cbn [length] in Hplen.
    eexists _, _. split_and!; [done| |done|done|].
    + apply with_entry_ok with e; cbn; [|done| | |].
      * split; try done. by left.
      * apply (Forall_lookup_1 _ _ _ _ Hp He).
      * apply (Forall_lookup_1 _ _ _ _ Hs He).
      * unfold pending in *; cbn. lia.
    + intros x [Hx Hxv]%pending_elem. rewrite Hseq. by apply Hmin.
  - exfalso. destruct Hspec as [_ Hall].
    destruct (pending jb) as [|x l] eqn:Ep; [cbn in Hc; lia|].
    assert (x ∈ pending jb) as [Hx Hv]%pending_elem by (rewrite Ep; by constructor).
    rewrite Forall_forall in Hall. specialize (Hall _ Hx). cbn in Hall. congruence.
Qed.

Lemma window_pending base jb : window base (jb_buffer jb) ↔
  Forall (λ e, in_window base (je_seq_num e)) (pending jb).
Proof.
  rewrite Forall_forall. unfold window. setoid_rewrite pending_elem.
  split; [intros H x []; by apply H|intros H x ??; by apply H].
Qed.

Lemma jitter_init_pending : pending jitter_init = [].
Proof. reflexivity. Qed.

(** Both operations keep the invariant, whatever the sequence numbers are. *)
Lemma jitter_push_ok jb pkt : jitter_ok jb → pushable pkt →
  ∃ jb', jitter_buffer_push jb pkt = Some jb' ∧ jitter_ok jb'.
Proof.
  intros Hok Hp. destruct (jitter_push_spec 0 jb pkt Hok Hp) as (jb'&e&?&?&_). by exists jb'.
Qed.

Lemma find_best_source es j best k s : find_best es j best = Some (k, s) →
  best = Some (k, s) ∨ ∃ i e, k = (j + i)%nat ∧ es !! i = Some e ∧ valid e = true.
Proof.
  revert j best. induction es as [|e es IH]; intros j best; cbn [find_best]; [by left|].
  assert (∀ best', find_best es (S j) best' = Some (k, s) →
    best' = best ∨ best' = Some (j, je_seq_num e) ∧ valid e = true →
    best = Some (k, s) ∨ ∃ i e', k = (j + i)%nat ∧ (e :: es) !! i = Some e' ∧ valid e' = true)
    as Hrec.
  { intros best' [->|(i&x&->&Hx&Hv)]%IH [Hb|[Hb Hv']].
    - by left.
    - right. injection Hb as -> ->. exists 0%nat, e. split_and!; [lia|done..].
    - right. exists (S i), x. split_and!; [lia|done..].
    - right. exists (S i), x. split_and!; [lia|done..]. }
  destruct (je_valid e =? 0) eqn:E; [intros H; apply (Hrec _ H); by left|].
  assert (valid e = true) by (unfold valid; by rewrite E).
  destruct best as [[b m]|]; [destruct (_ <? 0)|]; intros H'; apply (Hrec _ H'); auto.
Qed.

Lemma jitter_pop_ok jb : jitter_ok jb → jitter_ok (jitter_buffer_pop jb).2.
Proof.
  intros Hok. pose proof Hok as [Hl Hc Hp Hs Hb].
  assert (∀ b, b = 0 ∨ b = 1 → jitter_ok (with_buffering jb b)) as Hwb by (intros; by split).
  unfold jitter_buffer_pop. destruct (jb_count jb =? 0); [apply Hwb; by right|].
  destruct (_ && _); [done|]. cbn zeta. cbn [jb_buffer with_buffering].
  destruct (find_best _ _ _) as [[k s]|] eqn:E; [|apply Hwb; by left].
  apply find_best_source in E as [|(i&e&->&He&Hv)]; [done|]. rewrite Nat.add_0_l, He.
  pose proof (pending_take _ _ _ (invalidate e) He Hv eq_refl) as Hperm.
  apply Permutation_length in Hperm. cbn [length] in Hperm.
  eapply with_entry_ok; [apply Hwb; by left|exact He|..].
  - apply (Forall_lookup_1 _ _ _ _ Hp He).
  - apply (Forall_lookup_1 _ _ _ _ Hs He).
  - cbn [jb_count with_buffering]. unfold pending in *; cbn in *. lia.
Qed.

(** ** A burst of packets *)

Fixpoint push_all (jb : jitter_buffer) (pkts : list audio_packet) : option jitter_buffer :=
  match pkts with
  | [] => Some jb
  | pkt :: pkts' => jb' ← jitter_buffer_push jb pkt; push_all jb' pkts'
  end.

(** [n] pops in a row. *)
Fixpoint drain (n : nat) (jb : jitter_buffer) : list (option jitter_entry) * jitter_buffer :=
  match n with
  | O => ([], jb)
  | S n' =>
    let '(o, jb1) := jitter_buffer_pop jb in
    let '(os, jb2) := drain n' jb1 in (o :: os, jb2)
  end.

Definition before (base : Z) (e1 e2 : jitter_entry) : Prop :=
  offset base (je_seq_num e1) ≤ offset base (je_seq_num e2).

Lemma carries_window base e pkt : carries e pkt → in_window base (ap_seq_num pkt) →
  in_window base (je_seq_num e).
Proof. by intros (->&_). Qed.

Lemma push_all_spec base pkts : ∀ jb, jitter_ok jb → window base (jb_buffer jb) →
  Forall pushable pkts → Forall (λ p, in_window base (ap_seq_num p)) pkts →
  (length (pending jb) + length pkts ≤ 20)%nat →
  ∃ jb' es, push_all jb pkts = Some jb' ∧ jitter_ok jb' ∧ window base (jb_buffer jb') ∧
    jb_buffering jb' = jb_buffering jb ∧ Forall2 carries es pkts ∧
    pending jb' ≡ₚ es ++ pending jb.
Proof.
  induction pkts as [|pkt pkts IH]; intros jb Hok Hw Hp Hwin Hlen; cbn [push_all].
  { exists jb, []. by split_and!. }
  inv Hp. inv Hwin. cbn [length] in Hlen.
  destruct (jitter_push_spec base jb pkt) as (jb1&e&->&Hok1&Hcar&Hbuf&[[_ Hperm]|[? _]]);
    [done..| |lia].
  pose proof (Permutation_length Hperm) as Hplen. cbn [length] in Hplen.
  assert (window base (jb_buffer jb1)) as Hw1.
  { apply window_pending. rewrite Hperm. constructor; [by eapply carries_window|].
    by apply window_pending. }
  destruct (IH jb1) as (jb'&es&Hrun&Hok'&Hw'&Hbuf'&Hcars&Hperm'); [done..|lia|].
  exists jb', (e :: es). cbn. split_and!; [done..|congruence|by constructor|].
  rewrite Hperm', Hperm. symmetry. apply Permutation_middle.
Qed.

Lemma drain_spec base n : ∀ jb, jitter_ok jb → window base (jb_buffer jb) →
  length (pending jb) = n → (jb_buffering jb = 0 ∨ (5 ≤ n)%nat) →
  ∃ out jb', drain n jb = (Some <$> out, jb') ∧ pending jb ≡ₚ out ∧
    StronglySorted (before base) out ∧ pending jb' = [].
Proof.
  induction n as [|n IH]; intros jb Hok Hw Hn Hstart; cbn [drain].
  { apply nil_length_inv in Hn. rewrite Hn. exists [], jb. split_and!; [done..|constructor|done]. }
  pose proof (jo_count _ Hok) as Hc. rewrite Hn in Hc.
  destruct (pop_cases base jb Hok Hw) as [[? _]|[(?&?&_)|(_&_&e&jb1&->&Hok1&Hb1&Hperm&Hmin)]];
    [lia|exfalso; lia|].
  pose proof (Permutation_length Hperm) as Hplen. cbn [length] in Hplen.
  assert (window base (jb_buffer jb1)) as Hw1.
  { apply window_pending. apply window_pending in Hw. rewrite Hperm in Hw. by inv Hw. }
  destruct (IH jb1) as (out&jb'&->&Hp&Hsort&Hend); [done..|lia|by left|].
  exists (e :: out), jb'. split_and!; [done|by rewrite Hperm, Hp| |done].
  constructor; [done|]. rewrite Forall_forall. intros x Hx. apply Hmin.
  rewrite Hperm, Hp. by right.
Qed.

(** Arrival in any order, playback in order. *)
Lemma burst_run base jb pkts :
  jitter_ok jb → pending jb = [] → Forall pushable pkts →
  Forall (λ p, in_window base (ap_seq_num p)) pkts → (length pkts ≤ 20)%nat →
  jb_buffering jb = 0 ∨ (5 ≤ length pkts)%nat →
  ∃ jb1 out jb2 pkts', push_all jb pkts = Some jb1 ∧
    drain (length pkts) jb1 = (Some <$> out, jb2) ∧ pending jb2 = [] ∧
    StronglySorted (before base) out ∧ pkts' ≡ₚ pkts ∧ Forall2 carries out pkts'.
Proof.
  intros Hok Hpend Hp Hwin Hlen Hstart.
  assert (window base (jb_buffer jb)) as Hw by (apply window_pending; by rewrite Hpend).
  destruct (push_all_spec base pkts jb) as (jb1&es&Hpush&Hok1&Hw1&Hb&Hcars&Hperm);
    [done..|rewrite Hpend; cbn; lia|].
  rewrite Hpend, app_nil_r in Hperm.
  pose proof (Forall2_length _ _ _ Hcars) as Hl. pose proof (Permutation_length Hperm) as Hpl.
  destruct (drain_spec base (length pkts) jb1) as (out&jb2&Hdrain&Hout&Hsort&Hend);
    [done|done|lia|by rewrite Hb|].
  assert (es ≡ₚ out) as Heo by (by rewrite <-Hperm).
  destruct (Permutation.Permutation_Forall2 Heo Hcars) as (pkts'&?&?).
  by exists jb1, out, jb2, pkts'.
Qed.

(** C13. A burst of at most 20 packets whose sequence numbers lie within half the
    32-bit range of each other (wrap-around included), arriving in any order at
    an empty jitter buffer, is played back one packet per tick in sequence
    order, nothing lost or duplicated and each payload intact, as soon as the
    buffer is not waiting for its cushion of five. *)
Theorem burst_played_in_order base jb pkts :
  jitter_ok jb → pending jb = [] → Forall pushable pkts →
  Forall (λ p, in_window base (ap_seq_num p)) pkts → (length pkts ≤ 20)%nat →
  jb_buffering jb = 0 ∨ (5 ≤ length pkts)%nat →
  ∃ jb1 out jb2 pkts', push_all jb pkts = Some jb1 ∧
    drain (length pkts) jb1 = (Some <$> out, jb2) ∧ pending jb2 = [] ∧
    StronglySorted (before base) out ∧ pkts' ≡ₚ pkts ∧ Forall2 carries out pkts'.
Proof. apply burst_run. Qed.

(** ** Overflow and underrun *)

(** A packet pushed into a full buffer takes the place of the oldest packet
    waiting, and of no other. *)
Theorem full_buffer_drops_oldest base jb pkt :
  jitter_ok jb → window base (jb_buffer jb) → pushable pkt → length (pending jb) = 20%nat →
  ∃ jb' e old rest, jitter_buffer_push jb pkt = Some jb' ∧ carries e pkt ∧
    pending jb ≡ₚ old :: rest ∧ pending jb' ≡ₚ e :: rest ∧
    ∀ x, x ∈ pending jb → offset base (je_seq_num old) ≤ offset base (je_seq_num x).
Proof.
  intros Hok Hw Hp Hfull.
  destruct (jitter_push_spec base jb pkt Hok Hp)
    as (jb'&e&?&_&?&_&[[? _]|(_&old&rest&?&?&Hmin)]); [lia|].
  exists jb', e, old, rest. split_and!; [done..|]. by apply Hmin.
Qed.

(** [handle_udp_packet] does not bound [payload_size]; pushing a packet that
    claims more than 2048 bytes copies past both arrays: it is undefined in
    every state of the buffer. *)
Theorem oversized_push_undefined jb pkt :
  jitter_ok jb → 2048 < ap_payload_size pkt → jitter_buffer_push jb pkt = None.
Proof.
  intros [Hl _ Hp _ _] Hsize. unfold jitter_buffer_push.
  assert (∀ idx : nat, (old ← jb_buffer jb !! idx;
     memcpy (je_payload old) (ap_payload pkt) (ap_payload_size pkt)) = None) as Hcopy.
  { intros idx. destruct (jb_buffer jb !! idx) as [old|] eqn:Hi; [|done]. cbn.
    pose proof (Forall_lookup_1 _ _ _ _ Hp Hi) as Hlen. cbn in Hlen. unfold memcpy.
    rewrite Hlen. destruct (Nat.leb_spec (Z.to_nat (ap_payload_size pkt)) AUDIO_PAYLOAD_SIZE);
      [unfold AUDIO_PAYLOAD_SIZE in *; lia|done]. }
  assert (∀ (idx : nat) n, (old ← jb_buffer jb !! idx;
     payload ← memcpy (je_payload old) (ap_payload pkt) (ap_payload_size pkt);
     Some (with_entry jb idx (JitterEntry (ap_seq_num pkt) (ap_timestamp pkt)
       (ap_payload_size pkt) payload 1) n)) = None) as Hrest.
  { intros idx n. specialize (Hcopy idx). destruct (jb_buffer jb !! idx) as [old|]; [|done].
    cbn in *. by rewrite Hcopy. }
  destruct (find_invalid _ _); [apply Hrest|].
  destruct (jb_buffer jb) eqn:Eb; [done|]. apply Hrest.
Qed.

(** A client's traffic as the mixer sees it: packets arriving, ticks. *)
Inductive jitter_op := Arrive (pkt : audio_packet) | Tick.

Fixpoint run_ops (jb : jitter_buffer) (ops : list jitter_op)
    : option (list (option jitter_entry) * jitter_buffer) :=
  match ops with
  | [] => Some ([], jb)
  | Arrive pkt :: ops' => jb' ← jitter_buffer_push jb pkt; run_ops jb' ops'
  | Tick :: ops' =>
    let '(o, jb') := jitter_buffer_pop jb in
    '(os, jb'') ← run_ops jb' ops'; Some (o :: os, jb'')
  end.

Definition arrivals (ops : list jitter_op) : list audio_packet :=
  omap (λ op, match op with Arrive pkt => Some pkt | Tick => None end) ops.

Lemma pending_with_buffering jb b : pending (with_buffering jb b) = pending jb.
Proof. done. Qed.

Lemma with_buffering_ok jb : jitter_ok jb → jitter_ok (with_buffering jb 1).
Proof. intros []. split; auto. Qed.

Lemma silent_until_cushion base ops : ∀ jb, jitter_ok jb → window base (jb_buffer jb) →
  jb_buffering jb = 1 → Forall pushable (arrivals ops) →
  Forall (λ p, in_window base (ap_seq_num p)) (arrivals ops) →
  (length (pending jb) + length (arrivals ops) < 5)%nat →
  ∃ outs jb', run_ops jb ops = Some (outs, jb') ∧ Forall (λ o, o = None) outs ∧
    jb_buffering jb' = 1 ∧ jitter_ok jb' ∧ window base (jb_buffer jb') ∧
    length (pending jb') = (length (pending jb) + length (arrivals ops))%nat.
Proof.
  induction ops as [|[pkt|] ops IH]; intros jb Hok Hw Hb Hp Hwin Hlen; cbn [run_ops].
  - exists [], jb. split_and!; [done..|cbn; lia].
  - cbn in Hp, Hwin, Hlen. inv Hp. inv Hwin.
    destruct (jitter_push_spec base jb pkt) as (jb1&e&->&Hok1&Hcar&Hbuf&[[_ Hperm]|[? _]]);
      [done..| |lia].
    pose proof (Permutation_length Hperm) as Hplen. cbn [length] in Hplen.
    assert (window base (jb_buffer jb1)) as Hw1.
    { apply window_pending. rewrite Hperm. constructor; [by eapply carries_window|].
      by apply window_pending. }
    destruct (IH jb1) as (outs&jb'&?&?&?&?&?&?); [done..|congruence|done|done|unfold arrivals in *; lia|].
    exists outs, jb'. cbn. split_and!; [done..|unfold arrivals in *; lia].
  - change (arrivals (Tick :: ops)) with (arrivals ops) in *.
    pose proof (jo_count _ Hok) as Hc.
    destruct (pop_cases base jb Hok Hw) as [[? ->]|[(?&?&->)|(?&[?|?]&_)]]; [| |lia..].
    + destruct (IH (with_buffering jb 1)) as (outs&jb'&->&?&?); [by apply with_buffering_ok|done..|].
      exists (None :: outs), jb'. split; [done|]. split; [by constructor|done].
    + destruct (IH jb) as (outs&jb'&->&?&?); [done..|].
      exists (None :: outs), jb'. split; [done|]. split; [by constructor|done].
Qed.

(** Playout hysteresis: after an underrun (a tick that finds the buffer empty)
    no tick yields audio, in any interleaving of ticks and arrivals, before five
    packets wait; the tick that finds the fifth plays again. *)
Theorem underrun_rebuffers base jb ops pkt :
  jitter_ok jb → pending jb = [] →
  Forall pushable (arrivals ops ++ [pkt]) →
  Forall (λ p, in_window base (ap_seq_num p)) (arrivals ops ++ [pkt]) →
  length (arrivals ops) = 4%nat →
  ∃ outs jb1, run_ops jb (Tick :: ops) = Some (outs, jb1) ∧ Forall (λ o, o = None) outs ∧
    ∃ e jb2, run_ops jb1 [Arrive pkt; Tick] = Some ([Some e], jb2) ∧ jb_buffering jb2 = 0.
Proof.
  intros Hok Hpend [Hp Hp1]%Forall_app [Hwin Hwin1]%Forall_app Hlen. inv Hp1. inv Hwin1.
  assert (window base (jb_buffer jb)) as Hw by (apply window_pending; by rewrite Hpend).
  destruct (silent_until_cushion base ops (with_buffering jb 1))
    as (outs&jb1&Hrun&Hnone&Hb1&Hok1&Hw1&Hl1); [by apply with_buffering_ok|done..| |].
  { rewrite pending_with_buffering, Hpend. cbn. lia. }
  rewrite pending_with_buffering, Hpend, Hlen in Hl1. cbn [length] in Hl1.
  exists (None :: outs), jb1. cbn [run_ops].
  assert (jb_count jb = 0) as Hc0 by (pose proof (jo_count _ Hok) as Hc; by rewrite Hpend in Hc).
  split; [|split; [by constructor|]].
  { unfold jitter_buffer_pop. rewrite Hc0. cbn [Z.eqb]. by rewrite Hrun. }
  destruct (jitter_push_spec base jb1 pkt) as (jb2&e&->&Hok2&Hcar&Hbuf&[[_ Hperm]|[? _]]);
    [done..| |lia]. cbn [mbind option_bind].
  pose proof (Permutation_length Hperm) as Hplen. cbn [length] in Hplen.
  assert (window base (jb_buffer jb2)) as Hw2.
  { apply window_pending. rewrite Hperm. constructor; [by eapply carries_window|].
    by apply window_pending. }
  pose proof (jo_count _ Hok2) as Hc2.
  destruct (pop_cases base jb2 Hok2 Hw2) as [[? _]|[(?&_)|(_&_&x&jb3&->&_&?&_)]]; [lia..|].
  by exists x, jb3.
Qed.

(** ** Witnesses *)
Definition jpkt (seq : Z) : audio_packet := AudioPacket 0 3 seq 0 4 ([1; 2; 3; 4] ++ memset 0 2044).

(** The sequence numbers wrap around inside the burst. *)
Definition jbase : Z := 2 ^ 32 - 2.
Definition jburst : list audio_packet := jpkt <$> [1; 4294967294; 0; 2; 4294967295].

#[local] Instance in_window_dec base s : Decision (in_window base s).
Proof. unfold in_window. apply _. Defined.

Lemma jpkt_pushable s : is_u32 s → pushable (jpkt s).
Proof. intros Hs. split; [|done]. split; try done; cbn; int_lia. Qed.

Lemma jpkts_ok base seqs : Forall (in_window base) seqs →
  Forall pushable (jpkt <$> seqs) ∧
  Forall (λ p, in_window base (ap_seq_num p)) (jpkt <$> seqs).
Proof.
  intros H. split; apply Forall_fmap; (eapply Forall_impl; [exact H|]); intros s [? ?]; cbn.
  - by apply jpkt_pushable.
  - by split.
Qed.

Lemma jburst_ok : Forall pushable jburst ∧ Forall (λ p, in_window jbase (ap_seq_num p)) jburst.
Proof. apply jpkts_ok. by_decision. Qed.

Lemma burst_played_in_order_witness : ∃ jb1 out jb2 pkts',
  push_all jitter_init jburst = Some jb1 ∧
  drain (length jburst) jb1 = (Some <$> out, jb2) ∧ pending jb2 = [] ∧
  StronglySorted (before jbase) out ∧ pkts' ≡ₚ jburst ∧ Forall2 carries out pkts'.
Proof.
  apply (burst_played_in_order jbase jitter_init jburst jitter_init_ok jitter_init_pending
           (proj1 jburst_ok) (proj2 jburst_ok)); [vm_compute; lia|by left].
Defined.

(** A buffer with packets 0 .. 19. *)
Definition jfull : jitter_buffer :=
  JitterBuffer ((λ s : nat, JitterEntry (Z.of_nat s) 0 4 (memset 0 2048) 1) <$> seq 0 20)
    0 0 20 0 0.

Lemma jfull_ok : jitter_ok jfull ∧ window 0 (jb_buffer jfull).
Proof.
  split; [split; [vm_done|vm_done|..]|].
  - apply Forall_fmap, Forall_true. intros s. apply length_replicate.
  - apply Forall_fmap, Forall_seq. cbn. int_lia.
  - by left.
  - apply window_pending. by_decision.
Qed.

Lemma full_buffer_drops_oldest_witness : ∃ jb' e old rest,
  jitter_buffer_push jfull (jpkt 20) = Some jb' ∧ carries e (jpkt 20) ∧
  pending jfull ≡ₚ old :: rest ∧ pending jb' ≡ₚ e :: rest ∧
  ∀ x, x ∈ pending jfull → offset 0 (je_seq_num old) ≤ offset 0 (je_seq_num x).
Proof.
  apply (full_buffer_drops_oldest 0 jfull (jpkt 20) (proj1 jfull_ok) (proj2 jfull_ok)).
  - apply jpkt_pushable. by int_lia.
  - reflexivity.
Defined.

Lemma oversized_push_undefined_witness :
  jitter_buffer_push jitter_init (AudioPacket 0 3 1 0 65535 (memset 0 2048)) = None.
Proof.
  apply (oversized_push_undefined jitter_init (AudioPacket 0 3 1 0 65535 (memset 0 2048))
           jitter_init_ok). reflexivity.
Defined.

Definition jops : list jitter_op :=
  [Arrive (jpkt 7); Tick; Arrive (jpkt 9); Arrive (jpkt 8); Tick; Tick; Arrive (jpkt 10); Tick].

Lemma jops_ok : Forall pushable (arrivals jops ++ [jpkt 11]) ∧
  Forall (λ p, in_window 0 (ap_seq_num p)) (arrivals jops ++ [jpkt 11]).
Proof.
  apply (jpkts_ok 0 [7; 9; 8; 10; 11]). by_decision.
Qed.

Lemma underrun_rebuffers_witness : ∃ outs jb1,
  run_ops jitter_init (Tick :: jops) = Some (outs, jb1) ∧ Forall (λ o, o = None) outs ∧
  ∃ e jb2, run_ops jb1 [Arrive (jpkt 11); Tick] = Some ([Some e], jb2) ∧ jb_buffering jb2 = 0.
Proof.
  apply (underrun_rebuffers 0 jitter_init jops (jpkt 11) jitter_init_ok jitter_init_pending
           (proj1 jops_ok) (proj2 jops_ok) eq_refl).
Defined.
