(* ===== verification/World.v ===== *)
(** * The state the room manager works on

    The two heaps of [room] and [client] objects, the globals [room_head] and
    [room_count], the room database behind its interface, and what the
    environment decides: the addresses the coming [malloc] calls return and
    the indeterminate bytes of an uninitialised [room_record] on the stack.
    A dereference of a pointer that is not allocated is undefined. *)
From S2P Require Import Prelude CInt CString Protocol RoomStore.
#[local] Open Scope Z_scope.

(** [w_malloc]: [None] is NULL; an address that is in use, or an exhausted
    list, gives a fresh one. *)
Record world (D : Type) := World {
  w_rooms : gmap loc room;
  w_clients : gmap loc client;
  w_room_head : option loc;
  w_room_count : Z;
  w_disk : D;
  w_malloc : list (option loc);
  w_junk : room_record
}.
#[global] Arguments World {D}.
#[global] Arguments w_rooms {D}.
#[global] Arguments w_clients {D}.
#[global] Arguments w_room_head {D}.
#[global] Arguments w_room_count {D}.
#[global] Arguments w_disk {D}.
#[global] Arguments w_malloc {D}.
#[global] Arguments w_junk {D}.

(** ** Allocation *)
Definition fresh_loc {A} (h : gmap loc A) : loc :=
  Pos.succ (foldr Pos.max 1%positive (map_to_list h).*1).

(** The address the next [malloc] returns, for a heap [h]. *)
Definition alloc {A} (h : gmap loc A) (answers : list (option loc)) : option loc :=
  match answers with
  | None :: _ => None
  | Some l :: _ => match h !! l with None => Some l | Some _ => Some (fresh_loc h) end
  | [] => Some (fresh_loc h)
  end.

Lemma fresh_loc_spec {A} (h : gmap loc A) : h !! fresh_loc h = None.
Proof.
  destruct (h !! fresh_loc h) as [x|] eqn:E; [|done]. exfalso.
  assert (∀ l ls, l ∈ ls → (l ≤ foldr Pos.max 1 ls)%positive) as Hmax.
  { intros l ls. induction 1 as [|? ? ? _ IH]; cbn; lia. }
  apply elem_of_map_to_list, (list_elem_of_fmap_2 fst) in E. cbn in E.
  apply Hmax in E. unfold fresh_loc in E at 1. lia.
Qed.

Lemma alloc_spec {A} (h : gmap loc A) answers l : alloc h answers = Some l → h !! l = None.
Proof.
  unfold alloc. destruct answers as [|[a|] ans]; [| |done].
  - intros [= <-]. apply fresh_loc_spec.
  - destruct (h !! a) eqn:E; intros [= <-]; [apply fresh_loc_spec|done].
Qed.

(** ** Field updates *)
Section updates.
Context {D : Type}.
Implicit Types w : world D.

Definition with_room_heap (f : gmap loc room → gmap loc room) w : world D :=
  World (f (w_rooms w)) (w_clients w) (w_room_head w) (w_room_count w)
    (w_disk w) (w_malloc w) (w_junk w).
Definition with_client_heap (f : gmap loc client → gmap loc client) w : world D :=
  World (w_rooms w) (f (w_clients w)) (w_room_head w) (w_room_count w)
    (w_disk w) (w_malloc w) (w_junk w).
Definition with_room_head (h : option loc) w : world D :=
  World (w_rooms w) (w_clients w) h (w_room_count w)
    (w_disk w) (w_malloc w) (w_junk w).
Definition with_room_count (n : Z) w : world D :=
  World (w_rooms w) (w_clients w) (w_room_head w) n
    (w_disk w) (w_malloc w) (w_junk w).
Definition with_disk (d : D) w : world D :=
  World (w_rooms w) (w_clients w) (w_room_head w) (w_room_count w)
    d (w_malloc w) (w_junk w).
Definition pop_malloc w : world D :=
  World (w_rooms w) (w_clients w) (w_room_head w) (w_room_count w)
    (w_disk w) (tail (w_malloc w)) (w_junk w).

(** ** Objects *)
Definition read_room (l : loc) : C (world D) room := λ w,
  match w_rooms w !! l with
  | Some x => Some (x, w)
  | None => None
  end.
Definition write_room (l : loc) (x : room) : C (world D) unit := λ w,
  match w_rooms w !! l with
  | Some _ => Some (tt, with_room_heap <[l := x]> w)
  | None => None
  end.
Definition read_client (l : loc) : C (world D) client := λ w,
  match w_clients w !! l with
  | Some x => Some (x, w)
  | None => None
  end.
Definition write_client (l : loc) (x : client) : C (world D) unit := λ w,
  match w_clients w !! l with
  | Some _ => Some (tt, with_client_heap <[l := x]> w)
  | None => None
  end.
Definition free_room (l : loc) : C (world D) unit := λ w,
  match w_rooms w !! l with
  | Some _ => Some (tt, with_room_heap (delete l) w)
  | None => None
  end.
Definition free_client (l : loc) : C (world D) unit := λ w,
  match w_clients w !! l with
  | Some _ => Some (tt, with_client_heap (delete l) w)
  | None => None
  end.

(** [malloc] of an object, zeroed by the [memset] that follows it. *)
Definition malloc_room (zero : room) : C (world D) (option loc) := λ w,
  match alloc (w_rooms w) (w_malloc w) with
  | None => Some (None, pop_malloc w)
  | Some l => Some (Some l, with_room_heap <[l := zero]> (pop_malloc w))
  end.
Definition malloc_client (zero : client) : C (world D) (option loc) := λ w,
  match alloc (w_clients w) (w_malloc w) with
  | None => Some (None, pop_malloc w)
  | Some l => Some (Some l, with_client_heap <[l := zero]> (pop_malloc w))
  end.

(** [strcpy] into an array that must be large enough. *)
Definition copy_string (dst src : bytes) : C (world D) bytes :=
  lift (if (strlen src <? length dst)%nat then Some (strcpy dst src) else None).

(** ** Runs of the accesses *)
Lemma read_room_run w l x : w_rooms w !! l = Some x → read_room l w = Some (x, w).
Proof. unfold read_room. by intros ->. Qed.
Lemma write_room_run w l x y : w_rooms w !! l = Some y →
  write_room l x w = Some (tt, with_room_heap <[l := x]> w).
Proof. unfold write_room. by intros ->. Qed.
Lemma read_client_run w l x : w_clients w !! l = Some x → read_client l w = Some (x, w).
Proof. unfold read_client. by intros ->. Qed.
Lemma write_client_run w l x y : w_clients w !! l = Some y →
  write_client l x w = Some (tt, with_client_heap <[l := x]> w).
Proof. unfold write_client. by intros ->. Qed.
Lemma copy_string_run w dst src : (strlen src < length dst)%nat →
  copy_string dst src w = Some (strcpy dst src, w).
Proof.
  intros H. unfold copy_string, lift.
  by destruct (Nat.ltb_spec (strlen src) (length dst)); [|lia].
Qed.
End updates.

(** ** Updates of one field of an object *)
Definition r_with_links (x : room) (prev next : option loc) : room :=
  Room (r_room_id x) (r_room_name x) (r_password x) (r_participants x)
    (r_participant_count x) (r_active_speakers x) prev next.
Definition r_with_members (x : room) (ps : list (option loc)) (n : Z) (speakers : Z) : room :=
  Room (r_room_id x) (r_room_name x) (r_password x) ps n speakers (r_prev x) (r_next x).
Definition r_with_speakers (x : room) (n : Z) : room :=
  r_with_members x (r_participants x) (r_participant_count x) n.
Definition c_with_room (x : client) (r : option loc) : client :=
  Client (c_fd x) (c_slot x) (c_user_id x) (c_username x) (c_role x) r
    (c_is_mute x) (c_is_active x) (c_ref_count x) (c_udp_addr x) (c_udp_addr_len x).
Definition rr_with_count (x : room_record) (n : Z) : room_record :=
  RoomRecord (rr_room_id x) (rr_room_name x) (rr_password x) (rr_is_active x) n.
Definition rr_with_active (x : room_record) (n : Z) : room_record :=
  RoomRecord (rr_room_id x) (rr_room_name x) (rr_password x) n (rr_user_count x).
