(* ===== verification/RoomManager.v ===== *)
(** * [src/server/room_manager.c]

    The doubly linked list of rooms and the operations on it, in the order of
    the source.  A traversal of the list is bounded by the number of allocated
    rooms: one that runs longer has met a room twice, and does not end.
    Locks are not modelled here: every operation runs as one step. *)
From S2P Require Import Prelude CInt CString Protocol RoomStore World.
#[local] Open Scope Z_scope.

Section room_manager.
Context {D : Type} `{RoomStore D}.

(** [while(r!=NULL && !p(r)) r=r->next;] *)
Fixpoint find_room_loop (fuel : nat) (p : room → bool) (r : option loc)
    : C (world D) (option loc) :=
  match r with
  | None => mret None
  | Some l =>
    match fuel with
    | O => λ _, None
    | S fuel' =>
      x ← read_room l;
      if p x then mret (Some l) else find_room_loop fuel' p (r_next x)
    end
  end.

Definition find_room (p : room → bool) : C (world D) (option loc) :=
  n ← gets (λ w, size (w_rooms w));
  head ← gets w_room_head;
  find_room_loop (S n) p head.

Definition room_find_by_name (name : bytes) : C (world D) (option loc) :=
  find_room (λ x, strcmp_eq (r_room_name x) name).
Definition room_find_by_id (room_id : Z) : C (world D) (option loc) :=
  find_room (λ x, r_room_id x =? room_id).

(** [while(current->next!=NULL) current=current->next;] *)
Fixpoint last_room_loop (fuel : nat) (current : loc) : C (world D) loc :=
  match fuel with
  | O => λ _, None
  | S fuel' =>
    x ← read_room current;
    match r_next x with
    | None => mret current
    | Some next => last_room_loop fuel' next
    end
  end.

(** Assign [l->next] and [l->prev]. *)
Definition set_next (l : loc) (next : option loc) : C (world D) unit :=
  x ← read_room l; write_room l (r_with_links x (r_prev x) next).
Definition set_prev (l : loc) (prev : option loc) : C (world D) unit :=
  x ← read_room l; write_room l (r_with_links x prev (r_next x)).

Definition db_write (room_id : Z) (rec : room_record) : C (world D) bool := λ w,
  let '(ok, d) := store_write (w_disk w) room_id rec in Some (ok, with_disk d w).

Definition zero_room : room :=
  Room 0 (memset 0 32) (memset 0 64) (replicate 50 None) 0 0 None None.

Definition append_room (new_room : loc) : C (world D) unit :=
  head ← gets w_room_head;
  match head with
  | None => puts (with_room_head (Some new_room))
  | Some h =>
    n ← gets (λ w, size (w_rooms w));
    current ← last_room_loop (S n) h;
    _ ← set_next current (Some new_room);
    set_prev new_room (Some current)
  end.

Definition room_create (name password : bytes) (creator : loc) : C (world D) Z :=
  found ← room_find_by_name name;
  match found with
  | Some _ => mret (-1)
  | None =>
    count ← gets w_room_count;
    if MAX_ROOMS <=? count then mret (-2)
    else
      room_id ← gets (λ w, store_next_free (w_disk w));
      new_room ← malloc_room zero_room;
      match new_room with
      | None => mret (-3)
      | Some l =>
        rname ← copy_string (r_room_name zero_room) name;
        rpassword ← copy_string (r_password zero_room) password;
        _ ← write_room l (Room room_id rname rpassword (replicate 50 None) 0 0 None None);
        junk ← gets w_junk;
        rec_name ← copy_string (rr_room_name junk) name;
        rec_password ← copy_string (rr_password junk) password;
        ok ← db_write room_id (RoomRecord room_id rec_name rec_password 1 0);
        if negb ok then _ ← free_room l; mret (-4)
        else
          _ ← append_room l;
          _ ← puts (λ w, with_room_count (w_room_count w + 1) w);
          _ ← read_client creator;
          mret room_id
      end
  end.

(** The unlinking of [r] from the list. *)
Definition unlink_room (l : loc) : C (world D) unit :=
  x ← read_room l;
  _ ← match r_prev x with
      | Some p => set_next p (r_next x)
      | None => puts (with_room_head (r_next x))
      end;
  x' ← read_room l;
  match r_next x' with
  | Some n => set_prev n (r_prev x')
  | None => mret tt
  end.

Definition room_delete (room_id : Z) : C (world D) Z :=
  r ← room_find_by_id room_id;
  match r with
  | None => mret 0
  | Some l =>
    _ ← unlink_room l;
    _ ← puts (λ w, with_room_count (w_room_count w - 1) w);
    rec ← gets (λ w, store_read (w_disk w) room_id);
    _ ← match rec with
        | Some rec => _ ← db_write room_id (rr_with_active rec 0); mret tt
        | None => mret tt
        end;
    _ ← free_room l;
    mret 1
  end.

(** [if(db_read_room_raw(id,&rec)) { rec.user_count=n; db_write_room(id,&rec); }] *)
Definition store_user_count (room_id n : Z) : C (world D) unit :=
  rec ← gets (λ w, store_read_raw (w_disk w) room_id);
  match rec with
  | Some rec => _ ← db_write room_id (rr_with_count rec n); mret tt
  | None => mret tt
  end.

(** [for(j=i;j<n-1;j++) ps[j]=ps[j+1];] over [k] iterations. *)
Fixpoint shift_down (k : nat) (j : nat) (ps : list (option loc))
    : option (list (option loc)) :=
  match k with
  | O => Some ps
  | S k' =>
    p ← ps !! S j;
    if (j <? length ps)%nat then shift_down k' (S j) (<[j := p]> ps) else None
  end.

(** [for(i=0;i<n;i++) if(ps[i]==c) break;]: the index, or none; reading past
    the array is undefined. *)
Fixpoint find_participant (ps : list (option loc)) (n : nat) (c : loc) (i : nat) {struct n}
    : option (option nat) :=
  match n with
  | O => Some None
  | S n' =>
    match ps with
    | [] => None
    | p :: ps' =>
      if bool_decide (p = Some c) then Some (Some i) else find_participant ps' n' c (S i)
    end
  end.

(** The body of the loop of [room_leave] and [remove_client_from_room] for
    the participant found at [i]. *)
Definition drop_participant (x : room) (i : nat) (muted : bool) : option room :=
  let n := r_participant_count x in
  ps ← shift_down (Z.to_nat (n - 1) - i) i (r_participants x);
  if (Z.to_nat (n - 1) <? length ps)%nat then
    Some (r_with_members x (<[Z.to_nat (n - 1) := None]> ps) (n - 1)
            (if muted then r_active_speakers x else r_active_speakers x - 1))
  else None.

(** The common part of the two: true when [c] was a participant. *)
Definition remove_participant (l : loc) (c : loc) : C (world D) bool :=
  x ← read_room l;
  found ← lift (find_participant (r_participants x) (Z.to_nat (r_participant_count x)) c 0);
  match found with
  | None => mret false
  | Some i =>
    y ← read_client c;
    x' ← lift (drop_participant x i (negb (c_is_mute y =? 0)));
    _ ← write_room l x';
    mret true
  end.

(** The end of both: the count on disk, and the room if it is empty. *)
Definition after_removal (l : loc) : C (world D) unit :=
  x ← read_room l;
  _ ← store_user_count (r_room_id x) (r_participant_count x);
  if r_participant_count x =? 0 then _ ← room_delete (r_room_id x); mret tt
  else mret tt.

Definition set_current_room (c : loc) (r : option loc) : C (world D) unit :=
  y ← read_client c; write_client c (c_with_room y r).

Definition room_leave (c : option loc) : C (world D) Z :=
  match c with
  | None => mret (-1)
  | Some c =>
    y ← read_client c;
    match c_current_room y with
    | None => mret (-1)
    | Some l =>
      found ← remove_participant l c;
      _ ← when found (set_current_room c None);
      _ ← after_removal l;
      mret 0
    end
  end.

Definition remove_client_from_room (r c : option loc) : C (world D) unit :=
  match r, c with
  | Some l, Some c =>
    _ ← remove_participant l c;
    after_removal l
  | _, _ => mret tt
  end.

Definition add_participant (x : room) (c : loc) : option room :=
  if (Z.to_nat (r_participant_count x) <? length (r_participants x))%nat
  then Some (r_with_members x
               (<[Z.to_nat (r_participant_count x) := Some c]> (r_participants x))
               (r_participant_count x + 1) (r_active_speakers x))
  else None.

Definition room_join (room_id : Z) (password : bytes) (c : option loc) : C (world D) Z :=
  match c with
  | None => mret (-1)
  | Some c =>
    y ← read_client c;
    _ ← match c_current_room y with
        | Some _ => _ ← room_leave (Some c); mret tt
        | None => mret tt
        end;
    r ← room_find_by_id room_id;
    match r with
    | None => mret (-2)
    | Some l =>
      x ← read_room l;
      if (0 <? strlen (r_password x))%nat && negb (strcmp_eq (r_password x) password)
      then mret (-3)
      else if MAX_CLIENTS <=? r_participant_count x then mret (-4)
      else
        x' ← lift (add_participant x c);
        _ ← write_room l x';
        _ ← set_current_room c (Some l);
        _ ← store_user_count room_id (r_participant_count x');
        mret 0
    end
  end.

(** ** The listing *)
Definition list_header : bytes :=
  pad_right 5 (str "ID") ++ 32 :: pad_right 20 (str "Name") ++
  32 :: pad_right 10 (str "Users") ++ 32 :: str "Protected" ++ [10].
Definition list_line (x : room) : bytes :=
  pad_right 5 (print_int (r_room_id x)) ++ 32 ::
  pad_right 20 (c_str (r_room_name x)) ++ 32 ::
  pad_right 10 (print_int (r_participant_count x)) ++ 32 ::
  str (if (0 <? strlen (r_password x))%nat then "Yes" else "No") ++ [10].

(** The loop of [room_list_formatted]: the string in the buffer and [pos],
    which counts what [snprintf] would have written. *)
Fixpoint list_loop (fuel : nat) (size : nat) (r : option loc) (text : bytes) (pos : nat)
    : C (world D) bytes :=
  match r with
  | None => mret text
  | Some l =>
    if (pos <? size - 1)%nat then
      match fuel with
      | O => λ _, None
      | S fuel' =>
        x ← read_room l;
        let line := list_line x in
        list_loop fuel' size (r_next x) (text ++ snprintf (size - pos) line)
          (pos + length line)
      end
    else mret text
  end.

Definition room_list_formatted (buffer_size : nat) : C (world D) bytes :=
  head ← gets w_room_head;
  match head with
  | None => mret (snprintf buffer_size (str "No active rooms"))
  | Some _ =>
    n ← gets (λ w, size (w_rooms w));
    list_loop (S n) buffer_size head (snprintf buffer_size list_header)
      (length list_header)
  end.

Definition room_manager_init : C (world D) unit :=
  _ ← puts (with_room_head None); puts (with_room_count 0).
End room_manager.
