(* ===== verification/RoomInv.v ===== *)
(** * The room list: its abstract value and the steps on it

    The doubly linked list in the heap represents a list of abstract rooms, in
    order of creation.  [dll] is the representation; the lemmas give the effect
    of a traversal, of a change of one room, of appending and of unlinking. *)
From S2P Require Import Prelude CInt CString Protocol RoomStore World RoomManager.
#[local] Open Scope Z_scope.

Record aroom := ARoom {
  ar_id : Z;
  ar_name : bytes;
  ar_password : bytes;
  ar_members : list loc
}.

Abbreviation arooms := (list (loc * aroom)).

Definition prev_of (rs : arooms) (i : nat) : option loc :=
  match i with
  | O => None
  | S j => fst <$> rs !! j
  end.
Definition next_of (rs : arooms) (i : nat) : option loc := fst <$> rs !! S i.

(** The participants array of a list of members. *)
Definition participants_of (ms : list loc) : list (option loc) :=
  (Some <$> ms) ++ replicate (50 - length ms) None.

Record room_is (x : room) (a : aroom) : Prop := {
  ri_id : r_room_id x = ar_id a;
  ri_name : c_str (r_room_name x) = ar_name a;
  ri_name_len : length (r_room_name x) = 32%nat;
  ri_name_end : (strlen (r_room_name x) < 32)%nat;
  ri_password : c_str (r_password x) = ar_password a;
  ri_password_len : length (r_password x) = 64%nat;
  ri_password_end : (strlen (r_password x) < 64)%nat;
  ri_members : r_participants x = participants_of (ar_members a);
  ri_count : r_participant_count x = Z.of_nat (length (ar_members a));
  ri_max : (length (ar_members a) ≤ 50)%nat
}.

Record dll (h : gmap loc room) (head : option loc) (rs : arooms) : Prop := {
  dll_head : head = fst <$> rs !! 0%nat;
  dll_nodup : NoDup rs.*1;
  dll_node (i : nat) l a : rs !! i = Some (l, a) →
    ∃ x, h !! l = Some x ∧ room_is x a ∧ r_prev x = prev_of rs i ∧ r_next x = next_of rs i
}.

(** ** Positions *)
Lemma lookup_fst (rs : arooms) (i : nat) l : fst <$> rs !! i = Some l ↔
  ∃ a, rs !! i = Some (l, a).
Proof.
  destruct (rs !! i) as [[l' a]|]; cbn; split; [intros [= ->]; eauto|intros [? [= -> ->]]; done
    |done|intros [? ?]; done].
Qed.

Lemma rooms_index_inj (rs : arooms) (i j : nat) l a b : NoDup rs.*1 →
  rs !! i = Some (l, a) → rs !! j = Some (l, b) → i = j.
Proof.
  intros Hn Hi Hj. eapply NoDup_lookup; [done| |]; rewrite list_lookup_fmap;
    [rewrite Hi|rewrite Hj]; done.
Qed.

Lemma fst_insert (rs : arooms) (i : nat) l a a' : rs !! i = Some (l, a) →
  (<[i := (l, a')]> rs).*1 = rs.*1.
Proof.
  intros Hi. rewrite list_fmap_insert. apply list_insert_id. by rewrite list_lookup_fmap, Hi.
Qed.

Lemma fst_lookup_insert (rs : arooms) (i j : nat) l a a' : rs !! i = Some (l, a) →
  fst <$> <[i := (l, a')]> rs !! j = fst <$> rs !! j.
Proof. intros Hi. by rewrite <-!list_lookup_fmap, (fst_insert _ _ _ _ _ Hi). Qed.

Lemma links_insert (rs : arooms) (i j : nat) l a a' : rs !! i = Some (l, a) →
  prev_of (<[i := (l, a')]> rs) j = prev_of rs j ∧
  next_of (<[i := (l, a')]> rs) j = next_of rs j.
Proof.
  intros Hi. unfold prev_of, next_of.
  split; [destruct j; [done|]|]; by eapply fst_lookup_insert.
Qed.

(** Every room of the list is allocated, so the heap has at least as many. *)
Lemma dll_size h head rs : dll h head rs → (length rs ≤ size h)%nat.
Proof.
  intros [_ Hn Hnode].
  rewrite <-(length_fmap fst), <-(size_list_to_set (C:=gset loc) rs.*1) by done.
  rewrite <-size_dom. apply subseteq_size. intros l Hl%elem_of_list_to_set.
  apply list_elem_of_fmap in Hl as ([l' a]&->&Hin).
  apply list_elem_of_lookup in Hin as [i Hi].
  destruct (Hnode i _ _ Hi) as (x&Hx&_). by apply elem_of_dom_2 in Hx.
Qed.

(** ** Traversals *)
Section traversal.
Context {D : Type}.
Implicit Types w : world D.

(** A test on rooms that is a test on abstract rooms. *)
Definition agrees (p : room → bool) (P : aroom → bool) : Prop :=
  ∀ x a, room_is x a → p x = P a.

Definition first_room (P : aroom → bool) (rs : arooms) : option (loc * aroom) :=
  List.find (λ la, P la.2) rs.

Lemma find_room_loop_run w head rs p P : dll (w_rooms w) head rs → agrees p P →
  ∀ n i, (length rs ≤ i + n)%nat →
  find_room_loop (S n) p (fst <$> rs !! i) w = Some (fst <$> first_room P (drop i rs), w).
Proof.
  intros [_ _ Hnode] Hp. induction n as [|n IH]; intros i Hi; cbn [find_room_loop].
  - rewrite lookup_ge_None_2, drop_ge by lia. done.
  - destruct (rs !! i) as [[l a]|] eqn:E; cbn [fmap option_fmap option_map fst].
    + destruct (Hnode i l a E) as (x&Hx&Hxa&_&Hnext).
      rewrite (C_bind_run _ _ _ _ _ (read_room_run w l x Hx)).
      rewrite (drop_S _ _ _ E). unfold first_room; cbn [List.find snd].
      rewrite (Hp x a Hxa). destruct (P a); [done|]. rewrite Hnext.
      apply (IH (S i)). lia.
    + by rewrite drop_ge by (by apply lookup_ge_None_1).
Qed.

Lemma find_room_run w rs p P : dll (w_rooms w) (w_room_head w) rs → agrees p P →
  find_room p w = Some (fst <$> first_room P rs, w).
Proof.
  intros Hd Hp. unfold find_room. c_steps. rewrite (dll_head _ _ _ Hd).
  rewrite (find_room_loop_run w _ rs p P Hd Hp _ 0); [by rewrite drop_0|].
  by apply dll_size in Hd.
Qed.

Lemma last_room_loop_run w head rs : dll (w_rooms w) head rs →
  ∀ n i l a, (length rs ≤ i + n)%nat → rs !! i = Some (l, a) →
  ∃ l' a', last rs = Some (l', a') ∧ last_room_loop n l w = Some (l', w).
Proof.
  intros [_ _ Hnode]. induction n as [|n IH]; intros i l a Hi E.
  - apply lookup_lt_Some in E. lia.
  - cbn [last_room_loop]. destruct (Hnode i l a E) as (x&Hx&_&_&Hnext).
    rewrite (C_bind_run _ _ _ _ _ (read_room_run w l x Hx)). rewrite Hnext. unfold next_of.
    destruct (rs !! S i) as [[l' a']|] eqn:E'; cbn [fmap option_fmap option_map fst].
    + apply (IH (S i) l' a'); [lia|done].
    + exists l, a. split; [|done]. rewrite last_lookup.
      apply lookup_ge_None_1 in E'. apply lookup_lt_Some in E as Hlt.
      by replace (Init.Nat.pred (length rs)) with i by lia.
Qed.

Lemma find_room_by_id_agrees id : agrees (λ x, r_room_id x =? id) (λ a, ar_id a =? id).
Proof. intros x a Hx. by rewrite (ri_id _ _ Hx). Qed.

Lemma find_room_by_name_agrees name :
  agrees (λ x, strcmp_eq (r_room_name x) name) (λ a, bool_decide (ar_name a = c_str name)).
Proof. intros x a Hx. unfold strcmp_eq. by rewrite (ri_name _ _ Hx). Qed.
End traversal.

Lemma first_room_Some P rs l a : first_room P rs = Some (l, a) →
  (∃ i : nat, rs !! i = Some (l, a)) ∧ P a = true.
Proof.
  intros H%List.find_some. destruct H as [Hin HP].
  apply list_elem_of_In, list_elem_of_lookup in Hin. done.
Qed.

Lemma first_room_None P rs : first_room P rs = None →
  ∀ l a, (l, a) ∈ rs → P a = false.
Proof.
  intros H l a Hin%list_elem_of_In. by apply (List.find_none _ _ H) in Hin.
Qed.

(** The room with a given key, when keys are distinct. *)
Lemma first_room_unique {K} (key : aroom → K) (P : aroom → bool) rs (i : nat) l a :
  NoDup (key ∘ snd <$> rs) → rs !! i = Some (l, a) → P a = true →
  (∀ b, P b = true → key b = key a) → first_room P rs = Some (l, a).
Proof.
  intros Hn Hi HP Huniq. destruct (first_room P rs) as [[l' a']|] eqn:E.
  - apply first_room_Some in E as [[j Hj] HP'].
    assert (i = j) as <-; [|congruence].
    eapply NoDup_lookup; [exact Hn| |]; rewrite list_lookup_fmap; [rewrite Hi|rewrite Hj]; cbn;
      [done|]. by rewrite (Huniq a' HP').
  - pose proof (first_room_None _ _ E l a ltac:(by eapply list_elem_of_lookup_2)). congruence.
Qed.

(** ** Changing one room *)
Lemma dll_update h head rs (i : nat) l a a' x' : dll h head rs → rs !! i = Some (l, a) →
  room_is x' a' → r_prev x' = prev_of rs i → r_next x' = next_of rs i →
  dll (<[l := x']> h) head (<[i := (l, a')]> rs).
Proof.
  intros [Hh Hn Hnode] Hi Hx' Hp Hnx. split.
  - by rewrite (fst_lookup_insert _ _ _ _ _ _ Hi).
  - by rewrite (fst_insert _ _ _ _ _ Hi).
  - intros j k b Hj. destruct (links_insert rs i j l a a' Hi) as [-> ->].
    apply list_lookup_insert_Some in Hj as [(<-&[= <- <-]&_)|[Hij Hj]].
    + exists x'. by rewrite lookup_insert_eq.
    + destruct (Hnode j k b Hj) as (x&Hx&?). exists x. split; [|done].
      rewrite lookup_insert_ne; [done|]. intros ->.
      apply Hij. by eapply rooms_index_inj.
Qed.

(** ** Appending and unlinking *)

Lemma room_is_links x a p n : room_is x a → room_is (r_with_links x p n) a.
Proof. intros []. by split. Qed.

Lemma lookup_snoc_lt {A} (l : list A) x (i : nat) : (i < length l)%nat →
  (l ++ [x]) !! i = l !! i.
Proof. intros. by apply lookup_app_l. Qed.

Lemma prev_of_app rs la (i : nat) : (i ≤ length rs)%nat →
  prev_of (rs ++ [la]) i = prev_of rs i.
Proof. intros. unfold prev_of. destruct i as [|j]; [done|]. by rewrite lookup_snoc_lt. Qed.

Section list_steps.
Context {D : Type}.
Implicit Types w : world D.

Lemma set_next_run w l n x : w_rooms w !! l = Some x →
  set_next l n w = Some (tt, with_room_heap <[l := r_with_links x (r_prev x) n]> w).
Proof.
  intros Hx. unfold set_next. rewrite (C_bind_run _ _ _ _ _ (read_room_run _ _ _ Hx)).
  by apply write_room_run with x.
Qed.
Lemma set_prev_run w l p x : w_rooms w !! l = Some x →
  set_prev l p w = Some (tt, with_room_heap <[l := r_with_links x p (r_next x)]> w).
Proof.
  intros Hx. unfold set_prev. rewrite (C_bind_run _ _ _ _ _ (read_room_run _ _ _ Hx)).
  by apply write_room_run with x.
Qed.

(** A new room, allocated and not linked, goes to the end. *)
Lemma append_room_run w rs l x a : dll (w_rooms w) (w_room_head w) rs →
  l ∉ rs.*1 → w_rooms w !! l = Some x → room_is x a →
  r_prev x = None → r_next x = None →
  ∃ h' head', append_room l w =
    Some (tt, with_room_head head' (with_room_heap (λ _, h') w)) ∧
    dll h' head' (rs ++ [(l, a)]) ∧ dom h' = dom (w_rooms w).
Proof.
  intros Hd Hl Hx Hxa Hp Hn. unfold append_room. c_steps.
  rewrite (dll_head _ _ _ Hd). destruct rs as [|[h0 a0] rs'] eqn:Ers.
  { exists (w_rooms w), (Some l). split; [by destruct w|]. split; [|done]. split.
    - done.
    - by apply NoDup_singleton.
    - intros [|i] k b; [|done]. intros [= <- <-]. by exists x. }
  cbn [lookup list_lookup fmap option_fmap option_map fst]. c_steps.
  rewrite <-Ers in *. assert (rs !! 0%nat = Some (h0, a0)) as H0 by (by rewrite Ers).
  destruct (last_room_loop_run w _ rs Hd (S (size (w_rooms w))) 0 h0 a0)
    as (ll&la&Hlast&Hrun); [apply dll_size in Hd; lia|done|].
  rewrite (C_bind_run _ _ _ _ _ Hrun).
  rewrite last_lookup in Hlast. set (n := Init.Nat.pred (length rs)) in *.
  assert (0 < length rs)%nat as Hpos by (rewrite Ers; cbn; lia). clear Ers rs'.
  destruct Hd as [Hhead Hnd Hnode].
  destruct (Hnode n ll la Hlast) as (y&Hy&Hya&Hyp&Hyn).
  assert (l ≠ ll) as Hne.
  { intros ->. apply Hl. apply list_elem_of_fmap. exists (ll, la). split; [done|].
    by eapply list_elem_of_lookup_2. }
  rewrite (C_bind_run _ _ _ _ _ (set_next_run _ _ _ _ Hy)).
  rewrite (set_prev_run _ l _ x) by (cbn; by rewrite lookup_insert_ne by done).
  exists (<[l := r_with_links x (Some ll) (r_next x)]>
           (<[ll := r_with_links y (r_prev y) (Some l)]> (w_rooms w))), (w_room_head w).
  split; [reflexivity|].
  split; [|rewrite !dom_insert_lookup_L; rewrite ?lookup_insert_ne by done; by eauto].
  split.
  - rewrite Hhead, lookup_snoc_lt by done. done.
  - rewrite fmap_app. apply NoDup_app. split_and!; [done| |apply NoDup_singleton].
    intros k Hk ->%list_elem_of_singleton. done.
  - intros i k b Hi. apply lookup_app_Some in Hi as [Hi|[Hge Hi]].
    + pose proof (lookup_lt_Some _ _ _ Hi) as Hlt.
      destruct (Hnode i k b Hi) as (z&Hz&Hzb&Hzp&Hzn).
      assert (k ≠ l).
      { intros ->. apply Hl. apply list_elem_of_fmap. exists (l, b). split; [done|].
        by eapply list_elem_of_lookup_2. }
      rewrite lookup_insert_ne, prev_of_app by (done || lia).
      destruct (decide (k = ll)) as [->|Hk].
      * assert (i = n) as -> by (by eapply rooms_index_inj).
        simplify_eq. rewrite lookup_insert_eq. eexists. split; [done|].
        split; [by apply room_is_links|]. split; [done|]. cbn.
        unfold next_of. replace (S n) with (length rs) by lia.
        by rewrite list_lookup_middle.
      * rewrite lookup_insert_ne by done. exists z. split_and!; [done..|].
        rewrite Hzn. unfold next_of.
        assert (S i < length rs)%nat.
        { destruct (decide (S i = length rs)) as [Hend|]; [|lia].
          assert (i = n) as -> by lia. simplify_eq. }
        by rewrite lookup_snoc_lt.
    + destruct (i - length rs)%nat as [|m] eqn:Em; [|by destruct m].
      cbn in Hi. injection Hi as <- <-. assert (i = length rs) as -> by lia.
      rewrite lookup_insert_eq. eexists. split; [done|].
      split; [by apply room_is_links|]. unfold r_with_links; cbn.
      rewrite prev_of_app by done. unfold prev_of, next_of. split.
      * destruct (length rs) as [|m] eqn:El; [lia|]. subst n. cbn in Hlast. by rewrite Hlast.
      * rewrite lookup_ge_None_2; [done|]. rewrite length_app. cbn. lia.
Qed.
End list_steps.

Lemma dll_insert_fresh h head rs l x : dll h head rs → l ∉ rs.*1 → dll (<[l := x]> h) head rs.
Proof.
  intros [Hh Hn Hnode] Hl. split; [done..|]. intros i k b Hi. rewrite lookup_insert_ne; [auto|].
  intros ->. apply Hl, list_elem_of_fmap. exists (k, b). split; [done|].
  by eapply list_elem_of_lookup_2.
Qed.

(** *** Unlinking: the neighbours are joined *)
Definition unlinked (h : gmap loc room) (rs : arooms) (i : nat) : gmap loc room :=
  let h1 := match prev_of rs i with
            | Some p => alter (λ x, r_with_links x (r_prev x) (next_of rs i)) p h
            | None => h
            end in
  match next_of rs i with
  | Some n => alter (λ x, r_with_links x (prev_of rs i) (r_next x)) n h1
  | None => h1
  end.

Lemma r_with_links_id x : r_with_links x (r_prev x) (r_next x) = x.
Proof. by destruct x. Qed.

Lemma unlinked_lookup h rs i k : unlinked h rs i !! k =
  (λ x, r_with_links x (if decide (next_of rs i = Some k) then prev_of rs i else r_prev x)
          (if decide (prev_of rs i = Some k) then next_of rs i else r_next x)) <$> h !! k.
Proof.
  unfold unlinked.
  destruct (prev_of rs i) as [p|] eqn:Ep, (next_of rs i) as [n|] eqn:En;
    rewrite ?lookup_alter; repeat case_decide; simplify_eq;
    destruct (h !! k); cbn; rewrite ?r_with_links_id; done.
Qed.

Lemma prev_of_index rs (i j : nat) k b : NoDup rs.*1 → rs !! j = Some (k, b) →
  prev_of rs i = Some k ↔ i = S j.
Proof.
  intros Hn Hj. destruct i as [|i]; cbn; [done|]. rewrite lookup_fst. split.
  - intros [b' Hi]. f_equal. by eapply rooms_index_inj.
  - intros [= ->]. by exists b.
Qed.

Lemma next_of_index rs (i j : nat) k b : NoDup rs.*1 → rs !! j = Some (k, b) →
  next_of rs i = Some k ↔ j = S i.
Proof.
  intros Hn Hj. unfold next_of. rewrite lookup_fst. split.
  - intros [b' Hi]. symmetry. by eapply rooms_index_inj.
  - intros ->. by exists b.
Qed.

Lemma delete_lookup {A} (l : list A) (i j : nat) :
  delete i l !! j = if decide (j < i)%nat then l !! j else l !! S j.
Proof.
  case_decide; [by apply list_lookup_delete_lt|]. apply list_lookup_delete_ge. lia.
Qed.

Lemma links_delete rs (i j : nat) : 
  prev_of (delete i rs) j =
    (if decide (j ≤ i)%nat then prev_of rs j else prev_of rs (S j)) ∧
  next_of (delete i rs) j =
    (if decide (S j < i)%nat then next_of rs j else next_of rs (S j)).
Proof.
  unfold prev_of, next_of. split; [destruct j as [|j]|]; rewrite ?delete_lookup;
    repeat case_decide; first [done | lia].
Qed.

Lemma dll_unlink h head rs (i : nat) l a : dll h head rs → rs !! i = Some (l, a) →
  dll (delete l (unlinked h rs i)) (if decide (i = 0%nat) then next_of rs 0 else head)
    (delete i rs).
Proof.
  intros [Hhead Hnd Hnode] Hi. split.
  - rewrite Hhead. unfold next_of. rewrite delete_lookup.
    destruct i; repeat case_decide; first [done | lia].
  - rewrite <-(take_drop_middle _ _ _ Hi) in Hnd. rewrite delete_take_drop.
    rewrite fmap_app, fmap_cons in Hnd. rewrite fmap_app.
    apply NoDup_app in Hnd as (?&Hd&Hc). apply NoDup_cons in Hc as [_ ?].
    apply NoDup_app. split_and!; [done| |done]. intros k Hk Hk'.
    apply (Hd k Hk). by right.
  - intros j k b Hj. rewrite delete_lookup in Hj.
    assert (∃ j0, rs !! j0 = Some (k, b) ∧ j0 ≠ i ∧
      j0 = (if decide (j < i)%nat then j else S j)) as (j0&Hj0&Hne&Ej0).
    { case_decide; eexists; (split; [exact Hj|]); split; lia || done. }
    destruct (Hnode j0 k b Hj0) as (x&Hx&Hxb&Hxp&Hxn).
    assert (k ≠ l) as Hkl by (intros ->; apply Hne; by eapply rooms_index_inj).
    rewrite lookup_delete_ne, unlinked_lookup, Hx by done. eexists. split; [done|].
    split; [by apply room_is_links|].
    destruct (links_delete rs i j) as [-> ->]. unfold r_with_links; cbn.
    rewrite Hxp, Hxn.
    rewrite (decide_ext _ _ _ _ (next_of_index rs i j0 k b Hnd Hj0)).
    rewrite (decide_ext _ _ _ _ (prev_of_index rs i j0 k b Hnd Hj0)).
    repeat case_decide; subst; split; try done; try lia; f_equal; lia.
Qed.

Lemma alter_as_insert {A} (f : A → A) (h : gmap loc A) p x : h !! p = Some x →
  alter f p h = <[p := f x]> h.
Proof.
  intros Hp. apply map_eq. intros k. rewrite lookup_alter, lookup_insert.
  case_decide; subst; by rewrite ?Hp.
Qed.

Lemma dom_unlinked h rs i : dom (unlinked h rs i) = dom h.
Proof. unfold unlinked. destruct (prev_of rs i), (next_of rs i); by rewrite ?dom_alter_L. Qed.

Lemma prev_of_alloc h head rs (i : nat) p : dll h head rs → prev_of rs i = Some p →
  is_Some (h !! p).
Proof.
  intros Hd Hp. destruct i as [|i]; [done|]. apply lookup_fst in Hp as [b Hb].
  destruct (dll_node _ _ _ Hd _ _ _ Hb) as (x&->&_). by eexists.
Qed.
Lemma next_of_alloc h head rs (i : nat) n : dll h head rs → next_of rs i = Some n →
  is_Some (h !! n).
Proof. apply (prev_of_alloc h head rs (S (S i)) n). Qed.

Lemma unlink_room_run {D} (w : world D) rs (i : nat) l a :
  dll (w_rooms w) (w_room_head w) rs → rs !! i = Some (l, a) →
  unlink_room l w = Some (tt,
    with_room_head (if decide (i = 0%nat) then next_of rs 0 else w_room_head w)
      (with_room_heap (λ h, unlinked h rs i) w)).
Proof.
  intros Hd Hi. destruct (dll_node _ _ _ Hd i l a Hi) as (x&Hx&_&Hp&Hn).
  unfold unlink_room. rewrite (C_bind_run _ _ _ _ _ (read_room_run _ _ _ Hx)).
  rewrite Hp, Hn.
  assert (prev_of rs i ≠ Some l) as Hpl.
  { rewrite (prev_of_index rs i i l a) by (done || apply Hd). lia. }
  destruct (prev_of rs i) as [p|] eqn:Ep.
  - destruct (prev_of_alloc _ _ _ _ _ Hd Ep) as [y Hy].
    rewrite (C_bind_run _ _ _ _ _ (set_next_run w p (next_of rs i) y Hy)).
    erewrite C_bind_run
      by (apply read_room_run; cbn; rewrite lookup_insert_ne by congruence; exact Hx).
    rewrite Hp, Hn. destruct (decide (i = 0%nat)) as [->|_]; [done|].
    unfold with_room_heap at 2, unlinked. cbn. rewrite Ep.
    rewrite (alter_as_insert _ _ p y Hy).
    destruct (next_of rs i) as [n|] eqn:En; [|by destruct w].
    assert (is_Some (<[p := r_with_links y (r_prev y) (Some n)]> (w_rooms w) !! n)) as [z Hz].
    { apply lookup_insert_is_Some'. right. by eapply next_of_alloc. }
    rewrite (alter_as_insert _ _ n z Hz). by erewrite set_prev_run by exact Hz.
  - destruct (decide (i = 0%nat)) as [->|Hi0].
    2: { destruct i as [|i]; [done|]. cbn in Ep.
         apply lookup_lt_Some in Hi. destruct (rs !! i) eqn:E; [done|].
         apply lookup_ge_None_1 in E. lia. }
    c_steps. erewrite C_bind_run by (apply read_room_run; exact Hx).
    rewrite Hp, Hn. unfold unlinked. cbn. 
    destruct (next_of rs 0) as [n|] eqn:En; [|by destruct w].
    destruct (next_of_alloc _ _ _ _ _ Hd En) as [z Hz].
    unfold with_room_heap. rewrite (alter_as_insert _ _ n z Hz).
    by erewrite set_prev_run by exact Hz.
Qed.
