(* ===== verification/RoomState.v ===== *)
(** * The room manager's invariant, and what its internal steps do to it

    [mem_ok] is the invariant of the list in memory, [disk_ok] says that the
    active records of the room file are exactly the rooms, and [members_ok]
    that the participants of a room are the active clients whose
    [current_room] it is. *)
From S2P Require Import Prelude CInt CString Protocol RoomStore World RoomManager RoomInv.
#[local] Open Scope Z_scope.

Record mem_ok {D} (w : world D) (rs : arooms) : Prop := {
  mo_dll : dll (w_rooms w) (w_room_head w) rs;
  mo_dom : dom (w_rooms w) = list_to_set rs.*1;
  mo_count : w_room_count w = Z.of_nat (length rs);
  mo_max : (length rs ≤ 32)%nat;
  mo_ids : NoDup (ar_id ∘ snd <$> rs);
  mo_names : NoDup (ar_name ∘ snd <$> rs);
  mo_bound l a : (l, a) ∈ rs → 0 ≤ ar_id a < MAX_ROOMS;
  mo_distinct l a : (l, a) ∈ rs → NoDup (ar_members a);
  mo_junk : wf_room_record (w_junk w)
}.

(** The record of a room. *)
Record rec_is (rec : room_record) (a : aroom) : Prop := {
  rc_id : rr_room_id rec = ar_id a;
  rc_name : c_str (rr_room_name rec) = ar_name a;
  rc_password : c_str (rr_password rec) = ar_password a;
  rc_active : rr_is_active rec = 1;
  rc_count : rr_user_count rec = Z.of_nat (length (ar_members a))
}.

Record disk_ok (recs : list room_record) (rs : arooms) : Prop := {
  do_wf : Forall wf_room_record recs;
  do_rooms l a : (l, a) ∈ rs →
    ∃ rec, recs !! Z.to_nat (ar_id a) = Some rec ∧ rec_is rec a;
  do_active (i : nat) rec : recs !! i = Some rec → rr_is_active rec ≠ 0 →
    ∃ l a, (l, a) ∈ rs ∧ ar_id a = Z.of_nat i
}.

Record members_ok (cs : gmap loc client) (rs : arooms) : Prop := {
  me_client l a c : (l, a) ∈ rs → c ∈ ar_members a →
    ∃ y, cs !! c = Some y ∧ c_is_active y ≠ 0 ∧ c_current_room y = Some l;
  me_room c y l : cs !! c = Some y → c_is_active y ≠ 0 → c_current_room y = Some l →
    ∃ a, (l, a) ∈ rs ∧ c ∈ ar_members a
}.

(** [a'] is [a] with other members. *)
Definition same_room (a a' : aroom) : Prop :=
  ar_id a' = ar_id a ∧ ar_name a' = ar_name a ∧ ar_password a' = ar_password a.

Definition with_members (a : aroom) (ms : list loc) : aroom :=
  ARoom (ar_id a) (ar_name a) (ar_password a) ms.

Lemma same_room_members a ms : same_room a (with_members a ms).
Proof. done. Qed.

(** ** Keys under the changes of the list *)
Lemma key_insert {K} (key : aroom → K) (rs : arooms) (i : nat) l a a' :
  rs !! i = Some (l, a) → key a' = key a →
  key ∘ snd <$> <[i := (l, a')]> rs = key ∘ snd <$> rs.
Proof.
  intros Hi Hk. rewrite list_fmap_insert. apply list_insert_id.
  rewrite list_lookup_fmap, Hi. cbn. by rewrite Hk.
Qed.

Lemma key_delete {A K} (key : A → K) (rs : list A) (i : nat) :
  NoDup (key <$> rs) → NoDup (key <$> delete i rs).
Proof.
  intros H. rewrite list_fmap_delete. eapply sublist_NoDup; [exact H|apply sublist_delete].
Qed.

Lemma insert_elem {A} (rs : list A) (i : nat) x y : x ∈ <[i := y]> rs → x = y ∨ x ∈ rs.
Proof.
  intros [j Hj]%list_elem_of_lookup.
  apply list_lookup_insert_Some in Hj as [(_&->&_)|[_ Hj]]; [by left|right].
  by eapply list_elem_of_lookup_2.
Qed.

Lemma delete_elem {A} (rs : list A) (i : nat) x : x ∈ delete i rs →
  ∃ j : nat, j ≠ i ∧ rs !! j = Some x.
Proof.
  intros [j Hj]%list_elem_of_lookup. rewrite delete_lookup in Hj.
  case_decide; eexists; (split; [|exact Hj]); lia.
Qed.

Lemma elem_delete {A} (rs : list A) (i j : nat) x : rs !! j = Some x → j ≠ i →
  x ∈ delete i rs.
Proof.
  intros Hj Hne. apply list_elem_of_lookup.
  destruct (decide (j < i)%nat).
  - exists j. by rewrite delete_lookup, decide_True.
  - exists (j - 1)%nat. rewrite delete_lookup, decide_False by lia. 
    by replace (S (j - 1)) with j by lia.
Qed.

(** Distinct ids: an element with the id of position [i] is there. *)
Lemma same_id_index {K} (key : aroom → K) (rs : arooms) (i j : nat) l a k b :
  NoDup (key ∘ snd <$> rs) → rs !! i = Some (l, a) → rs !! j = Some (k, b) →
  key a = key b → i = j.
Proof.
  intros Hn Hi Hj Hk. eapply NoDup_lookup; [exact Hn| |]; rewrite list_lookup_fmap;
    [rewrite Hi|rewrite Hj]; cbn; [done|by rewrite Hk].
Qed.

(** ** Memory: changing a room, removing it *)
Section memory.
Context {D : Type}.
Implicit Types w : world D.

Lemma mem_ok_room w rs (i : nat) l a : mem_ok w rs → rs !! i = Some (l, a) →
  ∃ x, w_rooms w !! l = Some x ∧ room_is x a ∧
       r_prev x = prev_of rs i ∧ r_next x = next_of rs i.
Proof. intros [Hd _ _ _ _ _ _ _ _] Hi. by apply (dll_node _ _ _ Hd). Qed.

Lemma mem_ok_update w rs (i : nat) l a a' x' : mem_ok w rs → rs !! i = Some (l, a) →
  same_room a a' → NoDup (ar_members a') → room_is x' a' →
  r_prev x' = prev_of rs i → r_next x' = next_of rs i →
  mem_ok (with_room_heap <[l := x']> w) (<[i := (l, a')]> rs).
Proof.
  intros [Hd Hdom Hc Hm Hids Hnames Hb Hms Hj] Hi (E1&E2&E3) Hnd Hx Hp Hn. split; cbn.
  - by eapply dll_update.
  - rewrite dom_insert_L, Hdom, (fst_insert _ _ _ _ _ Hi).
    assert (l ∈ rs.*1) by (apply list_elem_of_fmap; exists (l, a); split; [done|];
      by eapply list_elem_of_lookup_2).
    apply subseteq_union_1_L. by apply singleton_subseteq_l, elem_of_list_to_set.
  - by rewrite length_insert.
  - by rewrite length_insert.
  - by rewrite (key_insert _ _ _ _ _ _ Hi).
  - by rewrite (key_insert _ _ _ _ _ _ Hi).
  - intros l' a'' [[= -> ->]|Hin]%insert_elem; [|by eapply Hb].
    rewrite E1. eapply Hb. by eapply list_elem_of_lookup_2.
  - intros l' a'' [[= -> ->]|Hin]%insert_elem; [done|by eapply Hms].
  - done.
Qed.

Lemma mem_ok_unlink w rs (i : nat) l a : mem_ok w rs → rs !! i = Some (l, a) →
  mem_ok (with_room_heap (delete l) (with_room_count (w_room_count w - 1)
    (with_room_head (if decide (i = 0%nat) then next_of rs 0 else w_room_head w)
      (with_room_heap (λ h, unlinked h rs i) w)))) (delete i rs).
Proof.
  intros [Hd Hdom Hc Hm Hids Hnames Hb Hms Hj] Hi.
  pose proof (lookup_lt_Some _ _ _ Hi) as Hlt. split; cbn.
  - by apply dll_unlink with a.
  - rewrite dom_delete_L, dom_unlinked, Hdom.
    pose proof (dll_nodup _ _ _ Hd) as Hnd.
    rewrite <-(take_drop_middle _ _ _ Hi) in Hnd |- * at 1.
    rewrite delete_take_drop. rewrite !fmap_app, fmap_cons in *. cbn in *.
    apply NoDup_app in Hnd as (_&Hd1&[Hd2 _]%NoDup_cons).
    apply set_eq. intros k. rewrite elem_of_difference, !elem_of_list_to_set,
      !elem_of_app, elem_of_cons, elem_of_singleton.
    split; [tauto|]. intros [Hk|Hk]; (split; [tauto|]); intros ->; [|done].
    apply (Hd1 _ Hk). by left.
  - rewrite length_delete by eauto. lia.
  - rewrite length_delete by eauto. lia.
  - by apply key_delete.
  - by apply key_delete.
  - intros k b (j&_&Hj')%delete_elem. eapply Hb. by eapply list_elem_of_lookup_2.
  - intros k b (j&_&Hj')%delete_elem. eapply Hms. by eapply list_elem_of_lookup_2.
  - done.
Qed.

Lemma room_find_by_id_run w rs id : mem_ok w rs →
  room_find_by_id id w = Some (fst <$> first_room (λ a, ar_id a =? id) rs, w).
Proof. intros Hm. apply find_room_run; [apply Hm|apply find_room_by_id_agrees]. Qed.

Lemma room_find_by_name_run w rs name : mem_ok w rs →
  room_find_by_name name w =
    Some (fst <$> first_room (λ a, bool_decide (ar_name a = c_str name)) rs, w).
Proof. intros Hm. apply find_room_run; [apply Hm|apply find_room_by_name_agrees]. Qed.

Lemma first_room_id w rs (i : nat) l a : mem_ok w rs → rs !! i = Some (l, a) →
  first_room (λ b, ar_id b =? ar_id a) rs = Some (l, a).
Proof.
  intros Hm Hi. eapply first_room_unique; [apply Hm|done| |].
  - by apply Z.eqb_eq.
  - intros b. apply Z.eqb_eq.
Qed.
End memory.

(** ** The participants array *)
Section participants.
Implicit Types ms : list loc.

Lemma length_participants ms : (length ms ≤ 50)%nat → length (participants_of ms) = 50%nat.
Proof. intros. unfold participants_of. len. Qed.

Lemma participants_lookup ms (i : nat) : (i < length ms)%nat →
  participants_of ms !! i = Some <$> ms !! i.
Proof.
  intros Hi. unfold participants_of. by rewrite lookup_app_l, list_lookup_fmap by len.
Qed.

Lemma participants_lookup_free ms (i : nat) : (length ms ≤ i < 50)%nat →
  participants_of ms !! i = Some None.
Proof.
  intros Hi. unfold participants_of. rewrite lookup_app_r by len.
  apply lookup_replicate_2. len.
Qed.

Lemma shift_down_spec k : ∀ j ps, (j + k < length ps)%nat ∨ k = 0%nat →
  ∃ ps', shift_down k j ps = Some ps' ∧ length ps' = length ps ∧
    ∀ m : nat, ps' !! m = ps !! (if decide (j ≤ m < j + k)%nat then S m else m).
Proof.
  induction k as [|k IH]; intros j ps Hk; cbn [shift_down].
  { exists ps. split_and!; [done..|]. intros m. by rewrite decide_False by lia. }
  destruct (lookup_lt_is_Some_2 ps (S j) ltac:(lia)) as [p Hp]. rewrite Hp.
  cbn [mbind option_bind]. destruct (Nat.ltb_spec j (length ps)); [|lia].
  destruct (IH (S j) (<[j := p]> ps)) as (ps'&->&Hl&Hps'); [len|].
  rewrite length_insert in Hl. exists ps'. split_and!; [done..|]. intros m.
  rewrite Hps'. destruct (decide (m = j)) as [->|Hm].
  - rewrite decide_False, decide_True by lia. by rewrite list_lookup_insert_eq by lia.
  - repeat case_decide; try lia; by rewrite list_lookup_insert_ne by lia.
Qed.

(** Shifting the members after position [i] down removes position [i]. *)
Lemma shift_participants ms (i : nat) : (i < length ms ≤ 50)%nat →
  ∃ ps, shift_down (length ms - 1 - i) i (participants_of ms) = Some ps ∧
    (length ms - 1 < length ps)%nat ∧
    <[(length ms - 1)%nat := None]> ps = participants_of (delete i ms).
Proof.
  intros Hi. destruct (lookup_lt_is_Some_2 ms i ltac:(lia)) as [c Hc].
  assert (length (delete i ms) = length ms - 1)%nat as Hdel.
  { rewrite length_delete by eauto. lia. }
  destruct (shift_down_spec (length ms - 1 - i) i (participants_of ms))
    as (ps&->&Hl&Hps); [rewrite length_participants by lia; lia|].
  rewrite length_participants in Hl by lia.
  exists ps. split_and!; [done|lia|]. apply list_eq. intros m.
  destruct (decide (m < 50)%nat).
  2: { rewrite !lookup_ge_None_2; [done| |rewrite length_insert; lia].
       rewrite length_participants; lia. }
  destruct (decide (m = length ms - 1)%nat) as [->|Hne].
  { rewrite list_lookup_insert_eq by lia. by rewrite participants_lookup_free by lia. }
  rewrite list_lookup_insert_ne, Hps by done.
  destruct (decide (m < length ms - 1)%nat).
  - rewrite (participants_lookup (delete i ms)), delete_lookup by lia.
    case_decide; case_decide; try lia; by rewrite participants_lookup by lia.
  - rewrite decide_False by lia. by rewrite !participants_lookup_free by lia.
Qed.

Definition remove_member (c : loc) ms : list loc := filter (λ x, x ≠ c) ms.

Lemma remove_member_absent c ms : c ∉ ms → remove_member c ms = ms.
Proof.
  intros Hc. apply filter_all, Forall_forall. by intros x Hx ->.
Qed.

Lemma remove_member_delete c ms (i : nat) : NoDup ms → ms !! i = Some c →
  remove_member c ms = delete i ms.
Proof.
  intros Hn Hi. rewrite <-(take_drop_middle _ _ _ Hi) in Hn.
  rewrite <-(take_drop_middle _ _ _ Hi) at 1. rewrite delete_take_drop.
  apply NoDup_app in Hn as (_&Hd&[Hc _]%NoDup_cons).
  unfold remove_member. rewrite filter_app, filter_cons_False by (intros []; done).
  f_equal; apply remove_member_absent; [|done].
  intros Hin. apply (Hd _ Hin). by left.
Qed.

Lemma elem_of_remove_member c d ms : d ∈ remove_member c ms ↔ d ≠ c ∧ d ∈ ms.
Proof. unfold remove_member. by rewrite list_elem_of_filter. Qed.

Lemma find_participant_spec ms c (k : nat) : (length ms ≤ 50)%nat →
  find_participant (participants_of ms) (length ms) c k =
  Some ((λ p : nat * loc, (k + p.1)%nat) <$> list_find (.= c) ms).
Proof.
  intros _. unfold participants_of. generalize (50 - length ms)%nat as n. intros n.
  revert k. induction ms as [|d ms IH]; intros k; cbn; [done|].
  case_bool_decide as Hd; case_decide as Hd'; simplify_eq.
  - cbn. by rewrite Nat.add_0_r.
  - rewrite IH. destruct (list_find _ ms) as [[j e]|]; cbn; [|done].
    by rewrite Nat.add_succ_r.
Qed.
End participants.

Section removal.
Context {D : Type}.
Implicit Types w : world D.

(** What dropping [c] does to the list of rooms. *)
Definition drop_member (rs : arooms) (i : nat) l a (c : loc) : arooms :=
  <[i := (l, with_members a (remove_member c (ar_members a)))]> rs.

Lemma remove_participant_run w rs (i : nat) l a c y : mem_ok w rs →
  rs !! i = Some (l, a) → w_clients w !! c = Some y →
  ∃ h, remove_participant l c w =
    Some (bool_decide (c ∈ ar_members a), with_room_heap (λ _, h) w) ∧
    mem_ok (with_room_heap (λ _, h) w) (drop_member rs i l a c).
Proof.
  intros Hm Hi Hy. destruct (mem_ok_room _ _ _ _ _ Hm Hi) as (x&Hx&Hxa&Hp&Hn).
  pose proof (mo_distinct _ _ Hm l a ltac:(by eapply list_elem_of_lookup_2)) as Hnd.
  pose proof (ri_max _ _ Hxa) as Hmax.
  unfold remove_participant. rewrite (C_bind_run _ _ _ _ _ (read_room_run _ _ _ Hx)).
  rewrite (ri_members _ _ Hxa), (ri_count _ _ Hxa), Nat2Z.id.
  erewrite C_bind_lift by (by apply find_participant_spec).
  destruct (list_find (.= c) (ar_members a)) as [[j d]|] eqn:Ef; cbn [fmap option_fmap option_map].
  - apply list_find_Some in Ef as (Hj&->&_). cbn [fst]. rewrite Nat.add_0_l.
    pose proof (lookup_lt_Some _ _ _ Hj) as Hlt.
    rewrite (C_bind_run _ _ _ _ _ (read_client_run _ _ _ Hy)).
    unfold drop_participant. rewrite (ri_count _ _ Hxa), (ri_members _ _ Hxa).
    replace (Z.to_nat (Z.of_nat (length (ar_members a)) - 1))
      with (length (ar_members a) - 1)%nat by lia.
    destruct (shift_participants (ar_members a) j ltac:(lia)) as (ps&->&Hl&Hps).
    cbn [mbind option_bind].
    destruct (Nat.ltb_spec (length (ar_members a) - 1) (length ps)); [|lia].
    rewrite Hps. c_steps.
    rewrite (C_bind_run _ _ _ _ _ (write_room_run _ _ _ _ Hx)).
    rewrite bool_decide_true by (by eapply list_elem_of_lookup_2).
    eexists. split; [reflexivity|]. unfold drop_member.
    apply (mem_ok_update _ _ _ _ _ _ _ Hm Hi); [done| | |done|done].
    + cbn. by apply NoDup_filter.
    + rewrite (remove_member_delete c _ j Hnd Hj). 
      destruct Hxa. split; cbn; try done.
      * rewrite length_delete by eauto. lia.
      * rewrite length_delete by eauto. lia.
  - apply list_find_None in Ef. rewrite Forall_forall in Ef.
    assert (c ∉ ar_members a) as Hc by (intros Hin; by apply (Ef _ Hin)).
    rewrite bool_decide_false by done. exists (w_rooms w).
    split; [by destruct w|]. unfold drop_member. rewrite remove_member_absent by done.
    rewrite list_insert_id by (destruct a; done). by destruct w.
Qed.
End removal.

(** ** The room file *)
Section disk.
Context {D : Type} `{RoomStoreLaws D}.
Implicit Types w : world D.

Definition on_disk (d : D) (rs : arooms) : Prop :=
  ∃ recs, store_rep d recs ∧ disk_ok recs rs.

Lemma disk_room recs rs (i : nat) l a : disk_ok recs rs → rs !! i = Some (l, a) →
  ∃ rec, recs !! Z.to_nat (ar_id a) = Some rec ∧ rec_is rec a ∧ wf_room_record rec.
Proof.
  intros Hd Hi. destruct (do_rooms _ _ Hd l a ltac:(by eapply list_elem_of_lookup_2))
    as (rec&Hr&?). exists rec. split_and!; [done..|].
  by apply (Forall_lookup_1 _ _ _ _ (do_wf _ _ Hd) Hr).
Qed.

Lemma put_record_Forall {A} (P : A → Prop) recs (i : nat) r :
  Forall P recs → P r → Forall P (put_record recs i r).
Proof.
  intros Hr Hp. apply Forall_app. split; [by apply Forall_take|].
  constructor; [done|by apply Forall_drop].
Qed.

(** The ids of the rooms: distinct, and indices of the room file. *)
Definition ids_ok (rs : arooms) : Prop :=
  NoDup (ar_id ∘ snd <$> rs) ∧ Forall (λ id, 0 ≤ id < MAX_ROOMS) (ar_id ∘ snd <$> rs).

Lemma ids_ok_bound rs (i : nat) l a : ids_ok rs → rs !! i = Some (l, a) →
  0 ≤ ar_id a < MAX_ROOMS.
Proof.
  intros [_ Hb] Hi. rewrite Forall_lookup in Hb. apply (Hb i).
  by rewrite list_lookup_fmap, Hi.
Qed.

Lemma mem_ids w rs : mem_ok w rs → ids_ok rs.
Proof.
  intros Hm. split; [apply Hm|]. apply Forall_fmap, Forall_forall. intros [l a] Hin.
  by apply (mo_bound _ _ Hm l a).
Qed.

(** Two rooms of the list with the same file index are the same. *)
Lemma same_index rs (i j : nat) l a k b : ids_ok rs →
  rs !! i = Some (l, a) → rs !! j = Some (k, b) →
  Z.to_nat (ar_id a) = Z.to_nat (ar_id b) → i = j.
Proof.
  intros Hm Hi Hj E. eapply (same_id_index ar_id); [apply Hm|done..|].
  pose proof (ids_ok_bound _ _ _ _ Hm Hi). pose proof (ids_ok_bound _ _ _ _ Hm Hj). lia.
Qed.

Lemma db_write_run w recs id rec : store_rep (w_disk w) recs →
  0 ≤ id ≤ Z.of_nat (length recs) → wf_room_record rec →
  ∃ d, db_write id rec w = Some (true, with_disk d w) ∧
       store_rep d (put_record recs (Z.to_nat id) rec).
Proof.
  intros Hrep Hid Hwf. unfold db_write.
  destruct (store_write_law _ _ _ _ Hrep Hid Hwf) as (d&->&Hrep'). by exists d.
Qed.

(** A new record for a room that has other members. *)
Lemma record_write_run w rs (i : nat) l a a' rec : ids_ok rs →
  on_disk (w_disk w) rs → rs !! i = Some (l, a) → same_room a a' →
  rec_is rec a' → wf_room_record rec →
  ∃ d, db_write (ar_id a) rec w = Some (true, with_disk d w) ∧
       on_disk d (<[i := (l, a')]> rs).
Proof.
  intros Hm (recs&Hrep&Hd) Hi Hsame Hrec Hwf.
  pose proof (ids_ok_bound _ _ _ _ Hm Hi) as Hb.
  destruct (disk_room _ _ _ _ _ Hd Hi) as (rec0&Hr&_).
  pose proof (lookup_lt_Some _ _ _ Hr) as Hlt.
  destruct (db_write_run w recs (ar_id a) rec Hrep ltac:(lia) Hwf) as (d&Hw&Hrep').
  exists d. split; [done|]. eexists. split; [done|]. destruct Hsame as (E1&E2&E3). split.
  - by apply put_record_Forall; [apply Hd|].
  - intros k b Hk. apply list_elem_of_lookup in Hk as [j Hj].
    rewrite put_record_lookup by lia.
    apply list_lookup_insert_Some in Hj as [(<-&[= <- <-]&_)|[Hij Hj]].
    + rewrite E1, decide_True by done. by eexists.
    + rewrite decide_False.
      2: { intros E. apply Hij. by eapply (same_index rs i j). }
      by apply (do_rooms _ _ Hd k b), (list_elem_of_lookup_2 _ j).
  - intros j r Hj Hact. rewrite put_record_lookup in Hj by lia. case_decide as E.
    + exists l, a'. split; [|lia]. apply (list_elem_of_lookup_2 _ i).
      by rewrite list_lookup_insert_eq by (by eapply lookup_lt_Some).
    + destruct (do_active _ _ Hd j r Hj Hact) as (k&b&Hk&Eb).
      exists k, b. split; [|done]. apply list_elem_of_lookup in Hk as [m Hm'].
      apply (list_elem_of_lookup_2 _ m). rewrite list_lookup_insert_ne; [done|].
      intros <-. simplify_eq. lia.
Qed.

(** The record with another number of users. *)
Lemma rec_with_count rec a a' : rec_is rec a → wf_room_record rec → same_room a a' →
  (length (ar_members a') ≤ 50)%nat →
  rec_is (rr_with_count rec (Z.of_nat (length (ar_members a')))) a' ∧
  wf_room_record (rr_with_count rec (Z.of_nat (length (ar_members a')))).
Proof.
  intros [] [] (E1&E2&E3) Hl. split; split; cbn; rewrite ?E1, ?E2, ?E3; try done; int_lia.
Qed.

(** The record that is read for a room. *)
Lemma record_read_run w rs (i : nat) l a : ids_ok rs →
  on_disk (w_disk w) rs → rs !! i = Some (l, a) →
  ∃ rec, store_read_raw (w_disk w) (ar_id a) = Some rec ∧ rec_is rec a ∧ wf_room_record rec.
Proof.
  intros Hm (recs&Hrep&Hd) Hi. pose proof (ids_ok_bound _ _ _ _ Hm Hi) as Hb.
  destruct (disk_room _ _ _ _ _ Hd Hi) as (rec&Hr&?). exists rec.
  by rewrite (store_read_raw_law _ _ _ Hrep), Hr by lia.
Qed.

(** The new number of users reaches the disk. *)
Lemma store_user_count_run w rs (i : nat) l a a' : ids_ok rs →
  on_disk (w_disk w) rs → rs !! i = Some (l, a) → same_room a a' →
  (length (ar_members a') ≤ 50)%nat →
  ∃ d, store_user_count (ar_id a) (Z.of_nat (length (ar_members a'))) w =
         Some (tt, with_disk d w) ∧ on_disk d (<[i := (l, a')]> rs).
Proof.
  intros Hm Hd Hi Hsame Hlen.
  destruct (record_read_run w rs i l a Hm Hd Hi) as (rec&Hr&Hrec&Hwf).
  destruct (rec_with_count rec a a' Hrec Hwf Hsame Hlen) as [Hrec' Hwf'].
  destruct (record_write_run w rs i l a a' _ Hm Hd Hi Hsame Hrec' Hwf') as (d&Hw&Hd').
  exists d. unfold store_user_count. rewrite C_bind_gets, Hr.
  by rewrite (C_bind_run _ _ _ _ _ Hw).
Qed.

Lemma unlinked_on_disk w rs (i : nat) l a : ids_ok rs →
  on_disk (w_disk w) rs → rs !! i = Some (l, a) → ∃ rec d,
    store_read (w_disk w) (ar_id a) = Some rec ∧
    (∀ w', w_disk w' = w_disk w → db_write (ar_id a) (rr_with_active rec 0) w' =
       Some (true, with_disk d w')) ∧ on_disk d (delete i rs).
Proof.
  intros Hm (recs&Hrep&Hd) Hi.
  pose proof (ids_ok_bound _ _ _ _ Hm Hi) as Hb.
  destruct (disk_room _ _ _ _ _ Hd Hi) as (rec&Hr&Hrec&Hwf).
  pose proof (lookup_lt_Some _ _ _ Hr) as Hlt.
  assert (wf_room_record (rr_with_active rec 0)) as Hwf'
    by (destruct Hwf; split; cbn; try done; int_lia).
  destruct (store_write_law _ _ (ar_id a) _ Hrep ltac:(lia) Hwf') as (d&Hw&Hrep').
  exists rec, d. split_and!.
  - rewrite (store_read_law _ _ _ Hrep), Hr by lia. cbn. by rewrite (rc_active _ _ Hrec).
  - intros w' E. unfold db_write. by rewrite E, Hw.
  - eexists. split; [done|]. split.
    + by apply put_record_Forall; [apply Hd|].
    + intros k b (j&Hij&Hj)%delete_elem. rewrite put_record_lookup by lia.
      rewrite decide_False by (intros E; apply Hij; by eapply (same_index rs j i)).
      by apply (do_rooms _ _ Hd k b), (list_elem_of_lookup_2 _ j).
    + intros j r Hj Hact. rewrite put_record_lookup in Hj by lia.
      case_decide as E; [by simplify_eq|].
      destruct (do_active _ _ Hd j r Hj Hact) as (k&b&Hk&Eb).
      apply list_elem_of_lookup in Hk as [m Hm'].
      exists k, b. split; [|done]. apply (elem_delete _ i m); [done|].
      intros ->. simplify_eq. lia.
Qed.
End disk.

(** ** Deletion *)
Record rooms_ok {D} `{RoomStoreLaws D} (w : world D) (rs : arooms) : Prop := {
  ok_mem : mem_ok w rs;
  ok_disk : on_disk (w_disk w) rs
}.

(** Nothing but the rooms, the list and the disk changes. *)
Definition same_outside {D} (w w' : world D) : Prop :=
  w_clients w' = w_clients w ∧ w_malloc w' = w_malloc w ∧ w_junk w' = w_junk w.

Section deletion.
Context {D : Type} `{RoomStoreLaws D}.
Implicit Types w : world D.

Lemma mem_ok_disk w rs d : mem_ok w rs → mem_ok (with_disk d w) rs.
Proof. by intros []. Qed.
Lemma mem_ok_clients w rs f : mem_ok w rs → mem_ok (with_client_heap f w) rs.
Proof. by intros []. Qed.

Lemma room_delete_run w rs (i : nat) l a : rooms_ok w rs → rs !! i = Some (l, a) →
  ∃ w', room_delete (ar_id a) w = Some (1, w') ∧ rooms_ok w' (delete i rs) ∧
        same_outside w w'.
Proof.
  intros [Hm Hd] Hi. unfold room_delete.
  rewrite (C_bind_run _ _ _ _ _ (room_find_by_id_run _ _ _ Hm)).
  rewrite (first_room_id _ _ _ _ _ Hm Hi). cbn [fmap option_fmap option_map fst].
  rewrite (C_bind_run _ _ _ _ _ (unlink_room_run _ _ _ _ _ (mo_dll _ _ Hm) Hi)). c_steps.
  destruct (unlinked_on_disk _ _ _ _ _ (mem_ids _ _ Hm) Hd Hi) as (rec&d&Hr&Hw&Hd').
  cbn [w_disk with_room_count with_room_head with_room_heap]. rewrite Hr.
  rewrite C_bind_assoc. erewrite C_bind_run by (apply Hw; reflexivity). c_steps.
  pose proof (mem_ok_unlink _ _ _ _ _ Hm Hi) as Hm'.
  destruct (mem_ok_room _ _ _ _ _ Hm Hi) as (x&Hx&_).
  assert (is_Some (unlinked (w_rooms w) rs i !! l)) as [x' Hx']
    by (rewrite unlinked_lookup, Hx; eauto).
  erewrite C_bind_run by (unfold free_room; cbn; rewrite Hx'; reflexivity).
  eexists. split; [reflexivity|]. split; [|done]. split; [|done].
  destruct Hm'. by split.
Qed.

Lemma room_delete_absent w rs id : mem_ok w rs → (∀ l a, (l, a) ∈ rs → ar_id a ≠ id) →
  room_delete id w = Some (0, w).
Proof.
  intros Hm Hid. unfold room_delete.
  rewrite (C_bind_run _ _ _ _ _ (room_find_by_id_run _ _ _ Hm)).
  destruct (first_room _ _) as [[l a]|] eqn:E; [|done].
  apply first_room_Some in E as [[i Hi] E%Z.eqb_eq].
  by destruct (Hid l a ltac:(by eapply list_elem_of_lookup_2)).
Qed.

(** After a removal the list loses the room when nobody is left in it. *)
Definition settle (rs : arooms) (i : nat) : arooms :=
  match rs !! i with
  | Some (_, a) => if bool_decide (ar_members a = []) then delete i rs else rs
  | None => rs
  end.

(** The memory already has the new members, the disk still the old count. *)
Lemma after_removal_run w rs (i : nat) l a a' : mem_ok w (<[i := (l, a')]> rs) →
  on_disk (w_disk w) rs → rs !! i = Some (l, a) → same_room a a' →
  ∃ w', after_removal l w = Some (tt, w') ∧ same_outside w w' ∧
        rooms_ok w' (settle (<[i := (l, a')]> rs) i).
Proof.
  intros Hm Hd Hi Hsame.
  assert (<[i := (l, a')]> rs !! i = Some (l, a')) as Hi'
    by (by rewrite list_lookup_insert_eq by (by eapply lookup_lt_Some)).
  destruct (mem_ok_room _ _ _ _ _ Hm Hi') as (x&Hx&Hxa&_).
  unfold after_removal. rewrite (C_bind_run _ _ _ _ _ (read_room_run _ _ _ Hx)).
  rewrite (ri_id _ _ Hxa), (ri_count _ _ Hxa).
  assert (ids_ok rs) as Hids.
  { pose proof (mem_ids _ _ Hm) as Hids. unfold ids_ok in *.
    by rewrite (key_insert _ _ _ _ _ _ Hi) in Hids by apply Hsame. }
  destruct (store_user_count_run w rs i l a a' Hids Hd Hi Hsame (ri_max _ _ Hxa))
    as (d&Hrun&Hd').
  rewrite <-(proj1 Hsame) in Hrun. rewrite (C_bind_run _ _ _ _ _ Hrun).
  unfold settle. rewrite Hi'.
  assert (rooms_ok (with_disk d w) (<[i := (l, a')]> rs)) as Hok
    by (split; [by apply mem_ok_disk|done]).
  case_bool_decide as Hempty.
  - rewrite Hempty. change (Z.of_nat (length []) =? 0) with true. cbn iota.
    destruct (room_delete_run _ _ _ _ _ Hok Hi') as (w'&Hdel&Hok'&Hout).
    rewrite (C_bind_run _ _ _ _ _ Hdel). by exists w'.
  - destruct (Z.eqb_spec (Z.of_nat (length (ar_members a'))) 0).
    { destruct (ar_members a'); [done|cbn in *; lia]. }
    by exists (with_disk d w).
Qed.
End deletion.
