(* ===== verification/Rooms.v ===== *)
(** * What the room manager promises

    [RoomSpec] is the abstract machine: a list of rooms in order of creation,
    each with its members.  The theorems say that the operations of
    [room_manager.c] implement it: on every state of the invariant they are
    defined, return the code of the specification and establish the invariant
    for its new list. *)
From S2P Require Import Prelude CInt CString Protocol Posix RoomStore FileDb World RoomManager RoomInv RoomState.
#[local] Open Scope Z_scope.

Module RoomSpec.
(** The room [c] is in. *)
Definition room_of (rs : arooms) (c : loc) : option (nat * (loc * aroom)) :=
  list_find (λ la, c ∈ ar_members la.2) rs.

(** Leave the room, which disappears with its last member. *)
Definition leave (rs : arooms) (c : loc) : arooms :=
  match room_of rs c with
  | Some (i, (l, a)) => settle (drop_member rs i l a c) i
  | None => rs
  end.

Definition add_member (a : aroom) (c : loc) : aroom :=
  with_members a (ar_members a ++ [c]).

(** Leave, then enter the room with that id: the result code, and the list. *)
Definition join (rs : arooms) (room_id : Z) (password : bytes) (c : loc) : Z * arooms :=
  let rs' := leave rs c in
  match list_find (λ la, ar_id la.2 = room_id) rs' with
  | None => (-2, rs')
  | Some (i, (l, a)) =>
    if bool_decide (ar_password a ≠ [] ∧ ar_password a ≠ c_str password) then (-3, rs')
    else if bool_decide (50 ≤ length (ar_members a))%nat then (-4, rs')
    else (0, <[i := (l, add_member a c)]> rs')
  end.

(** The room the client is in afterwards. *)
Definition entered (rs : arooms) (room_id : Z) (password : bytes) (c : loc) : option loc :=
  if (join rs room_id password c).1 =? 0
  then fst <$> first_room (λ a, ar_id a =? room_id) (leave rs c) else None.
End RoomSpec.

Definition room_state {D} `{RoomStoreLaws D} (w : world D) (rs : arooms) : Prop :=
  rooms_ok w rs ∧ members_ok (w_clients w) rs.

(** ** Elements of the changed lists *)
Lemma elem_index (rs : arooms) la : la ∈ rs ↔ ∃ i : nat, rs !! i = Some la.
Proof. apply list_elem_of_lookup. Qed.

Lemma drop_member_elem rs (i : nat) l a c k b : NoDup rs.*1 → rs !! i = Some (l, a) →
  (k, b) ∈ drop_member rs i l a c ↔
  (k ≠ l ∧ (k, b) ∈ rs) ∨ (k = l ∧ b = with_members a (remove_member c (ar_members a))).
Proof.
  intros Hn Hi. unfold drop_member. rewrite !elem_index. split.
  - intros [j Hj]. apply list_lookup_insert_Some in Hj as [(_&[= -> ->]&_)|[Hij Hj]]; [by right|].
    left. split; [|by exists j]. intros ->. apply Hij. by eapply rooms_index_inj.
  - intros [[Hk [j Hj]]|[-> ->]].
    + exists j. rewrite list_lookup_insert_ne; [done|]. intros ->. congruence.
    + exists i. by rewrite list_lookup_insert_eq by (by eapply lookup_lt_Some).
Qed.

Lemma settle_elem rs (i : nat) l a k b : NoDup rs.*1 → rs !! i = Some (l, a) →
  (k, b) ∈ settle rs i ↔ (k, b) ∈ rs ∧ (k = l → ar_members b ≠ []).
Proof.
  intros Hn Hi. unfold settle. rewrite Hi. case_bool_decide as Ha.
  - split.
    + intros (j&Hij&Hj)%delete_elem. split; [by eapply list_elem_of_lookup_2|].
      intros ->. destruct Hij. by eapply rooms_index_inj.
    + intros [[j Hj]%elem_index Hb]. apply (elem_delete _ i j); [done|].
      intros ->. simplify_eq. by apply Hb.
  - split; [|tauto]. intros Hin. split; [done|]. intros ->.
    apply elem_index in Hin as [j Hj]. assert (j = i) as -> by (by eapply rooms_index_inj).
    congruence.
Qed.

Lemma drop_member_locs rs (i : nat) l a c : rs !! i = Some (l, a) →
  (drop_member rs i l a c).*1 = rs.*1.
Proof. apply fst_insert. Qed.

Lemma leave_elem rs (i : nat) l a c k b : NoDup rs.*1 → rs !! i = Some (l, a) →
  (k, b) ∈ settle (drop_member rs i l a c) i ↔
  (k ≠ l ∧ (k, b) ∈ rs) ∨
  (k = l ∧ b = with_members a (remove_member c (ar_members a)) ∧
   remove_member c (ar_members a) ≠ []).
Proof.
  intros Hn Hi. rewrite (settle_elem _ _ l (with_members a (remove_member c (ar_members a)))).
  - rewrite drop_member_elem by done. split.
    + intros [[Hk|[-> ->]] Hne]; [by left|right]. split_and!; [done..|]. by apply Hne.
    + intros [[Hk Hin]|(->&->&Hne)]; (split; [|done]); [by left|by right].
  - by rewrite drop_member_locs.
  - unfold drop_member. by rewrite list_lookup_insert_eq by (by eapply lookup_lt_Some).
Qed.

(** ** Membership *)
Lemma members_unique cs rs c k b l a : members_ok cs rs →
  (k, b) ∈ rs → c ∈ ar_members b → (l, a) ∈ rs → c ∈ ar_members a → k = l.
Proof.
  intros Hm Hk Hc Hl Hc'. destruct (me_client _ _ Hm k b c Hk Hc) as (y&?&_&?).
  destruct (me_client _ _ Hm l a c Hl Hc') as (y'&?&_&?). congruence.
Qed.

Lemma room_of_spec cs rs (i : nat) l a c : members_ok cs rs → NoDup rs.*1 →
  rs !! i = Some (l, a) → c ∈ ar_members a → RoomSpec.room_of rs c = Some (i, (l, a)).
Proof.
  intros Hm Hn Hi Hc. apply list_find_Some. split_and!; [done..|].
  intros j [k b] Hj Hlt Hb. cbn in Hb.
  pose proof (list_elem_of_lookup_2 _ _ _ Hi). pose proof (list_elem_of_lookup_2 _ _ _ Hj).
  assert (k = l) as -> by (by eapply (members_unique cs rs c k b l a)).
  assert (i = j) by (by eapply (rooms_index_inj rs i j l a b)). lia.
Qed.

Lemma room_of_none rs c : (∀ l a, (l, a) ∈ rs → c ∉ ar_members a) →
  RoomSpec.room_of rs c = None.
Proof.
  intros H. apply list_find_None, Forall_forall. intros [l a] Hin. by apply (H l a).
Qed.

(** [c] is out of its room: its object says so, or it is not active. *)
Lemma members_leave cs rs (i : nat) l a c y' : members_ok cs rs → NoDup rs.*1 →
  rs !! i = Some (l, a) → c ∈ ar_members a → c_is_active y' = 0 ∨ c_current_room y' = None →
  members_ok (<[c := y']> cs) (settle (drop_member rs i l a c) i).
Proof.
  intros Hm Hn Hi Hc Hy'. pose proof (list_elem_of_lookup_2 _ _ _ Hi) as Hin. split.
  - intros k b d Hk Hd. apply leave_elem in Hk; [|done..].
    assert (d ≠ c ∧ ∃ b', (k, b') ∈ rs ∧ d ∈ ar_members b') as (Hdc&b'&Hb'&Hd').
    { destruct Hk as [[Hk Hkb]|(->&->&_)].
      - split; [|by exists b]. intros ->. apply Hk. by eapply (members_unique cs).
      - apply elem_of_remove_member in Hd as [? ?]. split; [done|]. by exists a. }
    destruct (me_client _ _ Hm k b' d Hb' Hd') as (y&Hy&?). exists y.
    by rewrite lookup_insert_ne.
  - intros d y k Hd Hact Hroom. destruct (decide (d = c)) as [->|Hdc].
    { rewrite lookup_insert_eq in Hd. simplify_eq. destruct Hy'; congruence. }
    rewrite lookup_insert_ne in Hd by done.
    destruct (me_room _ _ Hm d y k Hd Hact Hroom) as (b&Hb&Hdb).
    destruct (decide (k = l)) as [->|Hk].
    + assert (b = a) as ->.
      { apply elem_index in Hb as [j Hj]. assert (j = i) as -> by (by eapply rooms_index_inj).
        congruence. }
      assert (d ∈ remove_member c (ar_members a)) as Hd' by (by apply elem_of_remove_member).
      eexists. split; [apply leave_elem; [done..|]|].
      * right. split; [done|]. split; [done|]. intros E. rewrite E in Hd'. by inv Hd'.
      * done.
    + exists b. split; [|done]. apply leave_elem; [done..|]. by left.
Qed.

(** A client outside every room changes. *)
Lemma members_outside cs rs c y' : members_ok cs rs →
  (∀ l a, (l, a) ∈ rs → c ∉ ar_members a) → c_is_active y' = 0 ∨ c_current_room y' = None →
  members_ok (<[c := y']> cs) rs.
Proof.
  intros Hm Hc Hy'. split.
  - intros l a d Hl Hd. rewrite lookup_insert_ne by (intros ->; by eapply Hc).
    by eapply me_client.
  - intros d y l Hd Hact Hroom. destruct (decide (d = c)) as [->|Hdc].
    + rewrite lookup_insert_eq in Hd. simplify_eq. destruct Hy'; congruence.
    + rewrite lookup_insert_ne in Hd by done. by eapply me_room.
Qed.

(** A client changes in other ways. *)
Lemma members_frame cs rs c y y' : members_ok cs rs → cs !! c = Some y →
  c_is_active y' = c_is_active y → c_current_room y' = c_current_room y →
  members_ok (<[c := y']> cs) rs.
Proof.
  intros Hm Hy Ha Hr. split.
  - intros l a d Hl Hd. destruct (me_client _ _ Hm l a d Hl Hd) as (z&Hz&?&?).
    destruct (decide (d = c)) as [->|Hdc].
    + rewrite lookup_insert_eq. exists y'. simplify_eq. split_and!; [done|congruence..].
    + rewrite lookup_insert_ne by done. by exists z.
  - intros d z l Hd Hact Hroom. destruct (decide (d = c)) as [->|Hdc].
    + rewrite lookup_insert_eq in Hd. simplify_eq.
      apply (me_room _ _ Hm c y l); congruence.
    + rewrite lookup_insert_ne in Hd by done. by eapply me_room.
Qed.

(** ** Leaving *)
Section leave.
Context {D : Type} `{RoomStoreLaws D}.
Implicit Types w : world D.

Lemma rooms_locs w rs : rooms_ok w rs → NoDup rs.*1.
Proof. intros [Hm _]. apply (dll_nodup _ _ _ (mo_dll _ _ Hm)). Qed.

Lemma rooms_ok_clients w rs f : rooms_ok w rs → rooms_ok (with_client_heap f w) rs.
Proof. intros [Hm Hd]. split; [by apply mem_ok_clients|done]. Qed.

Lemma same_outside_trans w1 w2 w3 : same_outside w1 w2 → same_outside w2 w3 →
  same_outside w1 w3.
Proof. intros (?&?&?) (?&?&?). unfold same_outside. split_and!; congruence. Qed.

(** The participants of a room and the disk, [c] taken out. *)
Lemma remove_then_settle w rs (i : nat) l a c y : rooms_ok w rs →
  rs !! i = Some (l, a) → w_clients w !! c = Some y → ∃ w1,
  remove_participant l c w = Some (bool_decide (c ∈ ar_members a), w1) ∧
  same_outside w w1 ∧ ∀ f, ∃ w2, after_removal l (with_client_heap f w1) = Some (tt, w2) ∧
    same_outside (with_client_heap f w1) w2 ∧
    rooms_ok w2 (settle (drop_member rs i l a c) i).
Proof.
  intros [Hm Hd] Hi Hy.
  destruct (remove_participant_run w rs i l a c y Hm Hi Hy) as (h&Hrun&Hm1).
  eexists. split; [exact Hrun|]. split; [done|]. intros f.
  eapply after_removal_run; [by apply mem_ok_clients|exact Hd|done|done].
Qed.

Lemma room_leave_run w rs c y l : room_state w rs → w_clients w !! c = Some y →
  c_is_active y ≠ 0 → c_current_room y = Some l → ∃ w',
  room_leave (Some c) w = Some (0, w') ∧ room_state w' (RoomSpec.leave rs c) ∧
  w_clients w' = <[c := c_with_room y None]> (w_clients w).
Proof.
  intros [Hok Hme] Hy Hact Hroom. pose proof (rooms_locs _ _ Hok) as Hn.
  destruct (me_room _ _ Hme c y l Hy Hact Hroom) as (a&[i Hi]%elem_index&Hc).
  unfold RoomSpec.leave. rewrite (room_of_spec _ _ _ _ _ _ Hme Hn Hi Hc).
  unfold room_leave. rewrite (C_bind_run _ _ _ _ _ (read_client_run _ _ _ Hy)), Hroom.
  destruct (remove_then_settle w rs i l a c y Hok Hi Hy) as (w1&Hrun&Hout&Hrest).
  rewrite (C_bind_run _ _ _ _ _ Hrun). rewrite bool_decide_true by done. unfold when.
  assert (w_clients w1 !! c = Some y) as Hy1 by (by rewrite (proj1 Hout)).
  unfold set_current_room. rewrite C_bind_assoc.
  rewrite (C_bind_run _ _ _ _ _ (read_client_run _ _ _ Hy1)).
  rewrite (C_bind_run _ _ _ _ _ (write_client_run _ _ _ _ Hy1)).
  destruct (Hrest (<[c := c_with_room y None]>)) as (w2&Hrun2&Hout2&Hok2).
  rewrite (C_bind_run _ _ _ _ _ Hrun2). exists w2. split; [done|].
  assert (w_clients w2 = <[c := c_with_room y None]> (w_clients w)) as Ec.
  { rewrite (proj1 Hout2). cbn. by rewrite (proj1 Hout). }
  split; [|done]. split; [done|]. rewrite Ec.
  eapply members_leave; eauto.
Qed.

Lemma remove_client_run w rs c y l : room_state w rs → w_clients w !! c = Some y →
  c_is_active y ≠ 0 → c_current_room y = Some l → ∃ w',
  remove_client_from_room (Some l) (Some c) w = Some (tt, w') ∧
  rooms_ok w' (RoomSpec.leave rs c) ∧ w_clients w' = w_clients w ∧
  ∀ y', c_is_active y' = 0 ∨ c_current_room y' = None →
    members_ok (<[c := y']> (w_clients w)) (RoomSpec.leave rs c).
Proof.
  intros [Hok Hme] Hy Hact Hroom. pose proof (rooms_locs _ _ Hok) as Hn.
  destruct (me_room _ _ Hme c y l Hy Hact Hroom) as (a&[i Hi]%elem_index&Hc).
  unfold RoomSpec.leave. rewrite (room_of_spec _ _ _ _ _ _ Hme Hn Hi Hc).
  destruct (remove_then_settle w rs i l a c y Hok Hi Hy) as (w1&Hrun&Hout&Hrest).
  unfold remove_client_from_room. rewrite (C_bind_run _ _ _ _ _ Hrun).
  destruct (Hrest (λ m, m)) as (w2&Hrun2&Hout2&Hok2).
  assert (with_client_heap (λ m, m) w1 = w1) as E by (by destruct w1).
  rewrite E in Hrun2, Hout2. exists w2. split; [done|]. split; [done|].
  split; [|intros y' Hy'; by eapply members_leave].
  by rewrite (proj1 Hout2), (proj1 Hout).
Qed.
End leave.

(** ** Joining *)
Lemma participants_snoc ms c : (length ms < 50)%nat →
  <[length ms := Some c]> (participants_of ms) = participants_of (ms ++ [c]).
Proof.
  intros Hl. unfold participants_of. rewrite fmap_app, length_app. cbn [length fmap list_fmap].
  rewrite <-(length_fmap Some ms) at 1.
  rewrite <-(Nat.add_0_r (length (Some <$> ms))), insert_app_r.
  rewrite <-app_assoc. f_equal.
  replace (50 - length ms)%nat with (S (50 - (length ms + 1))) by lia. done.
Qed.

Lemma no_room_outside cs rs c y l a : members_ok cs rs → cs !! c = Some y →
  c_current_room y = None → (l, a) ∈ rs → c ∉ ar_members a.
Proof.
  intros Hm Hy Hr Hl Hc. destruct (me_client _ _ Hm l a c Hl Hc) as (z&?&_&?). congruence.
Qed.

Lemma members_join cs rs (i : nat) l a c y : members_ok cs rs → NoDup rs.*1 →
  rs !! i = Some (l, a) → cs !! c = Some y → c_is_active y ≠ 0 → c_current_room y = None →
  members_ok (<[c := c_with_room y (Some l)]> cs) (<[i := (l, RoomSpec.add_member a c)]> rs).
Proof.
  intros Hm Hn Hi Hy Hact Hr. pose proof (list_elem_of_lookup_2 _ _ _ Hi) as Hin.
  assert (∀ k b, (k, b) ∈ <[i := (l, RoomSpec.add_member a c)]> rs ↔
    (k ≠ l ∧ (k, b) ∈ rs) ∨ (k = l ∧ b = RoomSpec.add_member a c)) as Helem.
  { intros k b. rewrite !elem_index. split.
    - intros [j Hj]. apply list_lookup_insert_Some in Hj as [(_&[= -> ->]&_)|[Hij Hj]];
        [by right|]. left. split; [|by exists j]. intros ->. apply Hij.
      by eapply rooms_index_inj.
    - intros [[Hk [j Hj]]|[-> ->]].
      + exists j. rewrite list_lookup_insert_ne; [done|]. intros ->. congruence.
      + exists i. by rewrite list_lookup_insert_eq by (by eapply lookup_lt_Some). }
  split.
  - intros k b d Hk Hd. apply Helem in Hk as [[Hk Hkb]|[-> ->]].
    + rewrite lookup_insert_ne; [by eapply me_client|].
      intros <-. by eapply (no_room_outside cs rs c).
    + apply elem_of_app in Hd as [Hd| ->%list_elem_of_singleton].
      * rewrite lookup_insert_ne; [by eapply me_client|].
        intros <-. by eapply (no_room_outside cs rs c).
      * rewrite lookup_insert_eq. by exists (c_with_room y (Some l)).
  - intros d z k Hd Ha Hk. destruct (decide (d = c)) as [->|Hdc].
    + rewrite lookup_insert_eq in Hd. simplify_eq. cbn in Hk. injection Hk as <-.
      exists (RoomSpec.add_member a c). split; [apply Helem; by right|].
      apply elem_of_app. right. by apply list_elem_of_singleton.
    + rewrite lookup_insert_ne in Hd by done.
      destruct (me_room _ _ Hm d z k Hd Ha Hk) as (b&Hb&Hdb).
      destruct (decide (k = l)) as [->|Hkl]; [|exists b; split; [apply Helem; by left|done]].
      apply elem_index in Hb as [j Hj]. assert (j = i) as -> by (by eapply rooms_index_inj).
      simplify_eq. exists (RoomSpec.add_member a c). split; [apply Helem; by right|].
      apply elem_of_app. by left.
Qed.

Section join.
Context {D : Type} `{RoomStoreLaws D}.
Implicit Types w : world D.

Lemma c_with_room_id y : c_with_room y (c_current_room y) = y.
Proof. by destruct y. Qed.
Lemma c_with_room_twice y r r' : c_with_room (c_with_room y r) r' = c_with_room y r'.
Proof. done. Qed.

(** The leave at the start of a join. *)
Lemma join_leaves w rs c y : room_state w rs → w_clients w !! c = Some y →
  c_is_active y ≠ 0 → ∃ w',
  (match c_current_room y with
   | Some _ => _ ← room_leave (Some c); mret tt
   | None => mret tt
   end) w = Some (tt, w') ∧ room_state w' (RoomSpec.leave rs c) ∧
  w_clients w' = <[c := c_with_room y None]> (w_clients w).
Proof.
  intros Hs Hy Hact. destruct (c_current_room y) as [l|] eqn:Er.
  - destruct (room_leave_run w rs c y l Hs Hy Hact Er) as (w'&Hrun&?).
    exists w'. by rewrite (C_bind_run _ _ _ _ _ Hrun).
  - exists w. split; [done|]. rewrite <-Er, c_with_room_id, insert_id by done.
    split; [|done]. unfold RoomSpec.leave. rewrite room_of_none; [done|].
    intros l a. by eapply (no_room_outside (w_clients w)); [apply Hs|..].
Qed.

Lemma add_participant_is x a c : room_is x a → (length (ar_members a) < 50)%nat →
  ∃ x', add_participant x c = Some x' ∧ room_is x' (RoomSpec.add_member a c) ∧
        r_prev x' = r_prev x ∧ r_next x' = r_next x.
Proof.
  intros Hx Hl. unfold add_participant. rewrite (ri_count _ _ Hx), (ri_members _ _ Hx), Nat2Z.id.
  rewrite length_participants by lia.
  destruct (Nat.ltb_spec (length (ar_members a)) 50); [|lia].
  rewrite participants_snoc by done. eexists. split; [done|]. split; [|done].
  destruct Hx. split; cbn; try done; rewrite length_app; cbn; lia.
Qed.

(** The member and its [current_room]. *)
Lemma enter_memory w rs (i : nat) l a c y x : mem_ok w rs → members_ok (w_clients w) rs →
  rs !! i = Some (l, a) → w_rooms w !! l = Some x → room_is x a →
  r_prev x = prev_of rs i → r_next x = next_of rs i →
  w_clients w !! c = Some y → c_is_active y ≠ 0 → c_current_room y = None →
  (length (ar_members a) < 50)%nat → ∃ x' w',
  add_participant x c = Some x' ∧ room_is x' (RoomSpec.add_member a c) ∧
  w_disk w' = w_disk w ∧
  (∀ B (k : C (world D) B), (_ ← write_room l x'; _ ← set_current_room c (Some l); k) w = k w') ∧
  mem_ok w' (<[i := (l, RoomSpec.add_member a c)]> rs) ∧
  members_ok (w_clients w') (<[i := (l, RoomSpec.add_member a c)]> rs) ∧
  w_clients w' = <[c := c_with_room y (Some l)]> (w_clients w).
Proof.
  intros Hm Hme Hi Hx Hxa Hp Hn Hy Hact Hr Hlen.
  destruct (add_participant_is x a c Hxa Hlen) as (x'&Hx'&Hxa'&Hp'&Hn').
  pose proof (list_elem_of_lookup_2 _ _ _ Hi) as Hin.
  exists x', (with_client_heap <[c := c_with_room y (Some l)]> (with_room_heap <[l := x']> w)).
  split_and!; [done..| | | |done].
  - intros B k. rewrite (C_bind_run _ _ _ _ _ (write_room_run _ _ _ _ Hx)).
    unfold set_current_room. rewrite C_bind_assoc.
    erewrite C_bind_run by (apply read_client_run; exact Hy).
    erewrite C_bind_run by (eapply write_client_run; exact Hy). done.
  - apply mem_ok_clients.
    eapply mem_ok_update; [done|done|done| |done|congruence..].
    apply NoDup_app. split_and!; [by apply (mo_distinct _ _ Hm l)| |apply NoDup_singleton].
    intros k Hk ->%list_elem_of_singleton. by eapply (no_room_outside (w_clients w) rs c y).
  - cbn. eapply members_join; try done. apply (dll_nodup _ _ _ (mo_dll _ _ Hm)).
Qed.

(** The admission: the member, its [current_room], the disk. *)
Lemma enter_run w rs (i : nat) l a c y x : room_state w rs → rs !! i = Some (l, a) →
  w_rooms w !! l = Some x → room_is x a →
  r_prev x = prev_of rs i → r_next x = next_of rs i →
  w_clients w !! c = Some y → c_is_active y ≠ 0 → c_current_room y = None →
  (length (ar_members a) < 50)%nat → ∃ w',
  (x' ← lift (add_participant x c);
   _ ← write_room l x';
   _ ← set_current_room c (Some l);
   _ ← store_user_count (ar_id a) (r_participant_count x');
   mret 0) w = Some (0, w') ∧
  room_state w' (<[i := (l, RoomSpec.add_member a c)]> rs) ∧
  w_clients w' = <[c := c_with_room y (Some l)]> (w_clients w).
Proof.
  intros [[Hm Hd] Hme] Hi Hx Hxa Hp Hn Hy Hact Hr Hlen.
  destruct (enter_memory w rs i l a c y x Hm Hme Hi Hx Hxa Hp Hn Hy Hact Hr Hlen)
    as (x'&w1&Hx'&Hxa'&Hd1&Hrun1&Hm1&Hme1&Hc1).
  rewrite Hx'. c_steps. rewrite Hrun1, (ri_count _ _ Hxa').
  destruct (store_user_count_run w1 rs i l a (RoomSpec.add_member a c)) as (d&Hrun&Hd');
    [by eapply mem_ids|by rewrite Hd1|done..|cbn; rewrite length_app; cbn; lia|].
  rewrite (C_bind_run _ _ _ _ _ Hrun). eexists. split; [reflexivity|].
  split; [|done]. split; [split; [|done]|done]. by apply mem_ok_disk.
Qed.

Lemma room_join_run w rs c y room_id password : room_state w rs →
  w_clients w !! c = Some y → c_is_active y ≠ 0 → ∃ w',
  room_join room_id password (Some c) w =
    Some ((RoomSpec.join rs room_id password c).1, w') ∧
  room_state w' (RoomSpec.join rs room_id password c).2 ∧
  w_clients w' = <[c := c_with_room y (RoomSpec.entered rs room_id password c)]> (w_clients w).
Proof.
  intros Hs Hy Hact. unfold room_join.
  rewrite (C_bind_run _ _ _ _ _ (read_client_run _ _ _ Hy)).
  destruct (join_leaves w rs c y Hs Hy Hact) as (w1&Hrun&Hs1&Hc1).
  rewrite (C_bind_run _ _ _ _ _ Hrun). unfold RoomSpec.entered, RoomSpec.join. cbn zeta.
  set (rs1 := RoomSpec.leave rs c) in *. pose proof Hs1 as [[Hm1 Hd1] Hme1].
  rewrite (C_bind_run _ _ _ _ _ (room_find_by_id_run _ _ _ Hm1)).
  destruct (list_find _ rs1) as [[i [l a]]|] eqn:Ef.
  2: { apply list_find_None in Ef. rewrite Forall_forall in Ef.
       destruct (first_room _ rs1) as [[l a]|] eqn:E.
       { apply first_room_Some in E as [[i Hi] E%Z.eqb_eq].
         by destruct (Ef _ (list_elem_of_lookup_2 _ _ _ Hi)). }
       by exists w1. }
  apply list_find_Some in Ef as (Hi&Hid&_). cbn in Hid. subst room_id.
  rewrite !(first_room_id _ _ _ _ _ Hm1 Hi). cbn [fmap option_fmap option_map fst].
  destruct (mem_ok_room _ _ _ _ _ Hm1 Hi) as (x&Hx&Hxa&Hp&Hn).
  rewrite (C_bind_run _ _ _ _ _ (read_room_run _ _ _ Hx)).
  unfold strlen, strcmp_eq. rewrite (ri_password _ _ Hxa), (ri_count _ _ Hxa).
  unfold MAX_CLIENTS. 
  assert ((0 <? length (ar_password a))%nat && negb (bool_decide (ar_password a = c_str password))
    = bool_decide (ar_password a ≠ [] ∧ ar_password a ≠ c_str password)) as ->.
  { rewrite bool_decide_and, !bool_decide_not. f_equal.
    destruct (ar_password a); [done|]. by rewrite bool_decide_false. }
  case_bool_decide; [by exists w1|].
  destruct (Z.leb_spec 50 (Z.of_nat (length (ar_members a)))), (bool_decide_reflect
    (50 ≤ length (ar_members a))%nat); try lia; [by exists w1|].
  destruct (enter_run w1 rs1 i l a c (c_with_room y None) x Hs1 Hi Hx Hxa Hp Hn)
    as (w2&Hrun2&Hs2&Hc2); [by rewrite Hc1, lookup_insert_eq|done|done|lia|].
  exists w2. split; [exact Hrun2|]. split; [done|].
  rewrite Hc2, Hc1, insert_insert_eq. done.
Qed.
End join.

(** ** Creating *)
Section create.
Context {D : Type} `{RoomStoreLaws D}.
Implicit Types w : world D.

(** The next free id: below the limit, and no room has it. *)
Lemma next_id_fresh recs rs : disk_ok recs rs → ids_ok rs →
  0 ≤ first_free recs 0 ≤ Z.of_nat (length recs) ∧
  first_free recs 0 ≤ Z.of_nat (length rs) ∧
  ∀ l a, (l, a) ∈ rs → ar_id a ≠ first_free recs 0.
Proof.
  intros Hd Hids. destruct (first_free_spec recs 0) as (Hr&Hbelow&Hat).
  rewrite !Z.sub_0_r in *. rewrite Z.add_0_l in Hr. split_and!; [lia..| |].
  - assert ((Z.of_nat <$> seq 0 (Z.to_nat (first_free recs 0))) ⊆+ (ar_id ∘ snd <$> rs)) as Hsub.
    { apply NoDup_submseteq; [apply NoDup_fmap_2; [apply _|apply NoDup_seq]|].
      intros z (i&->&Hi%elem_of_seq)%list_elem_of_fmap.
      destruct (lookup_lt_is_Some_2 recs i ltac:(lia)) as [rec Hrec].
      destruct (do_active _ _ Hd i rec Hrec) as (l&a&Hin&Ea).
      { eapply Hbelow; [done|lia]. }
      apply list_elem_of_fmap. by exists (l, a). }
    apply submseteq_length in Hsub. rewrite !length_fmap, length_seq in Hsub. lia.
  - intros l a Hin E. destruct (do_rooms _ _ Hd l a Hin) as (rec&Hrec&Hr').
    rewrite E in Hrec. apply Hat in Hrec. rewrite (rc_active _ _ Hr') in Hrec. done.
Qed.

Definition new_room (id : Z) (name password : bytes) : aroom :=
  ARoom id (c_str name) (c_str password) [].

Lemma disk_append recs rs l id name password r : disk_ok recs rs → ids_ok rs →
  id = first_free recs 0 → wf_room_record r → rec_is r (new_room id name password) →
  disk_ok (put_record recs (Z.to_nat id) r) (rs ++ [(l, new_room id name password)]).
Proof.
  intros Hd Hids -> Hwf Hr. destruct (next_id_fresh _ _ Hd Hids) as (Hb&Hle&Hfresh). split.
  - by apply put_record_Forall; [apply Hd|].
  - intros k b [Hk|Hk%list_elem_of_singleton]%elem_of_app.
    + rewrite put_record_lookup by lia. rewrite decide_False; [by apply (do_rooms _ _ Hd k)|].
      intros E. apply (Hfresh k b Hk). apply elem_index in Hk as [j Hj].
      pose proof (ids_ok_bound _ _ _ _ Hids Hj). lia.
    + injection Hk as -> ->. cbn. rewrite put_record_lookup, decide_True by lia. by exists r.
  - intros j rec Hj Hact. rewrite put_record_lookup in Hj by lia. case_decide as E.
    + eexists _, _. split; [apply elem_of_app; right; by apply list_elem_of_singleton|].
      cbn. lia.
    + destruct (do_active _ _ Hd j rec Hj Hact) as (k&b&Hk&Eb).
      exists k, b. split; [apply elem_of_app; by left|done].
Qed.

Lemma mem_append w rs l x a h head : mem_ok w rs →
  dll h head (rs ++ [(l, a)]) → dom h = dom (<[l := x]> (w_rooms w)) →
  (length rs < 32)%nat → 0 ≤ ar_id a < MAX_ROOMS → ar_members a = [] →
  (∀ k b, (k, b) ∈ rs → ar_id b ≠ ar_id a ∧ ar_name b ≠ ar_name a) →
  ∀ w', w_rooms w' = h → w_room_head w' = head →
    w_room_count w' = w_room_count w + 1 → w_junk w' = w_junk w →
    mem_ok w' (rs ++ [(l, a)]).
Proof.
  intros [Hd Hdom Hc Hm Hids Hnames Hb Hms Hj] Hd' Hdom' Hlt Hida Hmem Hnew w' <- <- Hc' Hj'.
  split.
  - done.
  - rewrite Hdom', dom_insert_L, Hdom, fmap_app, list_to_set_app_L. cbn.
    by rewrite (right_id_L ∅ (∪)), (comm_L (∪)).
  - rewrite Hc', Hc, length_app. cbn. lia.
  - rewrite length_app. cbn. lia.
  - rewrite fmap_app. apply NoDup_app. split_and!; [done| |apply NoDup_singleton].
    intros z (kb&->&Hin)%list_elem_of_fmap E%list_elem_of_singleton. destruct kb as [k b].
    by destruct (Hnew k b Hin).
  - rewrite fmap_app. apply NoDup_app. split_and!; [done| |apply NoDup_singleton].
    intros z (kb&->&Hin)%list_elem_of_fmap E%list_elem_of_singleton. destruct kb as [k b].
    by destruct (Hnew k b Hin).
  - intros k b [Hin|[= -> ->]%list_elem_of_singleton]%elem_of_app; [by eapply Hb|done].
  - intros k b [Hin|[= -> ->]%list_elem_of_singleton]%elem_of_app; [by eapply Hms|].
    rewrite Hmem. constructor.
  - by rewrite Hj'.
Qed.

Lemma new_room_is id name password : (strlen name < 32)%nat → (strlen password < 64)%nat →
  room_is (Room id (strcpy (memset 0 32) name) (strcpy (memset 0 64) password)
             (replicate 50 None) 0 0 None None) (new_room id name password).
Proof.
  intros Hn Hp. split; cbn [r_room_id r_room_name r_password r_participants
    r_participant_count ar_id ar_name ar_password ar_members new_room length];
    rewrite ?c_str_strcpy; try done; try lia.
  - by rewrite length_strcpy by done.
  - unfold strlen. by rewrite c_str_strcpy.
  - by rewrite length_strcpy by done.
  - unfold strlen. by rewrite c_str_strcpy.
Qed.

Lemma new_record_is junk id name password : wf_room_record junk → is_i32 id →
  (strlen name < 32)%nat → (strlen password < 64)%nat →
  let r := RoomRecord id (strcpy (rr_room_name junk) name) (strcpy (rr_password junk) password)
             1 0 in wf_room_record r ∧ rec_is r (new_room id name password).
Proof.
  intros [_ Hl1 Hl2 _ _] Hid Hn Hp. split; split;
    cbn [rr_room_id rr_room_name rr_password rr_is_active rr_user_count ar_id ar_name
      ar_password ar_members new_room]; rewrite ?c_str_strcpy; try done.
  - by rewrite length_strcpy, Hl1 by lia.
  - by rewrite length_strcpy, Hl2 by lia.
Qed.

Lemma members_append cs rs l id name password : members_ok cs rs → l ∉ rs.*1 →
  members_ok cs (rs ++ [(l, new_room id name password)]).
Proof.
  intros [Hc Hr] Hl. split.
  - intros k b d [Hin|[= -> ->]%list_elem_of_singleton]%elem_of_app Hd; [by eapply Hc|].
    by apply elem_of_nil in Hd.
  - intros d y k Hd Ha Hk. destruct (Hr d y k Hd Ha Hk) as (b&Hb&?).
    exists b. split; [apply elem_of_app; by left|done].
Qed.

Lemma name_taken_iff rs name :
  (∃ la, first_room (λ a, bool_decide (ar_name a = c_str name)) rs = Some la) ↔
  c_str name ∈ (ar_name ∘ snd <$> rs).
Proof.
  split.
  - intros [[l a] E]. apply first_room_Some in E as [[i Hi] E%bool_decide_eq_true].
    apply list_elem_of_fmap. exists (l, a). split; [done|]. by eapply list_elem_of_lookup_2.
  - intros ([l a]&E&Hin)%list_elem_of_fmap.
    destruct (first_room _ rs) as [la|] eqn:Ef; [by exists la|].
    pose proof (first_room_None _ _ Ef l a Hin) as Hf. cbn in Hf.
    by rewrite bool_decide_true in Hf.
Qed.

(** What [room_create] returns, case by case. *)
Lemma room_create_taken w rs name password c : mem_ok w rs →
  c_str name ∈ (ar_name ∘ snd <$> rs) → room_create name password c w = Some (-1, w).
Proof.
  intros Hm [[l a] E]%name_taken_iff. unfold room_create.
  rewrite (C_bind_run _ _ _ _ _ (room_find_by_name_run _ _ _ Hm)). by rewrite E.
Qed.

Lemma room_create_full w rs name password c : mem_ok w rs →
  c_str name ∉ (ar_name ∘ snd <$> rs) → length rs = 32%nat →
  room_create name password c w = Some (-2, w).
Proof.
  intros Hm Hnew Hl. unfold room_create.
  rewrite (C_bind_run _ _ _ _ _ (room_find_by_name_run _ _ _ Hm)).
  destruct (first_room _ rs) as [la|] eqn:E; [destruct Hnew; apply name_taken_iff; by exists la|].
  cbn [fmap option_fmap option_map]. c_steps. rewrite (mo_count _ _ Hm), Hl. done.
Qed.

Lemma room_create_new w rs name password c y : room_state w rs →
  c_str name ∉ (ar_name ∘ snd <$> rs) → (length rs < 32)%nat →
  (strlen name < 32)%nat → (strlen password < 64)%nat → w_clients w !! c = Some y →
  (alloc (w_rooms w) (w_malloc w) = None ∧
   room_create name password c w = Some (-3, pop_malloc w)) ∨
  ∃ l id w', alloc (w_rooms w) (w_malloc w) = Some l ∧
    room_create name password c w = Some (id, w') ∧ 0 ≤ id < MAX_ROOMS ∧
    room_state w' (rs ++ [(l, new_room id name password)]) ∧ w_clients w' = w_clients w.
Proof.
  intros [[Hm Hdsk] Hme] Hnew Hl Hname Hpw Hy. pose proof Hdsk as (recs&Hrep&Hd).
  destruct (next_id_fresh _ _ Hd (mem_ids _ _ Hm)) as (Hb1&Hb2&Hfresh).
  unfold room_create. rewrite (C_bind_run _ _ _ _ _ (room_find_by_name_run _ _ _ Hm)).
  destruct (first_room _ rs) as [la|] eqn:E; [destruct Hnew; apply name_taken_iff; by exists la|].
  cbn [fmap option_fmap option_map]. c_steps. rewrite (mo_count _ _ Hm). unfold MAX_ROOMS.
  destruct (Z.leb_spec 32 (Z.of_nat (length rs))); [lia|]. c_steps.
  rewrite (store_next_free_law _ _ Hrep). set (id := first_free recs 0) in *.
  destruct (alloc (w_rooms w) (w_malloc w)) as [l|] eqn:Ea.
  2: { left. split; [done|]. erewrite C_bind_run by (unfold malloc_room; by rewrite Ea). done. }
  right. erewrite C_bind_run by (unfold malloc_room; by rewrite Ea). cbn iota beta.
  rewrite (C_bind_run _ _ _ _ _ (copy_string_run _ (r_room_name zero_room) name Hname)).
  rewrite (C_bind_run _ _ _ _ _ (copy_string_run _ (r_password zero_room) password Hpw)).
  erewrite C_bind_run by (eapply write_room_run; cbn; apply lookup_insert_eq).
  c_steps. cbn [w_junk with_room_heap pop_malloc].
  pose proof (wrr_name _ (mo_junk _ _ Hm)) as Hj1.
  pose proof (wrr_password _ (mo_junk _ _ Hm)) as Hj2.
  erewrite C_bind_run by (apply copy_string_run; rewrite Hj1; exact Hname).
  erewrite C_bind_run by (apply copy_string_run; rewrite Hj2; exact Hpw).
  destruct (new_record_is (w_junk w) id name password (mo_junk _ _ Hm))
    as [Hwf Hrec]; [int_lia|done|done|].
  destruct (store_write_law _ _ id _ Hrep ltac:(lia) Hwf) as (d&Hw&Hrep').
  erewrite C_bind_run by (unfold db_write; cbn [w_disk with_room_heap pop_malloc];
    rewrite Hw; reflexivity).
  cbn [negb].
  pose proof (alloc_spec _ _ _ Ea) as Hfree.
  assert (l ∉ rs.*1) as Hlnew.
  { intros Hin. assert (l ∈ dom (w_rooms w)) as Hdom
      by (rewrite (mo_dom _ _ Hm); by apply elem_of_list_to_set).
    by apply elem_of_dom in Hdom as [? ?]; congruence. }
  match goal with |- context [(append_room l ≫= _) ?w'] =>
    destruct (append_room_run w' rs l (Room id (strcpy (memset 0 32) name)
      (strcpy (memset 0 64) password) (replicate 50 None) 0 0 None None)
      (new_room id name password)) as (h&head&Happ&Hdll&Hdom') end; [|done|..|done|done|].
  { cbn. rewrite insert_insert_eq. apply dll_insert_fresh; [apply Hm|done]. }
  { cbn. by rewrite lookup_insert_eq. }
  { by apply new_room_is. }
  rewrite (C_bind_run _ _ _ _ _ Happ). c_steps.
  erewrite C_bind_run by (apply read_client_run; exact Hy).
  eexists l, id, _. split; [done|]. split; [reflexivity|]. split; [lia|].
  split; [|done]. split; [split|].
  - eapply (mem_append w rs l zero_room (new_room id name password)); try done.
    + cbn in Hdom'. by rewrite Hdom', insert_insert_eq, !dom_insert_L.
    + cbn. unfold MAX_ROOMS. lia.
    + intros k b Hin. split; [by apply (Hfresh k)|]. intros E'. apply Hnew.
      apply list_elem_of_fmap. by exists (k, b).
  - eexists. split; [done|]. by eapply disk_append; [|eapply mem_ids|..].
  - by apply members_append.
Qed.
End create.

(** ** Listing *)
Section listing.
Context {D : Type}.
Implicit Types w : world D.

(** The line of a room. *)
Definition room_line (a : aroom) : bytes :=
  pad_right 5 (print_int (ar_id a)) ++ 32 :: pad_right 20 (ar_name a) ++
  32 :: pad_right 10 (print_int (Z.of_nat (length (ar_members a)))) ++
  32 :: str (if bool_decide (ar_password a = []) then "No" else "Yes") ++ [10].

Definition listing (rs : arooms) : bytes :=
  match rs with
  | [] => str "No active rooms"
  | _ => list_header ++ concat (room_line ∘ snd <$> rs)
  end.

Lemma list_line_is x a : room_is x a → list_line x = room_line a.
Proof.
  intros Hx. unfold list_line, room_line, strlen.
  rewrite (ri_id _ _ Hx), (ri_name _ _ Hx), (ri_count _ _ Hx), (ri_password _ _ Hx).
  by destruct (ar_password a).
Qed.

Lemma pad_right_no_nul n s : no_nul s → no_nul (pad_right n s).
Proof.
  intros Hs. unfold pad_right. apply no_nul_app; [done|].
  apply forallb_Forall, Forall_replicate. done.
Qed.

Lemma no_nul_cons c s : c ≠ 0 → no_nul s → no_nul (c :: s).
Proof.
  intros Hc Hs. unfold no_nul. cbn. rewrite Hs, andb_true_r. unfold not_nul.
  by apply negb_true_iff, Z.eqb_neq.
Qed.

Lemma print_int_no_nul z : no_nul (print_int z).
Proof. apply is_word_no_nul, print_int_word. Qed.

Lemma length_pad_right n s : length (pad_right n s) = Nat.max n (length s).
Proof. unfold pad_right. len. Qed.

Lemma room_line_facts x a : room_is x a → 0 ≤ ar_id a < MAX_ROOMS →
  no_nul (room_line a) ∧ (length (room_line a) ≤ 60)%nat.
Proof.
  intros Hx Hid. unfold MAX_ROOMS in Hid.
  assert (length (ar_name a) < 32)%nat as Hn by (rewrite <-(ri_name _ _ Hx); apply Hx).
  pose proof (ri_max _ _ Hx) as Hm. split.
  - unfold room_line.
    repeat first [ apply pad_right_no_nul | apply print_int_no_nul
                 | apply no_nul_app | apply no_nul_cons; [lia|] ].
    + rewrite <-(ri_name _ _ Hx). apply c_str_no_nul.
    + by case_bool_decide.
    + done.
  - pose proof (length_print_int (ar_id a) ltac:(int_lia)).
    pose proof (length_print_int (Z.of_nat (length (ar_members a))) ltac:(int_lia)).
    unfold room_line. rewrite !length_app. cbn [length]. rewrite !length_app. cbn [length].
    rewrite !length_app. cbn [length]. rewrite !length_app, !length_pad_right. cbn [length].
    assert (length (str (if bool_decide (ar_password a = []) then "No" else "Yes")) ≤ 3)%nat
      by (case_bool_decide; cbn; lia). lia.
Qed.

Lemma list_loop_run w rs size : mem_ok w rs → ∀ n i text,
  (length rs ≤ i + n)%nat → (length text + 60 * (length rs - i) < size - 1)%nat →
  list_loop (S n) size (fst <$> rs !! i) text (length text) w =
  Some (text ++ concat (room_line ∘ snd <$> drop i rs), w).
Proof.
  intros Hm. induction n as [|n IH]; intros i text Hi Hsize; cbn [list_loop].
  - rewrite lookup_ge_None_2, drop_ge by lia. cbn. by rewrite app_nil_r.
  - destruct (rs !! i) as [[l a]|] eqn:E; cbn [fmap option_fmap option_map fst].
    2: { rewrite drop_ge by (by apply lookup_ge_None_1). cbn. by rewrite app_nil_r. }
    pose proof (lookup_lt_Some _ _ _ E) as Hlt.
    destruct (mem_ok_room _ _ _ _ _ Hm E) as (x&Hx&Hxa&_&Hn).
    destruct (room_line_facts x a Hxa) as [Hnul Hlen].
    { apply (mo_bound _ _ Hm l). by eapply list_elem_of_lookup_2. }
    destruct (Nat.ltb_spec (length text) (size - 1)); [|lia].
    rewrite (C_bind_run _ _ _ _ _ (read_room_run _ _ _ Hx)). cbn zeta.
    rewrite (list_line_is _ _ Hxa), snprintf_fits, Hn by (done || lia).
    rewrite <-length_app. unfold next_of.
    etransitivity; [apply (IH (S i)); rewrite ?length_app; lia|].
    rewrite (drop_S _ _ _ E). cbn. by rewrite app_assoc.
Qed.

Lemma room_list_run w rs : mem_ok w rs → room_list_formatted 4096 w = Some (listing rs, w).
Proof.
  intros Hm. unfold room_list_formatted. c_steps.
  rewrite (dll_head _ _ _ (mo_dll _ _ Hm)). unfold listing.
  destruct rs as [|[l a] rs'] eqn:E; [done|].
  cbn [lookup list_lookup fmap option_fmap option_map fst]. c_steps. rewrite <-E in *.
  change (snprintf 4096 list_header) with list_header.
  replace (Some l) with (fst <$> rs !! 0%nat) by (by rewrite E).
  rewrite (list_loop_run w rs 4096 Hm _ 0); [by rewrite drop_0| |].
  - pose proof (dll_size _ _ _ (mo_dll _ _ Hm)). lia.
  - pose proof (mo_max _ _ Hm). change (length list_header) with 48%nat. lia.
Qed.
End listing.

Lemma remove_member_last c : remove_member c [c] = [].
Proof. unfold remove_member. by rewrite filter_cons_False by (intros []; done). Qed.

(** ** The claims *)
Section claims.
Context {D : Type} `{RoomStoreLaws D}.
Implicit Types w : world D.

(** C7. [room_create] on every path: a taken name is -1 and a full list -2,
    both without effect; a failed [malloc] is -3 and keeps the rooms; otherwise
    the room is appended to the list and to the disk under an id that no room
    has and that is below [MAX_ROOMS].  The result -4 does not occur while
    the store writes. *)
Theorem room_create_correct w rs name password c y : room_state w rs →
  w_clients w !! c = Some y → (strlen name < 32)%nat → (strlen password < 64)%nat →
  ∃ code w', room_create name password c w = Some (code, w') ∧
    w_clients w' = w_clients w ∧
    (if decide (c_str name ∈ (ar_name ∘ snd <$> rs)) then code = -1 ∧ w' = w
     else if decide (length rs = 32%nat) then code = -2 ∧ w' = w
     else match alloc (w_rooms w) (w_malloc w) with
          | None => code = -3 ∧ room_state w' rs
          | Some l => 0 ≤ code < MAX_ROOMS ∧
              (∀ k a, (k, a) ∈ rs → ar_id a ≠ code) ∧
              room_state w' (rs ++ [(l, new_room code name password)])
          end).
Proof.
  intros Hs Hy Hn Hp. pose proof Hs as [[Hm Hd] Hme].
  case_decide as Htaken; [by eexists _, _; split; [by eapply room_create_taken|]|].
  case_decide as Hfull; [by eexists _, _; split; [by eapply room_create_full|]|].
  pose proof (mo_max _ _ Hm).
  destruct (room_create_new w rs name password c y Hs Htaken ltac:(lia) Hn Hp Hy)
    as [[-> Hrun]|(l&id&w'&->&Hrun&Hid&Hs'&Hc)].
  - eexists _, _. split; [exact Hrun|]. split; [done|]. split; [done|].
    split; [|done]. split; [|done]. by destruct Hm.
  - eexists _, _. split; [exact Hrun|]. split; [done|]. split; [done|]. split; [|done].
    intros k a Hin E. destruct Hs' as [[Hm' _] _].
    apply elem_index in Hin as [i Hi].
    assert (i = length rs) as ->; [|by rewrite lookup_ge_None_2 in Hi].
    eapply (same_id_index ar_id _ i (length rs) k a l (new_room id name password)
      (mo_ids _ _ Hm')); [|by apply list_lookup_middle|done].
    by rewrite lookup_app_l by (by eapply lookup_lt_Some).
Qed.

(** C6. [room_join] implements [RoomSpec.join] for every active client: the
    client leaves the room it is in (which is deleted if that empties it),
    then the room with that id is looked up, its password and capacity are
    checked, and on success the client is its last member and its
    [current_room] points there.  The list, the participants arrays, the
    clients and the disk agree afterwards, and no step is undefined. *)
Theorem room_join_correct w rs c y room_id password : room_state w rs →
  w_clients w !! c = Some y → c_is_active y ≠ 0 → ∃ w',
  room_join room_id password (Some c) w =
    Some ((RoomSpec.join rs room_id password c).1, w') ∧
  room_state w' (RoomSpec.join rs room_id password c).2 ∧
  w_clients w' = <[c := c_with_room y (RoomSpec.entered rs room_id password c)]> (w_clients w).
Proof. apply room_join_run. Qed.

(** C8. [room_leave] by an active client that is in a room takes it out of the
    participants array, resets its [current_room] and stores the new count;
    the room of the last member is unlinked, freed and marked inactive on
    disk.  No other client and no other room changes. *)
Theorem room_leave_correct w rs c y l : room_state w rs → w_clients w !! c = Some y →
  c_is_active y ≠ 0 → c_current_room y = Some l → ∃ w',
  room_leave (Some c) w = Some (0, w') ∧ room_state w' (RoomSpec.leave rs c) ∧
  w_clients w' = <[c := c_with_room y None]> (w_clients w) ∧
  (∀ k b, k ≠ l → ((k, b) ∈ RoomSpec.leave rs c ↔ (k, b) ∈ rs)) ∧
  (∀ b, (l, b) ∈ RoomSpec.leave rs c → (c ∉ ar_members b) ∧ ar_members b ≠ []).
Proof.
  intros Hs Hy Hact Hr. destruct (room_leave_run w rs c y l Hs Hy Hact Hr) as (w'&?&?&?).
  exists w'. split; [done|]. split; [done|]. split; [done|].
  destruct Hs as [Hok Hme]. pose proof (rooms_locs _ _ Hok) as Hn.
  destruct (me_room _ _ Hme c y l Hy Hact Hr) as (a&[i Hi]%elem_index&Hc).
  unfold RoomSpec.leave. rewrite (room_of_spec _ _ _ _ _ _ Hme Hn Hi Hc). split.
  - intros k b Hk. rewrite leave_elem by done. split; [|by left].
    intros [[_ ?]|(->&_)]; done.
  - intros b [[? _]|(_&->&Hne)]%leave_elem; [done| |done..]. split; [|done].
    intros [? _]%elem_of_remove_member. done.
Qed.

(** A client that joins the room it is alone in loses it: the leave that
    comes first deletes the room, and the join then fails with -2 although
    the name was found. *)
Theorem rejoin_alone_deletes_room w rs c y (i : nat) l a password : room_state w rs →
  w_clients w !! c = Some y → c_is_active y ≠ 0 → rs !! i = Some (l, a) →
  ar_members a = [c] → ∃ w',
  room_join (ar_id a) password (Some c) w = Some (-2, w') ∧ room_state w' (delete i rs).
Proof.
  intros Hs Hy Hact Hi Ha. pose proof Hs as [Hok Hme]. pose proof (rooms_locs _ _ Hok) as Hn.
  destruct (room_join_run w rs c y (ar_id a) password Hs Hy Hact) as (w'&Hrun&Hs'&_).
  assert (RoomSpec.leave rs c = delete i rs) as El.
  { unfold RoomSpec.leave.
    rewrite (room_of_spec _ _ i l a c Hme Hn Hi) by (rewrite Ha; by left).
    pose proof (lookup_lt_Some _ _ _ Hi).
    unfold settle, drop_member. rewrite list_lookup_insert_eq by done.
    rewrite Ha, remove_member_last. cbn. by rewrite !delete_take_drop, take_insert_ge,
      drop_insert_lt by lia. }
  assert (RoomSpec.join rs (ar_id a) password c = (-2, delete i rs)) as Ej.
  { unfold RoomSpec.join. rewrite El. destruct (list_find _ _) as [[j [k b]]|] eqn:E; [|done].
    apply list_find_Some in E as (Hj&Eid&_). cbn in Eid.
    apply list_elem_of_lookup_2, delete_elem in Hj as (m&Hmi&Hm). destruct Hmi.
    by eapply (same_id_index ar_id rs m i); [apply Hok|..]. }
  rewrite Ej in Hrun, Hs'. by exists w'.
Qed.

(** C38. [LIST] shows every room, in order of creation, with its id, name, number
    of members and whether it has a password: 32 rooms always fit the buffer
    of 4096 bytes, so no line is cut. *)
Theorem room_list_complete w rs : mem_ok w rs →
  room_list_formatted 4096 w = Some (listing rs, w) ∧ (length (listing rs) < 4096)%nat.
Proof.
  intros Hm. split; [by apply room_list_run|]. unfold listing.
  destruct rs as [|la rs'] eqn:E; [cbn; lia|]. rewrite <-E in *. rewrite length_app.
  change (length list_header) with 48%nat.
  assert (∀ n, (n ≤ length rs)%nat →
    (length (concat (room_line ∘ snd <$> take n rs)) ≤ 60 * n)%nat) as Hlen.
  { induction n as [|n IH]; intros Hn; [by rewrite take_0|].
    destruct (lookup_lt_is_Some_2 rs n ltac:(lia)) as [[l a] Hi].
    rewrite (take_S_r _ _ _ Hi), fmap_app, concat_app, length_app. cbn.
    destruct (mem_ok_room _ _ _ _ _ Hm Hi) as (x&_&Hxa&_).
    destruct (room_line_facts x a Hxa) as [_ Hl].
    { apply (mo_bound _ _ Hm l). by eapply list_elem_of_lookup_2. }
    rewrite app_nil_r. specialize (IH ltac:(lia)). lia. }
  specialize (Hlen (length rs) ltac:(lia)). rewrite firstn_all in Hlen.
  pose proof (mo_max _ _ Hm). lia.
Qed.
End claims.

(** ** The start, and witnesses on the room file of [FileDb] *)

(** A server just started on an empty room file. *)
Lemma room_state_init {D} `{RoomStoreLaws D} (d : D) recs cs mallocs junk :
  store_rep d recs → Forall wf_room_record recs →
  Forall (λ r, rr_is_active r = 0) recs → wf_room_record junk →
  (∀ c y, cs !! c = Some y → c_current_room y = None) →
  room_state (World ∅ cs None 0 d mallocs junk) [].
Proof.
  intros Hrep Hwf Hact Hj Hcs. split; [split|].
  - split; cbn; [|done|done|lia|constructor|constructor| | |done].
    + split; [done|constructor|]. by intros i l a Hi.
    + intros l a Hin. by apply elem_of_nil in Hin.
    + intros l a Hin. by apply elem_of_nil in Hin.
  - exists recs. split; [done|]. split; [done| |].
    + intros l a Hin. by apply elem_of_nil in Hin.
    + intros i r Hi Ha. rewrite Forall_lookup in Hact. by destruct Ha; eapply Hact.
  - split.
    + intros l a c Hin. by apply elem_of_nil in Hin.
    + intros c y l Hc _ Hr. rewrite (Hcs c y Hc) in Hr. done.
Qed.

Definition demo_client (slot : Z) (name : string) : client :=
  Client (slot + 5) slot 0 (str name ++ memset 0 (32 - String.length name)) ROLE_ADMIN None
    0 1 1 [] 0.
Definition demo_junk : room_record := RoomRecord 7 (memset 204 32) (memset 204 64) 1 3.
Definition demo_db : db := Db 3 (File [] []) 4 (File [] []) 0 [] true 0.
Definition demo_world : world db :=
  World ∅ {[ 1%positive := demo_client 0 "alice"; 2%positive := demo_client 1 "bob" ]}
    None 0 demo_db [] demo_junk.

Lemma demo_junk_wf : wf_room_record demo_junk.
Proof. split; cbn; try done; int_lia. Qed.

Lemma demo_state : room_state demo_world [].
Proof.
  apply (room_state_init demo_db []); [|constructor|constructor|apply demo_junk_wf|].
  - split; [done|done|done|constructor].
  - intros c y. cbn. rewrite lookup_insert_Some, lookup_singleton_Some.
    intros [[_ <-]|[_ [_ <-]]]; done.
Qed.

Lemma demo_state_alice : demo_world.(w_clients) !! 1%positive = Some (demo_client 0 "alice").
Proof. vm_done. Qed.

Lemma room_create_correct_witness : ∃ code w',
  room_create (str "lobby") (str "pw") 1%positive demo_world = Some (code, w') ∧
  room_state w' [(2%positive, new_room code (str "lobby") (str "pw"))].
Proof.
  destruct (room_create_correct demo_world [] (str "lobby") (str "pw") 1%positive
    (demo_client 0 "alice") demo_state demo_state_alice) as (code&w'&Hrun&_&Hcase);
    [vm_compute; lia|vm_compute; lia|].
  exists code, w'. split; [exact Hrun|]. apply Hcase.
Defined.

(** The room has been created. *)
Lemma demo_created : ∃ w,
  room_state w [(2%positive, new_room 0 (str "lobby") (str "pw"))] ∧
  w_clients w = w_clients demo_world.
Proof.
  destruct (room_create_new demo_world [] (str "lobby") (str "pw") 1%positive
    (demo_client 0 "alice") demo_state) as [[E _]|(l&id&w1&El&Hrun&_&Hs1&Hc1)];
    [by apply not_elem_of_nil|cbn; lia|vm_compute; lia|vm_compute; lia|vm_done|done|].
  injection El as <-. vm_compute in Hrun. injection Hrun as <- _. by exists w1.
Qed.

(** Alice has created the room and is in it. *)
Lemma demo_joined : ∃ w a, room_state w [(2%positive, a)] ∧ ar_members a = [1%positive] ∧
  ar_id a = 0 ∧ ar_name a = str "lobby" ∧ ar_password a = str "pw" ∧
  w_clients w = <[1%positive := c_with_room (demo_client 0 "alice") (Some 2%positive)]>
    (w_clients demo_world).
Proof.
  destruct demo_created as (w1&Hs1&Hc1).
  destruct (room_join_run w1 _ 1%positive (demo_client 0 "alice") 0 (str "pw") Hs1)
    as (w2&_&Hs2&Hc2); [by rewrite Hc1|done|].
  exists w2. eexists. split; [exact Hs2|]. split_and!; [done..|].
  rewrite Hc2, Hc1. f_equal.
Qed.

Lemma room_join_correct_witness : ∃ w',
  room_join 7 (str "x") (Some 2%positive) demo_world = Some (-2, w') ∧ room_state w' [].
Proof.
  destruct (room_join_correct demo_world [] 2%positive (demo_client 1 "bob") 7 (str "x")
    demo_state) as (w'&Hrun&Hs&_); [vm_done|done|].
  exists w'. split; [exact Hrun|exact Hs].
Defined.

Lemma room_leave_correct_witness : ∃ w rs w',
  room_leave (Some 1%positive) w = Some (0, w') ∧ room_state w' (RoomSpec.leave rs 1%positive).
Proof.
  destruct demo_joined as (w&a&Hs&_&_&_&_&Hc).
  destruct (room_leave_correct w _ 1%positive _ 2%positive Hs
    ltac:(rewrite Hc; apply lookup_insert_eq) ltac:(done) eq_refl) as (w'&?&?&_).
  by exists w, [(2%positive, a)], w'.
Defined.

Lemma rejoin_alone_deletes_room_witness : ∃ w w',
  room_join 0 (str "pw") (Some 1%positive) w = Some (-2, w') ∧ room_state w' [].
Proof.
  destruct demo_joined as (w&a&Hs&Ha&Hid&_&_&Hc).
  destruct (rejoin_alone_deletes_room w _ 1%positive _ 0 2%positive a (str "pw") Hs
    ltac:(rewrite Hc; apply lookup_insert_eq) ltac:(done) eq_refl Ha) as (w'&Hrun&Hs').
  rewrite Hid in Hrun. by exists w, w'.
Defined.

Lemma room_list_complete_witness : ∃ (w : world db) a,
  room_list_formatted 4096 w = Some (listing [(2%positive, a)], w) ∧
  (length (listing [(2%positive, a)]) < 4096)%nat.
Proof.
  destruct demo_joined as (w&a&Hs&_). exists w, a.
  apply (room_list_complete w [(2%positive, a)]). apply Hs.
Defined.
