(* ===== verification/RoomLocks.v ===== *)
(** * The room manager's operations with their mutexes

    The operations of [room_manager.c] as programs: where they take and give
    back [rooms_mutex] and the lock of a room, and what they access between.
    A section under one lock and one access to a shared variable are atomic.
    The room database has no lock of its own; its operations are programs
    themselves, given by a class: [atomic_calls] makes each of them one access,
    [RoomCalls] has their system calls.  Without other threads, and with
    [atomic_calls], the programs are the operations of [RoomManager]. *)
From S2P Require Import Prelude CInt CString Protocol RoomStore World RoomManager Interleave Locks.
#[local] Open Scope Z_scope.

(** The mutexes of the server. *)
Inductive mutex :=
  | TaskMutex | ClientsMutex | RoomsMutex | RoomLock (l : loc)
  | JitterMutex | RingMutex | LogMutex.
#[export] Instance mutex_dec : EqDecision mutex.
Proof. solve_decision. Defined.

(** The order in which they are taken. *)
Definition mutex_rank (m : mutex) : nat :=
  match m with
  | ClientsMutex => 0
  | RoomsMutex => 1
  | RoomLock _ | TaskMutex | JitterMutex | RingMutex => 2
  | LogMutex => 3
  end.

(** [log_message], without its text. *)
Definition log_message {St} : prog mutex St unit := holding LogMutex (mret tt).

(** The operations of [file_db.c] that the room manager calls, as programs. *)
Class StoreCalls (D : Type) := {
  raw_calls : Z → prog mutex (world D) (option room_record);
  read_calls : Z → prog mutex (world D) (option room_record);
  write_calls : Z → room_record → prog mutex (world D) bool;
  free_calls : prog mutex (world D) Z
}.

(** They take no mutex but the log's. *)
Class StoreCallsLevel (D : Type) {SC : StoreCalls D} := {
  raw_calls_level id : at_level mutex_rank 3 (raw_calls id);
  read_calls_level id : at_level mutex_rank 3 (read_calls id);
  write_calls_level id rec : at_level mutex_rank 3 (write_calls id rec);
  free_calls_level : at_level mutex_rank 3 free_calls
}.

(** Each of them one access. *)
#[export] Instance atomic_calls {D} `{RoomStore D} : StoreCalls D | 100 := {|
  raw_calls id := act (gets (λ w, store_read_raw (w_disk w) id));
  read_calls id := act (gets (λ w, store_read (w_disk w) id));
  write_calls id rec := act (db_write id rec);
  free_calls := act (gets (λ w, store_next_free (w_disk w)))
|}.
#[export] Instance atomic_calls_level {D} `{RoomStore D} : StoreCallsLevel D | 100.
Proof. split; intros; apply level_act. Qed.

Section programs.
Context {D : Type} {SC : StoreCalls D}.
Implicit Types w : world D.
Abbreviation room_prog := (prog mutex (world D)).

(** [room_find_by_name] and [room_list_formatted]. *)
Definition find_by_name_prog (name : bytes) : room_prog (option loc) :=
  holding RoomsMutex (act (room_find_by_name name)).
Definition list_prog (buffer_size : nat) : room_prog bytes :=
  holding RoomsMutex (act (room_list_formatted buffer_size)).

(** [room_create]: the name; the count; the free id; the new object and its
    record; the list. *)
Definition create_prog (name password : bytes) (creator : loc) : room_prog Z :=
  found ← find_by_name_prog name;
  match found with
  | Some _ => mret (-1)
  | None =>
    count ← act (gets w_room_count);
    if MAX_ROOMS <=? count then mret (-2)
    else
      room_id ← free_calls;
      new_room ← act (malloc_room zero_room);
      match new_room with
      | None => mret (-3)
      | Some l =>
        rec ← act (
          rname ← copy_string (r_room_name zero_room) name;
          rpassword ← copy_string (r_password zero_room) password;
          _ ← write_room l (Room room_id rname rpassword (replicate 50 None) 0 0 None None);
          junk ← gets w_junk;
          rec_name ← copy_string (rr_room_name junk) name;
          rec_password ← copy_string (rr_password junk) password;
          mret (RoomRecord room_id rec_name rec_password 1 0));
        ok ← write_calls room_id rec;
        if negb ok then _ ← act (free_room l); mret (-4)
        else
          _ ← holding RoomsMutex
                (act (_ ← append_room l; puts (λ w, with_room_count (w_room_count w + 1) w)));
          _ ← act (read_client creator);
          _ ← log_message;
          mret room_id
      end
  end.

(** [room_delete]: the list; the record, read and written; [free]. *)
Definition delete_prog (room_id : Z) : room_prog Z :=
  r ← holding RoomsMutex
        (act (r ← room_find_by_id room_id;
              match r with
              | None => mret None
              | Some l =>
                _ ← unlink_room l;
                _ ← puts (λ w, with_room_count (w_room_count w - 1) w);
                mret (Some l)
              end));
  match r with
  | None => mret 0
  | Some l =>
    rec ← read_calls room_id;
    _ ← match rec with
        | Some rec => _ ← write_calls room_id (rr_with_active rec 0); mret tt
        | None => mret tt
        end;
    _ ← act (free_room l);
    _ ← log_message;
    mret 1
  end.

(** The record of a room after a change of its participants: the record is
    read, then the room's count, and the record is written; nothing is locked. *)
Definition count_prog (l : loc) (room_id : room_prog Z) (rec : room_record)
    : room_prog unit :=
  n ← act (x ← read_room l; mret (r_participant_count x));
  id ← room_id;
  _ ← write_calls id (rr_with_count rec n);
  mret tt.
Definition record_prog (l : loc) (room_id : room_prog Z) : room_prog unit :=
  id ← room_id;
  rec ← raw_calls id;
  match rec with
  | Some rec => count_prog l room_id rec
  | None => mret tt
  end.
(** [r->room_id]. *)
Definition id_of (l : loc) : room_prog Z := act (x ← read_room l; mret (r_room_id x)).

(** The log line of a client and a room. *)
Definition log_client_room (c l : loc) : room_prog unit :=
  _ ← act (_ ← read_client c; _ ← read_room l; mret tt); log_message.

(** The end of [room_leave] and [remove_client_from_room]. *)
Definition empty_prog (l : loc) : room_prog unit :=
  empty ← act (x ← read_room l;
               mret (if r_participant_count x =? 0 then Some (r_room_id x) else None));
  match empty with
  | Some id => _ ← delete_prog id; mret tt
  | None => mret tt
  end.

Definition removal_prog (l : loc) (log : room_prog unit) : room_prog unit :=
  _ ← record_prog l (id_of l); _ ← log; empty_prog l.

(** [room_leave]. *)
Definition leave_prog (c : option loc) : room_prog Z :=
  match c with
  | None => mret (-1)
  | Some c =>
    r ← act (y ← read_client c; mret (c_current_room y));
    match r with
    | None => mret (-1)
    | Some l =>
      _ ← holding (RoomLock l)
            (act (found ← remove_participant l c; when found (set_current_room c None)));
      _ ← removal_prog l (log_client_room c l);
      mret 0
    end
  end.

(** [remove_client_from_room]. *)
Definition remove_client_prog (r c : option loc) : room_prog unit :=
  match r, c with
  | Some l, Some c =>
    _ ← holding (RoomLock l) (act (remove_participant l c));
    removal_prog l (mret tt)
  | _, _ => mret tt
  end.

(** What [room_join] does under the room's lock. *)
Definition admission (l : loc) (password : bytes) (c : loc) : C (world D) Z :=
  x ← read_room l;
  if (0 <? strlen (r_password x))%nat && negb (strcmp_eq (r_password x) password)
  then mret (-3)
  else if MAX_CLIENTS <=? r_participant_count x then mret (-4)
  else
    x' ← lift (add_participant x c);
    _ ← write_room l x';
    _ ← set_current_room c (Some l);
    mret 0.

(** [room_join]: the end, the admission, the search, the whole. *)
Definition join_log (l c : loc) : room_prog Z := _ ← log_client_room c l; mret 0.
Definition join_record (room_id : Z) (c l : loc) : room_prog Z :=
  _ ← record_prog l (mret room_id); join_log l c.
Definition join_admit (room_id : Z) (password : bytes) (c l : loc) : room_prog Z :=
  code ← holding (RoomLock l) (act (admission l password c));
  if code =? 0 then join_record room_id c l else mret code.
Definition join_find (room_id : Z) (password : bytes) (c : loc) : room_prog Z :=
  r ← holding RoomsMutex (act (room_find_by_id room_id));
  match r with
  | None => mret (-2)
  | Some l => join_admit room_id password c l
  end.
Definition join_prog (room_id : Z) (password : bytes) (c : loc) : room_prog Z :=
  r ← act (y ← read_client c; mret (c_current_room y));
  match r with
  | Some _ => _ ← leave_prog (Some c); join_find room_id password c
  | None => join_find room_id password c
  end.

End programs.

(** ** Without other threads, they are the operations of [RoomManager] *)
Section alone.
Context {D : Type} `{RoomStore D}.
Implicit Types w : world D.
Abbreviation room_prog := (prog mutex (world D)).

Lemma read_room_inv w l x w' : read_room l w = Some (x, w') → w_rooms w !! l = Some x ∧ w' = w.
Proof. unfold read_room. destruct (w_rooms w !! l); naive_solver. Qed.
Lemma read_client_inv w c y w' :
  read_client c w = Some (y, w') → w_clients w !! c = Some y ∧ w' = w.
Proof. unfold read_client. destruct (w_clients w !! c); naive_solver. Qed.

Lemma write_room_inv w l x u w' : write_room l x w = Some (u, w') →
  w' = with_room_heap <[l := x]> w.
Proof. unfold write_room. destruct (w_rooms w !! l); naive_solver. Qed.

(** What a change of a client leaves alone. *)
Lemma set_current_room_inv c r w u w' : set_current_room c r w = Some (u, w') →
  w_rooms w' = w_rooms w ∧ is_Some (w_clients w' !! c).
Proof.
  unfold set_current_room, read_client, write_client, mbind, C_bind.
  destruct (w_clients w !! c) eqn:E; [|done]. rewrite E. intros [= _ <-]. split; [done|].
  cbn. rewrite lookup_insert_eq. by eexists.
Qed.

Lemma store_user_count_inv id n w u w' : store_user_count id n w = Some (u, w') →
  w_rooms w' = w_rooms w ∧ w_clients w' = w_clients w.
Proof.
  unfold store_user_count, db_write. rewrite C_bind_gets.
  destruct (store_read_raw (w_disk w) id) as [rec|]; [|by intros [= _ <-]].
  unfold mbind, C_bind. destruct (store_write _ _ _) as [ok d]. by intros [= _ <-].
Qed.

Lemma remove_participant_inv l c w b w' : remove_participant l c w = Some (b, w') →
  w_clients w' = w_clients w.
Proof.
  unfold remove_participant. intros (x&w1&[_ ->]%read_room_inv&Hr)%C_bind_inv.
  apply C_bind_inv in Hr as (o&w2&E&Hr). unfold lift in E.
  destruct (find_participant _ _ _ _) as [o'|]; [|done]. injection E as <- <-.
  destruct o' as [i|]; [|by injection Hr as _ <-].
  apply C_bind_inv in Hr as (y&w3&[_ ->]%read_client_inv&Hr).
  apply C_bind_inv in Hr as (x'&w4&E&Hr). unfold lift in E.
  destruct (drop_participant _ _ _); [|done]. injection E as <- <-.
  apply C_bind_inv in Hr as (u&w5&->%write_room_inv&Hr). by injection Hr as _ <-.
Qed.

Lemma create_run name password creator w :
  run (create_prog name password creator) w = room_create name password creator w.
Proof.
  unfold create_prog, room_create, find_by_name_prog; cbn [free_calls write_calls atomic_calls]. rewrite run_holding_act.
  apply bind_cong. intros [l|] w1 _; [done|].
  rewrite run_act. apply bind_cong. intros n w2 _.
  destruct (MAX_ROOMS <=? n); [done|].
  rewrite run_act. apply bind_cong. intros id w3 _.
  rewrite run_act. apply bind_cong. intros [l|] w4 _; [|done].
  rewrite run_act. do 6 (rewrite C_bind_assoc; apply bind_cong; intros ? ? _).
  rewrite C_bind_ret, run_act.
  apply bind_cong. intros [] ? _; cbn [negb]; [|done]. rewrite run_holding_act.
  rewrite C_bind_assoc. apply bind_cong. intros [] ? _. apply bind_cong. intros [] ? _.
  rewrite run_act. done.
Qed.

Lemma delete_run room_id w : run (delete_prog room_id) w = room_delete room_id w.
Proof.
  unfold delete_prog, room_delete; cbn [read_calls write_calls atomic_calls]. rewrite run_holding_act, C_bind_assoc.
  apply bind_cong. intros [l|] w1 _; [|done].
  rewrite C_bind_assoc. apply bind_cong. intros [] w2 _.
  rewrite C_bind_assoc. apply bind_cong. intros [] w3 _.
  rewrite C_bind_ret, run_act. apply bind_cong. intros [rec|] w4 _.
  - rewrite run_assoc, run_act, C_bind_assoc. apply bind_cong. intros ok w5 _.
    rewrite run_ret_bind, run_act. done.
  - done.
Qed.

Lemma record_run l (room_id : room_prog Z) id x w : w_rooms w !! l = Some x →
  (∀ {A} (k : Z → room_prog A) w', w_rooms w' = w_rooms w →
     run (room_id ≫= k) w' = run (k id) w') →
  run (record_prog l room_id) w = store_user_count id (r_participant_count x) w.
Proof.
  intros Hx Hid. unfold record_prog, store_user_count.
  rewrite Hid by done. cbn [raw_calls atomic_calls]. rewrite run_act, !C_bind_gets.
  destruct (store_read_raw (w_disk w) id) as [rec|]; [|done]. unfold count_prog.
  rewrite run_act, C_bind_assoc, (C_bind_run _ _ _ _ _ (read_room_run _ _ _ Hx)).
  rewrite C_bind_ret, Hid by done. cbn [write_calls atomic_calls]. by rewrite run_act.
Qed.

Lemma log_client_room_run {A} c l (k : unit → room_prog A) w :
  is_Some (w_clients w !! c) → is_Some (w_rooms w !! l) →
  run (log_client_room c l ≫= k) w = run (k tt) w.
Proof.
  intros [y Hy] [x Hx]. unfold log_client_room. rewrite run_bind. unfold mbind at 1, C_bind at 1.
  rewrite run_act, (C_bind_run _ _ _ tt w). { done. }
  rewrite (C_bind_run _ _ _ _ _ (read_client_run _ _ _ Hy)).
  by rewrite (C_bind_run _ _ _ _ _ (read_room_run _ _ _ Hx)).
Qed.

Lemma id_of_run {A} l x w (k : Z → room_prog A) : w_rooms w !! l = Some x →
  run (id_of l ≫= k) w = run (k (r_room_id x)) w.
Proof.
  intros Hx. unfold id_of.
  by rewrite run_act, C_bind_assoc, (C_bind_run _ _ _ _ _ (read_room_run w l x Hx)).
Qed.

Lemma empty_run l x w : w_rooms w !! l = Some x →
  run (empty_prog l) w =
  (if r_participant_count x =? 0 then _ ← room_delete (r_room_id x); mret tt else mret tt) w.
Proof.
  intros Hx. unfold empty_prog. rewrite run_act, C_bind_assoc.
  rewrite (C_bind_run _ _ _ _ _ (read_room_run _ _ _ Hx)), C_bind_ret.
  destruct (r_participant_count x =? 0); [|done].
  rewrite run_bind. unfold mbind, C_bind. by rewrite delete_run.
Qed.

(** The record and the test for emptiness, with what the log reads between. *)
Lemma removal_run l (log : room_prog unit) w :
  (∀ w' (k : unit → room_prog unit), w_rooms w' = w_rooms w → w_clients w' = w_clients w →
     is_Some (w_rooms w' !! l) → run (log ≫= k) w' = run (k tt) w') →
  run (removal_prog l log) w = after_removal l w.
Proof.
  intros Hp. unfold removal_prog, after_removal. rewrite run_bind.
  destruct (w_rooms w !! l) as [x|] eqn:Ex.
  2: { unfold mbind at 1, C_bind at 1. unfold record_prog, id_of. rewrite run_act.
       unfold mbind, C_bind, read_room. by rewrite Ex. }
  rewrite (bind_head _ (store_user_count (r_room_id x) (r_participant_count x))).
  2: { apply record_run; [done|]. intros B k w' E. by rewrite (id_of_run l x) by (by rewrite E). }
  rewrite (C_bind_run _ _ _ _ _ (read_room_run _ _ _ Ex)).
  apply bind_cong. intros u w1 [Er Ec]%store_user_count_inv.
  assert (w_rooms w1 !! l = Some x) as Ex1 by (by rewrite Er).
  rewrite Hp by (done || by exists x). by apply empty_run.
Qed.

Lemma leave_run c w : run (leave_prog c) w = room_leave c w.
Proof.
  destruct c as [c|]; [|done]. unfold leave_prog, room_leave.
  rewrite run_act, C_bind_assoc. apply bind_cong. intros y w0 [Hy ->]%read_client_inv.
  rewrite C_bind_ret. destruct (c_current_room y) as [l|]; [|done].
  rewrite run_holding_act, C_bind_assoc. apply bind_cong. intros found w1 Hfound.
  apply bind_cong. intros [] w2 Hwhen. rewrite run_bind. apply bind_head, removal_run.
  intros w3 k Er Ec Hl. apply log_client_room_run; [|done]. rewrite Ec.
  apply remove_participant_inv in Hfound as Ec1. destruct found; cbn in Hwhen.
  - by apply set_current_room_inv in Hwhen as [_ ?].
  - injection Hwhen as <-. rewrite Ec1. by exists y.
Qed.

Lemma remove_client_prog_run r c w :
  run (remove_client_prog r c) w = remove_client_from_room r c w.
Proof.
  destruct r as [l|], c as [c|]; [|done..]. unfold remove_client_prog, remove_client_from_room.
  rewrite run_holding_act. apply bind_cong. intros found w1 _.
  by apply removal_run.
Qed.

Lemma admit_run room_id password c l w :
  run (join_admit room_id password c l) w =
  (x ← read_room l;
   if (0 <? strlen (r_password x))%nat && negb (strcmp_eq (r_password x) password)
   then mret (-3)
   else if MAX_CLIENTS <=? r_participant_count x then mret (-4)
   else
     x' ← lift (add_participant x c);
     _ ← write_room l x';
     _ ← set_current_room c (Some l);
     _ ← store_user_count room_id (r_participant_count x');
     mret 0) w.
Proof.
  unfold join_admit, admission. rewrite run_holding_act, C_bind_assoc.
  apply bind_cong. intros x w0 [Ex ->]%read_room_inv.
  destruct (_ && _); [done|]. destruct (MAX_CLIENTS <=? _); [done|].
  rewrite C_bind_assoc. apply bind_cong. intros x' w1 _.
  rewrite C_bind_assoc. apply bind_cong. intros [] w2 ->%write_room_inv.
  rewrite C_bind_assoc. apply bind_cong. intros [] w3 [E3 Hc]%set_current_room_inv.
  rewrite C_bind_ret. change (0 =? 0) with true. cbn iota.
  assert (w_rooms w3 !! l = Some x') as Hx by (rewrite E3; apply lookup_insert_eq).
  unfold join_record. rewrite run_bind, (bind_head _ _ _ _ (record_run l (mret room_id) room_id x' w3 Hx (λ A k w' _, run_ret_bind room_id k w'))).
  apply bind_cong. intros [] w4 [E4 E5]%store_user_count_inv.
  unfold join_log. rewrite log_client_room_run; [done|by rewrite E5|].
  rewrite E4. by exists x'.
Qed.

Lemma find_run room_id password c w :
  run (join_find room_id password c) w =
  (r ← room_find_by_id room_id;
   match r with
   | None => mret (-2)
   | Some l => run (join_admit room_id password c l)
   end) w.
Proof. unfold join_find. rewrite run_holding_act. apply bind_cong. by intros [l|]. Qed.

Lemma join_run room_id password c w :
  run (join_prog room_id password c) w = room_join room_id password (Some c) w.
Proof.
  unfold join_prog, room_join. rewrite run_act, C_bind_assoc.
  apply bind_cong. intros y w0 _. rewrite C_bind_ret. destruct (c_current_room y).
  - rewrite run_bind, (bind_head _ _ _ _ (leave_run (Some c) w0)), C_bind_assoc.
    apply bind_cong. intros z w1 _. rewrite C_bind_ret, find_run.
    apply bind_cong. intros [l'|] w2 _; [apply admit_run|done].
  - rewrite C_bind_ret, find_run. apply bind_cong. intros [l'|] w2 _; [apply admit_run|done].
Qed.

Lemma find_by_name_run name w : run (find_by_name_prog name) w = room_find_by_name name w.
Proof. unfold find_by_name_prog. by rewrite run_holding_end, run_act_end. Qed.
Lemma list_run n w : run (list_prog n) w = room_list_formatted n w.
Proof. unfold list_prog. by rewrite run_holding_end, run_act_end. Qed.
End alone.

(** ** The order of the mutexes *)
Section levels.
Context {D : Type} `{StoreCallsLevel D}.
#[local] Hint Resolve raw_calls_level read_calls_level write_calls_level free_calls_level : locks.
Abbreviation level := (at_level (St:=world D) mutex_rank).

Lemma log_level {St} : at_level (St:=St) mutex_rank 3 log_message.
Proof. unfold log_message. leveled. Qed.
#[local] Hint Resolve log_level : locks.
Lemma find_by_name_level name : level 1 (find_by_name_prog name).
Proof. unfold find_by_name_prog. leveled. Qed.
#[local] Hint Resolve find_by_name_level : locks.
Lemma list_level n : level 1 (list_prog n).
Proof. unfold list_prog. leveled. Qed.
Lemma create_level name password c : level 1 (create_prog name password c).
Proof. unfold create_prog. leveled. Qed.
Lemma delete_level id : level 1 (delete_prog id).
Proof. unfold delete_prog. leveled. Qed.
Lemma id_of_level l : level 3 (id_of l).
Proof. unfold id_of. leveled. Qed.
Lemma record_level l id : level 3 id → level 3 (record_prog l id).
Proof. intros Hid. unfold record_prog, count_prog. leveled. Qed.
#[local] Hint Resolve id_of_level : locks.
#[local] Hint Extern 1 (at_level _ _ (mret _)) => simple apply level_ret : locks.
Lemma log_client_room_level c l : level 3 (log_client_room c l).
Proof. unfold log_client_room. leveled. Qed.
#[local] Hint Resolve delete_level record_level log_client_room_level : locks.
Lemma empty_level l : level 1 (empty_prog l).
Proof. unfold empty_prog. leveled. Qed.
#[local] Hint Resolve empty_level : locks.
Lemma leave_level c : level 1 (leave_prog c).
Proof. unfold leave_prog, removal_prog. leveled. Qed.
Lemma remove_client_level r c : level 1 (remove_client_prog r c).
Proof. unfold remove_client_prog, removal_prog. leveled. Qed.
#[local] Hint Resolve leave_level : locks.
Lemma join_level id password c : level 1 (join_prog id password c).
Proof. unfold join_prog, join_find, join_admit, join_record, join_log. leveled. Qed.
End levels.
#[export] Hint Resolve log_level find_by_name_level list_level create_level delete_level
  leave_level remove_client_level join_level : locks.
