(* ===== verification/RoomCalls.v ===== *)
(** * The room database as system calls

    The operations of [file_db.c] as the room manager runs them: programs of
    [lseek], [read] and [write] on the two descriptors that all threads share,
    with the offsets of both files in the state, and with the log lines of the
    error paths.  No mutex holds two of the calls together (the record lock of
    [fcntl] is the process's own), so other threads run between any two.
    Without other threads they are the operations of [FileDb]: [raw_alone],
    [read_alone], [write_alone], [free_alone]. *)
From S2P Require Import Prelude CInt CString Protocol Posix RoomStore FileDb World RoomManager Interleave Locks RoomLocks.
#[local] Open Scope Z_scope.

(** The database, and the offset of [rooms_fd]; that of [wal_fd] is
    [db_wal_pos]. *)
Record open_db := OpenDb {
  od_db : db;
  od_pos : nat
}.

(** ** System calls *)

(** A computation on the database. *)
Definition on_db {D A} (m : D → A * D) : C (world D) A := λ w,
  let '(a, d) := m (w_disk w) in Some (a, with_disk d w).
Definition syscall {A} (m : open_db → A * open_db) : prog mutex (world open_db) A := act (on_db m).

Definition rooms_fd_now (o : open_db) : Z * open_db := (db_rooms_fd (od_db o), o).
Definition junk_now (o : open_db) : Z * open_db := (db_junk (od_db o), o).

(** [lseek(rooms_fd,id*sizeof(room_record),SEEK_SET)]: a negative offset is
    refused. *)
Definition rooms_seek (id : Z) (o : open_db) : unit * open_db :=
  (tt, if id <? 0 then o else OpenDb (od_db o) (Z.to_nat id * sizeof_room_record)).
Definition rooms_read (n : nat) (o : open_db) : bytes * open_db :=
  let b := file_read (f_data (db_rooms (od_db o))) (od_pos o) n in
  (b, OpenDb (od_db o) (od_pos o + length b)).
Definition rooms_put (b : bytes) (o : open_db) : Z * open_db :=
  let '(n, f) := file_write (db_rooms (od_db o)) (od_pos o) b in
  (n, OpenDb (with_rooms (od_db o) f) (od_pos o + Z.to_nat n)).

Definition wal_put (b : bytes) (o : open_db) : Z * open_db :=
  let d := od_db o in
  let '(n, f) := file_write (db_wal d) (db_wal_pos d) b in
  (n, OpenDb (with_wal d f (db_wal_pos d + Z.to_nat n)) (od_pos o)).
Definition wal_seek (pos : nat) (o : open_db) : unit * open_db :=
  (tt, OpenDb (with_wal (od_db o) (db_wal (od_db o)) pos) (od_pos o)).
(** [lseek(wal_fd,0,SEEK_END)]. *)
Definition wal_size (o : open_db) : nat * open_db :=
  let n := length (f_data (db_wal (od_db o))) in
  (n, OpenDb (with_wal (od_db o) (db_wal (od_db o)) n) (od_pos o)).
Definition wal_read (n : nat) (o : open_db) : bytes * open_db :=
  let d := od_db o in
  let b := file_read (f_data (db_wal d)) (db_wal_pos d) n in
  (b, OpenDb (with_wal d (db_wal d) (db_wal_pos d + length b)) (od_pos o)).
Definition buffer_malloc (o : open_db) : bool * open_db :=
  (malloc_ok (od_db o), OpenDb (malloc_next (od_db o)) (od_pos o)).

(** ** The operations *)
Abbreviation db_prog := (prog mutex (world open_db)).

(** [wal_write]. *)
Definition wal_write_calls (buf : bytes) : db_prog unit :=
  n ← syscall (wal_put buf);
  if n =? Z.of_nat (length buf) then mret tt else log_message.

Definition wal_begin_calls (record_id : Z) (old_rec : option room_record) (new_rec : room_record)
    : db_prog unit :=
  _ ← wal_write_calls (begin_line record_id ++ [nl]);
  _ ← wal_write_calls (old_line old_rec ++ [nl]);
  wal_write_calls (new_line new_rec ++ [nl]).
Definition wal_commit_calls (record_id : Z) : db_prog unit :=
  wal_write_calls (commit_line record_id ++ [nl]).

Definition db_read_room_raw_calls (room_id : Z) : db_prog (option room_record) :=
  fd ← syscall rooms_fd_now;
  if fd =? -1 then mret None
  else
    _ ← syscall (rooms_seek room_id);
    b ← syscall (rooms_read sizeof_room_record);
    mret (if (length b =? sizeof_room_record)%nat then Some (decode_room b) else None).

Definition db_read_room_calls (room_id : Z) : db_prog (option room_record) :=
  rec ← db_read_room_raw_calls room_id;
  mret (match rec with
        | None => None
        | Some r => if rr_is_active r =? 0 then None else Some r
        end).

(** The write of [wal_restore_old]. *)
Definition restore_record_calls (record_id : Z) (rec : room_record) : db_prog unit :=
  _ ← syscall (rooms_seek record_id);
  n ← syscall (rooms_put (encode_room rec));
  _ ← (if n =? Z.of_nat sizeof_room_record then mret tt else log_message);
  log_message.

Fixpoint wal_restore_old_calls (record_id : Z) (first : bool) (lines : list bytes)
    : db_prog unit :=
  match lines with
  | [] => mret tt
  | l :: lines' =>
    if negb first && starts_with (str "BEGIN") l then mret tt
    else if starts_with (str "OLD") l then
      if strstr (str "OLD NULL") l then restore_record_calls record_id empty_record
      else restore_record_calls record_id (parse_old l)
    else wal_restore_old_calls record_id false lines'
  end.

Fixpoint rollback_loop_calls (record_id junk : Z) (lines : list bytes) : db_prog unit :=
  match lines with
  | [] => mret tt
  | l :: lines' =>
    if starts_with (str "BEGIN") l && (scan_id "BEGIN" l junk =? record_id)
    then wal_restore_old_calls record_id true lines
    else rollback_loop_calls record_id junk lines'
  end.

Definition wal_rollback_calls (record_id : Z) : db_prog unit :=
  _ ← wal_write_calls (rollback_line record_id ++ [nl]);
  _ ← log_message;
  _ ← syscall (wal_seek 0);
  file_size ← syscall wal_size;
  if (file_size =? 0)%nat then mret tt
  else
    _ ← syscall (wal_seek 0);
    buffer ← syscall buffer_malloc;
    if negb buffer then mret tt
    else
      b ← syscall (wal_read file_size);
      junk ← syscall junk_now;
      if (length b =? 0)%nat then mret tt
      else rollback_loop_calls record_id junk (strtok_n [nl] 512 (c_str b)).

Definition db_write_room_calls (room_id : Z) (rec : room_record) : db_prog bool :=
  fd ← syscall rooms_fd_now;
  if fd =? -1 then mret false
  else
    old ← db_read_room_raw_calls room_id;
    _ ← wal_begin_calls room_id old rec;
    _ ← syscall (rooms_seek room_id);
    n ← syscall (rooms_put (encode_room rec));
    if n =? Z.of_nat sizeof_room_record then _ ← wal_commit_calls room_id; mret true
    else _ ← wal_rollback_calls room_id; mret false.

(** The scan for a free record; it is followed for [fuel] records. *)
Fixpoint next_free_loop (fuel : nat) (id : Z) : db_prog Z :=
  match fuel with
  | O => mret id
  | S fuel' =>
    b ← syscall (rooms_read sizeof_room_record);
    if (length b =? sizeof_room_record)%nat then
      if rr_is_active (decode_room b) =? 0 then mret id else next_free_loop fuel' (id + 1)
    else mret id
  end.
Definition db_next_free_room_id_calls (fuel : nat) : db_prog Z :=
  _ ← syscall (rooms_seek 0); next_free_loop fuel 0.

#[export] Instance db_calls (fuel : nat) : StoreCalls open_db := {|
  raw_calls := db_read_room_raw_calls;
  read_calls := db_read_room_calls;
  write_calls := db_write_room_calls;
  free_calls := db_next_free_room_id_calls fuel
|}.

(** ** They take no mutex but the log's *)
Section levels.
Abbreviation level := (at_level (St:=world open_db) mutex_rank).
Lemma sys_level {A} (m : open_db → A * open_db) : level 3 (syscall m).
Proof. apply level_act. Qed.
#[local] Hint Resolve sys_level : locks.
Lemma wal_write_level buf : level 3 (wal_write_calls buf).
Proof. unfold wal_write_calls. leveled. Qed.
#[local] Hint Resolve wal_write_level : locks.
Lemma raw_level id : level 3 (db_read_room_raw_calls id).
Proof. unfold db_read_room_raw_calls. leveled. Qed.
#[local] Hint Resolve raw_level : locks.
Lemma restore_level id first lines : level 3 (wal_restore_old_calls id first lines).
Proof.
  revert first. induction lines; intros first; cbn [wal_restore_old_calls];
    unfold restore_record_calls; leveled.
Qed.
#[local] Hint Resolve restore_level : locks.
Lemma rollback_loop_level id junk lines : level 3 (rollback_loop_calls id junk lines).
Proof. induction lines; cbn [rollback_loop_calls]; leveled. Qed.
#[local] Hint Resolve rollback_loop_level : locks.
Lemma next_free_level fuel : ∀ id, level 3 (next_free_loop fuel id).
Proof. induction fuel; intros id; cbn [next_free_loop]; leveled. Qed.
#[local] Hint Resolve next_free_level : locks.
#[export] Instance db_calls_level fuel : @StoreCallsLevel open_db (db_calls fuel).
Proof.
  split; cbn [raw_calls read_calls write_calls free_calls db_calls]; intros;
    unfold db_read_room_calls, db_write_room_calls, wal_begin_calls, wal_commit_calls,
      wal_rollback_calls, db_next_free_room_id_calls; leveled.
Qed.
End levels.

(** ** Without other threads they are the operations of [FileDb] *)
Section alone.
Implicit Types w : world open_db.

(** Alone, the program does [m] on the database and leaves the offset of
    [rooms_fd] somewhere. *)
Definition performs {A} (p : db_prog A) (m : db → A * db) : Prop := ∀ w, ∃ pos,
  run p w = Some ((m (od_db (w_disk w))).1, with_disk (OpenDb (m (od_db (w_disk w))).2 pos) w).

Lemma performs_bind {A B} (p : db_prog A) m (k : A → db_prog B) f g :
  performs p m → (∀ a, performs (k a) (f a)) → (∀ d, f (m d).1 (m d).2 = g d) →
  performs (p ≫= k) g.
Proof.
  intros Hp Hk E w. destruct (Hp w) as [pos Hrun].
  destruct (Hk (m (od_db (w_disk w))).1 (with_disk (OpenDb (m (od_db (w_disk w))).2 pos) w))
    as [pos' Hrun'].
  exists pos'. by rewrite run_bind, (C_bind_run _ _ _ _ _ Hrun), <-E.
Qed.
Lemma performs_ret {A} (a : A) : performs (mret a) (λ d, (a, d)).
Proof. intros w. exists (od_pos (w_disk w)). by destruct w as [? ? ? ? [] ? ?]. Qed.
Lemma performs_log {A} (p : db_prog A) m : performs p m → performs (_ ← log_message; p) m.
Proof. intros Hp w. apply Hp. Qed.
(** One system call, from any offset. *)
Lemma performs_sys {A} (m : open_db → A * open_db) m' :
  (∀ o, (m o).1 = (m' (od_db o)).1 ∧ od_db (m o).2 = (m' (od_db o)).2) →
  performs (syscall m) m'.
Proof.
  intros Hm w. destruct (Hm (w_disk w)) as [E1 E2]. exists (od_pos (m (w_disk w)).2).
  unfold syscall. rewrite run_act_end. unfold on_db. rewrite <-E1, <-E2.
  by destruct (m (w_disk w)) as [a []].
Qed.

Lemma wal_write_alone buf : performs (wal_write_calls buf) (λ d, (tt, wal_write d buf)).
Proof.
  apply (performs_bind _ (λ d, let '(n, f) := file_write (db_wal d) (db_wal_pos d) buf in
    (n, with_wal d f (db_wal_pos d + Z.to_nat n))) _ (λ _ d, (tt, d))).
  - apply performs_sys. intros o. unfold wal_put. by destruct (file_write _ _ _).
  - intros n. case_match; apply performs_ret.
  - intros d. unfold wal_write. by destruct (file_write _ _ _).
Qed.
(** A seek and the call after it. *)
Lemma performs_seek {A B} id (m : open_db → A * open_db) m' (k : A → db_prog B) f g : 0 ≤ id →
  (∀ d, let r := m (OpenDb d (Z.to_nat id * sizeof_room_record)) in
     r.1 = (m' d).1 ∧ od_db r.2 = (m' d).2) →
  (∀ a, performs (k a) (f a)) → (∀ d, f (m' d).1 (m' d).2 = g d) →
  performs (_ ← syscall (rooms_seek id); a ← syscall m; k a) g.
Proof.
  intros Hid Hm Hk E w. unfold syscall. rewrite run_act.
  rewrite (C_bind_run _ _ _ tt
    (with_disk (OpenDb (od_db (w_disk w)) (Z.to_nat id * sizeof_room_record)) w)).
  2: { unfold on_db, rooms_seek. by rewrite (proj2 (Z.ltb_ge _ _)). }
  rewrite run_act. destruct (Hm (od_db (w_disk w))) as [E1 E2].
  destruct (m (OpenDb (od_db (w_disk w)) _)) as [a o] eqn:Em. cbn in E1, E2.
  rewrite (C_bind_run _ _ _ a (with_disk o w)).
  2: { unfold on_db. cbn [w_disk with_disk]. by rewrite Em. }
  destruct (Hk a (with_disk o w)) as [pos ->]. exists pos. cbn [w_disk with_disk].
  by rewrite E2, E1, E.
Qed.

Lemma raw_alone id : 0 ≤ id →
  performs (db_read_room_raw_calls id) (λ d, (db_read_room_raw d id, d)).
Proof.
  intros Hid. apply (performs_bind _ (λ d, (db_rooms_fd d, d)) _ (λ fd d,
    (if fd =? -1 then None
     else let b := file_read (f_data (db_rooms d)) (Z.to_nat id * sizeof_room_record)
                     sizeof_room_record in
       if (length b =? sizeof_room_record)%nat then Some (decode_room b) else None, d))).
  - by apply performs_sys.
  - intros fd. case_match; [apply performs_ret|].
    apply (performs_seek id _ (λ d, (file_read (f_data (db_rooms d))
      (Z.to_nat id * sizeof_room_record) sizeof_room_record, d)) _ (λ b d,
      (if (length b =? sizeof_room_record)%nat then Some (decode_room b) else None, d))); try done.
    intros b. apply performs_ret.
  - done.
Qed.

Lemma read_alone id : 0 ≤ id →
  performs (db_read_room_calls id) (λ d, (db_read_room d id, d)).
Proof.
  intros Hid. apply (performs_bind _ _ _ (λ rec d,
    (match rec with
     | None => None
     | Some r => if rr_is_active r =? 0 then None else Some r
     end, d)) _ (raw_alone id Hid)); [|done].
  intros rec. apply performs_ret.
Qed.

(** The seek and the write of a record. *)
Lemma put_alone {B} id rec (k : Z → db_prog B) f g : 0 ≤ id →
  (∀ n, performs (k n) (f n)) →
  (∀ d, f (rooms_write d id rec).1 (rooms_write d id rec).2 = g d) →
  performs (_ ← syscall (rooms_seek id); n ← syscall (rooms_put (encode_room rec)); k n) g.
Proof.
  intros Hid Hk E. apply (performs_seek id _ (λ d, rooms_write d id rec) _ f); [done| |done|done].
  intros d. unfold rooms_put, rooms_write. cbn [od_db od_pos]. by destruct (file_write _ _ _).
Qed.

Lemma restore_record_alone id rec : 0 ≤ id →
  performs (restore_record_calls id rec) (λ d, (tt, (rooms_write d id rec).2)).
Proof.
  intros Hid. apply (put_alone _ _ _ (λ _ d, (tt, d))); [done| |done].
  intros n. case_match; apply performs_ret.
Qed.

Lemma restore_alone id first lines : 0 ≤ id →
  performs (wal_restore_old_calls id first lines) (λ d, (tt, wal_restore_old d id first lines)).
Proof.
  intros Hid. revert first. induction lines as [|l lines IH]; intros first;
    cbn [wal_restore_old_calls wal_restore_old]; [apply performs_ret|].
  case_match; [apply performs_ret|]. case_match; [|apply IH].
  case_match; by apply restore_record_alone.
Qed.

Lemma rollback_loop_alone id junk lines : 0 ≤ id → ∀ d0, db_junk d0 = junk →
  ∀ w, od_db (w_disk w) = d0 → ∃ pos, run (rollback_loop_calls id junk lines) w =
    Some (tt, with_disk (OpenDb (rollback_loop d0 id lines) pos) w).
Proof.
  intros Hid d0 Hj. induction lines as [|l lines IH]; intros w Hw;
    cbn [rollback_loop_calls rollback_loop].
  - subst d0. apply (performs_ret tt).
  - rewrite Hj. case_match; [|by apply IH]. subst d0. by apply restore_alone.
Qed.
Lemma search_alone id (empty : bool) lines : 0 ≤ id →
  performs (junk ← syscall junk_now;
            if empty then mret tt else rollback_loop_calls id junk lines)
    (λ d, (tt, if empty then d else rollback_loop d id lines)).
Proof.
  intros Hid w. unfold syscall. rewrite run_act.
  rewrite (C_bind_run _ _ _ (db_junk (od_db (w_disk w))) w) by (by destruct w).
  destruct empty; [apply (performs_ret tt)|by apply rollback_loop_alone].
Qed.

Lemma read_back_alone id size : 0 ≤ id → (0 < size)%nat →
  performs (_ ← syscall (wal_seek 0);
            buffer ← syscall buffer_malloc;
            if negb buffer then mret tt
            else
              b ← syscall (wal_read size);
              junk ← syscall junk_now;
              if (length b =? 0)%nat then mret tt
              else rollback_loop_calls id junk (strtok_n [nl] 512 (c_str b)))
    (λ d, (tt, if negb (malloc_ok d) then malloc_next (with_wal d (db_wal d) 0)
               else
                 let b := take size (f_data (db_wal d)) in
                 let d2 := malloc_next (with_wal d (db_wal d) (length b)) in
                 if (length b =? 0)%nat then d2
                 else rollback_loop d2 id (strtok_n [nl] 512 (c_str b)))).
Proof.
  intros Hid Hs. apply (performs_bind _ (λ d, (tt, with_wal d (db_wal d) 0)) _ (λ _ d,
    (tt, if negb (malloc_ok d) then malloc_next d
         else
           let b := file_read (f_data (db_wal d)) (db_wal_pos d) size in
           let d2 := with_wal (malloc_next d) (db_wal d) (db_wal_pos d + length b) in
           if (length b =? 0)%nat then d2
           else rollback_loop d2 id (strtok_n [nl] 512 (c_str b))))); [by apply performs_sys| |done].
  intros _. apply (performs_bind _ (λ d, (malloc_ok d, malloc_next d)) _ (λ ok d,
    (tt, if negb ok then d
         else
           let b := file_read (f_data (db_wal d)) (db_wal_pos d) size in
           let d2 := with_wal d (db_wal d) (db_wal_pos d + length b) in
           if (length b =? 0)%nat then d2
           else rollback_loop d2 id (strtok_n [nl] 512 (c_str b))))); [by apply performs_sys| |done].
  intros ok. case_match; [apply performs_ret|].
  apply (performs_bind _ (λ d, let b := file_read (f_data (db_wal d)) (db_wal_pos d) size in
    (b, with_wal d (db_wal d) (db_wal_pos d + length b))) _ (λ b d,
    (tt, if (length b =? 0)%nat then d
         else rollback_loop d id (strtok_n [nl] 512 (c_str b))))); [by apply performs_sys| |done].
  intros b. by apply search_alone.
Qed.

Lemma rollback_alone id : 0 ≤ id →
  performs (wal_rollback_calls id) (λ d, (tt, wal_rollback d id)).
Proof.
  intros Hid. apply (performs_bind _ (λ d, (tt, wal_write d (rollback_line id ++ [nl]))) _ (λ _ d,
    (tt, let size := length (f_data (db_wal d)) in
         if (size =? 0)%nat then with_wal d (db_wal d) size
         else if negb (malloc_ok d) then malloc_next (with_wal d (db_wal d) 0)
         else rollback_loop (malloc_next (with_wal d (db_wal d) size)) id (wal_lines d))));
    [apply wal_write_alone| |done].
  intros _. apply performs_log.
  apply (performs_bind _ (λ d, (tt, with_wal d (db_wal d) 0)) _ (λ _ d,
    (tt, let size := length (f_data (db_wal d)) in
         if (size =? 0)%nat then with_wal d (db_wal d) size
         else if negb (malloc_ok d) then malloc_next (with_wal d (db_wal d) 0)
         else rollback_loop (malloc_next (with_wal d (db_wal d) size)) id (wal_lines d))));
    [by apply performs_sys| |done].
  intros _ w. unfold syscall. rewrite run_act.
  set (d := od_db (w_disk w)). set (size := length (f_data (db_wal d))).
  rewrite (C_bind_run _ _ _ size
    (with_disk (OpenDb (with_wal d (db_wal d) size) (od_pos (w_disk w))) w)) by done.
  cbn [fst snd]. destruct (size =? 0)%nat eqn:E.
  { by exists (od_pos (w_disk w)). }
  apply Nat.eqb_neq in E.
  destruct (read_back_alone id size Hid ltac:(lia)
    (with_disk (OpenDb (with_wal d (db_wal d) size) (od_pos (w_disk w))) w)) as [pos Hrun].
  exists pos. etransitivity; [exact Hrun|]. cbn -[take rollback_loop strtok_n Nat.eqb].
  rewrite take_ge by lia. fold size. by rewrite (proj2 (Nat.eqb_neq _ _)).
Qed.

Lemma begin_alone id old rec :
  performs (wal_begin_calls id old rec) (λ d, (tt, wal_begin d id old rec)).
Proof.
  apply (performs_bind _ (λ d, (tt, wal_write d (begin_line id ++ [nl]))) _ (λ _ d,
    (tt, wal_write (wal_write d (old_line old ++ [nl])) (new_line rec ++ [nl]))));
    [apply wal_write_alone|intros _|done].
  apply (performs_bind _ (λ d, (tt, wal_write d (old_line old ++ [nl]))) _ (λ _ d,
    (tt, wal_write d (new_line rec ++ [nl])))); [apply wal_write_alone|intros _|done].
  apply wal_write_alone.
Qed.

(** The write of a record, on its path of success and on those of failure. *)
Lemma write_alone id rec : 0 ≤ id →
  performs (db_write_room_calls id rec) (λ d, db_write_room d id rec).
Proof.
  intros Hid. apply (performs_bind _ (λ d, (db_rooms_fd d, d)) _ (λ fd d,
    if fd =? -1 then (false, d)
    else let '(n, d2) := rooms_write (wal_begin d id (db_read_room_raw d id) rec) id rec in
      if n =? Z.of_nat sizeof_room_record then (true, wal_commit d2 id)
      else (false, wal_rollback d2 id))); [by apply performs_sys| |done].
  intros fd. case_match; [apply performs_ret|].
  apply (performs_bind _ _ _ (λ old d,
    let '(n, d2) := rooms_write (wal_begin d id old rec) id rec in
      if n =? Z.of_nat sizeof_room_record then (true, wal_commit d2 id)
      else (false, wal_rollback d2 id)) _ (raw_alone id Hid)); [intros old|done].
  apply (performs_bind _ _ _ (λ _ d,
    let '(n, d2) := rooms_write d id rec in
      if n =? Z.of_nat sizeof_room_record then (true, wal_commit d2 id)
      else (false, wal_rollback d2 id)) _ (begin_alone id old rec)); [intros _|done].
  apply (put_alone _ _ _ (λ n d2, if n =? Z.of_nat sizeof_room_record then (true, wal_commit d2 id)
    else (false, wal_rollback d2 id))); [done| |].
  - intros n. case_match.
    + apply (performs_bind _ _ _ (λ _ d, (true, d)) _ (wal_write_alone _)); [|done].
      intros _. apply performs_ret.
    + apply (performs_bind _ _ _ (λ _ d, (false, d)) _ (rollback_alone id Hid)); [|done].
      intros _. apply performs_ret.
  - intros d. by destruct (rooms_write d id rec).
Qed.

(** The scan finds the first record that is free, or the end. *)
Lemma next_free_alone fuel : ∀ id w,
  let d := od_db (w_disk w) in
  let data := drop (od_pos (w_disk w)) (f_data (db_rooms d)) in
  (length (chunks sizeof_room_record data) ≤ fuel)%nat → ∃ pos,
  run (next_free_loop fuel id) w =
    Some (first_free (room_records data) id, with_disk (OpenDb d pos) w).
Proof.
  induction fuel as [|fuel IH]; intros id w d data Hf.
  { exists (od_pos (w_disk w)). unfold room_records.
    destruct (chunks _ _); [|cbn in Hf; lia]. by destruct w as [? ? ? ? [] ? ?]. }
  cbn [next_free_loop]. unfold syscall. rewrite run_act.
  set (b := take sizeof_room_record data).
  rewrite (C_bind_run _ _ _ b
    (with_disk (OpenDb d (od_pos (w_disk w) + length b)) w)) by done.
  destruct (length b =? sizeof_room_record)%nat eqn:E.
  2: { apply Nat.eqb_neq in E. subst b. rewrite length_take in E.
       exists (od_pos (w_disk w) + length (take sizeof_room_record data))%nat.
       unfold room_records. by rewrite chunks_short by lia. }
  apply Nat.eqb_eq in E.
  assert (chunks sizeof_room_record data =
    b :: chunks sizeof_room_record (drop sizeof_room_record data)) as Hc.
  { rewrite <-(take_drop sizeof_room_record data) at 1. apply chunks_app; [|done].
    unfold sizeof_room_record. lia. }
  rewrite Hc in Hf. unfold room_records. rewrite Hc. cbn [fmap list_fmap first_free].
  case_match.
  { by exists (od_pos (w_disk w) + length b)%nat. }
  destruct (IH (id + 1) (with_disk (OpenDb d (od_pos (w_disk w) + length b)) w)) as [pos Hrun].
  - cbn [w_disk with_disk od_db od_pos]. rewrite E, <-drop_drop. cbn [length] in Hf. subst data d. lia.
  - exists pos. rewrite Hrun. cbn [w_disk with_disk od_db od_pos]. by rewrite E, <-drop_drop.
Qed.
Lemma free_alone fuel w : (length (f_data (db_rooms (od_db (w_disk w)))) ≤ fuel)%nat →
  ∃ pos, run (db_next_free_room_id_calls fuel) w =
    Some (db_next_free_room_id (od_db (w_disk w)),
      with_disk (OpenDb (od_db (w_disk w)) pos) w).
Proof.
  intros Hf. unfold db_next_free_room_id_calls, syscall. rewrite run_act.
  rewrite (C_bind_run _ _ _ tt (with_disk (OpenDb (od_db (w_disk w)) 0) w)) by done.
  destruct (next_free_alone fuel 0 (with_disk (OpenDb (od_db (w_disk w)) 0) w)) as [pos Hrun].
  - cbn [w_disk with_disk od_db od_pos drop]. etransitivity; [apply length_chunks|done].
  - exists pos. by rewrite Hrun.
Qed.
End alone.
