(* ===== verification/Threads.v ===== *)
(** * The room manager's operations, interleaved

    In the source the operations of [room_manager.c] are not atomic: they take
    and release [rooms_mutex] and a room's lock several times, and touch the
    room and the disk between without a lock.  Here an operation is the thread
    of the sections of its program in [RoomLocks]; a schedule interleaves the
    threads of several workers.  The operations take mutexes only around one
    section, so these are the interleavings that the mutexes allow, with a call
    of the room database as one access.  Alone, a thread does exactly what [RoomManager] says.  Then two interleavings that
    the locks do not exclude: a JOIN that uses a freed room, and two CREATEs
    that make the same room twice. *)
From S2P Require Import Prelude CInt CString Protocol Posix RoomStore FileDb World RoomManager RoomInv RoomState Rooms Interleave Locks RoomLocks.
#[local] Open Scope Z_scope.

(** ** The operations *)
Section operations.
Context {D : Type} `{RoomStore D}.
Implicit Types w : world D.

Definition create_thread (name password : bytes) (creator : loc) : thread (world D) Z :=
  sections (create_prog name password creator).
Definition delete_thread (room_id : Z) : thread (world D) Z := sections (delete_prog room_id).
Definition leave_thread (c : option loc) : thread (world D) Z := sections (leave_prog c).
Definition join_thread (room_id : Z) (password : bytes) (c : loc) : thread (world D) Z :=
  sections (join_prog room_id password c).

Lemma leave_alone c w : alone (leave_thread c) w = room_leave c w.
Proof. apply leave_run. Qed.
Lemma join_alone room_id password c w :
  alone (join_thread room_id password c) w = room_join room_id password (Some c) w.
Proof. apply join_run. Qed.

(** The operations of the room manager, cut into the sections between which
    other workers can run, are the operations: a worker that is not interrupted
    runs [room_create], [room_delete], [room_join] and [room_leave] exactly as
    the model without threads says, undefined behaviour included. *)
Theorem threads_alone w :
  (∀ name password creator,
     alone (create_thread name password creator) w = room_create name password creator w) ∧
  (∀ room_id, alone (delete_thread room_id) w = room_delete room_id w) ∧
  (∀ room_id password c,
     alone (join_thread room_id password c) w = room_join room_id password (Some c) w) ∧
  (∀ c, alone (leave_thread c) w = room_leave c w).
Proof.
  split_and!; intros; [apply create_run|apply delete_run|apply join_run|apply leave_run].
Qed.
End operations.

(** ** A race: joining a room while its last member leaves *)
Section race.
Context {D : Type} `{RoomStoreLaws D}.
Implicit Types w : world D.

(** A client that is in no room. *)
Definition outside w (c : loc) : Prop :=
  ∃ y, w_clients w !! c = Some y ∧ c_is_active y ≠ 0 ∧ c_current_room y = None.

Lemma freed_room w rs (i : nat) l a c : room_state w rs → rs !! i = Some (l, a) →
  ar_members a = [c] → ∃ w', room_leave (Some c) w = Some (0, w') ∧
    room_state w' (RoomSpec.leave rs c) ∧ w_rooms w' !! l = None ∧
    (∀ d, d ≠ c → w_clients w' !! d = w_clients w !! d).
Proof.
  intros Hs Hi Ha. pose proof Hs as [[Hm Hd] Hme]. pose proof (dll_nodup _ _ _ (mo_dll _ _ Hm)) as Hn.
  assert (c ∈ ar_members a) as Hc by (rewrite Ha; by apply list_elem_of_singleton).
  destruct (me_client _ _ Hme l a c (list_elem_of_lookup_2 _ _ _ Hi) Hc) as (y&Hy&Hact&Hr).
  destruct (room_leave_run w rs c y l Hs Hy Hact Hr) as (w'&Hrun&Hs'&Hc').
  exists w'. split; [done|]. split; [done|]. split.
  - destruct Hs' as [[Hm' _] _]. apply not_elem_of_dom. rewrite (mo_dom _ _ Hm').
    rewrite elem_of_list_to_set, list_elem_of_fmap. intros ([k b]&->&Hin).
    unfold RoomSpec.leave in Hin. rewrite (room_of_spec _ _ _ _ _ _ Hme Hn Hi Hc) in Hin.
    apply (leave_elem rs i) in Hin as [[? _]|(_&_&Hne)]; [done| |done|done].
    apply Hne. rewrite Ha. unfold remove_member. cbn. by rewrite decide_False by auto.
  - intros d Hdc. by rewrite Hc', lookup_insert_ne.
Qed.
(** A leave is defined for every active client. *)
Lemma room_leave_any w rs c y : room_state w rs → w_clients w !! c = Some y →
  c_is_active y ≠ 0 → ∃ z w', room_leave (Some c) w = Some (z, w').
Proof.
  intros Hs Hy Hact. destruct (c_current_room y) as [l|] eqn:Er.
  - destruct (room_leave_run w rs c y l Hs Hy Hact Er) as (w'&->&_). by eexists _, _.
  - unfold room_leave. rewrite (C_bind_run _ _ _ _ _ (read_client_run _ _ _ Hy)), Er.
    by eexists _, _.
Qed.

Lemma outside_read w c y : w_clients w !! c = Some y →
  (y ← read_client c; mret (c_current_room y)) w = Some (c_current_room y, w).
Proof. intros Hy. by rewrite (C_bind_run _ _ _ _ _ (read_client_run _ _ _ Hy)). Qed.

(** C30. The locks do not protect a join from a leave.  A room has one member,
    another client joins it.  When the two commands run one after the other, in
    either order, everything is defined.  But [room_join] releases
    [rooms_mutex] before it takes the lock of the room it has found: if the
    member leaves in between, the room is freed, and the join accesses the
    freed object. *)
Theorem join_races_with_leave w rs (i : nat) l a c1 c2 password :
  room_state w rs → rs !! i = Some (l, a) → ar_members a = [c1] → outside w c2 →
  (∃ schedule, interleave schedule
     [join_thread (ar_id a) password c2; leave_thread (Some c1)] w = None) ∧
  (∃ code w', (_ ← alone (join_thread (ar_id a) password c2);
               alone (leave_thread (Some c1))) w = Some (code, w')) ∧
  (∃ code w', (_ ← alone (leave_thread (Some c1));
               alone (join_thread (ar_id a) password c2)) w = Some (code, w')).
Proof.
  intros Hs Hi Ha (y&Hy&Hact&Hr). pose proof Hs as [[Hm Hd] Hme].
  destruct (freed_room w rs i l a c1 Hs Hi Ha) as (w1&Hrun&Hs1&Hfree&Hcl).
  assert (c2 ≠ c1) as Hne.
  { intros ->. eapply (no_room_outside (w_clients w) rs c1 y l a); try done.
    - by eapply list_elem_of_lookup_2.
    - rewrite Ha. by apply list_elem_of_singleton. }
  assert (c1 ∈ ar_members a) as Hc by (rewrite Ha; by apply list_elem_of_singleton).
  destruct (me_client _ _ Hme l a c1 (list_elem_of_lookup_2 _ _ _ Hi) Hc) as (y1&Hy1&Hact1&_).
  split; [|split].
  - set (ts := [join_thread (ar_id a) password c2; leave_thread (Some c1)]).
    set (ts2 := [sections (join_admit (ar_id a) password c2 l); leave_thread (Some c1)]).
    rewrite <-leave_alone in Hrun.
    destruct (run_thread (leave_thread (Some c1)) 1 ts2 w 0 w1 eq_refl Hrun) as [n Hn].
    exists ([0; 0] ++ (replicate n 1 ++ [0]))%nat. rewrite interleave_app.
    assert (interleave [0; 0]%nat ts w = Some (ts2, w)) as E.
    { cbn [interleave]. erewrite C_bind_run
        by (eapply turn_run; [reflexivity|apply (outside_read _ _ _ Hy)]).
      rewrite Hr. erewrite C_bind_run.
      2: { eapply turn_run; [reflexivity|apply (room_find_by_id_run _ _ _ Hm)]. }
      by rewrite (first_room_id _ _ _ _ _ Hm Hi). }
    rewrite (C_bind_run _ _ _ _ _ E), interleave_app, (C_bind_run _ _ _ _ _ Hn).
    cbn [interleave]. unfold mbind, C_bind, turn, admission. cbn.
    unfold mbind, C_bind, admission, mbind, C_bind, read_room. by rewrite Hfree.
  - destruct (room_join_run w rs c2 y (ar_id a) password Hs Hy Hact) as (w2&Hj&Hs2&Hc2).
    destruct (room_leave_any w2 _ c1 y1 Hs2) as (z&w3&Hl);
      [by rewrite Hc2, lookup_insert_ne|done|].
    exists z, w3. unfold mbind, C_bind. by rewrite join_alone, Hj, leave_alone.
  - destruct (room_join_run w1 _ c2 y (ar_id a) password Hs1) as (w2&Hj&_);
      [by rewrite Hcl|done|].
    eexists _, _. unfold mbind, C_bind. by rewrite leave_alone, Hrun, join_alone, Hj.
Qed.
End race.

(** ** Witness *)
Lemma demo_outside (w : world db) c : w_clients w !! c = w_clients demo_world !! c →
  is_Some (w_clients demo_world !! c) → outside w c.
Proof.
  intros E [y Hy]. exists y. rewrite E. split; [done|]. revert Hy. cbn.
  rewrite lookup_insert_Some, lookup_singleton_Some. intros [[_ <-]|[_ [_ <-]]]; done.
Qed.

Lemma join_races_with_leave_witness : ∃ (w : world db) schedule,
  interleave schedule [join_thread 0 (str "pw") 2%positive; leave_thread (Some 1%positive)] w
    = None.
Proof.
  destruct demo_joined as (w&a&Hs&Ha&Hid&_&_&Hc).
  destruct (join_races_with_leave w _ 0 2%positive a 1%positive 2%positive (str "pw") Hs
    eq_refl Ha) as [[schedule Hrun] _].
  { apply demo_outside; [by rewrite Hc, lookup_insert_ne|by eexists]. }
  rewrite Hid in Hrun. by exists w, schedule.
Defined.

(** ** A race: creating a room twice *)
Definition demo_creates : option (list (thread (world db) Z) * world db) :=
  interleave (flat_map (λ _, [0; 1]%nat) (seq 0 8))
    [create_thread (str "lobby") (str "pw") 1%positive;
     create_thread (str "lobby") (str "pw") 2%positive] demo_world.

(** Two workers create a room of the same name at the same time, turn by turn.
    Both succeed with the same id, and the list has two rooms that agree in
    name and id; alone, the second is refused ([Rooms.room_create_taken]). *)
Lemma racing_creates_duplicate :
  match demo_creates with
  | Some ([Return id1; Return id2], w') =>
    id1 = 0 ∧ id2 = 0 ∧ w_room_count w' = 2 ∧ w_room_head w' = Some 2%positive ∧
    (r_room_id <$> w_rooms w' !! 2%positive) = Some 0 ∧
    (r_next <$> w_rooms w' !! 2%positive) = Some (Some 3%positive) ∧
    (r_room_id <$> w_rooms w' !! 3%positive) = Some 0 ∧
    (c_str ∘ r_room_name <$> w_rooms w' !! 2%positive) = Some (str "lobby") ∧
    (c_str ∘ r_room_name <$> w_rooms w' !! 3%positive) = Some (str "lobby")
  | _ => False
  end.
Proof. vm_compute. split_and!; reflexivity. Qed.
