(* ===== verification/Joins.v ===== *)
(** * Clients that join at the same time

    Any number of workers run JOIN for different clients, interleaved by any
    schedule, the room database at its system calls ([RoomCalls]).  Nothing is
    undefined, every client gets the answer that is right for it, and the room
    list in memory keeps its invariant.  The disk has no such luck: the count
    of users is read, changed and written without a lock, and an update can be
    lost ([join_count_lost]; [SharedOffset] has the worse cases). *)
From S2P Require Import Prelude CInt CString Protocol Posix RoomStore FileDb World RoomManager RoomInv RoomState Rooms Interleave Locks RoomLocks RoomCalls Threads.
#[local] Open Scope Z_scope.


Definition admits (a : aroom) (password : bytes) : Prop :=
  ar_password a = [] ∨ ar_password a = c_str password.
#[export] Instance admits_dec a password : Decision (admits a password).
Proof. unfold admits. apply _. Defined.

(** [rs'] has the rooms of [rs], with members added at the end. *)
Definition grown (rs rs' : arooms) : Prop :=
  Forall2 (λ x y, x.1 = y.1 ∧ same_room x.2 y.2 ∧ ar_members x.2 `prefix_of` ar_members y.2) rs rs'.
Lemma grown_refl rs : grown rs rs.
Proof. apply Forall2_same_length_lookup_2; [done|]. intros i x y Hx Hy. by simplify_eq. Qed.

Lemma grown_trans rs1 rs2 rs3 : grown rs1 rs2 → grown rs2 rs3 → grown rs1 rs3.
Proof.
  intros H1. revert rs3. induction H1 as [|x y rs rs' (E1&(A1&A2&A3)&P1) _ IH]; intros rs3 H2.
  { inv H2. constructor. }
  inv H2 as [|? z ? zs (E2&(B1&B2&B3)&P2) Hz]. constructor; [|by apply IH].
  unfold same_room. split_and!; try congruence. by etrans.
Qed.



Lemma grown_add rs (i : nat) l a c : rs !! i = Some (l, a) →
  grown rs (<[i := (l, RoomSpec.add_member a c)]> rs).
Proof.
  intros Hi. apply Forall2_same_length_lookup_2; [by rewrite length_insert|].
  intros j x y Hx Hy. destruct (decide (j = i)) as [->|Hj].
  - rewrite list_lookup_insert_eq in Hy by (by eapply lookup_lt_Some). simplify_eq. cbn.
    split_and!; [done|done|]. by eexists.
  - rewrite list_lookup_insert_ne in Hy by done. by simplify_eq.
Qed.

Lemma grown_lookup rs rs' (i : nat) l a' : grown rs rs' → rs' !! i = Some (l, a') →
  ∃ a, rs !! i = Some (l, a) ∧ same_room a a' ∧ ar_members a `prefix_of` ar_members a'.
Proof.
  intros Hg Hi. destruct (Forall2_lookup_r _ _ _ _ _ Hg Hi) as ([k a]&Hi'&E&?).
  cbn in *. subst k. by exists a.
Qed.

Lemma grown_ids rs rs' : grown rs rs' → ids_ok rs' → ids_ok rs.
Proof.
  intros Hg. unfold ids_ok. enough (ar_id ∘ snd <$> rs' = ar_id ∘ snd <$> rs) as -> by done.
  induction Hg as [|x y rs rs' (_&(E&_)&_) _ IH]; [done|]. cbn [fmap list_fmap].
  f_equal; [done|exact IH].
Qed.

(** A room that lags behind may catch up with some of the members. *)
Lemma grown_catch_up rs rs' (i : nat) l a' n : grown rs rs' → rs' !! i = Some (l, a') →
  grown (<[i := (l, with_members a' (take n (ar_members a')))]> rs) rs'.
Proof.
  intros Hg Hi. apply Forall2_same_length_lookup_2.
  { rewrite length_insert. by eapply Forall2_length. }
  intros j x y Hx Hy. apply list_lookup_insert_Some in Hx as [(<-&<-&_)|[_ Hx]].
  - simplify_eq. cbn. split_and!; [done|done|]. apply prefix_take.
  - by apply (Forall2_lookup_lr _ _ _ _ _ _ Hg Hx Hy).
Qed.

(** ** What the database may do to a join *)
Section disk.
Context {D : Type}.
Implicit Types w : world D.

(** Where [P] holds the program has at most [n] sections, all defined, that
    change nothing but the disk, and its answer satisfies [Q]. *)
Fixpoint disk_calls {A} (P : world D → Prop) (Q : A → Prop) (p : prog mutex (world D) A)
    (n : nat) : Prop :=
  match p, n with
  | Done a, _ => Q a
  | Do _ _, O => False
  | Do m k, S n' =>
    (∀ w, P w → ∃ b d, m w = Some (b, with_disk d w)) ∧ ∀ b, disk_calls P Q (k b) n'
  | Lock _ p', _ | Unlock _ p', _ => disk_calls P Q p' n
  end.
(** Any state, any answer. *)
Definition any {A} (_ : A) : Prop := True.

Lemma disk_calls_mono {A} (P P' : world D → Prop) Q (p : prog mutex (world D) A) n m :
  (∀ w, P' w → P w) → (n ≤ m)%nat → disk_calls P Q p n → disk_calls P' Q p m.
Proof.
  intros HP. revert n m. induction p as [a|X c f IH|l p IH|l p IH]; intros n m Hle; cbn; eauto.
  destruct n as [|n]; [done|]. destruct m as [|m]; [lia|]. intros [Hc Hf].
  split; [auto|]. intros b. apply (IH b n); [lia|done].
Qed.
Lemma disk_calls_bind {A B} P Q R (p : prog mutex (world D) A) (k : A → prog mutex (world D) B)
    n m :
  disk_calls P Q p n → (∀ a, disk_calls P R (k a) m) → disk_calls P R (p ≫= k) (n + m).
Proof.
  change (p ≫= k) with (pbind p k). intros Hp Hk. revert n Hp.
  induction p as [a|X c f IH|l p IH|l p IH]; intros n Hp; cbn [pbind disk_calls] in *; auto.
  - eapply disk_calls_mono; [done| |apply Hk]. lia.
  - destruct n as [|n]; [done|]. destruct Hp as [Hc Hf]. split; [done|].
    intros b. by apply IH.
Qed.
End disk.

(** The database reads a record in [rd] such sections and writes it in [wr]. *)
Class DiskCalls (D : Type) {SC : StoreCalls D} (rd wr : nat) := {
  raw_disk_calls id : disk_calls any any (raw_calls id) rd;
  write_disk_calls id rec : disk_calls any any (write_calls id rec) wr
}.

Section database.
Abbreviation calls := (disk_calls (D:=open_db) any any).
Lemma sys_calls {A} (m : open_db → A * open_db) : calls (syscall m) 1.
Proof.
  split; [|done]. intros w _. unfold on_db. destruct (m (w_disk w)) as [a d]. by exists a, d.
Qed.
Lemma sys_bind {A B} (m : open_db → A * open_db) (k : A → prog mutex (world open_db) B) n :
  (∀ a, calls (k a) n) → calls (syscall m ≫= k) (S n).
Proof. apply (disk_calls_bind _ any _ (syscall m) k 1 n (sys_calls m)). Qed.
Lemma log_bind {B} (k : unit → prog mutex (world open_db) B) n :
  calls (k tt) n → calls (log_message ≫= k) n.
Proof. done. Qed.
Lemma wal_write_disk buf : calls (wal_write_calls buf) 1.
Proof. apply sys_bind. intros n. by case_match. Qed.
Lemma raw_disk id : calls (db_read_room_raw_calls id) 3.
Proof. apply sys_bind. intros fd. case_match; [done|]. by do 2 (apply sys_bind; intros ?). Qed.
Lemma restore_disk id first lines : calls (wal_restore_old_calls id first lines) 2.
Proof.
  assert (∀ rec, calls (restore_record_calls id rec) 2) as Hr.
  { intros rec. do 2 (apply sys_bind; intros ?). by case_match. }
  revert first. induction lines as [|l lines IH]; intros first; cbn [wal_restore_old_calls]; [done|].
  repeat case_match; auto; done.
Qed.
Lemma rollback_loop_disk id junk lines : calls (rollback_loop_calls id junk lines) 2.
Proof.
  induction lines as [|l lines IH]; cbn [rollback_loop_calls]; [done|].
  case_match; [apply restore_disk|done].
Qed.
Lemma rollback_disk id : calls (wal_rollback_calls id) 9.
Proof.
  apply (disk_calls_bind _ any _ _ _ 1 8); [apply wal_write_disk|intros _]. apply log_bind.
  do 2 (apply sys_bind; intros ?). case_match; [done|].
  do 2 (apply sys_bind; intros ?). case_match; [done|].
  do 2 (apply sys_bind; intros ?). case_match; [done|apply rollback_loop_disk].
Qed.
Lemma write_disk id rec : calls (db_write_room_calls id rec) 18.
Proof.
  apply sys_bind. intros fd. case_match; [done|].
  apply (disk_calls_bind _ any _ _ _ 3 14); [apply raw_disk|intros old].
  apply (disk_calls_bind _ any _ _ _ 3 11).
  { unfold wal_begin_calls. apply (disk_calls_bind _ any _ _ _ 1 2); [apply wal_write_disk|intros _].
    apply (disk_calls_bind _ any _ _ _ 1 1); [apply wal_write_disk|intros _]. apply wal_write_disk. }
  intros _. do 2 (apply sys_bind; intros ?). case_match.
  - apply (disk_calls_bind _ any _ _ _ 1 8); [apply wal_write_disk|done].
  - apply (disk_calls_bind _ any _ _ _ 9 0); [apply rollback_disk|done].
Qed.
#[export] Instance db_disk_calls fuel : @DiskCalls open_db (db_calls fuel) 3 18.
Proof. split; cbn [raw_calls write_calls db_calls]; intros; [apply raw_disk|apply write_disk]. Qed.
End database.

(** ** The answers *)
Section joins.
Context {D : Type}.
Implicit Types w : world D.





(** The sections of a join, and its end: [n] are left at most. *)
Context {SC : StoreCalls D} {rd wr : nat} {DC : DiskCalls D rd wr}.










(** ** One turn *)
Lemma outside_run w c : outside w c →
  (y ← read_client c; mret (c_current_room y)) w = Some (None, w).
Proof. intros (y&Hy&_&Hr). by rewrite (outside_read _ _ _ Hy), Hr. Qed.


(** The guards of the admission. *)
Lemma admit_check w l a x password c : w_rooms w !! l = Some x → room_is x a →
  admission l password c w =
  (if decide (admits a password)
   then if MAX_CLIENTS <=? Z.of_nat (length (ar_members a)) then mret (-4)
        else x' ← lift (add_participant x c);
             _ ← write_room l x'; _ ← set_current_room c (Some l); mret 0
   else mret (-3)) w.
Proof.
  intros Hx Hxa. unfold admission. rewrite (C_bind_run _ _ _ _ _ (read_room_run _ _ _ Hx)).
  unfold strlen, strcmp_eq. rewrite (ri_password _ _ Hxa), (ri_count _ _ Hxa).
  replace (_ && _) with (negb (bool_decide (admits a password))).
  { case_bool_decide; [rewrite decide_True by done|rewrite decide_False by done]; reflexivity. }
  apply Bool.eq_iff_eq_true.
  rewrite andb_true_iff, !negb_true_iff, !bool_decide_eq_false, Nat.ltb_lt.
  unfold admits. destruct (ar_password a) as [|b p]; cbn.
  - split; [intros []; by left|lia].
  - split; [intros Hn; split; [lia|intros E; apply Hn; by right]|].
    by intros [_ Hn] [?|?].
Qed.

(** The room takes the client. *)
Lemma admit_ok w rs (i : nat) l a password c : mem_ok w rs → members_ok (w_clients w) rs →
  rs !! i = Some (l, a) → outside w c → admits a password → (length (ar_members a) < 50)%nat →
  ∃ w', admission l password c w = Some (0, w') ∧
    mem_ok w' (<[i := (l, RoomSpec.add_member a c)]> rs) ∧
    members_ok (w_clients w') (<[i := (l, RoomSpec.add_member a c)]> rs) ∧
    w_disk w' = w_disk w ∧ (∀ d, d ≠ c → w_clients w' !! d = w_clients w !! d).
Proof.
  intros Hm Hme Hi (y&Hy&Hact&Hr) Had Hl.
  destruct (mem_ok_room _ _ _ _ _ Hm Hi) as (x&Hx&Hxa&Hp&Hn).
  rewrite (admit_check _ _ _ _ _ _ Hx Hxa), decide_True by done.
  rewrite (proj2 (Z.leb_gt _ _)) by (unfold MAX_CLIENTS; lia).
  destruct (enter_memory w rs i l a c y x Hm Hme Hi Hx Hxa Hp Hn Hy Hact Hr Hl)
    as (x'&w1&->&_&Hd1&Hrun1&Hm1&Hme1&Hc1).
  c_steps. rewrite Hrun1. exists w1. split_and!; [done..|].
  intros d Hd. by rewrite Hc1, lookup_insert_ne.
Qed.





End joins.


(** ** The count on disk *)
Section lost.
Context {D : Type} `{RoomStoreLaws D}.
Implicit Types w : world D.

(** The record of the room, with any number of users. *)
Definition record_of (rec : room_record) (a : aroom) : Prop :=
  wf_room_record rec ∧ ∃ ms, rec_is rec (with_members a ms).

Lemma record_of_same rec a a' : same_room a a' → record_of rec a → record_of rec a'.
Proof.
  intros (E1&E2&E3) [Hwf [ms []]]. split; [done|]. exists ms. cbn in *.
  split; cbn; congruence.
Qed.

(** What is left of a join that has yet to write the record of its room. *)
Definition write_thread (id : Z) (c l : loc) (rec : room_record) (n : Z) : thread (world D) Z :=
  sections (_ ← (_ ← write_calls id (rr_with_count rec n); mret tt); join_log l c).

(** The record is read. *)
Lemma record_turn w rs disk l a : mem_ok w rs → on_disk (w_disk w) disk → grown disk rs →
  (l, a) ∈ rs → ∃ rec,
  gets (λ w, store_read_raw (w_disk w) (ar_id a)) w = Some (Some rec, w) ∧
  record_of rec a.
Proof.
  intros Hm Hd Hg [i Hi]%list_elem_of_lookup.
  destruct (grown_lookup _ _ _ _ _ Hg Hi) as ([id name pw ms]&Hi0&(E1&E2&E3)&_). cbn in *.
  destruct (record_read_run w disk i l _ (grown_ids _ _ Hg (mem_ids _ _ Hm)) Hd Hi0)
    as (rec&Hr&Hrec&Hwf). cbn in Hr.
  exists rec. unfold gets. rewrite E1, Hr. split; [done|].
  split; [done|]. exists ms. unfold with_members. by rewrite E1, E2, E3.
Qed.

(** The record is written: it has no more users than the room. *)
Lemma write_turn w rs disk l a rec n : mem_ok w rs → on_disk (w_disk w) disk →
  grown disk rs → (l, a) ∈ rs → record_of rec a → (n ≤ length (ar_members a))%nat →
  ∃ d disk', db_write (ar_id a) (rr_with_count rec (Z.of_nat n)) w = Some (true, with_disk d w) ∧ on_disk d disk' ∧ grown disk' rs ∧
    ∃ rec', store_read_raw d (ar_id a) = Some rec' ∧ rr_user_count rec' = Z.of_nat n.
Proof.
  intros Hm Hd Hg [i Hi]%list_elem_of_lookup (Hwf&ms&Hrec) Hn.
  destruct (grown_lookup _ _ _ _ _ Hg Hi) as (a0&Hi0&Hs&_).
  destruct (mem_ok_room _ _ _ _ _ Hm Hi) as (x&_&Hxa&_). pose proof (ri_max _ _ Hxa).
  assert (∃ a', same_room a0 a' ∧ same_room a a' ∧ length (ar_members a') = n ∧
    grown (<[i := (l, a')]> disk) rs) as (a'&Hs0&Hs'&<-&Hg').
  { exists (with_members a (take n (ar_members a))). split_and!; [exact Hs|done| |].
    - cbn. rewrite length_take. lia.
    - by apply grown_catch_up. }
  destruct (rec_with_count rec (with_members a ms) a' Hrec Hwf Hs') as [Hrec' Hwf']; [lia|].
  destruct (record_write_run w disk i l a0 a' _ (grown_ids _ _ Hg (mem_ids _ _ Hm)) Hd Hi0
    Hs0 Hrec' Hwf') as (d&Hw&Hd').
  rewrite <-(proj1 Hs) in Hw. exists d, (<[i := (l, a')]> disk).
  split_and!; [done..|].
  destruct (record_read_run (with_disk d w) (<[i := (l, a')]> disk) i l a')
    as (rec'&Hr'&Hrec''&_).
  - by apply (grown_ids _ _ Hg' (mem_ids _ _ Hm)).
  - done.
  - apply list_lookup_insert_eq. by eapply lookup_lt_Some.
  - exists rec'. split; [by rewrite (proj1 Hs') in Hr'|apply Hrec''].
Qed.

(** What the log reads is there. *)
Lemma log_turn w rs l a c : mem_ok w rs → members_ok (w_clients w) rs → (l, a) ∈ rs →
  c ∈ ar_members a → (_ ← read_client c; _ ← read_room l; mret tt) w = Some (tt, w).
Proof.
  intros Hm Hme Hin Hc. destruct (me_client _ _ Hme l a c Hin Hc) as (y&Hy&_).
  apply list_elem_of_lookup in Hin as [j Hj].
  destruct (mem_ok_room _ _ _ _ _ Hm Hj) as (x&Hx&_).
  rewrite (C_bind_run _ _ _ _ _ (read_client_run _ _ _ Hy)).
  by rewrite (C_bind_run _ _ _ _ _ (read_room_run _ _ _ Hx)).
Qed.

(** A join that is stopped before its record is written. *)
Lemma half_join w rs disk (i : nat) l a ts (j : nat) password c :
  mem_ok w rs → members_ok (w_clients w) rs → on_disk (w_disk w) disk → grown disk rs →
  rs !! i = Some (l, a) → outside w c → admits a password → (length (ar_members a) < 50)%nat →
  ts !! j = Some (join_thread (ar_id a) password c) →
  ∃ w' rec, interleave (replicate 5 j) ts w =
    Some (<[j := write_thread (ar_id a) c l rec (Z.of_nat (S (length (ar_members a))))]> ts, w') ∧
    mem_ok w' (<[i := (l, RoomSpec.add_member a c)]> rs) ∧
    members_ok (w_clients w') (<[i := (l, RoomSpec.add_member a c)]> rs) ∧
    w_disk w' = w_disk w ∧ (∀ d, d ≠ c → w_clients w' !! d = w_clients w !! d) ∧
    record_of rec a.
Proof.
  intros Hm Hme Hd Hg Hi Ho Had Hl Hj. pose proof (list_elem_of_lookup_2 _ _ _ Hi) as Hin.
  destruct (admit_ok w rs i l a password c Hm Hme Hi Ho Had Hl) as (w1&Hrun&Hm1&Hme1&Hd1&Hc1).
  pose proof (lookup_lt_Some _ _ _ Hj) as Hlt.
  set (rs1 := <[i := (l, RoomSpec.add_member a c)]> rs) in *.
  assert (rs1 !! i = Some (l, RoomSpec.add_member a c)) as Hi1
    by (apply list_lookup_insert_eq; by eapply lookup_lt_Some).
  destruct (record_turn w1 rs1 disk l (RoomSpec.add_member a c)) as (rec&Hr&Hrec);
    [done|by rewrite Hd1|by eapply grown_trans, grown_add|by eapply list_elem_of_lookup_2|].
  destruct (mem_ok_room _ _ _ _ _ Hm1 Hi1) as (x&Hx&Hxa&_).
  assert ((x ← read_room l; mret (r_participant_count x)) w1 =
    Some (Z.of_nat (S (length (ar_members a))), w1)) as Hcount.
  { rewrite (C_bind_run _ _ _ _ _ (read_room_run _ _ _ Hx)), (ri_count _ _ Hxa). cbn.
    by rewrite length_app, Nat.add_1_r. }
  exists w1, rec. split_and!; [|done..|by eapply record_of_same; [|exact Hrec]].
  rewrite <-(list_insert_id ts j _ Hj) at 1. cbn [replicate].
  etransitivity; [exact (next_turn ts j _ _ _ _ _ _ Hlt (outside_run _ _ Ho))|].
  etransitivity; [exact (next_turn ts j _ _ _ _ _ _ Hlt (room_find_by_id_run _ _ _ Hm))|].
  rewrite (first_room_id _ _ _ _ _ Hm Hi).
  etransitivity; [exact (next_turn ts j _ _ _ _ _ _ Hlt Hrun)|].
  etransitivity; [exact (next_turn ts j _ _ _ _ _ _ Hlt Hr)|].
  etransitivity; [exact (next_turn ts j _ _ _ _ _ _ Hlt Hcount)|]. done.
Qed.

(** A join of a client in no room that the room takes. *)
Lemma join_takes w rs (i : nat) l a password c : room_state w rs → rs !! i = Some (l, a) →
  outside w c → admits a password → (length (ar_members a) < 50)%nat →
  ∃ w', alone (join_thread (ar_id a) password c) w = Some (0, w') ∧
    room_state w' (<[i := (l, RoomSpec.add_member a c)]> rs) ∧
    ∀ d, d ≠ c → w_clients w' !! d = w_clients w !! d.
Proof.
  intros Hs Hi (y&Hy&Hact&Hr) Had Hl. pose proof Hs as [[Hm _] Hme].
  assert (RoomSpec.join rs (ar_id a) password c =
    (0, <[i := (l, RoomSpec.add_member a c)]> rs)) as E.
  { unfold RoomSpec.join, RoomSpec.leave. rewrite room_of_none.
    2: { intros k b Hin. by apply (no_room_outside (w_clients w) rs c y k b). }
    rewrite (proj2 (list_find_Some _ _ i (l, a))).
    - rewrite bool_decide_false by (unfold admits in Had; tauto).
      by rewrite bool_decide_false by lia.
    - split_and!; [done..|]. intros j [k b] Hj Hlt Hid.
      assert (i = j) by (by apply (same_index rs i j l a k b (mem_ids _ _ Hm) Hi Hj); cbn in Hid; by rewrite Hid).
      lia. }
  destruct (room_join_run w rs c y (ar_id a) password Hs Hy Hact) as (w'&Hrun&Hs'&Hc').
  rewrite E in Hrun, Hs'. exists w'. rewrite join_alone. split_and!; [done..|].
  intros d Hd. by rewrite Hc', lookup_insert_ne.
Qed.

(** One after the other, both are counted. *)
Lemma joins_one_by_one w rs (i : nat) l a password1 password2 c1 c2 : room_state w rs →
  rs !! i = Some (l, a) → admits a password1 → admits a password2 →
  outside w c1 → outside w c2 → c1 ≠ c2 → (length (ar_members a) < 49)%nat →
  ∃ w' rec, (_ ← alone (join_thread (ar_id a) password1 c1);
             alone (join_thread (ar_id a) password2 c2)) w = Some (0, w') ∧
    store_read_raw (w_disk w') (ar_id a) = Some rec ∧
    rr_user_count rec = Z.of_nat (length (ar_members a)) + 2.
Proof.
  intros Hs Hi Had1 Had2 Ho1 Ho2 Hne Hl.
  destruct (join_takes w rs i l a password1 c1 Hs Hi Ho1 Had1 ltac:(lia))
    as (w1&Hrun1&Hs1&Hc1).
  assert (<[i := (l, RoomSpec.add_member a c1)]> rs !! i = Some (l, RoomSpec.add_member a c1))
    as Hi1 by (apply list_lookup_insert_eq; by eapply lookup_lt_Some).
  destruct (join_takes w1 _ i l _ password2 c2 Hs1 Hi1) as (w2&Hrun2&[[Hm2 Hd2] _]&_).
  { unfold outside. by rewrite Hc1. } { done. } { cbn. rewrite length_app. cbn. lia. }
  rewrite list_insert_insert_eq in Hm2, Hd2.
  destruct (record_read_run w2 _ i l _ (mem_ids _ _ Hm2) Hd2
    ltac:(apply list_lookup_insert_eq; by eapply lookup_lt_Some)) as (rec&Hr&Hrec&_).
  exists w2, rec. rewrite (C_bind_run _ _ _ _ _ Hrun1). split_and!; [done..|].
  rewrite (rc_count _ _ Hrec). cbn. rewrite !length_app. cbn. lia.
Qed.

(** The count of users on disk can lose an update.  Two clients join a room
    that takes both, at the same time: the first has counted itself, the second
    joins and writes the count with both, then the first writes its own.  Both
    are told that they have joined and are members, but the record of the room
    on disk misses one of them; one after the other, the record counts both. *)
Theorem join_count_lost w rs (i : nat) l a password1 password2 c1 c2 : room_state w rs →
  rs !! i = Some (l, a) → admits a password1 → admits a password2 →
  outside w c1 → outside w c2 → c1 ≠ c2 → (length (ar_members a) < 49)%nat →
  let ts := [join_thread (ar_id a) password1 c1; join_thread (ar_id a) password2 c2] in
  let a' := with_members a (ar_members a ++ [c1; c2]) in
  let n := Z.of_nat (length (ar_members a)) in
  (∃ schedule w' rec, interleave schedule ts w = Some ([Return 0; Return 0], w') ∧
    mem_ok w' (<[i := (l, a')]> rs) ∧ members_ok (w_clients w') (<[i := (l, a')]> rs) ∧
    store_read_raw (w_disk w') (ar_id a) = Some rec ∧ rr_user_count rec = n + 1) ∧
  (∃ w' rec, (_ ← alone (join_thread (ar_id a) password1 c1);
              alone (join_thread (ar_id a) password2 c2)) w = Some (0, w') ∧
    store_read_raw (w_disk w') (ar_id a) = Some rec ∧ rr_user_count rec = n + 2).
Proof.
  intros Hs Hi Had1 Had2 Ho1 Ho2 Hne Hl ts a' n. pose proof Hs as [[Hm Hd] Hme]. split.
  - pose proof (lookup_lt_Some _ _ _ Hi) as Hlt.
    destruct (half_join w rs rs i l a ts 0 password1 c1 Hm Hme Hd (grown_refl _) Hi Ho1 Had1
      ltac:(lia) eq_refl) as (w1&rec1&Hrun1&Hm1&Hme1&Hd1&Hc1&Hrec1).
    set (a1 := RoomSpec.add_member a c1) in *.
    set (ts1 := <[0%nat := _]> ts) in Hrun1.
    assert (grown rs (<[i := (l, a1)]> rs)) as Hg1 by (by apply grown_add).
    assert (outside w1 c2) as Ho2' by (unfold outside; by rewrite Hc1).
    destruct (half_join w1 (<[i := (l, a1)]> rs) rs i l a1 ts1 1 password2 c2 Hm1 Hme1)
      as (w2&rec2&Hrun2&Hm2&Hme2&Hd2&_&Hrec2); try done.
    { by rewrite Hd1. } { by apply list_lookup_insert_eq. }
    { cbn. rewrite length_app. cbn. lia. }
    assert (RoomSpec.add_member a1 c2 = a') as Ea
      by (unfold a', a1, RoomSpec.add_member; cbn; by rewrite <-app_assoc).
    rewrite list_insert_insert_eq, Ea in Hm2, Hme2.
    set (rs2 := <[i := (l, a')]> rs) in *.
    assert ((l, a') ∈ rs2) as Hin2.
    { apply (list_elem_of_lookup_2 _ i). by apply list_lookup_insert_eq. }
    assert (grown rs rs2) as Hg2.
    { eapply grown_trans; [exact Hg1|]. unfold rs2. rewrite <-Ea.
      replace (<[i := (l, RoomSpec.add_member a1 c2)]> rs)
        with (<[i := (l, RoomSpec.add_member a1 c2)]> (<[i := (l, a1)]> rs))
        by apply list_insert_insert_eq. apply grown_add.
      by apply list_lookup_insert_eq. }
    destruct (write_turn w2 rs2 rs l a' rec2 (S (length (ar_members a1))))
      as (d3&disk3&Hrun3&Hd3&Hg3&_); try done.
    { by rewrite Hd2, Hd1. }
    { cbn. rewrite !length_app. cbn. lia. }
    destruct (write_turn (with_disk d3 w2) rs2 disk3 l a' rec1 (S (length (ar_members a))))
      as (d4&disk4&Hrun4&_&_&rec&Hrec&Hcount); [by apply mem_ok_disk|done|done|done|done| |].
    { cbn. rewrite length_app. cbn. lia. }
    set (w4 := with_disk d4 (with_disk d3 w2)).
    assert (mem_ok w4 rs2) as Hm4 by (by apply mem_ok_disk, mem_ok_disk).
    assert (c1 ∈ ar_members a' ∧ c2 ∈ ar_members a') as [Hin1 Hin2'].
    { split; apply elem_of_app; right; rewrite !elem_of_cons; auto. }
    exists (replicate 5 0 ++ replicate 5 1 ++ [1; 0; 1; 0])%nat, w4, rec.
    split_and!; [|done..|lia].
    rewrite interleave_app, (C_bind_run _ _ _ _ _ Hrun1).
    rewrite interleave_app, (C_bind_run _ _ _ _ _ Hrun2).
    pose proof (log_turn w4 rs2 l a' c1 Hm4 Hme2 Hin2 Hin1) as Hlog1.
    pose proof (log_turn w4 rs2 l a' c2 Hm4 Hme2 Hin2 Hin2') as Hlog2.
    set (log c := sections (join_log l c) : thread (world D) Z).
    etransitivity; [exact (next_turn ts1 1 _ _ _ _ _ _ (le_n 2) Hrun3)|].
    etransitivity;
      [exact (next_turn (<[1%nat := log c2]> ts) 0 _ _ _ _ _ [1; 0]%nat (le_S _ _ (le_n 1)) Hrun4)|].
    etransitivity;
      [exact (next_turn (<[0%nat := log c1]> ts) 1 _ _ _ _ _ [0]%nat (le_n 2) Hlog2)|].
    exact (next_turn (<[1%nat := Return 0]> ts) 0 _ _ _ _ _ [] (le_S _ _ (le_n 1)) Hlog1).
  - by apply (joins_one_by_one w rs i l).
Qed.
End lost.





Lemma join_count_lost_witness : ∃ (w : world db) schedule w' rec,
  interleave schedule [join_thread 0 (str "pw") 1%positive; join_thread 0 (str "pw") 2%positive]
    w = Some ([Return 0; Return 0], w') ∧
  store_read_raw (w_disk w') 0 = Some rec ∧ rr_user_count rec = 1.
Proof.
  destruct demo_created as (w&Hs&Hc).
  destruct (join_count_lost w _ 0 2%positive (new_room 0 (str "lobby") (str "pw"))
    (str "pw") (str "pw") 1%positive 2%positive Hs eq_refl)
    as [(schedule&w'&rec&Hrun&_&_&Hr&Hn) _]; [by right|by right| | |done|cbn; lia|].
  - apply demo_outside; [by rewrite Hc|by eexists].
  - apply demo_outside; [by rewrite Hc|by eexists].
  - by exists w, schedule, w', rec.
Defined.
