(* ===== verification/ServerState.v ===== *)
(** * The whole server's state

    The globals of [main.c], [network.c], [client_handler.c], [audio_mixer.c]
    and [ipc_manager.c] around the room manager's [world]: the client slots, the
    fd map, the users file, the task queue, the ring, the jitter buffers and
    the speaker semaphores; and what the server has sent so far. *)
From S2P Require Import Prelude CInt CString Protocol Posix RoomStore World Ring Jitter.
#[local] Open Scope Z_scope.

(** [worker_task], with the string in [command]. *)
Record worker_task := WorkerTask {
  wt_c : option loc;
  wt_command : bytes
}.

(** [task_queue[256]] and its indices. *)
Record task_queue := TaskQueue {
  tq_tasks : list worker_task;
  tq_count : Z;
  tq_head : Z;
  tq_tail : Z
}.

(** A datagram of [send_audio_to_client]: destination, length of the address,
    number of bytes, packet. *)
Record datagram := Datagram {
  dg_addr : bytes;
  dg_addr_len : Z;
  dg_size : Z;
  dg_packet : audio_packet
}.

Record server (D : Type) := Server {
  sv_world : world D;
  sv_clients : list (option loc);       (** [client *clients[50]] *)
  sv_client_count : Z;
  sv_fd_to_slot : list Z;               (** [int fd_to_slot[4096]] *)
  sv_users : file;
  sv_queue : task_queue;
  sv_ring : option ring_state;          (** [None]: [shm_ring] is NULL *)
  sv_jitter : list jitter_buffer;       (** [jitter_buffers[50]] *)
  sv_speaker_sem : list Z;              (** [room_speaker_sem[32]] *)
  sv_now : Z;                           (** [get_time_ms()] *)
  sv_sent : list (Z * response_packet); (** responses, by fd *)
  sv_closed : list Z;                   (** descriptors closed *)
  sv_datagrams : list datagram;
  sv_on : bool                          (** [server_on] *)
}.
#[global] Arguments Server {D}.
#[global] Arguments sv_world {D}.
#[global] Arguments sv_clients {D}.
#[global] Arguments sv_client_count {D}.
#[global] Arguments sv_fd_to_slot {D}.
#[global] Arguments sv_users {D}.
#[global] Arguments sv_queue {D}.
#[global] Arguments sv_ring {D}.
#[global] Arguments sv_jitter {D}.
#[global] Arguments sv_speaker_sem {D}.
#[global] Arguments sv_now {D}.
#[global] Arguments sv_sent {D}.
#[global] Arguments sv_closed {D}.
#[global] Arguments sv_datagrams {D}.
#[global] Arguments sv_on {D}.

Section server_updates.
Context {D : Type}.
Implicit Types s : server D.

Definition with_world (w : world D) s : server D :=
  Server w (sv_clients s) (sv_client_count s) (sv_fd_to_slot s) (sv_users s) (sv_queue s)
    (sv_ring s) (sv_jitter s) (sv_speaker_sem s) (sv_now s) (sv_sent s) (sv_closed s)
    (sv_datagrams s) (sv_on s).
Definition with_clients (cs : list (option loc)) (n : Z) s : server D :=
  Server (sv_world s) cs n (sv_fd_to_slot s) (sv_users s) (sv_queue s)
    (sv_ring s) (sv_jitter s) (sv_speaker_sem s) (sv_now s) (sv_sent s) (sv_closed s)
    (sv_datagrams s) (sv_on s).
Definition with_fd_map (m : list Z) s : server D :=
  Server (sv_world s) (sv_clients s) (sv_client_count s) m (sv_users s) (sv_queue s)
    (sv_ring s) (sv_jitter s) (sv_speaker_sem s) (sv_now s) (sv_sent s) (sv_closed s)
    (sv_datagrams s) (sv_on s).
Definition with_users (f : file) s : server D :=
  Server (sv_world s) (sv_clients s) (sv_client_count s) (sv_fd_to_slot s) f (sv_queue s)
    (sv_ring s) (sv_jitter s) (sv_speaker_sem s) (sv_now s) (sv_sent s) (sv_closed s)
    (sv_datagrams s) (sv_on s).
Definition with_queue (q : task_queue) s : server D :=
  Server (sv_world s) (sv_clients s) (sv_client_count s) (sv_fd_to_slot s) (sv_users s) q
    (sv_ring s) (sv_jitter s) (sv_speaker_sem s) (sv_now s) (sv_sent s) (sv_closed s)
    (sv_datagrams s) (sv_on s).
Definition with_ring (r : option ring_state) s : server D :=
  Server (sv_world s) (sv_clients s) (sv_client_count s) (sv_fd_to_slot s) (sv_users s)
    (sv_queue s) r (sv_jitter s) (sv_speaker_sem s) (sv_now s) (sv_sent s) (sv_closed s)
    (sv_datagrams s) (sv_on s).
Definition with_jitter (j : list jitter_buffer) s : server D :=
  Server (sv_world s) (sv_clients s) (sv_client_count s) (sv_fd_to_slot s) (sv_users s)
    (sv_queue s) (sv_ring s) j (sv_speaker_sem s) (sv_now s) (sv_sent s) (sv_closed s)
    (sv_datagrams s) (sv_on s).
Definition with_speaker_sem (l : list Z) s : server D :=
  Server (sv_world s) (sv_clients s) (sv_client_count s) (sv_fd_to_slot s) (sv_users s)
    (sv_queue s) (sv_ring s) (sv_jitter s) l (sv_now s) (sv_sent s) (sv_closed s)
    (sv_datagrams s) (sv_on s).
Definition with_sent (l : list (Z * response_packet)) s : server D :=
  Server (sv_world s) (sv_clients s) (sv_client_count s) (sv_fd_to_slot s) (sv_users s)
    (sv_queue s) (sv_ring s) (sv_jitter s) (sv_speaker_sem s) (sv_now s) l (sv_closed s)
    (sv_datagrams s) (sv_on s).
Definition with_closed (l : list Z) s : server D :=
  Server (sv_world s) (sv_clients s) (sv_client_count s) (sv_fd_to_slot s) (sv_users s)
    (sv_queue s) (sv_ring s) (sv_jitter s) (sv_speaker_sem s) (sv_now s) (sv_sent s) l
    (sv_datagrams s) (sv_on s).
Definition with_datagrams (l : list datagram) s : server D :=
  Server (sv_world s) (sv_clients s) (sv_client_count s) (sv_fd_to_slot s) (sv_users s)
    (sv_queue s) (sv_ring s) (sv_jitter s) (sv_speaker_sem s) (sv_now s) (sv_sent s)
    (sv_closed s) l (sv_on s).

Definition with_on (on : bool) s : server D :=
  Server (sv_world s) (sv_clients s) (sv_client_count s) (sv_fd_to_slot s) (sv_users s)
    (sv_queue s) (sv_ring s) (sv_jitter s) (sv_speaker_sem s) (sv_now s) (sv_sent s)
    (sv_closed s) (sv_datagrams s) on.

(** Run a computation of the room manager. *)
Definition on_world {A} (m : C (world D) A) : C (server D) A := λ s,
  match m (sv_world s) with
  | Some (a, w) => Some (a, with_world w s)
  | None => None
  end.

Lemma on_world_run {A} (m : C (world D) A) s a w :
  m (sv_world s) = Some (a, w) → on_world m s = Some (a, with_world w s).
Proof. unfold on_world. by intros ->. Qed.

Lemma with_world_id s : with_world (sv_world s) s = s.
Proof. by destruct s. Qed.

(** Reading an object changes nothing. *)
Lemma sv_read_client s c y : w_clients (sv_world s) !! c = Some y →
  on_world (read_client c) s = Some (y, s).
Proof.
  intros Hy. rewrite (on_world_run _ _ _ _ (read_client_run _ _ _ Hy)).
  by rewrite with_world_id.
Qed.
Lemma sv_read_room s l x : w_rooms (sv_world s) !! l = Some x →
  on_world (read_room l) s = Some (x, s).
Proof.
  intros Hx. rewrite (on_world_run _ _ _ _ (read_room_run _ _ _ Hx)).
  by rewrite with_world_id.
Qed.
End server_updates.

(** An array access by a C integer. *)
Definition at_index {A} (l : list A) (i : Z) : option A :=
  if i <? 0 then None else l !! Z.to_nat i.

Lemma at_index_nonneg {A} (l : list A) i : 0 ≤ i → at_index l i = l !! Z.to_nat i.
Proof. intros Hi. unfold at_index. by destruct (Z.ltb_spec i 0); [lia|]. Qed.

(** A running server around a world: everything as the [init] functions leave
    it, two clients connected. *)
Definition demo_server {D} (w : world D) : server D :=
  Server w ([Some 1%positive; Some 2%positive] ++ replicate 48 None) 2
    (replicate 5 (-1) ++ [0; 1] ++ replicate 4089 (-1)) (File [] [])
    (TaskQueue (replicate 256 (WorkerTask None [])) 0 0 0) (Some ring_init)
    (replicate 50 jitter_init) (replicate 32 MAX_SPEAKERS_PER_ROOM) 1000 [] [] [] true.
