(* ===== verification/Mixer.v ===== *)
(** * [src/server/audio_mixer.c]: mixing

    One tick: the ring is emptied into the jitter buffers, then every room that
    has participants is mixed and a packet goes to each of them. *)
From S2P Require Import Prelude CInt CString Protocol Posix RoomStore World RoomManager Ring Jitter ServerState.
#[local] Open Scope Z_scope.

(** ** Samples *)
Definition clamp_add (a b : Z) : Z :=
  let sum := i32 (a + b) in
  if 32767 <? sum then 32767 else if sum <? -32768 then -32768 else i16 sum.

(** The [n] samples of a payload, [int16_t] little endian. *)
Definition pcm_of (payload : bytes) (n : nat) : list Z :=
  (λ i, i16 (le_val (take 2 (drop (2 * i) payload)))) <$> seq 0 n.
Definition bytes_of (pcm : list Z) : bytes := concat (le_bytes 2 <$> pcm).

(** [speaker_pcm[k]], [speaker_samples[k]] and [speaker_slot[k]]. *)
Record speaker := Speaker {
  sp_slot : Z;
  sp_pcm : list Z   (** as many as [speaker_samples[k]] *)
}.

(** [samples = min(payload_size / 2, 320)]. *)
Definition speaker_of (slot : Z) (e : jitter_entry) : speaker :=
  let samples := Z.to_nat (je_payload_size e / 2) in
  let samples := if (320 <? samples)%nat then 320%nat else samples in
  Speaker slot (pcm_of (je_payload e) samples).

(** [for(j...) mixed[j]=clamp_add(mixed[j],pcm[j]);] *)
Fixpoint mix_into (mixed pcm : list Z) : list Z :=
  match mixed, pcm with
  | m :: mixed', p :: pcm' => clamp_add m p :: mix_into mixed' pcm'
  | _, _ => mixed
  end.

(** The loop over the speakers for the listener in [slot]: the sum and
    [mixed_speakers]. *)
Fixpoint mix_speakers (slot : Z) (speakers : list speaker) (mixed : list Z) (n : Z)
    : list Z * Z :=
  match speakers with
  | [] => (mixed, n)
  | sp :: speakers' =>
    if sp_slot sp =? slot then mix_speakers slot speakers' mixed n
    else mix_speakers slot speakers' (mix_into mixed (sp_pcm sp)) (n + 1)
  end.

Definition mix_for (slot : Z) (speakers : list speaker) : list Z :=
  let '(mixed, n) := mix_speakers slot speakers (replicate 320 0) 0 in
  if 1 <? n then (λ m, i16 (Z.quot m n)) <$> mixed else mixed.

Section mixer.
Context {D : Type}.

(** ** One room *)
Definition sem_trywait_room (room_id : Z) : C (server D) bool := λ s,
  match at_index (sv_speaker_sem s) room_id with
  | None => None
  | Some v =>
    match sem_trywait v with
    | None => Some (false, s)
    | Some v' => Some (true, with_speaker_sem (<[Z.to_nat room_id := v']> (sv_speaker_sem s)) s)
    end
  end.
Definition sem_post_room (room_id : Z) : C (server D) unit := λ s,
  match at_index (sv_speaker_sem s) room_id with
  | None => None
  | Some v =>
    Some (tt, with_speaker_sem (<[Z.to_nat room_id := sem_post v]> (sv_speaker_sem s)) s)
  end.

(** [jitter_buffer_pop(&jitter_buffers[slot],&entry)]. *)
Definition pop_jitter (slot : Z) : C (server D) (option jitter_entry) := λ s,
  match at_index (sv_jitter s) slot with
  | None => None
  | Some jb =>
    let '(o, jb') := jitter_buffer_pop jb in
    Some (o, with_jitter (<[Z.to_nat slot := jb']> (sv_jitter s)) s)
  end.

(** The loop over the participants that collects the speakers. *)
Fixpoint collect_speakers (room_id : Z) (ps : list (option loc)) (speakers : list speaker)
    : C (server D) (list speaker) :=
  match ps with
  | [] => mret speakers
  | None :: ps' => collect_speakers room_id ps' speakers
  | Some c :: ps' =>
    y ← on_world (read_client c);
    if negb (c_is_mute y =? 0) || (c_is_active y =? 0)
    then collect_speakers room_id ps' speakers
    else if MAX_CLIENTS <=? Z.of_nat (length speakers) then mret speakers
    else
      ok ← sem_trywait_room room_id;
      if negb ok then collect_speakers room_id ps' speakers
      else
        o ← pop_jitter (c_slot y);
        _ ← sem_post_room room_id;
        collect_speakers room_id ps'
          (match o with
           | Some e => speakers ++ [speaker_of (c_slot y) e]
           | None => speakers
           end)
  end.

(** The packet: 640 bytes of samples in a zeroed payload. *)
Definition mixed_packet (room_id now : Z) (pcm : list Z) : audio_packet :=
  let size := u16 (Z.of_nat (length pcm) * 2) in
  let size := if Z.of_nat AUDIO_PAYLOAD_SIZE <? size
              then Z.of_nat AUDIO_PAYLOAD_SIZE else size in
  AudioPacket (u32 room_id) 0 0 (u32 now) size
    (take (Z.to_nat size) (bytes_of pcm) ++ memset 0 (AUDIO_PAYLOAD_SIZE - Z.to_nat size)).

Definition header_size : Z := Z.of_nat (sizeof_audio_packet - AUDIO_PAYLOAD_SIZE).

Definition send_audio_to_client (c : loc) (pcm : list Z) : C (server D) unit :=
  y ← on_world (read_client c);
  room_id ← match c_current_room y with
            | Some l => x ← on_world (read_room l); mret (r_room_id x)
            | None => mret 0
            end;
  now ← gets sv_now;
  let pkt := mixed_packet room_id now pcm in
  let addr_len := if c_udp_addr_len y =? 0 then 16 else c_udp_addr_len y in
  puts (λ s, with_datagrams (sv_datagrams s ++
    [Datagram (c_udp_addr y) addr_len (header_size + ap_payload_size pkt) pkt]) s).

Fixpoint send_mixes (speakers : list speaker) (snapshot : list (option loc))
    : C (server D) unit :=
  match snapshot with
  | [] => mret tt
  | None :: snapshot' => send_mixes speakers snapshot'
  | Some c :: snapshot' =>
    y ← on_world (read_client c);
    _ ← when (negb (c_is_active y =? 0))
          (send_audio_to_client c (mix_for (c_slot y) speakers));
    send_mixes speakers snapshot'
  end.

(** The first [participant_count] participants; a count beyond the array is
    undefined. *)
Definition participants_read (x : room) : C (server D) (list (option loc)) :=
  lift (if r_participant_count x <=? Z.of_nat (length (r_participants x))
        then Some (take (Z.to_nat (r_participant_count x)) (r_participants x)) else None).

Definition mix_room (l : loc) : C (server D) unit :=
  x ← on_world (read_room l);
  ps ← participants_read x;
  speakers ← collect_speakers (r_room_id x) ps [];
  _ ← on_world (write_room l (r_with_speakers x (Z.of_nat (length speakers))));
  send_mixes speakers (take (Z.to_nat MAX_CLIENTS) ps).

(** ** One tick *)

(** A packet from the ring goes to the jitter buffer of its sender. *)
Definition store_packet (pkt : audio_packet) : C (server D) unit := λ s,
  let slot := i32 (ap_sender_id pkt) in
  if (slot <? 0) || (MAX_CLIENTS <=? slot) then Some (tt, s)
  else
    match at_index (sv_jitter s) slot with
    | None => None
    | Some jb =>
      match jitter_buffer_push jb pkt with
      | None => None
      | Some jb' => Some (tt, with_jitter (<[Z.to_nat slot := jb']> (sv_jitter s)) s)
      end
    end.

Definition pop_ring : C (server D) (option audio_packet) := λ s,
  match sv_ring s with
  | None => Some (None, s)
  | Some r =>
    match ring_buffer_pop r with
    | None => None
    | Some (o, r') => Some (o, with_ring (Some r') s)
    end
  end.

(** [while(shm_ring!=NULL && ring_buffer_pop(shm_ring,&pkt)) ...], with a bound on
    the packets taken. *)
Fixpoint drain_ring (fuel : nat) : C (server D) unit :=
  match fuel with
  | O => λ _, None
  | S fuel' =>
    o ← pop_ring;
    match o with
    | None => mret tt
    | Some pkt => _ ← store_packet pkt; drain_ring fuel'
    end
  end.

(** The loop over the rooms. *)
Fixpoint mix_rooms (fuel : nat) (r : option loc) : C (server D) unit :=
  match r with
  | None => mret tt
  | Some l =>
    match fuel with
    | O => λ _, None
    | S fuel' =>
      x ← on_world (read_room l);
      _ ← when (0 <? r_participant_count x) (mix_room l);
      x' ← on_world (read_room l);
      mix_rooms fuel' (r_next x')
    end
  end.

Definition mixer_tick : C (server D) unit :=
  _ ← drain_ring 129;
  n ← gets (λ s, size (w_rooms (sv_world s)));
  head ← gets (λ s, w_room_head (sv_world s));
  mix_rooms (S n) head.

Definition audio_mixer_init : C (server D) unit :=
  _ ← puts (with_speaker_sem (replicate 32 MAX_SPEAKERS_PER_ROOM));
  puts (with_jitter (replicate 50 jitter_init)).
End mixer.

(** The next tick of the clock: [tv_sec] and [tv_nsec]. *)
Definition next_tick (t : Z * Z) : Z * Z :=
  let nsec := t.2 + 20000000 in
  if 1000000000 <=? nsec then (t.1 + 1, nsec - 1000000000) else (t.1, nsec).
