(* ===== verification/MixerSpec.v ===== *)
(** * What the mixer sends

    First the arithmetic of a mix (range, silence, a lone speaker, the average
    of several, no echo of the listener's own voice), then a whole room: which
    speakers are heard and which packet each participant gets. *)
From S2P Require Import Prelude CInt CString Protocol Posix RoomStore FileDb World RoomManager RoomInv RoomState Rooms Ring Jitter ServerState Mixer.
#[local] Open Scope Z_scope.

(** ** Sums of samples *)
Lemma clamp_add_range a b : is_i16 a → is_i16 b → is_i16 (clamp_add a b).
Proof.
  intros Ha Hb. unfold clamp_add. rewrite i32_id by int_lia. case_bools; int_lia.
Qed.

Lemma clamp_add_exact a b : is_i16 (a + b) → clamp_add a b = a + b.
Proof. intros H. unfold clamp_add. rewrite i32_id by int_lia. case_bools; int_lia. Qed.

(** The exact sum, cut to the range: never a wrap-around. *)
Lemma clamp_add_saturates a b : is_i16 a → is_i16 b →
  clamp_add a b = Z.max (- 32768) (Z.min 32767 (a + b)).
Proof.
  intros Ha Hb. unfold clamp_add. rewrite i32_id by int_lia. case_bools; int_lia.
Qed.

Lemma length_mix_into m p : length (mix_into m p) = length m.
Proof. revert p. induction m as [|x m IH]; intros [|y p]; cbn; auto. Qed.

Lemma mix_into_lookup m p (j : nat) x : m !! j = Some x →
  mix_into m p !! j = Some (match p !! j with Some y => clamp_add x y | None => x end).
Proof.
  revert p j. induction m as [|z m IH]; intros [|y p] [|j] H; cbn in *; simplify_eq; auto.
Qed.

Lemma mix_into_range m p : Forall is_i16 m → Forall is_i16 p → Forall is_i16 (mix_into m p).
Proof.
  intros Hm. revert p. induction Hm as [|x m Hx Hm IH]; intros p Hp; cbn; [by constructor|].
  destruct Hp as [|y p Hy Hp]; constructor; auto using clamp_add_range.
Qed.

(** ** The speakers a listener hears *)
Definition others (slot : Z) (speakers : list speaker) : list speaker :=
  filter (λ sp, sp_slot sp ≠ slot) speakers.

Fixpoint mixed_sum (pcms : list (list Z)) (m : list Z) : list Z :=
  match pcms with
  | [] => m
  | p :: pcms' => mixed_sum pcms' (mix_into m p)
  end.

Lemma mix_speakers_others slot speakers m n : mix_speakers slot speakers m n =
  (mixed_sum (sp_pcm <$> others slot speakers) m, n + Z.of_nat (length (others slot speakers))).
Proof.
  revert m n. unfold others. induction speakers as [|sp speakers IH]; intros m n; cbn [mix_speakers].
  - cbn. f_equal. lia.
  - destruct (Z.eqb_spec (sp_slot sp) slot).
    + rewrite filter_cons_False by auto. apply IH.
    + rewrite filter_cons_True by done. rewrite IH. cbn. f_equal. lia.
Qed.

Definition well_formed_speaker (sp : speaker) : Prop :=
  (length (sp_pcm sp) ≤ 320)%nat ∧ Forall is_i16 (sp_pcm sp).

Lemma speaker_of_wf slot e : well_formed_speaker (speaker_of slot e).
Proof.
  unfold speaker_of, well_formed_speaker. cbn [sp_pcm]. split.
  - unfold pcm_of. rewrite length_fmap, length_seq. case_match; [lia|].
    by apply Nat.ltb_ge in H.
  - apply Forall_fmap, Forall_true. intros i. apply i16_range.
Qed.

Lemma mixed_sum_facts pcms m : Forall (λ p, Forall is_i16 p) pcms → Forall is_i16 m →
  Forall is_i16 (mixed_sum pcms m) ∧ length (mixed_sum pcms m) = length m.
Proof.
  revert m. induction pcms as [|p pcms IH]; intros m Hp Hm; cbn; [done|]. inv Hp.
  destruct (IH (mix_into m p)) as [? Hl]; [done|by apply mix_into_range|].
  rewrite length_mix_into in Hl. by split.
Qed.

(** The sample [j] of a speaker; silence past its end. *)
Definition sample (j : nat) (sp : speaker) : Z := default 0 (sp_pcm sp !! j).
#[local] Arguments sample : simpl never.
Fixpoint total (f : speaker → Z) (sps : list speaker) : Z :=
  match sps with
  | [] => 0
  | sp :: sps' => f sp + total f sps'
  end.

Lemma total_abs j sps : 0 ≤ total (λ sp, Z.abs (sample j sp)) sps ∧
  Z.abs (total (sample j) sps) ≤ total (λ sp, Z.abs (sample j sp)) sps.
Proof. induction sps as [|sp sps [? ?]]; cbn; lia. Qed.

Lemma mixed_sum_exact sps j m x : m !! j = Some x →
  Z.abs x + total (λ sp, Z.abs (sample j sp)) sps ≤ 32767 →
  mixed_sum (sp_pcm <$> sps) m !! j = Some (x + total (sample j) sps).
Proof.
  revert m x. induction sps as [|sp sps IH]; intros m x Hx Hb; cbn in *.
  { rewrite Hx. f_equal. lia. }
  destruct (total_abs j sps) as [Hpos _].
  rewrite (IH (mix_into m (sp_pcm sp)) (x + sample j sp)).
  - f_equal. lia.
  - rewrite (mix_into_lookup _ _ _ _ Hx). unfold sample in *.
    destruct (sp_pcm sp !! j) as [y|]; cbn in *; f_equal; [|lia].
    apply clamp_add_exact. int_lia.
  - lia.
Qed.

Lemma mix_for_facts slot speakers : Forall well_formed_speaker speakers →
  length (mix_for slot speakers) = 320%nat ∧ Forall is_i16 (mix_for slot speakers).
Proof.
  intros Hs. unfold mix_for. rewrite mix_speakers_others. 
  destruct (mixed_sum_facts (sp_pcm <$> others slot speakers) (replicate 320 0)) as [Hr Hl].
  - apply Forall_fmap. unfold others. rewrite Forall_forall in Hs |- *.
    intros sp [_ Hin]%list_elem_of_filter. apply (Hs sp Hin).
  - apply Forall_replicate. int_lia.
  - rewrite length_replicate in Hl. case_match; [|done]. rewrite length_fmap.
    split; [done|]. apply Forall_fmap, Forall_true. intros. apply i16_range.
Qed.

(** The listener never hears itself: the mix depends only on the speakers in
    other slots, in their order; whatever the listener's own buffer holds, it
    changes nothing. *)
Theorem no_self_echo slot speakers1 speakers2 :
  others slot speakers1 = others slot speakers2 →
  mix_for slot speakers1 = mix_for slot speakers2.
Proof. intros E. unfold mix_for. by rewrite !mix_speakers_others, E. Qed.

(** A lone speaker with a full frame is passed on. *)
Lemma mix_for_one slot speakers sp : others slot speakers = [sp] →
  length (sp_pcm sp) = 320%nat → Forall is_i16 (sp_pcm sp) →
  mix_for slot speakers = sp_pcm sp.
Proof.
  intros E Hlen Hi. unfold mix_for. rewrite mix_speakers_others, E.
  change (1 <? 0 + Z.of_nat (length [sp])) with false. cbn [fmap list_fmap mixed_sum].
  apply list_eq_same_length with 320%nat;
    [done|by rewrite length_mix_into, length_replicate|].
  intros j x y _ Hx Hy.
  assert ((replicate 320 0) !! j = Some 0) as H0.
  { apply lookup_replicate_2. apply lookup_lt_Some in Hy. lia. }
  rewrite (mix_into_lookup _ _ _ _ H0), Hy in Hx. injection Hx as <-.
  pose proof (Forall_lookup_1 _ _ _ _ Hi Hy). rewrite clamp_add_exact; [lia|int_lia].
Qed.

(** C29. A mix is always 320 samples of 16 bits; with nobody else speaking it is
    silence, and a lone speaker with a full frame is passed on unchanged. *)
Theorem mix_of_few slot speakers : Forall well_formed_speaker speakers →
  length (mix_for slot speakers) = 320%nat ∧ Forall is_i16 (mix_for slot speakers) ∧
  (others slot speakers = [] → mix_for slot speakers = replicate 320 0) ∧
  (∀ sp, others slot speakers = [sp] → length (sp_pcm sp) = 320%nat →
    mix_for slot speakers = sp_pcm sp).
Proof.
  intros Hs. destruct (mix_for_facts slot speakers Hs) as [Hl Hr].
  split_and!; [done..| |].
  - intros E. unfold mix_for. by rewrite mix_speakers_others, E.
  - intros sp E Hlen. apply mix_for_one; [done..|].
    assert (sp ∈ others slot speakers) as [_ Hin]%list_elem_of_filter by (rewrite E; by left).
    rewrite Forall_forall in Hs. apply (Hs sp Hin).
Qed.

(** C19. As long as the voices do not clip, two or more speakers are averaged:
    sample [j] is their sum divided by their number, rounded toward zero. *)
Theorem mix_is_average slot speakers j : (j < 320)%nat →
  total (λ sp, Z.abs (sample j sp)) (others slot speakers) ≤ 32767 →
  (1 < length (others slot speakers))%nat →
  mix_for slot speakers !! j =
    Some (Z.quot (total (sample j) (others slot speakers))
            (Z.of_nat (length (others slot speakers)))).
Proof.
  intros Hj Hb Hn. unfold mix_for. rewrite mix_speakers_others.
  destruct (Z.ltb_spec 1 (0 + Z.of_nat (length (others slot speakers)))); [|lia].
  rewrite list_lookup_fmap.
  rewrite (mixed_sum_exact _ j (replicate 320 0) 0); [|by apply lookup_replicate_2|lia].
  cbn [fmap option_fmap option_map]. rewrite !Z.add_0_l. f_equal. apply i16_id.
  destruct (total_abs j (others slot speakers)) as [_ Htri].
  pose proof (Z.quot_abs (total (sample j) (others slot speakers))
    (Z.of_nat (length (others slot speakers))) ltac:(lia)) as Hq.
  assert (Z.abs (Z.quot (total (sample j) (others slot speakers))
    (Z.of_nat (length (others slot speakers)))) ≤ 32767); [|int_lia].
  rewrite <-Hq. rewrite Z.quot_div_nonneg by lia.
  transitivity (Z.abs (total (sample j) (others slot speakers))); [|lia].
  apply Z.div_le_upper_bound; nia.
Qed.

(** ** A room *)

(** The slots of the active clients: distinct, and indices of the arrays. *)
Record slots_ok (cs : gmap loc client) : Prop := {
  sl_range c y : cs !! c = Some y → c_is_active y ≠ 0 → 0 ≤ c_slot y < MAX_CLIENTS;
  sl_distinct c y d z : cs !! c = Some y → cs !! d = Some z →
    c_is_active y ≠ 0 → c_is_active z ≠ 0 → c_slot y = c_slot z → c = d
}.

(** The audio state of the server: 50 jitter buffers, 32 semaphores at their
    initial value. *)
Record audio_ok {D} (s : server D) : Prop := {
  au_jitter : length (sv_jitter s) = 50%nat;
  au_buffers : Forall jitter_ok (sv_jitter s);
  au_sem : sv_speaker_sem s = replicate 32 MAX_SPEAKERS_PER_ROOM
}.

(** What an unmuted member contributes to this tick. *)
Definition voice (jbs : list jitter_buffer) (y : client) : option speaker :=
  if c_is_mute y =? 0 then
    jb ← jbs !! Z.to_nat (c_slot y);
    e ← (jitter_buffer_pop jb).1;
    Some (speaker_of (c_slot y) e)
  else None.

(** The jitter buffers after the tick: each unmuted member's is popped. *)
Definition popped (jbs : list jitter_buffer) (y : client) : list jitter_buffer :=
  if c_is_mute y =? 0 then
    match jbs !! Z.to_nat (c_slot y) with
    | Some jb => <[Z.to_nat (c_slot y) := (jitter_buffer_pop jb).2]> jbs
    | None => jbs
    end
  else jbs.

Lemma length_popped jbs y : length (popped jbs y) = length jbs.
Proof. unfold popped. repeat case_match; by rewrite ?length_insert. Qed.

Lemma popped_ok jbs y : Forall jitter_ok jbs → Forall jitter_ok (popped jbs y).
Proof.
  intros H. unfold popped. case_match; [|done]. case_match; [|done].
  apply Forall_insert; [done|]. apply jitter_pop_ok. by eapply Forall_lookup_1.
Qed.

Lemma voice_popped jbs y z : Z.to_nat (c_slot y) ≠ Z.to_nat (c_slot z) →
  voice (popped jbs y) z = voice jbs z.
Proof.
  intros Hne. unfold voice, popped. destruct (c_is_mute z =? 0); [|done].
  destruct (c_is_mute y =? 0); [|done]. destruct (jbs !! Z.to_nat (c_slot y)); [|done].
  by rewrite list_lookup_insert_ne.
Qed.

Section collect.
Context {D : Type}.
Implicit Types s : server D.

Lemma audio_popped s y : audio_ok s → audio_ok (with_jitter (popped (sv_jitter s) y) s).
Proof.
  intros [Hj Hb Hsem]. split; cbn; [by rewrite length_popped|by apply popped_ok|done].
Qed.

(** A member's client object, active. *)
Definition member_is s (c : loc) (y : client) : Prop :=
  w_clients (sv_world s) !! c = Some y ∧ c_is_active y ≠ 0 ∧ 0 ≤ c_slot y < MAX_CLIENTS.

Lemma with_jitter_world s j : sv_world (with_jitter j s) = sv_world s.
Proof. done. Qed.

(** The semaphore taken around a pop is back at its value afterwards. *)
Lemma pop_speaker_run s room_id slot : audio_ok s → 0 ≤ room_id < MAX_ROOMS →
  0 ≤ slot < MAX_CLIENTS → ∃ jb, sv_jitter s !! Z.to_nat slot = Some jb ∧
  ∀ B (k : option jitter_entry → C (server D) B),
  (ok ← sem_trywait_room room_id;
   if negb ok then k None
   else o ← pop_jitter slot; _ ← sem_post_room room_id; k o) s =
  k (jitter_buffer_pop jb).1
    (with_jitter (<[Z.to_nat slot := (jitter_buffer_pop jb).2]> (sv_jitter s)) s).
Proof.
  intros [Hj _ Hsem] Hr Hs. unfold MAX_ROOMS, MAX_CLIENTS in *.
  destruct (lookup_lt_is_Some_2 (sv_jitter s) (Z.to_nat slot) ltac:(lia)) as [jb Hjb].
  exists jb. split; [done|]. intros B k.
  assert (replicate 32 MAX_SPEAKERS_PER_ROOM !! Z.to_nat room_id = Some MAX_SPEAKERS_PER_ROOM)
    as H0 by (apply lookup_replicate_2; lia).
  erewrite C_bind_run.
  2: { unfold sem_trywait_room. rewrite at_index_nonneg, Hsem, H0 by lia. reflexivity. }
  cbn [negb]. erewrite C_bind_run.
  2: { unfold pop_jitter. rewrite at_index_nonneg by lia.
       cbn [sv_jitter with_speaker_sem]. rewrite Hjb.
       rewrite (surjective_pairing (jitter_buffer_pop jb)). reflexivity. }
  erewrite C_bind_run.
  2: { unfold sem_post_room. rewrite at_index_nonneg by lia.
       cbn [sv_speaker_sem with_speaker_sem with_jitter]. 
       rewrite list_lookup_insert_eq by (rewrite length_replicate; lia). reflexivity. }
  f_equal. unfold with_speaker_sem, with_jitter. cbn. f_equal.
  rewrite list_insert_insert_eq. rewrite list_insert_id; [done|apply H0].
Qed.

Lemma collect_run room_id ms : ∀ ys s acc, audio_ok s → 0 ≤ room_id < MAX_ROOMS →
  Forall2 (member_is s) ms ys → NoDup (c_slot <$> ys) →
  (length acc + length ms ≤ 50)%nat →
  collect_speakers room_id (Some <$> ms) acc s =
    Some (acc ++ omap (voice (sv_jitter s)) ys,
          with_jitter (fold_left popped ys (sv_jitter s)) s).
Proof.
  induction ms as [|c ms IH]; intros ys s acc Ha Hr Hms Hnd Hlen.
  { inv Hms. cbn. rewrite app_nil_r. by destruct s. }
  inv Hms. destruct H1 as (Hy&Hact&Hslot). cbn [fmap list_fmap collect_speakers] in *.
  apply NoDup_cons in Hnd as [Hnew Hnd]. cbn [length] in Hlen.
  rewrite (C_bind_run _ _ _ _ _ (sv_read_client _ _ _ Hy)).
  rewrite (proj2 (Z.eqb_neq _ _) Hact), orb_false_r. cbn [omap list_omap fold_left].
  destruct (Z.eqb_spec (c_is_mute y) 0) as [Hmute|Hmute]; cbn [negb].
  2: { assert (voice (sv_jitter s) y = None ∧ popped (sv_jitter s) y = sv_jitter s) as [-> ->]
         by (unfold voice, popped; by rewrite (proj2 (Z.eqb_neq _ _) Hmute)).
       apply (IH l'); try done. lia. }
  unfold MAX_CLIENTS at 1. destruct (Z.leb_spec 50 (Z.of_nat (length acc))); [lia|].
  destruct (pop_speaker_run s room_id (c_slot y) Ha Hr Hslot) as (jb&Hjb&Hk).
  assert (voice (sv_jitter s) y = speaker_of (c_slot y) <$> (jitter_buffer_pop jb).1) as Hv
    by (unfold voice; rewrite Hmute, Hjb; done).
  assert (popped (sv_jitter s) y =
    <[Z.to_nat (c_slot y) := (jitter_buffer_pop jb).2]> (sv_jitter s)) as Hp
    by (unfold popped; rewrite Hmute, Hjb; done).
  etransitivity; [exact (Hk _ (λ o, collect_speakers room_id (Some <$> ms)
    (match o with Some e => acc ++ [speaker_of (c_slot y) e] | None => acc end)))|].
  rewrite <-Hp. cbn beta. rewrite (IH l'); [|by apply audio_popped
    |done|done|done|destruct (jitter_buffer_pop jb).1; rewrite ?length_app; cbn; lia].
  cbn [sv_jitter with_jitter].
  assert (omap (voice (popped (sv_jitter s) y)) l' = omap (voice (sv_jitter s)) l') as ->.
  { apply list_omap_ext, Forall_Forall2_diag, Forall_forall. intros z Hz.
    apply voice_popped. intros E. apply Hnew. apply list_elem_of_fmap. exists z.
    split; [|done]. apply list_elem_of_lookup in Hz as [j Hj].
    destruct (Forall2_lookup_r _ _ _ _ _ H3 Hj) as (d&_&_&_&?). lia. }
  rewrite Hv. destruct (jitter_buffer_pop jb).1; cbn; by rewrite <-?app_assoc.
Qed.

(** The datagram for one listener. *)
Definition mix_datagram s (room_id : Z) (speakers : list speaker) (y : client) : datagram :=
  let pkt := mixed_packet room_id (sv_now s) (mix_for (c_slot y) speakers) in
  Datagram (c_udp_addr y) (if c_udp_addr_len y =? 0 then 16 else c_udp_addr_len y)
    (header_size + ap_payload_size pkt) pkt.

Lemma send_mixes_run l x speakers ms : ∀ ys s, w_rooms (sv_world s) !! l = Some x →
  Forall2 (member_is s) ms ys → Forall (λ y, c_current_room y = Some l) ys →
  send_mixes speakers (Some <$> ms) s =
    Some (tt, with_datagrams (sv_datagrams s ++
      (mix_datagram s (r_room_id x) speakers <$> ys)) s).
Proof.
  induction ms as [|c ms IH]; intros ys s Hx Hms Hroom; cbn [fmap list_fmap send_mixes].
  { inv Hms. cbn. rewrite app_nil_r. by destruct s. }
  inv Hms. destruct H1 as (Hy&Hact&Hslot). inv Hroom.
  rewrite (C_bind_run _ _ _ _ _ (sv_read_client _ _ _ Hy)).
  rewrite (proj2 (Z.eqb_neq _ _) Hact). cbn [negb when].
  erewrite C_bind_run.
  2: { unfold send_audio_to_client.
       rewrite (C_bind_run _ _ _ _ _ (sv_read_client _ _ _ Hy)), H1.
       erewrite C_bind_run
         by (rewrite (C_bind_run _ _ _ _ _ (sv_read_room _ _ _ Hx)); reflexivity).
       c_steps. reflexivity. }
  rewrite (IH l'); [|done..]. cbn [fmap list_fmap sv_datagrams with_datagrams].
  by rewrite <-app_assoc.
Qed.
End collect.

(** ** The claims on a room and on a tick *)
Section rooms.
Context {D : Type}.
Implicit Types s : server D.

(** What the mixer relies on. *)
Record mix_inv s (rs : arooms) : Prop := {
  mi_mem : mem_ok (sv_world s) rs;
  mi_members : members_ok (w_clients (sv_world s)) rs;
  mi_slots : slots_ok (w_clients (sv_world s));
  mi_audio : audio_ok s
}.

Lemma room_members s rs (i : nat) l a : mix_inv s rs → rs !! i = Some (l, a) →
  ∃ ys, Forall2 (member_is s) (ar_members a) ys ∧
    Forall (λ y, c_current_room y = Some l) ys ∧ NoDup (c_slot <$> ys).
Proof.
  intros [Hm Hme Hsl _] Hi. pose proof (list_elem_of_lookup_2 _ _ _ Hi) as Hin.
  pose proof (mo_distinct _ _ Hm l a Hin) as Hnd.
  assert (∀ c, c ∈ ar_members a → ∃ y, member_is s c y ∧ c_current_room y = Some l) as Hc.
  { intros c Hc. destruct (me_client _ _ Hme l a c Hin Hc) as (y&Hy&Hact&Hr).
    exists y. split; [|done]. split; [done|]. split; [done|]. by eapply sl_range. }
  clear Hi. induction (ar_members a) as [|c ms IH].
  { exists []. split_and!; constructor. }
  apply NoDup_cons in Hnd as [Hnew Hnd].
  destruct (Hc c ltac:(by left)) as (y&Hy&Hr).
  destruct IH as (ys&Hys&Hrs&Hss); [done|intros; apply Hc; by right|].
  exists (y :: ys). split_and!; [by constructor..|]. cbn. constructor; [|done].
  intros (z&Ez&[j Hj]%list_elem_of_lookup)%list_elem_of_fmap.
  destruct (Forall2_lookup_r _ _ _ _ _ Hys Hj) as (d&Hd&Hdz&?&_).
  apply Hnew. destruct Hy as (?&?&_).
  assert (c = d) as -> by (by eapply (sl_distinct _ Hsl c y d z)).
  by eapply list_elem_of_lookup_2.
Qed.

(** The state after a room has been mixed. *)
Definition after_mix s (l : loc) (x : room) (ys : list client) : server D :=
  let speakers := omap (voice (sv_jitter s)) ys in
  with_datagrams (sv_datagrams s ++ (mix_datagram s (r_room_id x) speakers <$> ys))
    (with_world (with_room_heap <[l := r_with_speakers x (Z.of_nat (length speakers))]>
                   (sv_world s))
      (with_jitter (fold_left popped ys (sv_jitter s)) s)).

Lemma mix_room_run s rs (i : nat) l a x ys : mix_inv s rs → rs !! i = Some (l, a) →
  w_rooms (sv_world s) !! l = Some x → room_is x a →
  Forall2 (member_is s) (ar_members a) ys → Forall (λ y, c_current_room y = Some l) ys →
  NoDup (c_slot <$> ys) → mix_room l s = Some (tt, after_mix s l x ys).
Proof.
  intros Hinv Hi Hx Hxa Hys Hrs Hss. pose proof (ri_max _ _ Hxa) as Hmax.
  unfold mix_room. rewrite (C_bind_run _ _ _ _ _ (sv_read_room _ _ _ Hx)).
  unfold participants_read. rewrite (ri_members _ _ Hxa), (ri_count _ _ Hxa), Nat2Z.id.
  rewrite length_participants by done.
  destruct (Z.leb_spec (Z.of_nat (length (ar_members a))) (Z.of_nat 50)); [|lia]. c_steps.
  assert (take (length (ar_members a)) (participants_of (ar_members a)) =
    Some <$> ar_members a) as ->.
  { unfold participants_of. apply take_app_exact. by rewrite length_fmap. }
  erewrite C_bind_run.
  2: { apply (collect_run (r_room_id x) (ar_members a) ys s []); try done.
       - apply Hinv.
       - rewrite (ri_id _ _ Hxa). eapply mo_bound; [apply Hinv|by eapply list_elem_of_lookup_2]. }
  cbn [app]. erewrite C_bind_run.
  2: { apply on_world_run. eapply write_room_run. exact Hx. }
  rewrite take_ge by (rewrite length_fmap; unfold MAX_CLIENTS; lia).
  rewrite (send_mixes_run l (r_with_speakers x (Z.of_nat (length (omap (voice (sv_jitter s)) ys))))
    _ _ ys); [reflexivity|cbn; apply lookup_insert_eq|done|done].
Qed.

Lemma fold_popped ys : ∀ jbs, Forall jitter_ok jbs →
  Forall jitter_ok (fold_left popped ys jbs) ∧
  length (fold_left popped ys jbs) = length jbs.
Proof.
  induction ys as [|y ys IH]; intros jbs H; cbn; [done|].
  destruct (IH (popped jbs y)) as [? E]; [by apply popped_ok|].
  by rewrite length_popped in E.
Qed.

Lemma after_mix_inv s rs (i : nat) l a x ys : mix_inv s rs → rs !! i = Some (l, a) →
  w_rooms (sv_world s) !! l = Some x → room_is x a →
  r_prev x = prev_of rs i → r_next x = next_of rs i → mix_inv (after_mix s l x ys) rs.
Proof.
  intros [Hm Hme Hsl Ha] Hi Hx Hxa Hp Hn. split; cbn; [|done|done|].
  - rewrite <-(list_insert_id rs i (l, a) Hi).
    eapply mem_ok_update; [done|done|done| | |done|done].
    + eapply mo_distinct; [done|by eapply list_elem_of_lookup_2].
    + by destruct Hxa.
  - destruct Ha as [Hj Hb Hsem].
    destruct (fold_popped ys (sv_jitter s) Hb) as [? E].
    split; cbn; [by rewrite E|done|done].
Qed.

(** C11. Mixing a room, in any state of the server invariant: nothing is
    undefined, every unmuted member with a packet due is heard (the speaker
    semaphore is taken and given back around each pop, so it never turns a
    speaker away), every member gets exactly one packet, with the mix for its
    own slot, and the semaphores are as they were. *)
Theorem mix_room_correct s rs (i : nat) l a : mix_inv s rs → rs !! i = Some (l, a) →
  ∃ ys s', Forall2 (member_is s) (ar_members a) ys ∧ mix_room l s = Some (tt, s') ∧
    sv_datagrams s' = sv_datagrams s ++
      ((λ y, mix_datagram s (ar_id a) (omap (voice (sv_jitter s)) ys) y) <$> ys) ∧
    sv_speaker_sem s' = sv_speaker_sem s ∧
    w_clients (sv_world s') = w_clients (sv_world s) ∧ mix_inv s' rs.
Proof.
  intros Hinv Hi. destruct (room_members s rs i l a Hinv Hi) as (ys&Hys&Hrs&Hss).
  destruct (mem_ok_room _ _ _ _ _ (mi_mem _ _ Hinv) Hi) as (x&Hx&Hxa&Hp&Hn).
  exists ys, (after_mix s l x ys). split; [done|].
  split; [by eapply mix_room_run|]. cbn. rewrite (ri_id _ _ Hxa).
  split_and!; [done..|by eapply after_mix_inv].
Qed.
End rooms.

(** ** A whole tick *)
Section tick.
Context {D : Type}.
Implicit Types s : server D.

(** The packets waiting in the ring: none is larger than a payload. *)
Definition ring_ok s (q : list audio_packet) : Prop :=
  match sv_ring s with
  | Some r => ring_state_rep r q
  | None => q = []
  end ∧ Forall pushable q.

Lemma store_packet_run s pkt : audio_ok s → pushable pkt →
  ∃ j, store_packet pkt s = Some (tt, with_jitter j s) ∧ Forall jitter_ok j ∧
       length j = 50%nat.
Proof.
  intros [Hj Hb _] Hp. unfold store_packet. cbn zeta. unfold MAX_CLIENTS.
  destruct (_ || _) eqn:E.
  { exists (sv_jitter s). split_and!; [by destruct s|done..]. }
  apply orb_false_iff in E as [E1%Z.ltb_ge E2%Z.leb_gt].
  rewrite at_index_nonneg by lia.
  destruct (lookup_lt_is_Some_2 (sv_jitter s) (Z.to_nat (i32 (ap_sender_id pkt))))
    as [jb Hjb]; [lia|]. rewrite Hjb.
  destruct (jitter_push_ok jb pkt) as (jb'&->&Hok); [by eapply Forall_lookup_1|done|].
  eexists. split; [reflexivity|]. split; [by apply Forall_insert|by rewrite length_insert].
Qed.

(** A packet goes to the buffer of its sender's slot, or nowhere. *)
Definition put_packet (jbs : list jitter_buffer) (pkt : audio_packet)
    : option (list jitter_buffer) :=
  let slot := i32 (ap_sender_id pkt) in
  if decide (0 ≤ slot < MAX_CLIENTS) then
    jb ← jbs !! Z.to_nat slot;
    jb' ← jitter_buffer_push jb pkt;
    Some (<[Z.to_nat slot := jb']> jbs)
  else Some jbs.
Fixpoint put_packets (q : list audio_packet) (jbs : list jitter_buffer)
    : option (list jitter_buffer) :=
  match q with
  | [] => Some jbs
  | pkt :: q' => jbs' ← put_packet jbs pkt; put_packets q' jbs'
  end.

Lemma store_packet_put s pkt jbs : store_packet pkt s = Some (tt, with_jitter jbs s) →
  put_packet (sv_jitter s) pkt = Some jbs.
Proof.
  unfold store_packet, put_packet. cbv zeta. destruct (_ || _) eqn:E.
  - intros [= Hs]. apply (f_equal sv_jitter) in Hs. cbn in Hs. subst jbs.
    rewrite decide_False; [done|]. apply orb_true_iff in E as [E%Z.ltb_lt|E%Z.leb_le]; lia.
  - apply orb_false_iff in E as [E1%Z.ltb_ge E2%Z.leb_gt].
    rewrite decide_True, at_index_nonneg by lia.
    destruct (sv_jitter s !! _) as [jb|]; [|done]. cbn [mbind option_bind].
    destruct (jitter_buffer_push jb pkt); [|done]. by intros [= <-].
Qed.

Lemma drain_run q : ∀ fuel s, audio_ok s → ring_ok s q → (length q < fuel)%nat →
  ∃ r j, drain_ring fuel s = Some (tt, with_ring r (with_jitter j s)) ∧
    put_packets q (sv_jitter s) = Some j ∧
    ring_ok (with_ring r (with_jitter j s)) [] ∧ audio_ok (with_ring r (with_jitter j s)).
Proof.
  induction q as [|pkt q IH]; intros fuel s Ha [Hr Hp] Hf; destruct fuel as [|fuel]; try lia;
    cbn [drain_ring]; unfold pop_ring.
  - destruct (sv_ring s) as [r|] eqn:Er.
    + destruct (ring_pop_run r [] Hr) as (r'&Hpop&Hr').
      erewrite C_bind_run by (by rewrite Er, Hpop). cbn.
      exists (Some r'), (sv_jitter s). split_and!; [by destruct s|done|by split|].
      by destruct s, Ha.
    + erewrite C_bind_run by (by rewrite Er). cbn.
      exists None, (sv_jitter s). split; [destruct s; cbn in *; by subst|].
      split; [done|]. split; [by split|]. by destruct s, Ha.
  - destruct (sv_ring s) as [r|] eqn:Er; [|done]. inv Hp.
    destruct (ring_pop_run r (pkt :: q) Hr) as (r'&Hpop&Hr').
    erewrite C_bind_run by (by rewrite Er, Hpop). cbn [QueueSpec.pop fst snd] in *.
    destruct (store_packet_run (with_ring (Some r') s) pkt) as (j&Hrun&Hj&Hl); [by destruct Ha|done|].
    rewrite (C_bind_run _ _ _ _ _ Hrun). apply store_packet_put in Hrun.
    destruct (IH fuel (with_jitter j (with_ring (Some r') s))) as (r2&j2&Hrun2&Hput&Hr2&Ha2).
    + split; [done|done|apply Ha].
    + by split.
    + cbn [length] in Hf. lia.
    + exists r2, j2. cbn [sv_jitter with_ring] in Hrun. cbn [put_packets].
      rewrite Hrun. by destruct s.
Qed.

(** What a room's members get: one datagram each, with the mix for its slot of
    the voices due in these jitter buffers. *)
Definition room_datagrams s (jbs : list jitter_buffer) (r : loc * aroom) (ys : list client)
    : list datagram :=
  mix_datagram s (ar_id r.2) (omap (voice jbs) ys) <$> ys.

(** The clients that are the members of a room. *)
Definition room_clients s (r : loc * aroom) (ys : list client) : Prop :=
  Forall2 (member_is s) (ar_members r.2) ys.

(** Popping the buffers of some clients does not change the voices of others. *)
Lemma voices_popped (ys : list client) : ∀ jbs (zs : list client),
  (∀ y z, y ∈ ys → z ∈ zs → Z.to_nat (c_slot y) ≠ Z.to_nat (c_slot z)) →
  omap (voice (fold_left popped ys jbs)) zs = omap (voice jbs) zs.
Proof.
  induction ys as [|y ys IH]; intros jbs zs Hne; cbn [fold_left]; [done|].
  rewrite IH by (intros ? ? ?; apply Hne; by right).
  apply list_omap_ext, Forall_Forall2_diag, Forall_forall. intros z Hz.
  apply voice_popped, Hne; [by left|done].
Qed.

(** The members of two rooms have different slots. *)
Lemma rooms_slots s rs (i k : nat) r r' (ys zs : list client) : mix_inv s rs → rs !! i = Some r →
  rs !! k = Some r' → i ≠ k → room_clients s r ys → room_clients s r' zs →
  ∀ y z, y ∈ ys → z ∈ zs → Z.to_nat (c_slot y) ≠ Z.to_nat (c_slot z).
Proof.
  intros [Hm Hme Hsl _] Hi Hk Hik Hys Hzs y z [j Hj]%list_elem_of_lookup
    [m Hzm]%list_elem_of_lookup E. destruct r as [l a], r' as [l' a'].
  destruct (Forall2_lookup_r _ _ _ _ _ Hys Hj) as (c&Hc&Hy&_&?).
  destruct (Forall2_lookup_r _ _ _ _ _ Hzs Hzm) as (d&Hd&Hz&_&?).
  apply list_elem_of_lookup_2 in Hc, Hd. cbn in Hc, Hd.
  destruct (me_client _ _ Hme l a c (list_elem_of_lookup_2 _ _ _ Hi) Hc) as (y'&Hy'&Ha&Hr).
  destruct (me_client _ _ Hme l' a' d (list_elem_of_lookup_2 _ _ _ Hk) Hd) as (z'&Hz'&Ha'&Hr').
  simplify_eq. pose proof (sl_range _ Hsl _ _ Hy Ha). pose proof (sl_range _ Hsl _ _ Hz Ha').
  assert (c = d) as -> by (eapply (sl_distinct _ Hsl c y d z); try done; lia).
  simplify_eq. apply Hik. eapply (NoDup_lookup rs.*1); [exact (dll_nodup _ _ _ (mo_dll _ _ Hm))| |];
    by rewrite list_lookup_fmap, ?Hi, ?Hk.
Qed.

(** The rooms' datagrams are those of the jitter buffers at the start: no room
    takes a packet of another room's member. *)
Lemma datagrams_popped s rs (i : nat) r ys jbs : mix_inv s rs → rs !! i = Some r →
  room_clients s r ys → ∀ n yss, (i < n)%nat → Forall2 (room_clients s) (drop n rs) yss →
  zip_with (room_datagrams s (fold_left popped ys jbs)) (drop n rs) yss =
  zip_with (room_datagrams s jbs) (drop n rs) yss.
Proof.
  intros Hinv Hi Hys n yss Hn Hyss. remember (drop n rs) as rs' eqn:E. revert n Hn E.
  induction Hyss as [|r' zs rs' yss Hzs _ IH]; intros n Hn E; [done|]. cbn [zip_with].
  assert (rs !! n = Some r') as Hr' by (by rewrite <-(Nat.add_0_r n), <-lookup_drop, <-E).
  f_equal.
  - unfold room_datagrams. f_equal. f_equal. apply voices_popped.
    by apply (rooms_slots s rs i n r r' ys zs Hinv Hi Hr' ltac:(lia)).
  - apply (IH (S n)); [lia|]. rewrite (drop_S _ _ _ Hr') in E. by injection E.
Qed.

Lemma mix_rooms_run rs : ∀ n i s, (length rs ≤ i + n)%nat → mix_inv s rs →
  ∃ s', mix_rooms (S n) (fst <$> rs !! i) s = Some (tt, s') ∧ mix_inv s' rs ∧
    w_clients (sv_world s') = w_clients (sv_world s) ∧
    ∃ h j yss, Forall2 (room_clients s) (drop i rs) yss ∧
      s' = with_datagrams (sv_datagrams s ++
             concat (zip_with (room_datagrams s (sv_jitter s)) (drop i rs) yss))
             (with_jitter j (with_world (with_room_heap (λ _, h) (sv_world s)) s)).
Proof.
  assert (∀ s, s = with_datagrams (sv_datagrams s ++ []) (with_jitter (sv_jitter s)
    (with_world (with_room_heap (λ _, w_rooms (sv_world s)) (sv_world s)) s))) as Hid.
  { intros s. rewrite app_nil_r. by destruct s as [[] ? ? ? ? ? ? ? ? ? ? ? ?]. }
  induction n as [|n IH]; intros i s Hi Hinv.
  { rewrite lookup_ge_None_2, drop_ge by lia. exists s. split_and!; [done..|].
    exists (w_rooms (sv_world s)), (sv_jitter s), []. split; [done|apply Hid]. }
  destruct (rs !! i) as [[l a]|] eqn:E.
  2: { exists s. split_and!; [done..|]. rewrite drop_ge by (by apply lookup_ge_None_1).
       exists (w_rooms (sv_world s)), (sv_jitter s), []. split; [done|apply Hid]. }
  rewrite (drop_S _ _ _ E). cbn [fmap option_fmap option_map fst mix_rooms].
  destruct (mem_ok_room _ _ _ _ _ (mi_mem _ _ Hinv) E) as (x&Hx&Hxa&Hp&Hn).
  rewrite (C_bind_run _ _ _ _ _ (sv_read_room _ _ _ Hx)).
  destruct (room_members s rs i l a Hinv E) as (ys&Hys&Hrs&Hss).
  assert (∃ s1 x1, (when (0 <? r_participant_count x) (mix_room l)) s = Some (tt, s1) ∧
    w_rooms (sv_world s1) !! l = Some x1 ∧ r_next x1 = next_of rs i ∧ mix_inv s1 rs ∧
    ∃ h, s1 = with_datagrams (sv_datagrams s ++ room_datagrams s (sv_jitter s) (l, a) ys)
      (with_jitter (fold_left popped ys (sv_jitter s))
        (with_world (with_room_heap (λ _, h) (sv_world s)) s)))
    as (s1&x1&Hrun&Hx1&Hn1&Hinv1&h1&Hs1).
  { unfold when. rewrite (ri_count _ _ Hxa).
    destruct (Z.ltb_spec 0 (Z.of_nat (length (ar_members a)))) as [Hpos|Hzero].
    - exists (after_mix s l x ys). eexists. split; [by eapply mix_room_run|].
      split; [cbn; apply lookup_insert_eq|]. split; [done|].
      split; [by eapply after_mix_inv|]. eexists. unfold after_mix, room_datagrams.
      rewrite (ri_id _ _ Hxa). reflexivity.
    - pose proof (Forall2_length _ _ _ Hys). destruct ys as [|y ys]; [|cbn in *; lia].
      exists s, x. split_and!; [done..|]. exists (w_rooms (sv_world s)). apply Hid. }
  rewrite (C_bind_run _ _ _ _ _ Hrun), (C_bind_run _ _ _ _ _ (sv_read_room _ _ _ Hx1)), Hn1.
  destruct (IH (S i) s1 ltac:(lia) Hinv1) as (s2&Hrun2&Hinv2&Hc2&h2&j2&yss&Hyss&Hs2).
  exists s2. split; [exact Hrun2|]. split; [done|]. split; [by rewrite Hc2, Hs1|].
  assert (Forall2 (room_clients s) (drop (S i) rs) yss) as Hyss'.
  { eapply Forall2_impl; [exact Hyss|]. intros r zs Hzs. eapply Forall2_impl; [exact Hzs|].
    intros c z. by subst s1. }
  exists h2, j2, (ys :: yss). split; [by constructor|].
  assert (zip_with (room_datagrams s1 (sv_jitter s1)) (drop (S i) rs) yss =
    zip_with (room_datagrams s (sv_jitter s)) (drop (S i) rs) yss) as Hd.
  { rewrite <-(datagrams_popped s rs i (l, a) ys (sv_jitter s) Hinv E Hys (S i) yss
      ltac:(lia) Hyss'). subst s1. reflexivity. }
  rewrite Hs2, Hd, Hs1. cbn [zip_with concat]. by rewrite (app_assoc (sv_datagrams s)).
Qed.

Lemma mixer_tick_run s rs q : mix_inv s rs → ring_ok s q →
  ∃ h j jbs r yss, put_packets q (sv_jitter s) = Some jbs ∧
    Forall2 (room_clients s) rs yss ∧
    let s' := with_datagrams (sv_datagrams s ++ concat (zip_with (room_datagrams s jbs) rs yss))
      (with_jitter j (with_ring r (with_world (with_room_heap (λ _, h) (sv_world s)) s))) in
    mixer_tick s = Some (tt, s') ∧ mix_inv s' rs ∧ ring_ok s' [].
Proof.
  intros Hinv Hq. unfold mixer_tick.
  assert (length q < 129)%nat as Hlen.
  { destruct Hq as [Hr _]. destruct (sv_ring s); [|by subst; cbn; lia].
    destruct Hr as (Hr&_). pose proof (rr_bound _ _ Hr). lia. }
  destruct (drain_run q 129 s (mi_audio _ _ Hinv) Hq Hlen) as (r&jbs&Hrun&Hst&Hr&Ha).
  rewrite (C_bind_run _ _ _ _ _ Hrun).
  set (s1 := with_ring r (with_jitter jbs s)) in *.
  assert (mix_inv s1 rs) as Hinv1 by (destruct Hinv; by split).
  c_steps. rewrite (dll_head _ _ _ (mo_dll _ _ (mi_mem _ _ Hinv1))).
  destruct (mix_rooms_run rs (size (w_rooms (sv_world s1))) 0 s1)
    as (s2&Hrun2&Hinv2&Hc2&h&j2&yss&Hyss&Hs2).
  { pose proof (dll_size _ _ _ (mo_dll _ _ (mi_mem _ _ Hinv1))). lia. }
  { done. }
  rewrite drop_0 in Hyss, Hs2. exists h, j2, jbs, r, yss. split; [done|]. split; [exact Hyss|].
  subst s2. by split_and!.
Qed.

(** C10. One tick of the mixer thread on any state of the invariant whose ring
    holds only packets that fit a payload: it ends and nothing is undefined;
    the packets of the ring are first put into the jitter buffers in order and
    the ring is empty afterwards; then every member of every room, in the order
    of the rooms and of their members, is sent one datagram, to its own
    address, with the mix for its slot of the voices of its room; and rooms,
    clients and disk are untouched except for the speaker counts. *)
Theorem mixer_tick_correct s rs q : mix_inv s rs → ring_ok s q →
  ∃ s' jbs yss, mixer_tick s = Some (tt, s') ∧ mix_inv s' rs ∧ ring_ok s' [] ∧
    w_clients (sv_world s') = w_clients (sv_world s) ∧
    w_disk (sv_world s') = w_disk (sv_world s) ∧
    put_packets q (sv_jitter s) = Some jbs ∧
    Forall2 (λ r ys, Forall2 (member_is s) (ar_members r.2) ys) rs yss ∧
    sv_datagrams s' = sv_datagrams s ++ concat (zip_with (λ r ys,
      mix_datagram s (ar_id r.2) (omap (voice jbs) ys) <$> ys) rs yss).
Proof.
  intros Hinv Hq. destruct (mixer_tick_run s rs q Hinv Hq) as (h&j&jbs&r&yss&Hst&Hyss&Hrun&?&?).
  eexists _, jbs, yss. split; [exact Hrun|]. by split_and!.
Qed.

(** So a tick sends as many datagrams as there are members. *)
Lemma tick_datagrams s rs yss jbs :
  Forall2 (λ r ys, Forall2 (member_is s) (ar_members r.2) ys) rs yss →
  length (concat (zip_with (room_datagrams s jbs) rs yss)) =
  sum_list (length ∘ ar_members ∘ snd <$> rs).
Proof.
  induction 1 as [|r ys rs yss Hys _ IH]; [done|]. cbn [zip_with concat fmap list_fmap sum_list].
  rewrite length_app, IH. unfold room_datagrams. rewrite length_fmap. cbn.
  by rewrite (Forall2_length _ _ _ Hys).
Qed.
End tick.

(** ** Ids past the semaphores *)

(** The room file of an earlier run that ended with 32 rooms open. *)
Definition stale_file : file :=
  File (concat ((λ i : nat, encode_room (RoomRecord (Z.of_nat i) (memset 97 31 ++ [0])
         (memset 0 64) 1 1)) <$> seq 0 32)) [].
Definition stale_world : world db :=
  World ∅ (w_clients demo_world) None 0 (Db 3 stale_file 4 (File [] []) 0 [] true 0) []
    demo_junk.

(** Create a room, join it, let the mixer run. *)
Definition create_join_mix (room_id : Z) : C (server db) Z :=
  id ← on_world (room_create (str "lobby") [] 1%positive);
  _ ← on_world (room_join room_id [] (Some 1%positive));
  _ ← mixer_tick;
  mret id.

(** Rooms left open by an earlier run stay active in the room file, which the
    new run does not load: the first room it creates gets the id 32, no
    semaphore of [room_speaker_sem[32]] belongs to it, and the first tick after
    someone joins it accesses the array out of range.  On an empty room file
    the same commands run. *)
Theorem stale_rooms_break_mixer :
  option_map fst (room_create (str "lobby") [] 1%positive stale_world) = Some 32 ∧
  create_join_mix 32 (demo_server stale_world) = None ∧
  option_map fst (create_join_mix 0 (demo_server demo_world)) = Some 0.
Proof. split_and!; vm_done. Qed.

(** ** Witnesses *)
Definition demo_speaker (slot v : Z) : speaker := Speaker slot (replicate 320 v).

Lemma no_self_echo_witness :
  mix_for 3 [demo_speaker 3 9; demo_speaker 4 7] = mix_for 3 [demo_speaker 4 7].
Proof. apply (no_self_echo 3 [demo_speaker 3 9; demo_speaker 4 7] [demo_speaker 4 7]). vm_done. Defined.

Lemma demo_speaker_wf slot v : is_i16 v → well_formed_speaker (demo_speaker slot v).
Proof. intros H. split; cbn [sp_pcm demo_speaker]; [by rewrite length_replicate|by apply Forall_replicate]. Qed.

Lemma mix_of_few_witness : mix_for 3 [demo_speaker 3 9; demo_speaker 4 (-7)] = replicate 320 (-7).
Proof.
  apply (mix_of_few 3 [demo_speaker 3 9; demo_speaker 4 (-7)]) with (sp := demo_speaker 4 (-7)).
  - constructor; [apply demo_speaker_wf; by int_lia|].
    constructor; [apply demo_speaker_wf; by int_lia|constructor].
  - vm_done.
  - vm_done.
Defined.

Lemma mix_is_average_witness :
  mix_for 3 [demo_speaker 1 9; demo_speaker 4 (-20)] !! 319%nat = Some (-5).
Proof.
  apply (mix_is_average 3 [demo_speaker 1 9; demo_speaker 4 (-20)] 319);
    [lia|vm_compute; discriminate|vm_compute; lia].
Defined.

Lemma demo_mix_inv : ∃ w a, mix_inv (demo_server (D := db) w) [(2%positive, a)] ∧
  ar_members a = [1%positive].
Proof.
  destruct demo_joined as (w&a&Hs&Ha&_&_&_&Hc). exists w, a. split; [|done].
  split; [apply Hs|apply Hs| |].
  - cbn. rewrite Hc.
    assert (∀ c y, <[1%positive := c_with_room (demo_client 0 "alice") (Some 2%positive)]>
      (w_clients demo_world) !! c = Some y → c_slot y = Z.pos c - 1 ∧ Z.pos c ≤ 2) as Hslot.
    { intros c y [[<- <-]|[_ Hy]]%lookup_insert_Some; [done|]. cbn in Hy.
      apply lookup_insert_Some in Hy as [[<- <-]|[_ Hy]]; [done|].
      by apply lookup_singleton_Some in Hy as [<- <-]. }
    split.
    + intros c y Hy _. destruct (Hslot c y Hy). unfold MAX_CLIENTS. lia.
    + intros c y d z Hy Hz _ _ E. destruct (Hslot c y Hy), (Hslot d z Hz). lia.
  - split; cbn [demo_server sv_jitter sv_speaker_sem];
      [apply length_replicate|apply Forall_replicate, jitter_init_ok|done].
Qed.

Lemma demo_ring_ok w : ring_ok (demo_server (D := db) w) [].
Proof. split; [|constructor]. split; [apply zero_ring_rep|done]. Qed.

Lemma mix_room_correct_witness : ∃ w s', mix_room 2%positive (demo_server (D := db) w) = Some (tt, s').
Proof.
  destruct demo_mix_inv as (w&a&Hinv&_).
  destruct (mix_room_correct (demo_server w) _ 0 2%positive a Hinv eq_refl)
    as (ys&s'&_&Hrun&_). by exists w, s'.
Defined.

Lemma mixer_tick_correct_witness : ∃ w s',
  mixer_tick (demo_server (D := db) w) = Some (tt, s') ∧ length (sv_datagrams s') = 1%nat.
Proof.
  destruct demo_mix_inv as (w&a&Hinv&Ha).
  destruct (mixer_tick_correct (demo_server w) _ [] Hinv (demo_ring_ok w))
    as (s'&jbs&yss&Hrun&_&_&_&_&_&Hyss&Hd). exists w, s'. split; [done|]. rewrite Hd.
  pose proof (tick_datagrams (demo_server w) _ yss jbs Hyss) as Hl. unfold room_datagrams in Hl.
  rewrite length_app, Hl. cbn. by rewrite Ha.
Defined.
