(* ===== verification/ClientHandler.v ===== *)
(** * [src/server/client_handler.c]: commands and the worker queue

    Every handler as one computation on the server state: its checks in the
    order of the source, the calls it makes and the response it sends. *)
From S2P Require Import Prelude CInt CString Protocol Posix Auth RoomStore World RoomManager ServerState.
#[local] Open Scope Z_scope.

(** Changes of one or more fields of a client. *)
Definition c_with_login (x : client) (user_id : Z) (username : bytes) (role : Z) : client :=
  Client (c_fd x) (c_slot x) user_id username role (c_current_room x)
    (c_is_mute x) (c_is_active x) (c_ref_count x) (c_udp_addr x) (c_udp_addr_len x).
Definition c_with_role (x : client) (role : Z) : client :=
  c_with_login x (c_user_id x) (c_username x) role.
Definition c_with_mute (x : client) (m : Z) : client :=
  Client (c_fd x) (c_slot x) (c_user_id x) (c_username x) (c_role x) (c_current_room x)
    m (c_is_active x) (c_ref_count x) (c_udp_addr x) (c_udp_addr_len x).
Definition c_with_refs (x : client) (n : Z) : client :=
  Client (c_fd x) (c_slot x) (c_user_id x) (c_username x) (c_role x) (c_current_room x)
    (c_is_mute x) (c_is_active x) n (c_udp_addr x) (c_udp_addr_len x).

(** [sscanf(args,"%as %bs",...)] into zeroed arrays; [args] may be NULL. *)
Definition scan_two (a b : nat) (args : option bytes) : bytes * bytes :=
  match args with
  | None => ([], [])
  | Some s =>
    match sscanf [DStr a; DSpace; DStr b] (c_str s) with
    | SStr x :: SStr y :: _ => (x, y)
    | SStr x :: _ => (x, [])
    | _ => ([], [])
    end
  end.
(** [sscanf(args,"%as",...)]. *)
Definition scan_one (a : nat) (args : option bytes) : bytes :=
  match args with
  | None => []
  | Some s =>
    match sscanf [DStr a] (c_str s) with
    | SStr x :: _ => x
    | _ => []
    end
  end.

Definition toupper (c : Z) : Z := if (97 <=? c) && (c <=? 122) then c - 32 else c.

Section handlers.
Context {D : Type} `{RoomStore D}.

(** ** Responses *)
Definition send_response (fd : Z) (resp : response_packet) : C (server D) unit :=
  puts (λ s, with_sent (sv_sent s ++ [(fd, resp)]) s).

Definition send_error (c : loc) (status : Z) (msg : string) : C (server D) unit :=
  y ← on_world (read_client c);
  send_response (c_fd y) (ResponsePacket 0 status (snprintf 256 (str msg)) []).

Definition send_ok (c : loc) (msg : bytes) (data : option bytes) : C (server D) unit :=
  y ← on_world (read_client c);
  send_response (c_fd y)
    (ResponsePacket 0 STATUS_OK (snprintf 256 msg)
       (match data with Some d => snprintf MAX_PACKET_SIZE d | None => [] end)).

Definition update_client (c : loc) (f : client → client) : C (server D) unit :=
  y ← on_world (read_client c); on_world (write_client c (f y)).

(** ** The handlers *)
Definition handle_login (c : loc) (args : option bytes) : C (server D) unit :=
  y ← on_world (read_client c);
  if negb (c_user_id y =? -1) then send_error c STATUS_ERR_CONFLICT "Already logged in"
  else
    let '(username, password) := scan_two 31 63 args in
    if (strlen username =? 0)%nat || (strlen password =? 0)%nat
    then send_error c STATUS_ERR_AUTH "Username and password required"
    else
      users ← gets sv_users;
      match auth_authenticate users username password with
      | Some role =>
        _ ← update_client c (λ y, c_with_login y 0
              (<[31%nat := 0]> (strncpy (c_username y) username 31)) role);
        send_ok c (str "Login successful") (Some (print_int (c_slot y)))
      | None => send_error c STATUS_ERR_AUTH "Invalid username or password"
      end.

Definition handle_register (c : loc) (args : option bytes) : C (server D) unit :=
  y ← on_world (read_client c);
  if negb (c_user_id y =? -1) then send_error c STATUS_ERR_CONFLICT "Already logged in"
  else
    let '(username, password) := scan_two 31 63 args in
    if (strlen username =? 0)%nat || (strlen password =? 0)%nat
    then send_error c STATUS_ERR_AUTH "Username and password required"
    else
      users ← gets sv_users;
      let '(ok, users') := auth_add_user users username password (str "USER") in
      _ ← puts (with_users users');
      if ok then send_ok c (str "Registration successful") None
      else send_error c STATUS_ERR_CONFLICT "Username already exists".

Definition handle_logout (c : loc) : C (server D) unit :=
  y ← on_world (read_client c);
  if c_user_id y =? -1 then send_error c STATUS_ERR_AUTH "Not logged in"
  else
    _ ← match c_current_room y with
        | Some _ => _ ← on_world (room_leave (Some c)); mret tt
        | None => mret tt
        end;
    _ ← update_client c (λ y, c_with_login y (-1) (<[0%nat := 0]> (c_username y)) ROLE_GUEST);
    send_ok c (str "Logout successful") None.

Definition handle_create_room (c : loc) (args : option bytes) : C (server D) unit :=
  y ← on_world (read_client c);
  if c_user_id y =? -1 then send_error c STATUS_ERR_AUTH "Login required"
  else if negb (auth_check_permission (c_role y) CMD_CREATE)
  then send_error c STATUS_ERR_FORBIDDEN "Insufficient permissions to create room"
  else
    let '(room_name, password) := scan_two 31 63 args in
    if (strlen room_name =? 0)%nat then send_error c STATUS_ERR_NOT_FOUND "Room name required"
    else
      result ← on_world (room_create room_name password c);
      if result =? -1
      then send_error c STATUS_ERR_CONFLICT "Room with this name already exists"
      else if result =? -2 then send_error c STATUS_ERR_FULL "Maximum room limit reached"
      else if result =? -3
      then send_error c STATUS_ERR_INTERNAL "Failed to create room due to server error"
      else if result =? -4
      then send_error c STATUS_ERR_INTERNAL "Failed to write room to database"
      else send_ok c (str "Room created successfully") None.

Definition handle_join_room (c : loc) (args : option bytes) : C (server D) unit :=
  y ← on_world (read_client c);
  if c_user_id y =? -1 then send_error c STATUS_ERR_AUTH "Login required"
  else
    let '(room_name, room_password) := scan_two 31 63 args in
    if (strlen room_name =? 0)%nat then send_error c STATUS_ERR_NOT_FOUND "Room name required"
    else
      r ← on_world (room_find_by_name room_name);
      match r with
      | None => send_error c STATUS_ERR_NOT_FOUND "Room not found"
      | Some l =>
        x ← on_world (read_room l);
        result ← on_world (room_join (r_room_id x) room_password (Some c));
        if result =? -1
        then send_error c STATUS_ERR_INTERNAL "Failed to join room due to server error"
        else if result =? -2 then send_error c STATUS_ERR_NOT_FOUND "Room not found"
        else if result =? -3 then send_error c STATUS_ERR_FORBIDDEN "Incorrect password"
        else if result =? -4 then send_error c STATUS_ERR_FULL "Room is full"
        else
          x' ← on_world (read_room l);
          send_ok c (str "Joined room successfully") (Some (c_str (r_room_name x')))
      end.

Definition handle_leave_room (c : loc) : C (server D) unit :=
  y ← on_world (read_client c);
  if c_user_id y =? -1 then send_error c STATUS_ERR_AUTH "Login required"
  else
    match c_current_room y with
    | None => send_error c STATUS_ERR_NOT_FOUND "Not currently in a room"
    | Some _ =>
      _ ← on_world (room_leave (Some c));
      send_ok c (str "Left room successfully") None
    end.

Definition handle_list_rooms (c : loc) : C (server D) unit :=
  y ← on_world (read_client c);
  if c_user_id y =? -1 then send_error c STATUS_ERR_AUTH "Login required"
  else
    buffer ← on_world (room_list_formatted MAX_PACKET_SIZE);
    send_ok c (str "Active rooms:") (Some buffer).

(** The search of KICK and MUTE: the first participant of that name. *)
Fixpoint find_target (ps : list (option loc)) (n : nat) (name : bytes) {struct n}
    : C (server D) (option loc) :=
  match n with
  | O => mret None
  | S n' =>
    match ps with
    | [] => λ _, None
    | None :: ps' => find_target ps' n' name
    | Some p :: ps' =>
      y ← on_world (read_client p);
      if strcmp_eq (c_username y) name then mret (Some p) else find_target ps' n' name
    end
  end.

Definition handle_kick (c : loc) (args : option bytes) : C (server D) unit :=
  y ← on_world (read_client c);
  if c_user_id y =? -1 then send_error c STATUS_ERR_AUTH "Login required"
  else if negb (auth_check_permission (c_role y) CMD_KICK)
  then send_error c STATUS_ERR_FORBIDDEN "Permission denied"
  else
    match c_current_room y with
    | None => send_error c STATUS_ERR_NOT_FOUND "Not currently in a room"
    | Some l =>
      let target_name := scan_one 31 args in
      if (strlen target_name =? 0)%nat
      then send_error c STATUS_ERR_NOT_FOUND "Target username required"
      else
        x ← on_world (read_room l);
        target ← find_target (r_participants x) (Z.to_nat (r_participant_count x)) target_name;
        match target with
        | None => send_error c STATUS_ERR_NOT_FOUND "Target user not found in the room"
        | Some t =>
          _ ← on_world (room_leave (Some t));
          send_ok c (str "User kicked successfully") None
        end
    end.

Definition handle_mute (c : loc) (args : option bytes) : C (server D) unit :=
  y ← on_world (read_client c);
  if c_user_id y =? -1 then send_error c STATUS_ERR_AUTH "Login required"
  else if negb (auth_check_permission (c_role y) CMD_MUTE)
  then send_error c STATUS_ERR_FORBIDDEN "Permission denied"
  else
    match c_current_room y with
    | None => send_error c STATUS_ERR_NOT_FOUND "Not currently in a room"
    | Some l =>
      let target_name := scan_one 31 args in
      if (strlen target_name =? 0)%nat
      then send_error c STATUS_ERR_NOT_FOUND "Target username required"
      else
        x ← on_world (read_room l);
        target ← find_target (r_participants x) (Z.to_nat (r_participant_count x)) target_name;
        match target with
        | None => send_error c STATUS_ERR_NOT_FOUND "Target user not found in the room"
        | Some t =>
          z ← on_world (read_client t);
          let is_mute := if c_is_mute z =? 0 then 1 else 0 in
          _ ← on_world (write_client t (c_with_mute z is_mute));
          _ ← on_world (write_room l (r_with_speakers x
                (if is_mute =? 0 then r_active_speakers x + 1 else r_active_speakers x - 1)));
          send_ok c (str (if is_mute =? 0 then "User unmuted successfully"
                          else "User muted successfully")) None
        end
    end.

Definition handle_status (c : loc) : C (server D) unit :=
  y ← on_world (read_client c);
  room_name ← match c_current_room y with
              | Some l => x ← on_world (read_room l); mret (c_str (r_room_name x))
              | None => mret (str "None")
              end;
  send_ok c (snprintf 256 (str "Username: " ++ c_str (c_username y) ++ str " | Role: " ++
    print_int (c_role y) ++ str " | Room: " ++ room_name ++ str " | Muted: " ++
    str (if c_is_mute y =? 0 then "No" else "Yes"))) None.

(** The loop of PROMOTE over the connected clients. *)
Fixpoint promote_loop (cs : list (option loc)) (name : bytes) (role : Z)
    : C (server D) unit :=
  match cs with
  | [] => mret tt
  | None :: cs' => promote_loop cs' name role
  | Some c :: cs' =>
    y ← on_world (read_client c);
    _ ← when (negb (c_is_active y =? 0) && strcmp_eq (c_username y) name)
          (on_world (write_client c (c_with_role y role)));
    promote_loop cs' name role
  end.

Definition handle_promote (c : loc) (args : option bytes) : C (server D) unit :=
  y ← on_world (read_client c);
  if c_user_id y =? -1 then send_error c STATUS_ERR_AUTH "Login required"
  else if negb (auth_check_permission (c_role y) CMD_PROMOTE)
  then send_error c STATUS_ERR_FORBIDDEN "Permission denied. Only admins can promote."
  else
    let '(target_name, role_name) := scan_two 31 15 args in
    if (strlen target_name =? 0)%nat || (strlen role_name =? 0)%nat
    then send_error c STATUS_ERR_NOT_FOUND "Target username and role required"
    else if negb (strcasecmp_eq role_name (str "MODERATOR")) &&
            negb (strcasecmp_eq role_name (str "USER")) &&
            negb (strcasecmp_eq role_name (str "ADMIN"))
    then send_error c STATUS_ERR_CONFLICT "Invalid role (must be ADMIN, MODERATOR, or USER)"
    else
      let role_name := toupper <$> role_name in
      users ← gets sv_users;
      let '(ok, users') := auth_promote_user users target_name role_name in
      _ ← puts (with_users users');
      if ok then
        cs ← gets sv_clients;
        _ ← promote_loop cs target_name (role_code role_name);
        send_ok c (str "User promoted successfully") None
      else send_error c STATUS_ERR_NOT_FOUND "Target user not found".

(** ** The worker *)

(** [ref_count--; if(ref_count==0) free(c);] *)
Definition release (c : loc) : C (server D) unit :=
  y ← on_world (read_client c);
  _ ← on_world (write_client c (c_with_refs y (c_ref_count y - 1)));
  when (c_ref_count y - 1 =? 0) (on_world (free_client c)).

Definition delimiters : bytes := [32; 10; 13].

(** The two [strtok_r] calls: the command word and the text after it. *)
Definition split_command (command : bytes) : option (bytes * option bytes) :=
  match strtok delimiters (c_str command) with
  | None => None
  | Some (cmd, rest) => Some (cmd, match rest with [] => None | _ => Some rest end)
  end.

Definition dispatch (c : loc) (cmd : bytes) (args : option bytes) : C (server D) unit :=
  if strcasecmp_eq cmd (str "LOGIN") then handle_login c args
  else if strcasecmp_eq cmd (str "REGISTER") then handle_register c args
  else if strcasecmp_eq cmd (str "LOGOUT") then handle_logout c
  else if strcasecmp_eq cmd (str "CREATE") then handle_create_room c args
  else if strcasecmp_eq cmd (str "JOIN") then handle_join_room c args
  else if strcasecmp_eq cmd (str "LEAVE") then handle_leave_room c
  else if strcasecmp_eq cmd (str "LIST") then handle_list_rooms c
  else if strcasecmp_eq cmd (str "KICK") then handle_kick c args
  else if strcasecmp_eq cmd (str "MUTE") then handle_mute c args
  else if strcasecmp_eq cmd (str "STATUS") then handle_status c
  else if strcasecmp_eq cmd (str "PROMOTE") then handle_promote c args
  else send_error c STATUS_ERR_NOT_FOUND "Unknown command".

(** The body of the worker loop for one task.  A blank command goes on with
    the next task before the reference is released. *)
Definition run_task (task : worker_task) : C (server D) unit :=
  match wt_c task with
  | None => mret tt
  | Some c =>
    y ← on_world (read_client c);
    if c_is_active y =? 0 then release c
    else
      match split_command (wt_command task) with
      | None => mret tt
      | Some (cmd, args) =>
        _ ← dispatch c cmd args;
        release c
      end
  end.

(** Take the next task; [None] when the queue is empty (the thread waits). *)
Definition dequeue : C (server D) (option worker_task) := λ s,
  let q := sv_queue s in
  if tq_count q =? 0 then Some (None, s)
  else
    match at_index (tq_tasks q) (tq_head q) with
    | None => None
    | Some task =>
      Some (Some task, with_queue (TaskQueue (tq_tasks q) (tq_count q - 1)
              (Z.rem (tq_head q + 1) 256) (tq_tail q)) s)
    end.

(** One iteration of [worker_thread_main]. *)
Definition worker_step : C (server D) unit :=
  task ← dequeue;
  match task with
  | None => mret tt
  | Some task => run_task task
  end.

Definition process_client_command (c : loc) (command : bytes) : C (server D) unit := λ s,
  let q := sv_queue s in
  if tq_count q =? 256 then
    (_ ← send_error c STATUS_ERR_INTERNAL "Server is too busy. Try again later."; release c) s
  else if negb (strlen command <? MAX_PACKET_SIZE)%nat then None
  else
    match at_index (tq_tasks q) (tq_tail q) with
    | None => None
    | Some _ =>
      Some (tt, with_queue (TaskQueue
        (<[Z.to_nat (tq_tail q) := WorkerTask (Some c) (c_str command)]> (tq_tasks q))
        (tq_count q + 1) (tq_head q) (Z.rem (tq_tail q + 1) 256)) s)
    end.
End handlers.
