(* ===== verification/HandlerSpec.v ===== *)
(** * Every command runs to its end and is answered once

    A small program logic over the state monad ([safe]: the computation is
    defined and its result satisfies a postcondition) and, in it, the handlers:
    on every state of the invariant they never reach undefined behaviour,
    preserve the rooms' invariant, leave the slots, reference counts and
    descriptors alone and send exactly one response, to the client that asked. *)
From S2P Require Import Prelude CInt CString Protocol Posix Auth RoomStore FileDb World RoomManager RoomInv RoomState Rooms ServerState ClientHandler.
#[local] Open Scope Z_scope.

(** ** The logic *)
Definition safe {S A} (m : C S A) (s : S) (P : A → S → Prop) : Prop :=
  ∃ a s', m s = Some (a, s') ∧ P a s'.

Section safe.
Context {S : Type}.

Lemma safe_bind {A B} (m : C S A) (k : A → C S B) s Q :
  safe m s (λ a s', safe (k a) s' Q) → safe (m ≫= k) s Q.
Proof.
  intros (a&s'&Hm&b&s''&Hk&HQ). exists b, s''. split; [|done].
  by rewrite (C_bind_run _ _ _ _ _ Hm).
Qed.
Lemma safe_ret {A} (a : A) s (Q : A → S → Prop) : Q a s → safe (mret a) s Q.
Proof. intros HQ. by exists a, s. Qed.
Lemma safe_gets {A} (f : S → A) s Q : Q (f s) s → safe (gets f) s Q.
Proof. intros HQ. by exists (f s), s. Qed.
Lemma safe_puts (f : S → S) s Q : Q tt (f s) → safe (puts f) s Q.
Proof. intros HQ. by exists tt, (f s). Qed.
Lemma safe_lift {A} (o : option A) a s (Q : A → S → Prop) :
  o = Some a → Q a s → safe (lift o) s Q.
Proof. intros -> HQ. by exists a, s. Qed.
Lemma safe_when b (m : C S unit) s Q :
  (b = true → safe m s Q) → (b = false → Q tt s) → safe (when b m) s Q.
Proof. intros H1 H2. destruct b; [by apply H1|]. by apply safe_ret, H2. Qed.
Lemma safe_mono {A} (m : C S A) s (P Q : A → S → Prop) :
  safe m s P → (∀ a s', P a s' → Q a s') → safe m s Q.
Proof. intros (a&s'&Hm&HP) HPQ. exists a, s'. auto. Qed.
End safe.

(** ** What a command leaves alone *)

(** A client keeps its descriptor, slot, activity and references. *)
Definition same_conn (y y' : client) : Prop :=
  c_fd y' = c_fd y ∧ c_slot y' = c_slot y ∧ c_is_active y' = c_is_active y ∧
  c_ref_count y' = c_ref_count y.

Definition same_conns (cs cs' : gmap loc client) : Prop :=
  ∀ c, option_relation same_conn (λ _, False) (λ _, False) (cs !! c) (cs' !! c).

Lemma same_conns_refl cs : same_conns cs cs.
Proof. intros c. by destruct (cs !! c). Qed.

Lemma same_conns_trans cs1 cs2 cs3 : same_conns cs1 cs2 → same_conns cs2 cs3 →
  same_conns cs1 cs3.
Proof.
  intros H1 H2 c. specialize (H1 c). specialize (H2 c).
  destruct (cs1 !! c), (cs2 !! c), (cs3 !! c); cbn in *; try done.
  destruct H1 as (?&?&?&?), H2 as (?&?&?&?). unfold same_conn. split_and!; congruence.
Qed.

Lemma same_conns_insert cs c y y' : cs !! c = Some y → same_conn y y' →
  same_conns cs (<[c := y']> cs).
Proof.
  intros Hy H d. rewrite lookup_insert. case_decide as E.
  - subst. by rewrite Hy.
  - by destruct (cs !! d).
Qed.

(** ** Words of a command fit their arrays *)
Lemma length_scan_word n s w r : scan_word n s = Some (w, r) → (length w ≤ n)%nat.
Proof.
  unfold scan_word. destruct (take n _) eqn:E; [done|]. intros [= <- _]. rewrite <-E. len.
Qed.

Lemma strlen_le s : (strlen s ≤ length s)%nat.
Proof. apply length_take_while. Qed.

Lemma scan_two_fits a b args x y : scan_two a b args = (x, y) →
  (strlen x ≤ a)%nat ∧ (strlen y ≤ b)%nat.
Proof.
  unfold scan_two. destruct args as [s|]; [|intros [= <- <-]; cbn; lia]. cbn [sscanf].
  destruct (scan_word a (c_str s)) as [[u r]|] eqn:Eu; [|intros [= <- <-]; cbn; lia].
  apply length_scan_word in Eu. pose proof (strlen_le u).
  destruct (scan_word b (skip_space r)) as [[v r']|] eqn:Ev; intros [= <- <-].
  - apply length_scan_word in Ev. pose proof (strlen_le v). lia.
  - cbn. lia.
Qed.

Section handlers.
Context {D : Type} `{RoomStoreLaws D}.
Implicit Types s : server D.

Record keeps s s' : Prop := {
  ke_conns : same_conns (w_clients (sv_world s)) (w_clients (sv_world s'));
  ke_slots : sv_clients s' = sv_clients s;
  ke_count : sv_client_count s' = sv_client_count s;
  ke_map : sv_fd_to_slot s' = sv_fd_to_slot s;
  ke_queue : sv_queue s' = sv_queue s;
  ke_ring : sv_ring s' = sv_ring s;
  ke_jitter : sv_jitter s' = sv_jitter s;
  ke_sem : sv_speaker_sem s' = sv_speaker_sem s;
  ke_closed : sv_closed s' = sv_closed s
}.

Lemma keeps_refl s : keeps s s.
Proof. split; try done. apply same_conns_refl. Qed.
Lemma keeps_trans s1 s2 s3 : keeps s1 s2 → keeps s2 s3 → keeps s1 s3.
Proof.
  intros [] []. split; try congruence. by eapply same_conns_trans.
Qed.

Definition rooms_good s : Prop := ∃ rs, room_state (sv_world s) rs.

(** Nothing sent yet; one response sent. *)
Definition quiet s0 s : Prop := rooms_good s ∧ keeps s0 s ∧ sv_sent s = sv_sent s0.
Definition answered s0 (fd : Z) s : Prop :=
  rooms_good s ∧ keeps s0 s ∧ ∃ r, sv_sent s = sv_sent s0 ++ [(fd, r)].

(** An active client, with its descriptor. *)
Definition live s (c : loc) (fd : Z) : Prop :=
  ∃ y, w_clients (sv_world s) !! c = Some y ∧ c_is_active y ≠ 0 ∧ c_fd y = fd.

Lemma live_keeps s s' c fd : keeps s s' → live s c fd → live s' c fd.
Proof.
  intros [Hc _ _ _ _ _ _ _ _] (y&Hy&Ha&Hf). specialize (Hc c). rewrite Hy in Hc.
  destruct (w_clients (sv_world s') !! c) as [y'|] eqn:E; [|done].
  destruct Hc as (?&?&?&?). exists y'. split_and!; congruence.
Qed.

Lemma live_quiet s0 s c fd : quiet s0 s → live s0 c fd → live s c fd.
Proof. intros (_&Hk&_). by apply live_keeps. Qed.

(** ** Rules *)
Lemma safe_read_client s c fd (Q : client → server D → Prop) : live s c fd →
  (∀ y, w_clients (sv_world s) !! c = Some y → c_is_active y ≠ 0 → c_fd y = fd → Q y s) →
  safe (on_world (read_client c)) s Q.
Proof.
  intros (y&Hy&Ha&Hf) HQ. exists y, s. split; [by apply sv_read_client|auto].
Qed.

Lemma safe_respond s0 s c fd resp : quiet s0 s → live s0 c fd →
  safe (y ← on_world (read_client c); send_response (c_fd y) resp) s
    (λ _ s', answered s0 fd s').
Proof.
  intros Hq Hl. apply safe_bind. eapply safe_read_client; [by eapply live_quiet|].
  intros y Hy _ Hf. apply safe_puts. rewrite Hf. destruct Hq as (Hr&Hk&Hs).
  split; [done|]. split; [by destruct Hk|]. exists resp. cbn. by rewrite Hs.
Qed.

Lemma safe_send_error s0 s c fd status msg : quiet s0 s → live s0 c fd →
  safe (send_error c status msg) s (λ _ s', answered s0 fd s').
Proof. apply safe_respond. Qed.
Lemma safe_send_ok s0 s c fd msg data : quiet s0 s → live s0 c fd →
  safe (send_ok c msg data) s (λ _ s', answered s0 fd s').
Proof. apply safe_respond. Qed.

(** A change of a client that keeps its connection and its room. *)
Lemma client_room_state (w : world D) rs c y y' : room_state w rs → w_clients w !! c = Some y →
  same_conn y y' → c_current_room y' = c_current_room y →
  room_state (with_client_heap <[c := y']> w) rs.
Proof.
  intros [Hok Hme] Hy Hc Hr. split; [by apply rooms_ok_clients|]. cbn.
  eapply members_frame; try done. apply Hc.
Qed.

Lemma quiet_client s0 s c y y' : quiet s0 s → w_clients (sv_world s) !! c = Some y →
  same_conn y y' → c_current_room y' = c_current_room y →
  quiet s0 (with_world (with_client_heap <[c := y']> (sv_world s)) s).
Proof.
  intros ([rs Hrs]&Hk&Hs) Hy Hc Hr. split_and!; [|eapply keeps_trans; [done|]|done].
  - exists rs. by eapply client_room_state.
  - split; try done. by apply same_conns_insert with y.
Qed.

Lemma safe_write_client s0 s c y y' (Q : unit → server D → Prop) :
  quiet s0 s → w_clients (sv_world s) !! c = Some y → same_conn y y' →
  c_current_room y' = c_current_room y → (∀ s', quiet s0 s' → Q tt s') →
  safe (on_world (write_client c y')) s Q.
Proof.
  intros Hq Hy Hc Hr HQ. eexists tt, _. split.
  - apply on_world_run. eapply write_client_run. exact Hy.
  - apply HQ. by eapply quiet_client.
Qed.

Lemma safe_update_client s0 s c fd f (Q : unit → server D → Prop) :
  quiet s0 s → live s0 c fd → (∀ y, same_conn y (f y)) →
  (∀ y, c_current_room (f y) = c_current_room y) →
  (∀ s', quiet s0 s' → Q tt s') → safe (update_client c f) s Q.
Proof.
  intros Hq Hl Hc Hr HQ. apply safe_bind. eapply safe_read_client; [by eapply live_quiet|].
  intros y Hy _ _. by eapply safe_write_client.
Qed.

Lemma quiet_world s0 s w rs : quiet s0 s → room_state w rs →
  same_conns (w_clients (sv_world s)) (w_clients w) → quiet s0 (with_world w s).
Proof.
  intros (_&Hk&Hs) Hw Hc. split_and!; [by exists rs|eapply keeps_trans; [done|]|done].
  by split.
Qed.

Lemma safe_room_leave s0 s c fd (Q : Z → server D → Prop) : quiet s0 s → live s c fd →
  (∀ z s', quiet s0 s' → Q z s') → safe (on_world (room_leave (Some c))) s Q.
Proof.
  intros Hq (y&Hy&Ha&_) HQ. pose proof Hq as ([rs Hrs]&_&_).
  destruct (c_current_room y) as [l|] eqn:Er.
  - destruct (room_leave_run _ _ _ _ _ Hrs Hy Ha Er) as (w'&Hrun&Hs'&Hc).
    exists 0, (with_world w' s). split; [by apply on_world_run|]. apply HQ.
    eapply quiet_world; [done|done|]. rewrite Hc. by apply same_conns_insert with y.
  - exists (-1), s. split; [|by apply HQ]. unfold on_world, room_leave.
    rewrite (C_bind_run _ _ _ _ _ (read_client_run _ _ _ Hy)), Er.
    cbn. by rewrite with_world_id.
Qed.

Lemma safe_room_join s0 s rs c fd room_id password (Q : Z → server D → Prop) :
  quiet s0 s → room_state (sv_world s) rs → live s c fd →
  (∀ s', quiet s0 s' → room_state (sv_world s') (RoomSpec.join rs room_id password c).2 →
     Q (RoomSpec.join rs room_id password c).1 s') →
  safe (on_world (room_join room_id password (Some c))) s Q.
Proof.
  intros Hq Hrs (y&Hy&Ha&_) HQ.
  destruct (room_join_run _ _ _ _ room_id password Hrs Hy Ha) as (w'&Hrun&Hs'&Hc).
  eexists _, (with_world w' s). split; [by apply on_world_run|].
  apply HQ; [|done]. eapply quiet_world; [done|done|]. rewrite Hc.
  by apply same_conns_insert with y.
Qed.

Lemma safe_room_create s0 s c fd name password (Q : Z → server D → Prop) :
  quiet s0 s → live s c fd → (strlen name < 32)%nat → (strlen password < 64)%nat →
  (∀ z s', quiet s0 s' → Q z s') →
  safe (on_world (room_create name password c)) s Q.
Proof.
  intros Hq (y&Hy&Ha&_) Hn Hp HQ. pose proof Hq as ([rs Hrs]&_&_).
  pose proof Hrs as [[Hm Hd] Hme].
  assert (∀ z w, room_create name password c (sv_world s) = Some (z, w) →
    (∃ rs', room_state w rs') → w_clients w = w_clients (sv_world s) →
    safe (on_world (room_create name password c)) s Q) as Hdone.
  { intros z w Hrun [rs' Hs'] Hc. eexists _, _. split; [by apply on_world_run|].
    apply HQ. eapply quiet_world; [done..|]. rewrite Hc. apply same_conns_refl. }
  destruct (decide (c_str name ∈ (ar_name ∘ snd <$> rs))).
  { eapply Hdone; [by eapply room_create_taken|by exists rs|done]. }
  destruct (decide (length rs = 32%nat)).
  { eapply Hdone; [by eapply room_create_full|by exists rs|done]. }
  pose proof (mo_max _ _ Hm).
  destruct (room_create_new _ rs name password c y Hrs n ltac:(lia) Hn Hp Hy)
    as [[_ Hrun]|(l&id&w'&_&Hrun&_&Hs'&Hc)].
  - eapply Hdone; [done|exists rs|done]. split; [|done]. split; [|done]. by destruct Hm.
  - by eapply Hdone; [done|eexists|].
Qed.

Lemma safe_find_by_name s0 s name (Q : option loc → server D → Prop) : quiet s0 s →
  (∀ rs, room_state (sv_world s) rs →
    Q (fst <$> first_room (λ a, bool_decide (ar_name a = c_str name)) rs) s) →
  safe (on_world (room_find_by_name name)) s Q.
Proof.
  intros ([rs Hrs]&_&_) HQ. eexists _, s. split; [|by apply HQ].
  rewrite (on_world_run _ _ _ _ (room_find_by_name_run _ _ _ (ok_mem _ _ (proj1 Hrs)))).
  by rewrite with_world_id.
Qed.

Lemma safe_list s0 s (Q : bytes → server D → Prop) : quiet s0 s →
  (∀ b, Q b s) → safe (on_world (room_list_formatted MAX_PACKET_SIZE)) s Q.
Proof.
  intros ([rs Hrs]&_&_) HQ. eexists _, s. split; [|by apply HQ]. unfold MAX_PACKET_SIZE.
  rewrite (on_world_run _ _ _ _ (room_list_run _ _ (ok_mem _ _ (proj1 Hrs)))).
  by rewrite with_world_id.
Qed.

(** The current room of an active client is allocated, and consistent. *)
Lemma safe_read_current s0 s c y l (Q : room → server D → Prop) : quiet s0 s →
  w_clients (sv_world s) !! c = Some y → c_is_active y ≠ 0 → c_current_room y = Some l →
  (∀ x rs (i : nat) a, room_state (sv_world s) rs → rs !! i = Some (l, a) →
     w_rooms (sv_world s) !! l = Some x → room_is x a →
     r_prev x = prev_of rs i → r_next x = next_of rs i → Q x s) →
  safe (on_world (read_room l)) s Q.
Proof.
  intros ([rs Hrs]&_&_) Hy Ha Hr HQ. pose proof Hrs as [[Hm _] Hme].
  destruct (me_room _ _ Hme c y l Hy Ha Hr) as (a&[i Hi]%elem_index&_).
  destruct (mem_ok_room _ _ _ _ _ Hm Hi) as (x&Hx&Hxa&Hp&Hn).
  exists x, s. split; [by apply sv_read_room|]. by eapply HQ.
Qed.

(** The search over the members: every one of them is live. *)
Lemma safe_find_target s0 s name ms k (Q : option loc → server D → Prop) : quiet s0 s →
  (∀ d, d ∈ ms → ∃ fd, live s d fd) → Q None s → (∀ d fd, live s d fd → Q (Some d) s) →
  safe (find_target ((Some <$> ms) ++ replicate k None) (length ms) name) s Q.
Proof.
  intros Hq Hms HN HS. induction ms as [|d ms IH]; cbn; [by apply safe_ret|].
  destruct (Hms d ltac:(by left)) as [fd Hl]. apply safe_bind.
  eapply safe_read_client; [done|]. intros y _ _ _. destruct (strcmp_eq _ _).
  - apply safe_ret. by eapply HS.
  - apply IH. intros. apply Hms. by right.
Qed.

Lemma members_live s rs (i : nat) l a d : room_state (sv_world s) rs →
  rs !! i = Some (l, a) → d ∈ ar_members a → ∃ fd, live s d fd.
Proof.
  intros [_ Hme] Hi Hd. destruct (me_client _ _ Hme l a d) as (y&Hy&Ha&_);
    [by eapply list_elem_of_lookup_2|done|]. by exists (c_fd y), y.
Qed.

(** The room's speaker count changes. *)
Lemma quiet_speakers s0 s rs (i : nat) l a x n : quiet s0 s →
  room_state (sv_world s) rs → rs !! i = Some (l, a) → room_is x a →
  r_prev x = prev_of rs i → r_next x = next_of rs i →
  quiet s0 (with_world (with_room_heap <[l := r_with_speakers x n]> (sv_world s)) s).
Proof.
  intros Hq [[Hm Hd] Hme] Hi Hxa Hp Hn.
  apply (quiet_world s0 s _ rs); [done| |apply same_conns_refl].
  split; [|done]. split; [|done]. cbn.
  rewrite <-(list_insert_id rs i (l, a) Hi).
  eapply mem_ok_update; [done|done|done| | |done|done].
  - eapply mo_distinct; [done|by eapply list_elem_of_lookup_2].
  - by destruct Hxa.
Qed.

(** A successful join leaves the room that was found in the list. *)
Lemma join_codes rs room_id password c : let z := (RoomSpec.join rs room_id password c).1 in
  z = 0 ∨ z = -2 ∨ z = -3 ∨ z = -4.
Proof.
  unfold RoomSpec.join. destruct (list_find _ _) as [[j [l a]]|]; [|by right; left].
  do 2 (case_bool_decide; [by auto|]). by left.
Qed.

Lemma join_success_room (w : world D) rs (i : nat) l a c password : room_state w rs →
  rs !! i = Some (l, a) → (RoomSpec.join rs (ar_id a) password c).1 = 0 →
  ∃ (j : nat) b, (RoomSpec.join rs (ar_id a) password c).2 !! j = Some (l, b).
Proof.
  intros [Hok Hme] Hi. unfold RoomSpec.join.
  destruct (list_find _ _) as [[j [k b]]|] eqn:Ef; [|done].
  case_bool_decide; [done|]. case_bool_decide; [done|]. intros _.
  apply list_find_Some in Ef as (Hj&Hid&_). cbn in Hid.
  assert (k = l) as ->.
  { apply list_elem_of_lookup_2 in Hj as Hin.
    assert (∃ b', (k, b') ∈ rs ∧ ar_id b' = ar_id b) as (b'&[m Hm]%elem_index&Eb).
    { unfold RoomSpec.leave in Hin. destruct (RoomSpec.room_of rs c) as [[n [h e]]|] eqn:Er;
        [|by exists b]. apply list_find_Some in Er as (Hn&_&_).
      apply leave_elem in Hin as [[_ ?]|(->&->&_)]; [by exists b| |by apply rooms_locs in Hok|done].
      exists e. split; [by eapply list_elem_of_lookup_2|done]. }
    assert (m = i) as -> by (eapply (same_id_index ar_id rs m i); [apply Hok|done|done|congruence]).
    congruence. }
  exists j. eexists. apply list_lookup_insert_eq. by eapply lookup_lt_Some.
Qed.

(** ** The handlers, one by one *)
Section one_client.
Context (s0 : server D) (c : loc) (fd : Z) (Hrooms : rooms_good s0) (Hlive : live s0 c fd).

Lemma quiet_start : quiet s0 s0.
Proof. split_and!; [done|apply keeps_refl|done]. Qed.

Local Ltac start := apply safe_bind; eapply safe_read_client; [exact Hlive|];
  intros y Hy Hact Hfd; pose proof quiet_start as Hq0.
Local Ltac error := by apply safe_send_error.
Local Ltac ok := by apply safe_send_ok.

Lemma login_ok args : safe (handle_login c args) s0 (λ _, answered s0 fd).
Proof.
  unfold handle_login. start. case_match; [error|].
  destruct (scan_two 31 63 args) as [username password]. case_match; [error|].
  apply safe_bind, safe_gets. case_match; [|error]. apply safe_bind.
  eapply safe_update_client; [done|done|done|done|]. intros s' Hq. ok.
Qed.

Lemma quiet_users s f : quiet s0 s → quiet s0 (with_users f s).
Proof. intros (Hr&Hk&Hs). split_and!; [done| |done]. by destruct Hk. Qed.

Lemma register_ok args : safe (handle_register c args) s0 (λ _, answered s0 fd).
Proof.
  unfold handle_register. start. case_match; [error|].
  destruct (scan_two 31 63 args) as [username password]. case_match; [error|].
  apply safe_bind, safe_gets. destruct (auth_add_user _ _ _ _) as [ok users'].
  apply safe_bind, safe_puts. pose proof (quiet_users _ users' Hq0).
  destruct ok; [ok|error].
Qed.

Lemma logout_ok : safe (handle_logout c) s0 (λ _, answered s0 fd).
Proof.
  unfold handle_logout. start. case_match; [error|]. apply safe_bind.
  assert (∀ s', quiet s0 s' → safe (_ ← update_client c (λ y, c_with_login y (-1)
    (<[0%nat := 0]> (c_username y)) ROLE_GUEST); send_ok c (str "Logout successful") None)
    s' (λ _, answered s0 fd)) as Hend.
  { intros s' Hq. apply safe_bind. eapply safe_update_client; [done|done|done|done|].
    intros s'' Hq'. ok. }
  destruct (c_current_room y).
  - apply safe_bind. eapply safe_room_leave; [done|done|]. intros z s' Hq.
    apply safe_ret. by apply Hend.
  - apply safe_ret. by apply Hend.
Qed.

Lemma create_ok args : safe (handle_create_room c args) s0 (λ _, answered s0 fd).
Proof.
  unfold handle_create_room. start. case_match; [error|]. case_match; [error|].
  destruct (scan_two 31 63 args) as [name password] eqn:E.
  apply scan_two_fits in E as [Hn Hp]. case_match; [error|]. apply safe_bind.
  eapply safe_room_create; [done|done|lia|lia|]. intros z s' Hq.
  repeat (case_match; [error|]). ok.
Qed.

Lemma leave_ok : safe (handle_leave_room c) s0 (λ _, answered s0 fd).
Proof.
  unfold handle_leave_room. start. case_match; [error|]. case_match; [|error].
  apply safe_bind. eapply safe_room_leave; [done|done|]. intros z s' Hq. ok.
Qed.

Lemma list_ok : safe (handle_list_rooms c) s0 (λ _, answered s0 fd).
Proof.
  unfold handle_list_rooms. start. case_match; [error|].
  apply safe_bind. eapply safe_list; [done|]. intros b. ok.
Qed.

Lemma status_ok : safe (handle_status c) s0 (λ _, answered s0 fd).
Proof.
  unfold handle_status. start. apply safe_bind.
  destruct (c_current_room y) as [l|] eqn:Er; [|apply safe_ret; ok].
  apply safe_bind. eapply safe_read_current; [done..|]. intros. apply safe_ret. ok.
Qed.

Lemma kick_ok args : safe (handle_kick c args) s0 (λ _, answered s0 fd).
Proof.
  unfold handle_kick. start. do 2 (case_match; [error|]).
  destruct (c_current_room y) as [l|] eqn:Er; [|error]. case_match; [error|].
  apply safe_bind. eapply safe_read_current; [done..|].
  intros x rs i a Hrs Hi Hx Hxa _ _. apply safe_bind.
  rewrite (ri_members _ _ Hxa), (ri_count _ _ Hxa), Nat2Z.id.
  eapply safe_find_target; [done|by intros; eapply members_live|error|].
  intros d fd' Hd. apply safe_bind. eapply safe_room_leave; [done|done|].
  intros z s' Hq. ok.
Qed.

Lemma mute_ok args : safe (handle_mute c args) s0 (λ _, answered s0 fd).
Proof.
  unfold handle_mute. start. do 2 (case_match; [error|]).
  destruct (c_current_room y) as [l|] eqn:Er; [|error]. case_match; [error|].
  apply safe_bind. eapply safe_read_current; [done..|].
  intros x rs i a Hrs Hi Hx Hxa Hp Hn. apply safe_bind.
  rewrite (ri_members _ _ Hxa), (ri_count _ _ Hxa), Nat2Z.id.
  eapply safe_find_target; [done|by intros; eapply members_live|error|].
  intros d fd' Hd. apply safe_bind. eapply safe_read_client; [exact Hd|].
  intros z Hz _ _. cbn zeta. apply safe_bind. eexists tt, _.
  split; [apply on_world_run; by eapply write_client_run|]. apply safe_bind. eexists tt, _.
  split; [apply on_world_run; by eapply write_room_run|].
  apply safe_send_ok; [|done].
  eapply (quiet_speakers s0 (with_world _ s0) rs i l a); [|by eapply client_room_state|done..].
  by eapply quiet_client.
Qed.

Lemma join_ok args : safe (handle_join_room c args) s0 (λ _, answered s0 fd).
Proof.
  unfold handle_join_room. start. case_match; [error|].
  destruct (scan_two 31 63 args) as [name password]. case_match; [error|].
  apply safe_bind. eapply safe_find_by_name; [done|]. intros rs Hrs.
  destruct (first_room _ rs) as [[l a]|] eqn:Ef; [|error].
  apply first_room_Some in Ef as [[i Hi] _]. cbn [fmap option_fmap option_map fst].
  apply safe_bind.
  destruct (mem_ok_room _ _ _ _ _ (ok_mem _ _ (proj1 Hrs)) Hi) as (x&Hx&Hxa&_).
  exists x, s0. split; [by apply sv_read_room|]. apply safe_bind.
  rewrite (ri_id _ _ Hxa). eapply (safe_room_join s0 s0 rs); [done..|].
  intros s' Hq Hs'. do 4 (case_match; [error|]). apply safe_bind.
  destruct (join_success_room _ rs i l a c password Hrs Hi) as (j&b&Hj).
  { destruct (join_codes rs (ar_id a) password c) as [E|[E|[E|E]]]; rewrite E in *; done. }
  destruct (mem_ok_room _ _ _ _ _ (ok_mem _ _ (proj1 Hs')) Hj) as (x'&Hx'&_).
  exists x', s'. split; [by apply sv_read_room|]. ok.
Qed.

Lemma promote_loop_quiet cs name role : ∀ s (Q : unit → server D → Prop), quiet s0 s →
  (∀ l, Some l ∈ cs → ∃ f, live s0 l f) → (∀ s', quiet s0 s' → Q tt s') →
  safe (promote_loop cs name role) s Q.
Proof.
  induction cs as [|[l|] cs IH]; intros s Q Hq Hcs HQ; cbn; [by apply safe_ret, HQ| |].
  - apply safe_bind. destruct (Hcs l ltac:(by left)) as [f Hl].
    eapply safe_read_client; [by eapply live_quiet|]. intros y Hy _ _.
    apply safe_bind, safe_when; intros _.
    + eapply safe_write_client; [done|done|done|done|]. intros s' Hq'.
      apply IH; [done| |done]. intros. apply Hcs. by right.
    + apply IH; [done| |done]. intros. apply Hcs. by right.
  - apply IH; [done| |done]. intros. apply Hcs. by right.
Qed.

(** The connected clients are live. *)
Definition slots_live (s : server D) : Prop :=
  ∀ l, Some l ∈ sv_clients s → ∃ f, live s l f.

Lemma promote_ok args : slots_live s0 → safe (handle_promote c args) s0 (λ _, answered s0 fd).
Proof.
  intros Hslots. unfold handle_promote. start. do 2 (case_match; [error|]).
  destruct (scan_two 31 15 args) as [name role]. do 2 (case_match; [error|]).
  apply safe_bind, safe_gets. destruct (auth_promote_user _ _ _) as [ok users'].
  apply safe_bind, safe_puts. pose proof (quiet_users _ users' Hq0) as Hq.
  destruct ok; [|error]. apply safe_bind, safe_gets, safe_bind.
  eapply promote_loop_quiet; [done|done|]. intros s' Hq'. ok.
Qed.

Lemma dispatch_ok cmd args : slots_live s0 →
  safe (dispatch c cmd args) s0 (λ _, answered s0 fd).
Proof.
  intros Hslots. unfold dispatch. pose proof quiet_start.
  destruct (strcasecmp_eq cmd (str "LOGIN")); [apply login_ok|].
  destruct (strcasecmp_eq cmd (str "REGISTER")); [apply register_ok|].
  destruct (strcasecmp_eq cmd (str "LOGOUT")); [apply logout_ok|].
  destruct (strcasecmp_eq cmd (str "CREATE")); [apply create_ok|].
  destruct (strcasecmp_eq cmd (str "JOIN")); [apply join_ok|].
  destruct (strcasecmp_eq cmd (str "LEAVE")); [apply leave_ok|].
  destruct (strcasecmp_eq cmd (str "LIST")); [apply list_ok|].
  destruct (strcasecmp_eq cmd (str "KICK")); [apply kick_ok|].
  destruct (strcasecmp_eq cmd (str "MUTE")); [apply mute_ok|].
  destruct (strcasecmp_eq cmd (str "STATUS")); [apply status_ok|].
  destruct (strcasecmp_eq cmd (str "PROMOTE")); [by apply promote_ok|].
  error.
Qed.
End one_client.

(** ** The claims *)

(** C5. Every command of an active client, whatever its text, runs to its end on
    every state of the invariant: no freed or NULL object is touched, the
    rooms' invariant holds afterwards, connections, slots, queue and audio are
    untouched, and exactly one response is sent, to that client's socket. *)
Theorem every_command_answered s c fd cmd args :
  rooms_good s → live s c fd → slots_live s →
  ∃ s', dispatch c cmd args s = Some (tt, s') ∧ rooms_good s' ∧ keeps s s' ∧
    ∃ r, sv_sent s' = sv_sent s ++ [(fd, r)].
Proof.
  intros Hr Hl Hs. destruct (dispatch_ok s c fd Hr Hl cmd args Hs) as ([]&s'&Hrun&?&?&?).
  by exists s'.
Qed.

Definition refusal (status : Z) (msg : string) : response_packet :=
  ResponsePacket 0 status (str msg) [].

Lemma send_error_run s c y status msg : w_clients (sv_world s) !! c = Some y →
  send_error c status msg s = Some (tt, with_sent (sv_sent s ++
    [(c_fd y, ResponsePacket 0 status (snprintf 256 (str msg)) [])]) s).
Proof.
  intros Hy. unfold send_error. by rewrite (C_bind_run _ _ _ _ _ (sv_read_client _ _ _ Hy)).
Qed.

(** Which handler a command word runs (letters in any case). *)
Lemma dispatch_words (c : loc) args :
  dispatch c (str "CREATE") args = handle_create_room (D := D) c args ∧
  dispatch c (str "JOIN") args = handle_join_room (D := D) c args ∧
  dispatch c (str "LEAVE") args = handle_leave_room (D := D) c ∧
  dispatch c (str "LIST") args = handle_list_rooms (D := D) c ∧
  dispatch c (str "KICK") args = handle_kick (D := D) c args ∧
  dispatch c (str "MUTE") args = handle_mute (D := D) c args ∧
  dispatch c (str "PROMOTE") args = handle_promote (D := D) c args.
Proof. split_and!; reflexivity. Qed.

(** C27. Before login, the commands on rooms and on other users have no effect but
    the answer 401: room file, rooms, clients and accounts stay as they are. *)
Theorem login_required s c y cmd args : w_clients (sv_world s) !! c = Some y →
  c_user_id y = -1 →
  cmd ∈ ["CREATE"; "JOIN"; "LEAVE"; "LIST"; "KICK"; "MUTE"; "PROMOTE"]%string →
  dispatch c (str cmd) args s =
    Some (tt, with_sent (sv_sent s ++ [(c_fd y, refusal STATUS_ERR_AUTH "Login required")]) s).
Proof.
  intros Hy Hid Hcmd. destruct (dispatch_words c args) as (E1&E2&E3&E4&E5&E6&E7).
  pose proof (send_error_run s c y STATUS_ERR_AUTH "Login required" Hy) as Herr.
  rewrite !elem_of_cons, elem_of_nil in Hcmd.
  destruct Hcmd as [->|[->|[->|[->|[->|[->|[->|[]]]]]]]];
    rewrite ?E1, ?E2, ?E3, ?E4, ?E5, ?E6, ?E7;
    (etransitivity; [apply (C_bind_run _ _ _ _ _ (sv_read_client _ _ _ Hy))|]);
    cbv beta; rewrite Hid; exact Herr.
Qed.

(** The roles that may give the commands on rooms and on other users. *)
Definition may_give (role : Z) (cmd : string) : Prop :=
  role = ROLE_ADMIN ∨ role = ROLE_MODERATOR ∧ cmd ≠ "PROMOTE"%string.

Lemma role_permissions role : ∀ cmd code,
  (cmd, code) ∈ [("CREATE"%string, CMD_CREATE); ("KICK"%string, CMD_KICK);
                 ("MUTE"%string, CMD_MUTE); ("PROMOTE"%string, CMD_PROMOTE)] →
  auth_check_permission role code = true ↔ may_give role cmd.
Proof.
  intros cmd code. rewrite !elem_of_cons, elem_of_nil. unfold may_give.
  intros [[= -> ->]|[[= -> ->]|[[= -> ->]|[[= -> ->]|[]]]]]; cbn;
    rewrite ?orb_true_iff, !Z.eqb_eq; intuition congruence.
Qed.

(** C28. Who may do what, for a client that is logged in.  CREATE, KICK and MUTE
    are for administrators and moderators, PROMOTE is for administrators:
    anybody else gets 403, whatever the argument, and nothing else happens.
    Who has the role is not refused: without an argument and outside of a room
    the answer is 404. *)
Theorem role_required s c y cmd args : w_clients (sv_world s) !! c = Some y →
  c_user_id y ≠ -1 → cmd ∈ ["CREATE"; "KICK"; "MUTE"; "PROMOTE"]%string →
  let admin := c_role y = ROLE_ADMIN in
  let moderator := c_role y = ROLE_MODERATOR in
  let answers args status := ∃ msg, dispatch c (str cmd) args s =
    Some (tt, with_sent (sv_sent s ++ [(c_fd y, refusal status msg)]) s) in
  (¬ (admin ∨ moderator ∧ cmd ≠ "PROMOTE"%string) → answers args STATUS_ERR_FORBIDDEN) ∧
  (admin ∨ moderator ∧ cmd ≠ "PROMOTE"%string → c_current_room y = None →
     answers None STATUS_ERR_NOT_FOUND).
Proof.
  intros Hy Hid Hcmd admin moderator answers.
  assert (∀ args status msg, snprintf 256 (str msg) = str msg →
    dispatch c (str cmd) args s = send_error c status msg s → answers args status) as Herr.
  { intros args' status msg E Hd. exists msg.
    rewrite Hd, (send_error_run s c y status msg Hy). by rewrite E. }
  assert (∃ code, (cmd, code) ∈ [("CREATE"%string, CMD_CREATE); ("KICK"%string, CMD_KICK);
    ("MUTE"%string, CMD_MUTE); ("PROMOTE"%string, CMD_PROMOTE)]) as [code Hcode].
  { rewrite !elem_of_cons, elem_of_nil in Hcmd.
    clear -Hcmd. destruct Hcmd as [->|[->|[->|[->|[]]]]]; eexists; rewrite !elem_of_cons; eauto 6. }
  pose proof (role_permissions (c_role y) cmd code Hcode) as Hperm.
  subst admin moderator. fold (may_give (c_role y) cmd). rewrite <-Hperm, not_true_iff_false.
  clear Hperm. rewrite !elem_of_cons, elem_of_nil in Hcode.
  destruct (dispatch_words c args) as (E1&_&_&_&E5&E6&E7).
  destruct (dispatch_words c None) as (F1&_&_&_&F5&F6&F7).
  destruct Hcode as [[= -> ->]|[[= -> ->]|[[= -> ->]|[[= -> ->]|[]]]]];
    (split; [intros Hp|intros Hp Hr]); (eapply Herr; [|
      rewrite ?E1, ?E5, ?E6, ?E7, ?F1, ?F5, ?F6, ?F7;
      etransitivity; [apply (C_bind_run _ _ _ _ _ (sv_read_client _ _ _ Hy))|];
      cbv beta; rewrite (proj2 (Z.eqb_neq _ _) Hid), Hp, ?Hr; reflexivity]; reflexivity).
Qed.

(** A successful login. *)
Lemma login_run s c y args name password role :
  w_clients (sv_world s) !! c = Some y → c_user_id y = -1 →
  scan_two 31 63 args = (name, password) → name ≠ [] → password ≠ [] →
  no_nul name → no_nul password →
  auth_authenticate (sv_users s) name password = Some role →
  ∃ s' y', handle_login c args s = Some (tt, s') ∧
    w_clients (sv_world s') = <[c := y']> (w_clients (sv_world s)) ∧
    c_role y' = role ∧ c_user_id y' = 0 ∧ same_conn y y' ∧
    c_current_room y' = c_current_room y ∧ sv_users s' = sv_users s ∧
    sv_clients s' = sv_clients s ∧
    (length (c_username y) = 32%nat → c_str (c_username y') = name) ∧
    sv_sent s' = sv_sent s ++ [(c_fd y, ResponsePacket 0 STATUS_OK (str "Login successful")
      (snprintf 4096 (print_int (c_slot y))))].
Proof.
  intros Hy Hid Hscan Hn Hp Hnn Hpn Hauth. unfold handle_login.
  rewrite (C_bind_run _ _ _ _ _ (sv_read_client _ _ _ Hy)), Hid, Hscan.
  change (negb (-1 =? -1)) with false. cbv iota.
  unfold strlen at 1 2. rewrite !c_str_id by done.
  destruct (scan_two_fits _ _ _ _ _ Hscan) as [Hlen _]. unfold strlen in Hlen.
  rewrite c_str_id in Hlen by done.
  destruct name as [|n0 name0] eqn:En; [done|]. rewrite <-En in *. clear Hn.
  destruct password as [|p0 pw0]; [done|].
  replace (length name =? 0)%nat with false by (by rewrite En). cbn [length Nat.eqb orb].
  c_steps. rewrite Hauth. unfold update_client. rewrite C_bind_assoc.
  rewrite (C_bind_run _ _ _ _ _ (sv_read_client _ _ _ Hy)).
  erewrite C_bind_run by (apply on_world_run; by eapply write_client_run).
  unfold send_ok. erewrite C_bind_run by (apply sv_read_client; cbn; apply lookup_insert_eq).
  eexists _, _. split; [reflexivity|]. cbn [sv_world with_world with_sent w_clients
    with_client_heap c_role c_user_id c_with_login c_current_room c_username sv_users sv_sent].
  split_and!; try done.
  intros Hl. unfold c_with_login; cbn [c_username]. rewrite c_str_bounded_copy, c_str_id by done. apply take_ge. lia.
Qed.

(** LOGIN with a correct name and password of an account gives the client the
    role of that account, answers 200 with its slot number, and changes no
    account. *)
Theorem login_grants_role s c y args name password role :
  w_clients (sv_world s) !! c = Some y → c_user_id y = -1 →
  scan_two 31 63 args = (name, password) → name ≠ [] → password ≠ [] →
  no_nul name → no_nul password →
  auth_authenticate (sv_users s) name password = Some role →
  ∃ s' y', handle_login c args s = Some (tt, s') ∧
    w_clients (sv_world s') = <[c := y']> (w_clients (sv_world s)) ∧
    c_role y' = role ∧ c_user_id y' = 0 ∧ same_conn y y' ∧
    c_current_room y' = c_current_room y ∧ sv_users s' = sv_users s ∧
    sv_clients s' = sv_clients s ∧
    (length (c_username y) = 32%nat → c_str (c_username y') = name) ∧
    sv_sent s' = sv_sent s ++ [(c_fd y, ResponsePacket 0 STATUS_OK (str "Login successful")
      (snprintf 4096 (print_int (c_slot y))))].
Proof. apply login_run. Qed.
End handlers.

(** ** Witnesses *)
Definition demo_guest : client := Client 5 0 (-1) (memset 0 32) ROLE_GUEST None 0 1 1 [] 0.
Definition demo_plain : client := Client 6 1 0 (str "bob" ++ memset 0 29) ROLE_USER None 0 1 1 [] 0.
Definition guest_world : world db :=
  World ∅ {[ 1%positive := demo_guest; 2%positive := demo_plain ]} None 0 demo_db [] demo_junk.
Definition guest_server : server db :=
  with_users (write_default_admin (File [] [])) (demo_server guest_world).

Lemma guest_state : room_state guest_world [].
Proof.
  apply (room_state_init demo_db []); [|constructor|constructor|apply demo_junk_wf|].
  - split; [done|done|done|constructor].
  - intros c y. cbn. rewrite lookup_insert_Some, lookup_singleton_Some.
    intros [[_ <-]|[_ [_ <-]]]; done.
Qed.

Lemma guest_slots : slots_live guest_server.
Proof.
  intros l Hl. cbn [sv_clients guest_server with_users demo_server] in Hl.
  apply elem_of_app in Hl as [Hl|Hl].
  - rewrite !elem_of_cons, elem_of_nil in Hl. destruct Hl as [[= ->]|[[= ->]|[]]].
    + exists 5, demo_guest. by vm_compute.
    + exists 6, demo_plain. by vm_compute.
  - by apply elem_of_replicate in Hl as [? _].
Qed.

Lemma every_command_answered_witness : ∃ s',
  dispatch 1%positive (str "HELLO") None guest_server = Some (tt, s') ∧
  ∃ r, sv_sent s' = sv_sent guest_server ++ [(5, r)].
Proof.
  destruct (every_command_answered guest_server 1%positive 5 (str "HELLO") None)
    as (s'&?&_&_&?); [by exists []; apply guest_state|by exists demo_guest; vm_compute
    |apply guest_slots|]. by exists s'.
Defined.

Lemma login_required_witness : ∃ s',
  dispatch 1%positive (str "LIST") None guest_server = Some (tt, s').
Proof.
  eexists. apply (login_required guest_server 1%positive demo_guest "LIST" None);
    [reflexivity|reflexivity|]. do 3 right. by left.
Defined.

Lemma role_required_witness : ∃ msg s',
  dispatch 2%positive (str "KICK") (Some (str "al")) guest_server = Some (tt, s') ∧
  sv_sent s' = [(6, refusal STATUS_ERR_FORBIDDEN msg)].
Proof.
  destruct (role_required guest_server 2%positive demo_plain "KICK" (Some (str "al")))
    as [[msg Hrun] _]; [reflexivity|discriminate|right; by left|vm_compute; intuition discriminate|].
  exists msg. eexists. split; [exact Hrun|reflexivity].
Defined.

Lemma login_grants_role_witness : ∃ s' y',
  handle_login 1%positive (Some (str "admin admin123")) guest_server = Some (tt, s') ∧
  w_clients (sv_world s') = <[1%positive := y']> (w_clients guest_world) ∧ c_role y' = ROLE_ADMIN.
Proof.
  destruct (login_grants_role guest_server 1%positive demo_guest (Some (str "admin admin123"))
    (str "admin") (str "admin123") ROLE_ADMIN) as (s'&y'&?&?&?&_);
    [reflexivity|reflexivity|reflexivity|discriminate|discriminate|reflexivity|reflexivity
    |vm_done|]. by exists s', y'.
Defined.
