(* ===== verification/Network.v ===== *)
(** * [src/server/network.c]: connections, TCP commands, UDP packets *)
From S2P Require Import Prelude CInt CString Protocol Posix RoomStore World RoomManager Ring ServerState ClientHandler.
#[local] Open Scope Z_scope.

Definition FD_MAP_SIZE : Z := 4096.

(** [recv]: some bytes, the end of the stream, or an error. *)
Inductive recv_result :=
  | RecvData (data : bytes)
  | RecvClosed
  | RecvError.

(** A client object as [accept_new_client] leaves it. *)
Definition new_client (fd slot : Z) : client :=
  Client fd slot (-1) (memset 0 32) ROLE_GUEST None 0 1 1 (memset 0 16) 0.

(** The first empty slot. *)
Fixpoint find_free_slot (cs : list (option loc)) (i : Z) : option Z :=
  match cs with
  | [] => None
  | None :: _ => Some i
  | Some _ :: cs' => find_free_slot cs' (i + 1)
  end.

Definition c_with_active (x : client) (a : Z) : client :=
  Client (c_fd x) (c_slot x) (c_user_id x) (c_username x) (c_role x) (c_current_room x)
    (c_is_mute x) a (c_ref_count x) (c_udp_addr x) (c_udp_addr_len x).
Definition c_with_udp (x : client) (addr : bytes) (len : Z) : client :=
  Client (c_fd x) (c_slot x) (c_user_id x) (c_username x) (c_role x) (c_current_room x)
    (c_is_mute x) (c_is_active x) (c_ref_count x) addr len.

Section network.
Context {D : Type} `{RoomStore D}.

Definition close_fd (fd : Z) : C (server D) unit :=
  puts (λ s, with_closed (sv_closed s ++ [fd]) s).

(** The map starts out empty; the sockets are not part of the state. *)
Definition network_init : C (server D) unit :=
  puts (with_fd_map (replicate (Z.to_nat FD_MAP_SIZE) (-1))).

(** [if(fd>=0 && fd<FD_MAP_SIZE) fd_to_slot[fd]=slot;] *)
Definition set_fd_slot (fd slot : Z) : C (server D) unit :=
  puts (λ s, if (0 <=? fd) && (fd <? FD_MAP_SIZE)
             then with_fd_map (<[Z.to_nat fd := slot]> (sv_fd_to_slot s)) s else s).

(** [accept] returned the descriptor, or -1. *)
Definition accept_new_client (client_fd : Z) : C (server D) unit :=
  if client_fd =? -1 then mret tt
  else
    count ← gets sv_client_count;
    if MAX_CLIENTS <=? count then close_fd client_fd
    else
      cs ← gets sv_clients;
      match find_free_slot cs 0 with
      | None => close_fd client_fd
      | Some slot =>
        new ← on_world (malloc_client (new_client client_fd slot));
        match new with
        | None => close_fd client_fd
        | Some l =>
          _ ← puts (λ s, with_clients (<[Z.to_nat slot := Some l]> (sv_clients s))
                           (sv_client_count s + 1) s);
          set_fd_slot client_fd slot
        end
      end.

(** The client in the slot the map gives, with its slot. *)
Definition client_of_fd (client_fd : Z) : C (server D) (option (Z * loc)) :=
  if (0 <=? client_fd) && (client_fd <? FD_MAP_SIZE) then
    map ← gets sv_fd_to_slot;
    slot ← lift (at_index map client_fd);
    if negb (slot =? -1) && (slot <? MAX_CLIENTS) then
      cs ← gets sv_clients;
      entry ← lift (at_index cs slot);
      mret (match entry with Some l => Some (slot, l) | None => None end)
    else mret None
  else mret None.

Definition disconnect_client (client_fd : Z) : C (server D) unit :=
  found ← client_of_fd client_fd;
  match found with
  | None => mret tt
  | Some (slot, c) =>
    y ← on_world (read_client c);
    if negb (c_fd y =? client_fd) then mret tt
    else
      _ ← match c_current_room y with
          | Some l => on_world (remove_client_from_room (Some l) (Some c))
          | None => mret tt
          end;
      _ ← close_fd (c_fd y);
      _ ← update_client c (λ y, c_with_active y 0);
      _ ← puts (λ s, with_clients (<[Z.to_nat slot := None]> (sv_clients s))
                       (sv_client_count s - 1) s);
      _ ← set_fd_slot client_fd (-1);
      release c
  end.

Definition handle_tcp_command (client_fd : Z) (r : recv_result) : C (server D) unit :=
  match r with
  | RecvClosed | RecvError => disconnect_client client_fd
  | RecvData data =>
    let buffer := take (MAX_PACKET_SIZE - 1) data in
    found ← client_of_fd client_fd;
    match found with
    | None => mret tt
    | Some (_, c) =>
      _ ← update_client c (λ y, c_with_refs y (c_ref_count y + 1));
      process_client_command c buffer
    end
  end.

(** [recvfrom] stored [data] over the indeterminate bytes [junk] of the packet
    object; nothing was received when [data] is empty. *)
Definition received_packet (data junk : bytes) : audio_packet :=
  let d := take sizeof_audio_packet data in
  decode_packet (d ++ drop (length d) junk).

Definition push_ring (pkt : audio_packet) : C (server D) unit := λ s,
  match sv_ring s with
  | None => Some (tt, s)
  | Some r =>
    match ring_buffer_push pkt r with
    | None => None
    | Some (_, r') => Some (tt, with_ring (Some r') s)
    end
  end.

Definition handle_udp_packet (data junk addr : bytes) (addr_len : Z) : C (server D) unit :=
  match data with
  | [] => mret tt
  | _ =>
    let pkt := received_packet data junk in
    _ ← (if ap_sender_id pkt <? MAX_CLIENTS then
           cs ← gets sv_clients;
           entry ← lift (at_index cs (ap_sender_id pkt));
           match entry with
           | Some c => update_client c (λ y, c_with_udp y addr addr_len)
           | None => mret tt
           end
         else mret tt);
    when (0 <? ap_payload_size pkt) (push_ring pkt)
  end.
End network.
