(* ===== verification/System.v ===== *)
(** * The whole server

    The invariant of the server state and its events: a connection, bytes or
    the end of a TCP stream, a UDP packet, a worker taking a task, a tick of the
    mixer.  Each event runs as one step, in any order. *)
From S2P Require Import Prelude CInt CString Protocol Posix Auth RoomStore FileDb World RoomManager RoomInv RoomState Rooms Ring Jitter ServerState Mixer MixerSpec ClientHandler HandlerSpec Network.
#[local] Open Scope Z_scope.

(** ** The task queue *)

(** The array holds the tasks [ts], oldest first. *)
Record queue_rep (q : task_queue) (ts : list worker_task) : Prop := {
  qr_length : length (tq_tasks q) = 256%nat;
  qr_head : 0 ≤ tq_head q < 256;
  qr_count : tq_count q = Z.of_nat (length ts);
  qr_bound : (length ts ≤ 256)%nat;
  qr_tail : tq_tail q = (tq_head q + tq_count q) mod 256;
  qr_items (i : nat) t : ts !! i = Some t →
    tq_tasks q !! Z.to_nat ((tq_head q + Z.of_nat i) mod 256) = Some t
}.

Lemma queue_push q ts t : queue_rep q ts → (length ts < 256)%nat →
  is_Some (at_index (tq_tasks q) (tq_tail q)) ∧
  queue_rep (TaskQueue (<[Z.to_nat (tq_tail q) := t]> (tq_tasks q)) (tq_count q + 1)
    (tq_head q) (Z.rem (tq_tail q + 1) 256)) (ts ++ [t]).
Proof.
  intros [Hl Hh Hc Hb Ht Hi] Hlt.
  assert (0 ≤ tq_tail q < 256) as Htr by (rewrite Ht; apply Z.mod_pos_bound; lia).
  split; [rewrite at_index_nonneg by lia; apply lookup_lt_is_Some_2; lia|].
  split; cbn [tq_tasks tq_head tq_count tq_tail].
  - by rewrite length_insert.
  - done.
  - rewrite length_app. cbn. lia.
  - rewrite length_app. cbn. lia.
  - rewrite Z.rem_mod_nonneg by lia. rewrite Ht, Zplus_mod_idemp_l. f_equal. lia.
  - intros i x [[Hlt' Hx]|[-> <-]]%lookup_snoc_Some.
    + rewrite list_lookup_insert_ne; [by apply Hi|]. intros Heq.
      apply Z2Nat.inj in Heq; [|lia|apply Z.mod_pos_bound; lia].
      rewrite Ht in Heq. clear -Heq Hlt' Hlt Hc Hh.
      Z.to_euclidean_division_equations. lia.
    + rewrite <-Hc, <-Ht. apply list_lookup_insert_eq. lia.
Qed.

Lemma queue_pop q t ts : queue_rep q (t :: ts) →
  at_index (tq_tasks q) (tq_head q) = Some t ∧
  queue_rep (TaskQueue (tq_tasks q) (tq_count q - 1) (Z.rem (tq_head q + 1) 256) (tq_tail q)) ts.
Proof.
  intros [Hl Hh Hc Hb Ht Hi]. cbn [length] in *. split.
  - rewrite at_index_nonneg by lia. rewrite <-(Hi 0%nat t eq_refl).
    by rewrite Z.add_0_r, Z.mod_small.
  - split; cbn [tq_tasks tq_head tq_count tq_tail]; try lia.
    + rewrite Z.rem_mod_nonneg by lia. apply Z.mod_pos_bound. lia.
    + rewrite Z.rem_mod_nonneg by lia. rewrite Ht, Zplus_mod_idemp_l. f_equal. lia.
    + intros i x Hx. rewrite Z.rem_mod_nonneg by lia. rewrite <-(Hi (S i) x Hx).
      rewrite Zplus_mod_idemp_l. do 3 f_equal. lia.
Qed.

(** The tasks waiting for a client. *)
Definition queued (ts : list worker_task) (c : loc) : Z :=
  Z.of_nat (length (filter (λ t, wt_c t = Some c) ts)).

Lemma queued_app ts t c : queued (ts ++ [t]) c = queued ts c + (if decide (wt_c t = Some c) then 1 else 0).
Proof.
  unfold queued. rewrite filter_app, length_app, Nat2Z.inj_add.
  rewrite filter_cons, filter_nil. by case_decide.
Qed.
Lemma queued_cons ts t c : queued (t :: ts) c = (if decide (wt_c t = Some c) then 1 else 0) + queued ts c.
Proof. unfold queued. rewrite filter_cons. case_decide; cbn [length]; lia. Qed.
Lemma queued_pos ts c : 0 ≤ queued ts c.
Proof. unfold queued. lia. Qed.
Lemma queued_zero ts c : queued ts c = 0 ↔ ∀ t, t ∈ ts → wt_c t ≠ Some c.
Proof.
  unfold queued. split.
  - intros H t Ht Hc. assert (t ∈ filter (λ t, wt_c t = Some c) ts) as Hin
      by (by apply list_elem_of_filter). destruct (filter _ ts); [by inv Hin|cbn in H; lia].
  - intros H. destruct (filter (λ t, wt_c t = Some c) ts) as [|t l] eqn:E; [done|].
    assert (t ∈ filter (λ t, wt_c t = Some c) ts) as [Hc Hin]%list_elem_of_filter
      by (rewrite E; by left). by destruct (H t Hin).
Qed.

(** ** The invariant *)
Definition is_live (y : client) : Z := if c_is_active y =? 0 then 0 else 1.

Section system.
Context {D : Type} `{RoomStoreLaws D}.
Implicit Types s : server D.

Abbreviation heap s := (w_clients (sv_world s)).

Record sys_ok s (rs : arooms) (q : list audio_packet) (ts : list worker_task) : Prop := {
  so_rooms : room_state (sv_world s) rs;
  so_length : length (sv_clients s) = 50%nat;
  so_slot (i : nat) c : sv_clients s !! i = Some (Some c) →
    ∃ y, heap s !! c = Some y ∧ c_is_active y ≠ 0 ∧ c_slot y = Z.of_nat i;
  so_active c y : heap s !! c = Some y → c_is_active y ≠ 0 →
    0 ≤ c_slot y ∧ sv_clients s !! Z.to_nat (c_slot y) = Some (Some c);
  so_count : sv_client_count s = Z.of_nat (length (omap (λ o, o) (sv_clients s)));
  so_refs c y : heap s !! c = Some y →
    is_live y + queued ts c ≤ c_ref_count y ∧ 1 ≤ c_ref_count y;
  so_tasks t c : t ∈ ts → wt_c t = Some c → is_Some (heap s !! c);
  so_queue : queue_rep (sv_queue s) ts;
  so_map_length : length (sv_fd_to_slot s) = 4096%nat;
  so_map (fd : nat) slot : sv_fd_to_slot s !! fd = Some slot →
    slot = -1 ∨ 0 ≤ slot < 50 ∧ ∃ c y, sv_clients s !! Z.to_nat slot = Some (Some c) ∧
      heap s !! c = Some y ∧ c_fd y = Z.of_nat fd;
  so_audio : audio_ok s;
  so_ring : ring_ok s q
}.

(** ** Consequences *)
Lemma sys_slots s rs q ts : sys_ok s rs q ts → slots_ok (heap s).
Proof.
  intros Hs. split.
  - intros c y Hy Ha. destruct (so_active _ _ _ _ Hs c y Hy Ha) as [H0 Hc].
    apply lookup_lt_Some in Hc. rewrite (so_length _ _ _ _ Hs) in Hc.
    unfold MAX_CLIENTS. lia.
  - intros c y d z Hy Hz Ha Hb E.
    destruct (so_active _ _ _ _ Hs c y Hy Ha) as [_ Hc].
    destruct (so_active _ _ _ _ Hs d z Hz Hb) as [_ Hd]. rewrite E in Hc. congruence.
Qed.

Lemma sys_slots_live s rs q ts : sys_ok s rs q ts → slots_live s.
Proof.
  intros Hs l [i Hi]%list_elem_of_lookup.
  destruct (so_slot _ _ _ _ Hs i l Hi) as (y&Hy&Ha&_). by exists (c_fd y), y.
Qed.

Lemma sys_mix s rs q ts : sys_ok s rs q ts → mix_inv s rs.
Proof.
  intros Hs. pose proof (so_rooms _ _ _ _ Hs) as [[Hm _] Hme].
  split; [done|done|by eapply sys_slots|apply Hs].
Qed.

(** ** Steps that keep the connections *)
Lemma same_conns_back cs cs' c y' : same_conns cs cs' → cs' !! c = Some y' →
  ∃ y, cs !! c = Some y ∧ same_conn y y'.
Proof.
  intros Hc Hy. specialize (Hc c). rewrite Hy in Hc.
  destruct (cs !! c) as [y|]; [by exists y|done].
Qed.
Lemma same_conns_forth cs cs' c y : same_conns cs cs' → cs !! c = Some y →
  ∃ y', cs' !! c = Some y' ∧ same_conn y y'.
Proof.
  intros Hc Hy. specialize (Hc c). rewrite Hy in Hc.
  destruct (cs' !! c) as [y'|]; [by exists y'|done].
Qed.

Lemma sys_keeps s s' rs rs' q ts : sys_ok s rs q ts → keeps s s' →
  room_state (sv_world s') rs' → sys_ok s' rs' q ts.
Proof.
  intros Hs [Hc Hsl Hn Hmp Hq Hr Hj Hse _] Hrs. split.
  - done.
  - rewrite Hsl. apply Hs.
  - intros i c Hi. rewrite Hsl in Hi. destruct (so_slot _ _ _ _ Hs i c Hi) as (y&Hy&?&?).
    destruct (same_conns_forth _ _ _ _ Hc Hy) as (y'&Hy'&?&?&?&?).
    exists y'. split_and!; [done|congruence..].
  - intros c y' Hy' Ha. destruct (same_conns_back _ _ _ _ Hc Hy') as (y&Hy&?&E&?&?).
    rewrite Hsl, E. apply (so_active _ _ _ _ Hs c y Hy). congruence.
  - rewrite Hsl, Hn. apply Hs.
  - intros c y' Hy'. destruct (same_conns_back _ _ _ _ Hc Hy') as (y&Hy&?&?&Ea&Er).
    unfold is_live. rewrite Ea, Er. by apply (so_refs _ _ _ _ Hs c y).
  - intros t c Ht Htc. destruct (so_tasks _ _ _ _ Hs t c Ht Htc) as [y Hy].
    destruct (same_conns_forth _ _ _ _ Hc Hy) as (y'&->&_). done.
  - rewrite Hq. apply Hs.
  - rewrite Hmp. apply Hs.
  - intros fd slot Hfd. rewrite Hmp in Hfd. rewrite Hsl.
    destruct (so_map _ _ _ _ Hs fd slot Hfd) as [?|(?&c&y&Hsc&Hy&E)]; [by left|right].
    split; [done|]. destruct (same_conns_forth _ _ _ _ Hc Hy) as (y'&Hy'&E'&_).
    exists c, y'. split_and!; [done..|congruence].
  - destruct (so_audio _ _ _ _ Hs). split; congruence.
  - pose proof (so_ring _ _ _ _ Hs) as Hring. unfold ring_ok in *. by rewrite Hr.
Qed.

(** ** Dropping a reference *)

(** A reference to [c] is held besides those of its slot and of the queue. *)
Definition owned s (ts : list worker_task) (c : loc) : Prop :=
  ∃ y, heap s !! c = Some y ∧ is_live y + queued ts c + 1 ≤ c_ref_count y.

Lemma members_refs cs rs c y n : members_ok cs rs → cs !! c = Some y →
  members_ok (<[c := c_with_refs y n]> cs) rs.
Proof. intros Hme Hy. by eapply members_frame. Qed.

Lemma sys_set_refs s rs q ts ts' c y n : sys_ok s rs q ts → heap s !! c = Some y →
  is_live y + queued ts' c ≤ n → 1 ≤ n → (∀ d, d ≠ c → queued ts' d = queued ts d) →
  (∀ t d, t ∈ ts' → wt_c t = Some d → is_Some (heap s !! d)) →
  queue_rep (sv_queue s) ts' →
  sys_ok (with_world (with_client_heap <[c := c_with_refs y n]> (sv_world s)) s) rs q ts'.
Proof.
  intros Hs Hy Hn H1 Hts Hin Hq. pose proof (so_rooms _ _ _ _ Hs) as [Hok Hme].
  split; cbn; try apply Hs.
  - split; [by apply rooms_ok_clients|]. by apply members_refs.
  - intros i d Hi. destruct (so_slot _ _ _ _ Hs i d Hi) as (z&Hz&?&?).
    destruct (decide (d = c)) as [->|].
    + simplify_eq. exists (c_with_refs y n). by rewrite lookup_insert_eq.
    + exists z. by rewrite lookup_insert_ne.
  - intros d z Hz Ha. apply lookup_insert_Some in Hz as [[<- <-]|[_ Hz]].
    + by apply (so_active _ _ _ _ Hs c y).
    + by apply (so_active _ _ _ _ Hs d z).
  - intros d z Hz. apply lookup_insert_Some in Hz as [[<- <-]|[Hne Hz]]; [done|].
    rewrite Hts by done. by apply (so_refs _ _ _ _ Hs d z).
  - intros t d Ht Hd. apply lookup_insert_is_Some'. right. by eapply Hin.
  - done.
  - intros fd slot Hfd. destruct (so_map _ _ _ _ Hs fd slot Hfd) as [?|(?&d&z&Hd&Hz&E)];
      [by left|right]. split; [done|]. exists d. destruct (decide (d = c)) as [->|].
    + simplify_eq. exists (c_with_refs y n). by rewrite lookup_insert_eq.
    + exists z. by rewrite lookup_insert_ne.
  - by destruct (so_audio _ _ _ _ Hs).
Qed.

Lemma sys_free s rs q ts c y : sys_ok s rs q ts → heap s !! c = Some y →
  c_is_active y = 0 → queued ts c = 0 →
  sys_ok (with_world (with_client_heap (delete c) (sv_world s)) s) rs q ts.
Proof.
  intros Hs Hy Ha Hq. pose proof (so_rooms _ _ _ _ Hs) as [Hok Hme].
  split; cbn; try apply Hs.
  - split; [by apply rooms_ok_clients|]. cbn. split.
    + intros l a d Hl Hd. destruct (me_client _ _ Hme l a d Hl Hd) as (z&Hz&?&?).
      exists z. rewrite lookup_delete_ne; [done|]. intros <-. congruence.
    + intros d z l Hz. apply lookup_delete_Some in Hz as [_ Hz]. by eapply me_room.
  - intros i d Hi. destruct (so_slot _ _ _ _ Hs i d Hi) as (z&Hz&?&?).
    exists z. rewrite lookup_delete_ne; [done|]. intros <-. congruence.
  - intros d z Hz Hact. apply lookup_delete_Some in Hz as [_ Hz].
    by apply (so_active _ _ _ _ Hs d z).
  - intros d z Hz. apply lookup_delete_Some in Hz as [_ Hz].
    by apply (so_refs _ _ _ _ Hs d z).
  - intros t d Ht Hd. rewrite lookup_delete_ne; [by eapply so_tasks|].
    intros <-. by eapply queued_zero.
  - intros fd slot Hfd. destruct (so_map _ _ _ _ Hs fd slot Hfd) as [?|(?&d&z&Hd&Hz&E)];
      [by left|right]. split; [done|]. exists d, z.
    rewrite lookup_delete_ne; [done|]. intros <-.
    destruct (so_slot _ _ _ _ Hs _ c Hd) as (z'&?&?&_). congruence.
  - by destruct (so_audio _ _ _ _ Hs).
Qed.

(** A client object that is left is one that was there, with the same descriptor
    and activity. *)
Definition peers s s' : Prop := ∀ d y', heap s' !! d = Some y' →
  ∃ y, heap s !! d = Some y ∧ c_fd y = c_fd y' ∧ c_is_active y = c_is_active y'.

Lemma peers_trans s1 s2 s3 : peers s1 s2 → peers s2 s3 → peers s1 s3.
Proof.
  intros H1 H2 d z Hz. destruct (H2 d z Hz) as (y&Hy&?&?).
  destruct (H1 d y Hy) as (x&Hx&?&?). exists x. split; [done|]. split; congruence.
Qed.

Lemma keeps_peers s s' : keeps s s' → peers s s'.
Proof.
  intros Hk d y' Hy'. destruct (same_conns_back _ _ _ _ (ke_conns _ _ Hk) Hy') as (y&?&?&_&?&_).
  by exists y.
Qed.

Lemma release_effect s rs q ts c : sys_ok s rs q ts → owned s ts c →
  safe (release c) s (λ _ s', sys_ok s' rs q ts ∧ sv_sent s' = sv_sent s ∧ peers s s').
Proof.
  intros Hs (y&Hy&Hr). unfold release. apply safe_bind.
  exists y, s. split; [by apply sv_read_client|]. apply safe_bind.
  eexists tt, _. split; [apply on_world_run; by eapply write_client_run|].
  assert (0 ≤ is_live y) by (unfold is_live; case_match; lia).
  pose proof (queued_pos ts c). apply safe_when; intros E.
  - apply Z.eqb_eq in E. assert (is_live y = 0 ∧ queued ts c = 0) as [El Eq] by lia.
    eexists tt, _. split.
    { apply on_world_run. unfold free_client. cbn. by rewrite lookup_insert_eq. }
    assert (c_is_active y = 0) as Ea.
    { unfold is_live in El. destruct (Z.eqb_spec (c_is_active y) 0); [done|lia]. }
    pose proof (sys_free s rs q ts c y Hs Hy Ea Eq) as Hf. split; [|split; [done|]].
    + destruct s as [w ? ? ? ? ? ? ? ? ? ? ? ?]. cbn in *.
      unfold with_world, with_client_heap in *. cbn in *. by rewrite delete_insert_eq.
    + intros d z. cbn. rewrite delete_insert_eq. intros [_ Hz]%lookup_delete_Some. by exists z.
  - apply Z.eqb_neq in E. split; [|split; [done|]].
    + eapply sys_set_refs; [done|done|lia|lia|done| |apply Hs]. apply (so_tasks _ _ _ _ Hs).
    + intros d z. cbn. intros [[<- <-]|[_ Hz]]%lookup_insert_Some; [by exists y|by exists z].
Qed.

Lemma release_run s rs q ts c : sys_ok s rs q ts → owned s ts c →
  safe (release c) s (λ _ s', sys_ok s' rs q ts).
Proof.
  intros Hs Ho. eapply safe_mono; [by apply (release_effect s rs q ts c)|]. by intros [] s' [? _].
Qed.

(** ** The worker *)
Lemma owned_keeps s s' ts c : keeps s s' → owned s ts c → owned s' ts c.
Proof.
  intros Hk (y&Hy&Hr).
  destruct (same_conns_forth _ _ _ _ (ke_conns _ _ Hk) Hy) as (y'&Hy'&_&_&Ea&Er).
  exists y'. split; [done|]. unfold is_live in *. by rewrite Ea, Er.
Qed.

(** The descriptor a task is answered on: none for a client that has gone and
    for a blank command. *)
Definition answered_on s (t : worker_task) : option Z :=
  match c ← wt_c t; heap s !! c with
  | Some y =>
    if c_is_active y =? 0 then None
    else match split_command (wt_command t) with Some _ => Some (c_fd y) | None => None end
  | None => None
  end.

(** What was sent from [s] to [s'] went to these descriptors. *)
Definition answers s s' (fds : list Z) : Prop :=
  ∃ rsps, sv_sent s' = sv_sent s ++ rsps ∧ rsps.*1 = fds.

Lemma run_task_run s rs q ts t : sys_ok s rs q ts →
  (∀ c, wt_c t = Some c → owned s ts c) →
  safe (run_task t) s (λ _ s', ∃ rs', sys_ok s' rs' q ts ∧ peers s s' ∧
    answers s s' (option_list (answered_on s t))).
Proof.
  intros Hs Hown. unfold run_task, answered_on.
  assert (peers s s) as Hrefl by (intros d y Hy; by exists y).
  assert (answers s s []) as Hnone by (exists []; by rewrite app_nil_r).
  destruct (wt_c t) as [c|]; [|by apply safe_ret; exists rs].
  destruct (Hown c eq_refl) as (y&Hy&Hr). apply safe_bind. cbn. rewrite Hy.
  exists y, s. split; [by apply sv_read_client|].
  destruct (Z.eqb_spec (c_is_active y) 0) as [Ha|Ha].
  { eapply safe_mono; [by apply (release_effect s rs q ts c); [|exists y]|].
    intros [] s' (Hs'&E&Hp). exists rs. split; [done|]. split; [done|].
    exists []. by rewrite E, app_nil_r. }
  destruct (split_command _) as [[cmd args]|]; [|by apply safe_ret; exists rs].
  apply safe_bind. eapply safe_mono.
  { apply (dispatch_ok s c (c_fd y)); [by exists rs; apply Hs|by exists y|by eapply sys_slots_live]. }
  intros [] s' ([rs' Hrs]&Hk&r&Hsent). eapply safe_mono.
  { apply (release_effect s' rs' q ts c); [by eapply sys_keeps|].
    eapply owned_keeps; [done|]. by exists y. }
  intros [] s'' (Hs''&E&Hp). exists rs'. split; [done|]. split.
  - eapply peers_trans; [by apply keeps_peers|done].
  - exists [(c_fd y, r)]. by rewrite E, Hsent.
Qed.

(** The next task is taken and answered. *)
Definition next_answer s (ts : list worker_task) : list Z :=
  match ts with
  | [] => []
  | t :: _ => option_list (answered_on s t)
  end.

Lemma worker_step_run s rs q ts : sys_ok s rs q ts →
  safe worker_step s (λ _ s', ∃ rs', sys_ok s' rs' q (tail ts) ∧ peers s s' ∧
    answers s s' (next_answer s ts)).
Proof.
  intros Hs. unfold worker_step. apply safe_bind. pose proof (so_queue _ _ _ _ Hs) as Hq.
  destruct ts as [|t ts].
  { exists None, s. split.
    - unfold dequeue. cbn zeta. by rewrite (qr_count _ _ Hq).
    - apply safe_ret. exists rs. split; [done|]. split; [intros d y Hy; by exists y|].
      exists []. by rewrite app_nil_r. }
  destruct (queue_pop _ _ _ Hq) as [Hhead Hq']. eexists (Some t), _. split.
  { unfold dequeue. cbn zeta. rewrite (qr_count _ _ Hq), Hhead.
    destruct (Z.eqb_spec (Z.of_nat (length (t :: ts))) 0); [cbn in *; lia|reflexivity]. }
  rewrite <-(qr_count _ _ Hq).
  match goal with |- safe _ ?s1 _ => apply (run_task_run s1 rs q ts t) end.
  - destruct Hs. split; cbn; try done.
    + intros c y Hy. destruct (so_refs0 c y Hy) as [Hr ?]. split; [|done].
      rewrite queued_cons in Hr. case_decide; lia.
    + intros t' c Ht. apply so_tasks0. by right.
    + by destruct so_audio0.
  - intros c Hc. destruct (so_tasks _ _ _ _ Hs t c ltac:(by left) Hc) as [y Hy].
    destruct (so_refs _ _ _ _ Hs c y Hy) as [Hr _]. exists y. split; [done|].
    rewrite queued_cons, decide_True in Hr by done. cbn [tail]. lia.
Qed.

(** A task that waits is answered as it would be now. *)
Lemma answered_later s s' rs q ts t : peers s s' → sys_ok s' rs q ts → t ∈ ts →
  answered_on s' t = answered_on s t.
Proof.
  intros Hp Hs Ht. unfold answered_on. destruct (wt_c t) as [c|] eqn:Ec; [|done]. cbn.
  destruct (so_tasks _ _ _ _ Hs t c Ht Ec) as [y' Hy'].
  destruct (Hp c y' Hy') as (y&Hy&Ef&Ea). by rewrite Hy, Hy', Ef, Ea.
Qed.

(** ** TCP *)
Lemma take_strlen (n : nat) data : (strlen (take n data) ≤ n)%nat.
Proof. etransitivity; [apply strlen_le|len]. Qed.

Lemma client_of_fd_run s rs q ts fd (Q : option (Z * loc) → server D → Prop) :
  sys_ok s rs q ts → Q None s →
  (∀ slot c y, 0 ≤ slot < 50 → 0 ≤ fd < 4096 →
     sv_clients s !! Z.to_nat slot = Some (Some c) → heap s !! c = Some y →
     c_is_active y ≠ 0 → c_fd y = fd → c_slot y = slot → Q (Some (slot, c)) s) →
  safe (client_of_fd fd) s Q.
Proof.
  intros Hs HN HS. unfold client_of_fd, FD_MAP_SIZE, MAX_CLIENTS.
  destruct (Z.leb_spec 0 fd), (Z.ltb_spec fd 4096); cbn [andb]; try by apply safe_ret.
  apply safe_bind, safe_gets, safe_bind.
  destruct (lookup_lt_is_Some_2 (sv_fd_to_slot s) (Z.to_nat fd)) as [slot Hslot].
  { rewrite (so_map_length _ _ _ _ Hs). lia. }
  eapply safe_lift; [by rewrite at_index_nonneg by lia|].
  destruct (so_map _ _ _ _ Hs _ _ Hslot) as [->|(Hr&c&y&Ho&Hy&Efd)]; [by apply safe_ret|].
  destruct (Z.eqb_spec slot (-1)); [lia|]. destruct (Z.ltb_spec slot 50); [|lia]. cbn [negb andb].
  apply safe_bind, safe_gets, safe_bind.
  eapply safe_lift; [by rewrite at_index_nonneg by lia|]. apply safe_ret.
  destruct (so_slot _ _ _ _ Hs _ _ Ho) as (y'&Hy'&Ha&Esl).
  assert (y' = y) as -> by congruence. eapply HS; try done; lia.
Qed.

Lemma sys_sent s rs q ts l : sys_ok s rs q ts → sys_ok (with_sent l s) rs q ts.
Proof. intros []. split; try done. by destruct so_audio0. Qed.

Lemma process_run s rs q ts c command : sys_ok s rs q ts → owned s ts c →
  (strlen command < 4096)%nat →
  safe (process_client_command c command) s (λ _ s', sys_ok s' rs q
    (if decide (length ts = 256%nat) then ts else ts ++ [WorkerTask (Some c) (c_str command)])).
Proof.
  intros Hs Hown Hlen. pose proof (so_queue _ _ _ _ Hs) as Hq.
  destruct Hown as (y&Hy&Hr). unfold safe, process_client_command. cbn zeta.
  rewrite (qr_count _ _ Hq). destruct (Z.eqb_spec (Z.of_nat (length ts)) 256) as [Hfull|Hfull].
  - rewrite decide_True by lia.
    assert (safe (_ ← send_error c STATUS_ERR_INTERNAL "Server is too busy. Try again later.";
      release c) s (λ _ s', sys_ok s' rs q ts)) as Hsafe; [|exact Hsafe].
    apply safe_bind. eexists tt, _. split; [by apply send_error_run|].
    apply (release_run _ rs q ts c); [by apply sys_sent|by exists y].
  - rewrite decide_False by lia.
    destruct (Nat.ltb_spec (strlen command) MAX_PACKET_SIZE);
      [|unfold MAX_PACKET_SIZE in *; lia]. cbn [negb].
    pose proof (qr_bound _ _ Hq).
    destruct (queue_push _ _ (WorkerTask (Some c) (c_str command)) Hq) as [[t0 ->] Hq'];
      [lia|]. eexists tt, _. split; [reflexivity|].
    rewrite <-(qr_count _ _ Hq). destruct Hs. split; cbn; try done.
    + intros d z Hz. destruct (so_refs0 d z Hz) as [Hrd ?]. rewrite queued_app. cbn.
      split; [|done]. case_decide as E; [|lia]. injection E as ->.
      assert (z = y) as -> by congruence. lia.
    + intros t d [Ht| ->%list_elem_of_singleton]%elem_of_app Hd; [by eapply so_tasks0|].
      injection Hd as <-. by exists y.
    + by destruct so_audio0.
Qed.

(** The descriptor of a connected client. *)
Lemma client_of_fd_known s rs q ts (fd k : nat) c : sys_ok s rs q ts →
  sv_fd_to_slot s !! fd = Some (Z.of_nat k) → sv_clients s !! k = Some (Some c) →
  client_of_fd (Z.of_nat fd) s = Some (Some (Z.of_nat k, c), s) ∧
  ∃ y, heap s !! c = Some y ∧ c_is_active y ≠ 0 ∧ c_fd y = Z.of_nat fd ∧ (fd < 4096)%nat ∧
       (k < 50)%nat ∧ c_slot y = Z.of_nat k.
Proof.
  intros Hs Hfd Hk. pose proof (lookup_lt_Some _ _ _ Hfd) as Hlt.
  rewrite (so_map_length _ _ _ _ Hs) in Hlt.
  destruct (so_map _ _ _ _ Hs _ _ Hfd) as [?|(Hr&d&y&Hd&Hy&Hf)]; [lia|].
  rewrite Nat2Z.id in Hd. simplify_eq.
  destruct (so_slot _ _ _ _ Hs _ _ Hk) as (y'&Hy'&Ha&Hsl). simplify_eq. split.
  - unfold client_of_fd, FD_MAP_SIZE, MAX_CLIENTS.
    rewrite (proj2 (Z.leb_le 0 _)), (proj2 (Z.ltb_lt _ 4096)) by lia. cbn [andb].
    rewrite C_bind_gets, at_index_nonneg, Nat2Z.id, Hfd by lia. rewrite C_bind_lift_Some.
    rewrite (proj2 (Z.eqb_neq _ _)), (proj2 (Z.ltb_lt _ 50)) by lia. cbn [negb andb].
    by rewrite C_bind_gets, at_index_nonneg, Nat2Z.id, Hk by lia.
  - exists y. split_and!; try done; lia.
Qed.

(** Data on a connection: a task for its client. *)
Lemma data_taken s rs q ts c y data : sys_ok s rs q ts → heap s !! c = Some y →
  c_is_active y ≠ 0 →
  safe (_ ← update_client c (λ y, c_with_refs y (c_ref_count y + 1));
        process_client_command c (take (MAX_PACKET_SIZE - 1) data)) s
    (λ _ s', sys_ok s' rs q (if decide (length ts = 256%nat) then ts
       else ts ++ [WorkerTask (Some c) (c_str (take (MAX_PACKET_SIZE - 1) data))])).
Proof.
  intros Hs Hy Ha. apply safe_bind. destruct (so_refs _ _ _ _ Hs c y Hy) as [Hr ?].
  eexists tt, _. split.
  { unfold update_client. rewrite (C_bind_run _ _ _ _ _ (sv_read_client _ _ _ Hy)).
    apply on_world_run. by eapply write_client_run. }
  apply (process_run _ rs q ts).
  - eapply sys_set_refs; [done|done|lia|lia|done|apply (so_tasks _ _ _ _ Hs)|apply Hs].
  - eexists. cbn. split; [apply lookup_insert_eq|]. cbn. unfold is_live in *. cbn. lia.
  - pose proof (take_strlen (MAX_PACKET_SIZE - 1) data). unfold MAX_PACKET_SIZE in *. lia.
Qed.

Lemma tcp_data_run s rs q ts fd data : sys_ok s rs q ts →
  safe (handle_tcp_command fd (RecvData data)) s (λ _ s', ∃ ts', sys_ok s' rs q ts').
Proof.
  intros Hs. unfold handle_tcp_command. apply safe_bind.
  eapply client_of_fd_run; [done|apply safe_ret; by exists ts|].
  intros slot c y _ _ Hc Hy Ha Hf _.
  eapply safe_mono; [by apply (data_taken s rs q ts c y)|]. intros [] s' Hs'. by eexists.
Qed.

(** ** Connections *)
Lemma find_free_slot_spec cs : ∀ i j, find_free_slot cs i = Some j →
  ∃ k : nat, j = i + Z.of_nat k ∧ cs !! k = Some None.
Proof.
  induction cs as [|[l|] cs IH]; intros i j; cbn; [done| |].
  - intros (k&->&Hk)%IH. exists (S k). split; [lia|done].
  - intros [= <-]. exists 0%nat. split; [lia|done].
Qed.

Lemma occupied_insert (cs : list (option loc)) (k : nat) o o' : cs !! k = Some o →
  (length (omap (λ o, o) (<[k := o']> cs)) + length (omap (λ o : option loc, o) [o]) =
   length (omap (λ o, o) cs) + length (omap (λ o : option loc, o) [o']))%nat.
Proof.
  intros Hk. rewrite <-(take_drop_middle _ _ _ Hk) at 2.
  rewrite insert_take_drop by (by eapply lookup_lt_Some).
  rewrite !omap_app. change (o :: drop (S k) cs) with ([o] ++ drop (S k) cs).
  change (o' :: drop (S k) cs) with ([o'] ++ drop (S k) cs).
  rewrite !omap_app, !length_app. lia.
Qed.

Lemma sys_closed s rs q ts l : sys_ok s rs q ts → sys_ok (with_closed l s) rs q ts.
Proof. intros []. split; try done. by destruct so_audio0. Qed.

(** With less than 50 clients there is a free slot. *)
Lemma free_slot_found s rs q ts : sys_ok s rs q ts → sv_client_count s < 50 →
  find_free_slot (sv_clients s) 0 ≠ None.
Proof.
  intros Hs Hc. rewrite (so_count _ _ _ _ Hs) in Hc. pose proof (so_length _ _ _ _ Hs) as Hl.
  assert (∀ cs i, find_free_slot cs i = None → length (omap (λ o : option loc, o) cs) = length cs)
    as Hfull.
  { clear. induction cs as [|[l|] cs IH]; intros i; cbn; [done| |done]. intros Hf. f_equal. by eapply IH. }
  intros E. apply Hfull in E. lia.
Qed.

(** A connection that is refused is closed; one that is taken gets the first
    free slot. *)
Lemma accept_run s rs q ts fd : sys_ok s rs q ts →
  safe (accept_new_client fd) s (λ _ s', sys_ok s' rs q ts ∧
    (fd ≠ -1 → sv_client_count s < 50 → ∀ l, alloc (heap s) (w_malloc (sv_world s)) = Some l →
     ∃ k : nat, sv_clients s !! k = Some None ∧ sv_clients s' = <[k := Some l]> (sv_clients s) ∧
       heap s' = <[l := new_client fd (Z.of_nat k)]> (heap s))).
Proof.
  intros Hs. unfold accept_new_client.
  destruct (Z.eqb_spec fd (-1)) as [->|_]; [by apply safe_ret|].
  apply safe_bind, safe_gets. unfold MAX_CLIENTS.
  destruct (Z.leb_spec 50 (sv_client_count s)) as [Hfull|_];
    [apply safe_puts; split; [by apply sys_closed|lia]|].
  apply safe_bind, safe_gets.
  destruct (find_free_slot _ 0) as [j|] eqn:Ef; [|apply safe_puts; split; [by apply sys_closed|]].
  2: { intros _ Hc. by destruct (free_slot_found s rs q ts Hs Hc). }
  apply find_free_slot_spec in Ef as (k&->&Hk). rewrite Z.add_0_l.
  pose proof (lookup_lt_Some _ _ _ Hk) as Hlt. apply safe_bind.
  destruct (alloc (heap s) (w_malloc (sv_world s))) as [l|] eqn:Ea.
  2: { eexists None, _. split; [apply on_world_run; unfold malloc_client; by rewrite Ea|].
       apply safe_puts. split; [|by intros _ _ l]. apply sys_closed. eapply sys_keeps; [done| |].
       - split; try done. apply same_conns_refl.
       - pose proof (so_rooms _ _ _ _ Hs) as [[Hm Hd] Hme].
         split; [|done]. split; [|done]. by destruct Hm. }
  eexists (Some l), _. split; [apply on_world_run; unfold malloc_client; by rewrite Ea|].
  apply alloc_spec in Ea as Hfree. apply safe_bind, safe_puts, safe_puts.
  assert (∀ d z, heap s !! d = Some z → d ≠ l) as Hneq by (intros d z Hd ->; congruence).
  assert (queued ts l = 0) as Hq0.
  { apply queued_zero. intros t Ht E. destruct (so_tasks _ _ _ _ Hs t l Ht E). congruence. }
  pose proof (so_rooms _ _ _ _ Hs) as [[Hm Hd] Hme].
  set (s1 := with_clients _ _ _).
  assert (sys_ok s1 rs q ts) as Hs1.
  { subst s1. split; cbn; try apply Hs.
    - split; [split; [|done]; by destruct Hm|]. apply members_outside; [done| |by right].
      intros k' a Hin Hl. destruct (me_client _ _ Hme k' a l Hin Hl) as (?&?&_). congruence.
    - rewrite length_insert. apply Hs.
    - intros i d Hi. apply list_lookup_insert_Some in Hi as [(<-&[= ->]&_)|[_ Hi]].
      + exists (new_client fd (Z.of_nat k)). rewrite lookup_insert_eq. split_and!; [done..|].
        cbn. lia.
      + destruct (so_slot _ _ _ _ Hs i d Hi) as (z&Hz&?). exists z.
        rewrite lookup_insert_ne; [done|]. symmetry. by eapply Hneq.
    - intros d z Hz Hact. apply lookup_insert_Some in Hz as [[<- <-]|[_ Hz]].
      + cbn. split; [lia|]. by rewrite list_lookup_insert_eq by lia.
      + destruct (so_active _ _ _ _ Hs d z Hz Hact) as [? Hsl]. split; [done|].
        rewrite list_lookup_insert_ne; [done|]. intros E. rewrite <-E, Nat2Z.id in Hsl. congruence.
    - rewrite (so_count _ _ _ _ Hs).
      pose proof (occupied_insert _ _ _ (Some l) Hk) as E. cbn in E. rewrite Nat2Z.id. lia.
    - intros d z Hz. apply lookup_insert_Some in Hz as [[<- <-]|[_ Hz]].
      + rewrite Hq0. cbn. unfold is_live. cbn. lia.
      + by apply (so_refs _ _ _ _ Hs d z).
    - intros t d Ht E. apply lookup_insert_is_Some'. right. by eapply (so_tasks _ _ _ _ Hs).
    - intros fd' slot Hfd'. destruct (so_map _ _ _ _ Hs fd' slot Hfd') as [?|(?&d&z&Hd'&Hz&E)];
        [by left|right]. split; [done|]. exists d, z.
      rewrite list_lookup_insert_ne by (intros E'; rewrite <-E', Nat2Z.id in Hd'; congruence).
      rewrite lookup_insert_ne by (symmetry; by eapply Hneq). done.
    - by destruct (so_audio _ _ _ _ Hs). }
  assert (∀ m, fd ≠ -1 → sv_client_count s < 50 → ∀ l', Some l = Some l' →
    ∃ k : nat, sv_clients s !! k = Some None ∧
      sv_clients (with_fd_map m s1) = <[k := Some l']> (sv_clients s) ∧
      heap (with_fd_map m s1) = <[l' := new_client fd (Z.of_nat k)]> (heap s)) as Hpost.
  { intros m _ _ l' [= <-]. exists k. split; [done|]. subst s1. cbn. by rewrite Nat2Z.id. }
  destruct ((0 <=? fd) && (fd <? FD_MAP_SIZE)) eqn:Efd.
  2: { split; [done|]. exact (Hpost (sv_fd_to_slot s1)). }
  split; [|exact (Hpost _)]. clear Hpost.
  apply andb_true_iff in Efd as [E1%Z.leb_le E2%Z.ltb_lt].
  destruct Hs1. split; cbn; try done.
  - rewrite length_insert. done.
  - intros fd' slot Hfd'. apply list_lookup_insert_Some in Hfd' as [(<-&<-&_)|[_ Hfd']];
      [|by apply so_map0]. right. pose proof (so_length _ _ _ _ Hs).
    split; [lia|]. exists l, (new_client fd (Z.of_nat k)).
    rewrite Nat2Z.id, list_lookup_insert_eq by lia. rewrite lookup_insert_eq.
    split_and!; [done..|]. cbn. lia.
  - by destruct so_audio0.
Qed.

(** The client out of its room, in memory and on disk. *)
Lemma leave_for_good s rs c y : room_state (sv_world s) rs → heap s !! c = Some y →
  c_is_active y ≠ 0 → ∃ w rs',
  (match c_current_room y with
   | Some l => on_world (remove_client_from_room (Some l) (Some c))
   | None => mret tt
   end) s = Some (tt, with_world w s) ∧ rooms_ok w rs' ∧ w_clients w = heap s ∧
  members_ok (<[c := c_with_active y 0]> (heap s)) rs'.
Proof.
  intros Hrs Hy Ha. destruct (c_current_room y) as [l|] eqn:Er.
  - destruct (remove_client_run _ _ _ _ _ Hrs Hy Ha Er) as (w&Hrun&Hok&Hc&Hme).
    exists w, (RoomSpec.leave rs c). split_and!; [by apply on_world_run|done..|].
    apply Hme. by left.
  - exists (sv_world s), rs. destruct Hrs as [Hok Hme]. rewrite with_world_id.
    split_and!; [done..|]. apply members_outside; [done| |by left].
    intros l a. by eapply no_room_outside.
Qed.

(** The slot and the descriptor of [c] are given up; its object stays. *)
Lemma sys_detach s rs q ts w rs' c y slot : sys_ok s rs q ts →
  rooms_ok w rs' → w_clients w = heap s →
  members_ok (<[c := c_with_active y 0]> (heap s)) rs' →
  heap s !! c = Some y → c_is_active y ≠ 0 → 0 ≤ c_fd y < 4096 →
  c_slot y = slot → 0 ≤ slot < 50 → sv_clients s !! Z.to_nat slot = Some (Some c) →
  sys_ok (with_fd_map (<[Z.to_nat (c_fd y) := -1]> (sv_fd_to_slot s))
    (with_clients (<[Z.to_nat slot := None]> (sv_clients s)) (sv_client_count s - 1)
      (with_world (with_client_heap <[c := c_with_active y 0]> w)
        (with_closed (sv_closed s ++ [c_fd y]) s)))) rs' q ts.
Proof.
  intros Hs Hok Hc Hme Hy Ha Hfd <- Hr Hsl. pose proof (so_length _ _ _ _ Hs) as Hlen.
  split; cbn; try apply Hs.
  - split; [by apply rooms_ok_clients|]. cbn. by rewrite Hc.
  - by rewrite length_insert.
  - intros i d Hi. apply list_lookup_insert_Some in Hi as [(_&?&_)|[Hne Hi]]; [done|].
    destruct (so_slot _ _ _ _ Hs i d Hi) as (z&Hz&?&?). exists z. rewrite Hc.
    rewrite lookup_insert_ne; [done|]. intros <-. apply Hne. simplify_eq. lia.
  - rewrite Hc. intros d z Hz Hact. apply lookup_insert_Some in Hz as [[<- <-]|[Hne Hz]]; [done|].
    destruct (so_active _ _ _ _ Hs d z Hz Hact) as [? Hd]. split; [done|].
    rewrite list_lookup_insert_ne; [done|]. intros E. rewrite <-E in Hd. congruence.
  - rewrite (so_count _ _ _ _ Hs).
    pose proof (occupied_insert _ _ _ None Hsl) as E. cbn in E. lia.
  - rewrite Hc. intros d z Hz. apply lookup_insert_Some in Hz as [[<- <-]|[_ Hz]].
    + destruct (so_refs _ _ _ _ Hs c y Hy) as [Hrf ?]. cbn. split; [|done].
      unfold is_live in *. cbn. destruct (c_is_active y =? 0); lia.
    + by apply (so_refs _ _ _ _ Hs d z).
  - rewrite Hc. intros t d Ht Hd. apply lookup_insert_is_Some'. right.
    by eapply (so_tasks _ _ _ _ Hs).
  - rewrite length_insert. apply Hs.
  - intros fd' slot Hf. rewrite Hc.
    apply list_lookup_insert_Some in Hf as [(_&<-&_)|[Hne Hf]]; [by left|].
    destruct (so_map _ _ _ _ Hs fd' slot Hf) as [?|(?&d&z&Hd&Hz&E)]; [by left|right].
    assert (d ≠ c) as Hdc.
    { intros ->. apply Hne. assert (z = y) as -> by congruence. lia. }
    split; [done|]. exists d, z. rewrite lookup_insert_ne by done.
    rewrite list_lookup_insert_ne; [done|]. intros E'. rewrite <-E' in Hd. congruence.
  - by destruct (so_audio _ _ _ _ Hs).
Qed.

Lemma release_world c s u s' : release c s = Some (u, s') → ∃ w, s' = with_world w s.
Proof.
  unfold release. intros (y&s1&H1&([]&s2&H2&H3)%C_bind_inv)%C_bind_inv. unfold on_world in *.
  destruct (read_client c _) as [[? w1]|]; [|done]. injection H1 as -> <-.
  destruct (write_client c _ _) as [[? w2]|]; [|done]. injection H2 as _ <-.
  unfold when in H3. destruct (_ =? 0).
  - destruct (free_client c _) as [[? w3]|]; [|done]. injection H3 as _ <-. by exists w3.
  - injection H3 as _ <-. by exists w2.
Qed.

(** What [disconnect_client] does for a client it has found. *)
Lemma detach_run s rs q ts slot c y fd : sys_ok s rs q ts → 0 ≤ slot < 50 → 0 ≤ fd < 4096 →
  sv_clients s !! Z.to_nat slot = Some (Some c) → heap s !! c = Some y → c_is_active y ≠ 0 →
  c_fd y = fd → c_slot y = slot →
  safe (y ← on_world (read_client c);
        if negb (c_fd y =? fd) then mret tt
        else
          _ ← match c_current_room y with
              | Some l => on_world (remove_client_from_room (Some l) (Some c))
              | None => mret tt
              end;
          _ ← close_fd (c_fd y);
          _ ← update_client c (λ y, c_with_active y 0);
          _ ← puts (λ s, with_clients (<[Z.to_nat slot := None]> (sv_clients s))
                           (sv_client_count s - 1) s);
          _ ← set_fd_slot fd (-1);
          release c) s
    (λ _ s', ∃ rs', sys_ok s' rs' q ts ∧
       sv_clients s' = <[Z.to_nat slot := None]> (sv_clients s) ∧
       sv_closed s' = sv_closed s ++ [fd]).
Proof.
  intros Hs Hslot Hfd Hc Hy Ha Hf Hsl. apply safe_bind.
  exists y, s. split; [by apply sv_read_client|]. rewrite Hf, Z.eqb_refl. cbn [negb].
  destruct (leave_for_good s rs c y (so_rooms _ _ _ _ Hs) Hy Ha) as (w&rs'&Hrun&Hok&Hcs&Hme).
  apply safe_bind. exists tt, (with_world w s). split; [exact Hrun|].
  apply safe_bind, safe_puts, safe_bind.
  eexists tt, _. split.
  { unfold update_client.
    erewrite C_bind_run by (apply sv_read_client; cbn; by rewrite Hcs).
    apply on_world_run. eapply write_client_run. cbn. by rewrite Hcs. }
  apply safe_bind, safe_puts, safe_bind, safe_puts.
  unfold FD_MAP_SIZE. rewrite (proj2 (Z.leb_le 0 fd)), (proj2 (Z.ltb_lt fd 4096)) by lia.
  cbn [andb]. subst fd.
  pose proof (sys_detach s rs q ts w rs' c y slot Hs Hok Hcs Hme Hy Ha Hfd Hsl Hslot Hc) as Hs1.
  destruct (release_run _ rs' q ts c Hs1) as (u&s'&Hrel&Hs').
  - exists (c_with_active y 0). cbn. rewrite Hcs, lookup_insert_eq. split; [done|].
    destruct (so_refs _ _ _ _ Hs c y Hy) as [Hr _]. unfold is_live in *. cbn.
    destruct (Z.eqb_spec (c_is_active y) 0); [done|lia].
  - exists u, s'. split; [exact Hrel|]. exists rs'. split; [done|].
    apply release_world in Hrel as [w' ->]. done.
Qed.

Lemma disconnect_run s rs q ts fd : sys_ok s rs q ts →
  safe (disconnect_client fd) s (λ _ s', ∃ rs', sys_ok s' rs' q ts).
Proof.
  intros Hs. unfold disconnect_client. apply safe_bind.
  eapply client_of_fd_run; [done|apply safe_ret; by exists rs|].
  intros slot c y Hslot Hfd Hc Hy Ha Hf Hsl.
  eapply safe_mono; [by eapply (detach_run s rs q ts slot c y fd)|].
  intros [] s' (rs'&?&_). by exists rs'.
Qed.

(** ** UDP and the mixer *)
Lemma udp_run s rs q ts data junk addr len : sys_ok s rs q ts →
  wf_audio_packet (received_packet data junk) →
  ap_payload_size (received_packet data junk) ≤ 2048 →
  safe (handle_udp_packet data junk addr len) s (λ _ s', ∃ q', sys_ok s' rs q' ts).
Proof.
  intros Hs Hwf Hsize. unfold handle_udp_packet.
  destruct data as [|b0 data0] eqn:Ed; [apply safe_ret; by exists q|]. rewrite <-Ed in *. clear Ed.
  set (pkt := received_packet data junk) in *. apply safe_bind.
  eapply (safe_mono _ _ (λ _ s', sys_ok s' rs q ts)).
  { destruct (Z.ltb_spec (ap_sender_id pkt) MAX_CLIENTS) as [Hlt|]; [|by apply safe_ret].
    unfold MAX_CLIENTS in Hlt. pose proof (wap_sender _ Hwf) as Hu. unfold is_u32 in Hu.
    pose proof (so_length _ _ _ _ Hs) as Hlen.
    destruct (lookup_lt_is_Some_2 (sv_clients s) (Z.to_nat (ap_sender_id pkt))) as [o Ho]; [lia|].
    apply safe_bind, safe_gets, safe_bind.
    eapply safe_lift; [by rewrite at_index_nonneg by lia|].
    destruct o as [c|]; [|by apply safe_ret].
    destruct (so_slot _ _ _ _ Hs _ _ Ho) as (y&Hy&Ha&_).
    eexists tt, _. split.
    { unfold update_client. rewrite (C_bind_run _ _ _ _ _ (sv_read_client _ _ _ Hy)).
      apply on_world_run. by eapply write_client_run. }
    eapply sys_keeps; [done| |].
    - split; try done. cbn. by apply same_conns_insert with y.
    - cbn. eapply client_room_state; [apply Hs|done|done|done]. }
  intros [] s1 Hs1. apply safe_when; intros _; [|by exists q].
  unfold push_ring. destruct (so_ring _ _ _ _ Hs1) as [Hring Hp].
  unfold safe. destruct (sv_ring s1) as [r|] eqn:Er; [|by exists tt, s1; split; [|exists q]].
  destruct (ring_push_run r q pkt Hring) as (r'&->&Hr').
  eexists tt, _. split; [reflexivity|]. exists (QueueSpec.push pkt q).2.
  assert (Forall pushable (QueueSpec.push pkt q).2) as Hp'.
  { unfold QueueSpec.push. case_match; cbn; [|done]. apply Forall_app. split; [done|].
    by constructor. }
  destruct Hs1. split; try done. by destruct so_audio0.
Qed.

Lemma tick_run s rs q ts : sys_ok s rs q ts →
  safe mixer_tick s (λ _ s', sys_ok s' rs [] ts).
Proof.
  intros Hs. destruct (mixer_tick_run s rs q (sys_mix _ _ _ _ Hs) (so_ring _ _ _ _ Hs))
    as (h&j&jbs&r&yss&_&_&Hrun&Hinv&Hring).
  eexists tt, _. split; [exact Hrun|]. pose proof (so_rooms _ _ _ _ Hs) as [[Hm Hd] Hme].
  destruct Hs. split; try done.
  - split; [|done]. split; [apply Hinv|done].
  - apply Hinv.
Qed.

(** ** Events *)
Inductive event :=
  | Accept (fd : Z)                                   (** a connection, or -1 *)
  | Tcp (fd : Z) (r : recv_result)                    (** a TCP socket is readable *)
  | Udp (data junk addr : bytes) (addr_len : Z)       (** a datagram *)
  | Work                                              (** a worker takes a task *)
  | Tick.                                             (** the mixer's 20 ms are over *)

Definition handle_event (e : event) : C (server D) unit :=
  match e with
  | Accept fd => accept_new_client fd
  | Tcp fd r => handle_tcp_command fd r
  | Udp data junk addr len => handle_udp_packet data junk addr len
  | Work => worker_step
  | Tick => mixer_tick
  end.

Fixpoint run_events (es : list event) : C (server D) unit :=
  match es with
  | [] => mret tt
  | e :: es' => _ ← handle_event e; run_events es'
  end.

(** Bytes are bytes, a packet object has 2068 of them, and no datagram claims
    more than the 2048 bytes of a payload. *)
Definition admissible (e : event) : Prop :=
  match e with
  | Udp data junk _ _ => Forall is_u8 data ∧ Forall is_u8 junk ∧
      length junk = sizeof_audio_packet ∧ ap_payload_size (received_packet data junk) ≤ 2048
  | _ => True
  end.

Lemma le_val_range l : Forall is_u8 l → 0 ≤ le_val l < 256 ^ Z.of_nat (length l).
Proof.
  unfold le_val. induction 1 as [|b l Hb _ IH]; cbn [length]; [lia|].
  rewrite Nat2Z.inj_succ, Z.pow_succ_r by lia. unfold is_u8 in Hb. lia.
Qed.

Lemma received_wf data junk : Forall is_u8 data → Forall is_u8 junk →
  length junk = sizeof_audio_packet → wf_audio_packet (received_packet data junk).
Proof.
  intros Hd Hj Hl. unfold received_packet, decode_packet. cbn zeta.
  set (d := take sizeof_audio_packet data). set (b := d ++ drop (length d) junk).
  assert (length d ≤ sizeof_audio_packet)%nat as Hdl by (unfold d; len).
  assert (length b = sizeof_audio_packet) as Hb by (unfold b; len).
  assert (Forall is_u8 b) as Hu.
  { apply Forall_app. split; [by apply Forall_take|by apply Forall_drop]. }
  unfold sizeof_audio_packet in Hb.
  assert (∀ n k, (n + k ≤ 2068)%nat →
    0 ≤ le_val (take k (drop n b)) < 256 ^ Z.of_nat k) as Hfield.
  { intros n k Hnk. pose proof (le_val_range (take k (drop n b))
      (Forall_take _ _ _ (Forall_drop _ _ _ Hu))) as Hr.
    rewrite length_take, length_drop, Nat.min_l in Hr by lia. done. }
  split; cbn [ap_room_id ap_sender_id ap_seq_num ap_timestamp ap_payload_size ap_payload].
  - apply (Hfield 0%nat 4%nat). lia.
  - apply (Hfield 4%nat 4%nat). lia.
  - apply (Hfield 8%nat 4%nat). lia.
  - apply (Hfield 12%nat 4%nat). lia.
  - apply (Hfield 16%nat 2%nat). lia.
  - unfold AUDIO_PAYLOAD_SIZE. len.
Qed.

Definition sys_inv s : Prop := ∃ rs q ts, sys_ok s rs q ts.

Lemma event_run s e : sys_inv s → admissible e → safe (handle_event e) s (λ _, sys_inv).
Proof.
  intros (rs&q&ts&Hs) He. destruct e as [fd|fd [data| |]|data junk addr len| |]; cbn.
  - eapply safe_mono; [by eapply accept_run|]. intros [] s' [? _]. by exists rs, q, ts.
  - eapply safe_mono; [by eapply tcp_data_run|]. intros [] s' [ts' ?]. by exists rs, q, ts'.
  - eapply safe_mono; [by eapply disconnect_run|]. intros [] s' [rs' ?]. by exists rs', q, ts.
  - eapply safe_mono; [by eapply disconnect_run|]. intros [] s' [rs' ?]. by exists rs', q, ts.
  - destruct He as (?&?&?&?).
    eapply safe_mono; [by eapply udp_run; [|apply received_wf|]|].
    intros [] s' [q' ?]. by exists rs, q', ts.
  - eapply safe_mono; [by eapply worker_step_run|]. intros [] s' (rs'&?&_). by exists rs', q, (tail ts).
  - eapply safe_mono; [by eapply tick_run|]. intros [] s' ?. by exists rs, [], ts.
Qed.

(** [n] turns of workers, with [n] tasks or fewer in the queue. *)
Lemma workers_run n : ∀ s rs q ts, sys_ok s rs q ts → (length ts ≤ n)%nat →
  safe (run_events (replicate n Work)) s (λ _ s', ∃ rs', sys_ok s' rs' q [] ∧
    answers s s' (omap (answered_on s) ts)).
Proof.
  induction n as [|n IH]; intros s rs q ts Hs Hn; cbn [replicate run_events].
  { destruct ts; [|cbn in Hn; lia]. apply safe_ret. exists rs. split; [done|].
    exists []. by rewrite app_nil_r. }
  apply safe_bind. eapply safe_mono; [by eapply worker_step_run|].
  intros [] s1 (rs1&Hs1&Hp&rsps1&E1&F1). eapply safe_mono.
  { apply (IH s1 rs1 q (tail ts) Hs1). destruct ts; cbn in *; lia. }
  intros [] s2 (rs2&Hs2&rsps2&E2&F2). exists rs2. split; [done|].
  exists (rsps1 ++ rsps2). rewrite E2, E1, app_assoc. split; [done|].
  rewrite fmap_app, F1, F2. destruct ts as [|t ts]; [done|]. cbn [tail next_answer omap list_omap].
  assert (omap (answered_on s1) ts = omap (answered_on s) ts) as ->.
  { apply list_omap_ext, Forall_Forall2_diag, Forall_forall. intros t' Ht'.
    by eapply answered_later. }
  by destruct (answered_on s t).
Qed.

(** ** Start-up and shutdown *)

(** The globals of a new process, with this room database, users file and
    environment. *)
Definition server_globals (d : D) (users : file) (mallocs : list (option loc))
    (junk : room_record) (now : Z) : server D :=
  Server (World ∅ ∅ None 0 d mallocs junk) (replicate 50 None) 0 (replicate 4096 0) users
    (TaskQueue (replicate 256 (WorkerTask None [])) 0 0 0) None
    (replicate 50 jitter_init) (replicate 32 0) now [] [] [] true.

(** The shared memory could be mapped. *)
Definition ipc_manager_init : C (server D) unit := puts (with_ring (Some ring_init)).

(** The calls of [main] between the opening of the files and the event loop. *)
Definition server_init : C (server D) unit :=
  _ ← on_world room_manager_init;
  _ ← network_init;
  _ ← ipc_manager_init;
  audio_mixer_init.

(** The state they leave. *)
Definition server_start (d : D) (users : file) (mallocs : list (option loc))
    (junk : room_record) (now : Z) : server D :=
  Server (World ∅ ∅ None 0 d mallocs junk) (replicate 50 None) 0 (replicate 4096 (-1)) users
    (TaskQueue (replicate 256 (WorkerTask None [])) 0 0 0) (Some ring_init)
    (replicate 50 jitter_init) (replicate 32 MAX_SPEAKERS_PER_ROOM) now [] [] [] true.

Lemma server_init_run d users mallocs junk now :
  server_init (server_globals d users mallocs junk now) =
  Some (tt, server_start d users mallocs junk now).
Proof. reflexivity. Qed.

(** The loop of [shutdown_server] over the slots, from slot [i] on. *)
Fixpoint close_clients (i : nat) (cs : list (option loc)) : C (server D) unit :=
  match cs with
  | [] => mret tt
  | None :: cs' => close_clients (S i) cs'
  | Some c :: cs' =>
    y ← on_world (read_client c);
    _ ← when (negb (c_is_active y =? 0))
          (_ ← close_fd (c_fd y);
           _ ← on_world (free_client c);
           puts (λ s, with_clients (<[i := None]> (sv_clients s)) (sv_client_count s) s));
    close_clients (S i) cs'
  end.

(** [fds] are the descriptors of the sockets, epoll and the files, -1 for one
    that is not open. *)
Definition shutdown_server (fds : list Z) : C (server D) unit :=
  cs ← gets sv_clients;
  _ ← close_clients 0 cs;
  puts (λ s, with_closed (sv_closed s ++ filter (λ fd, fd ≠ -1) fds) s).

(** [main]: the initialisation, the events while the server is on, shutdown. *)
Definition server_run (es : list event) : C (server D) unit :=
  _ ← server_init; run_events es.
Definition server_main (es : list event) (fds : list Z) : C (server D) unit :=
  _ ← server_run es; shutdown_server fds.

Lemma start_ok d recs users mallocs junk now : store_rep d recs →
  Forall wf_room_record recs → Forall (λ r, rr_is_active r = 0) recs → wf_room_record junk →
  sys_inv (server_start d users mallocs junk now).
Proof.
  intros Hrep Hwf Hact Hj. exists [], [], []. split; unfold server_start;
    cbn [sv_world sv_clients sv_client_count sv_fd_to_slot sv_queue w_clients].
  - eapply room_state_init; try done.
  - apply length_replicate.
  - intros i c Hi. by apply lookup_replicate in Hi as [? _].
  - intros c y Hy. done.
  - reflexivity.
  - intros c y Hy. done.
  - intros t c Ht. by apply elem_of_nil in Ht.
  - split; cbn [tq_tasks tq_head tq_count tq_tail]; [apply length_replicate|lia|done|cbn; lia|done|].
    intros i t Hi. done.
  - apply length_replicate.
  - intros fd slot Hi. apply lookup_replicate in Hi as [-> _]. by left.
  - split; cbn [sv_jitter sv_speaker_sem]; [apply length_replicate| |done].
    apply Forall_replicate, jitter_init_ok.
  - split; [|constructor]. split; [apply zero_ring_rep|done].
Qed.

Lemma run_events_ok es : ∀ s, sys_inv s → Forall admissible es →
  safe (run_events es) s (λ _, sys_inv).
Proof.
  induction es as [|e es IH]; intros s Hs He; cbn; [by apply safe_ret|]. inv He.
  apply safe_bind. eapply safe_mono; [by apply event_run|]. intros [] s' Hs'. by apply IH.
Qed.

Lemma server_run_ok d recs users mallocs junk now es :
  store_rep d recs → Forall wf_room_record recs →
  Forall (λ r, rr_is_active r = 0) recs → wf_room_record junk → Forall admissible es →
  safe (server_run es) (server_globals d users mallocs junk now) (λ _, sys_inv).
Proof.
  intros Hrep Hwf Hact Hj He. unfold server_run, safe.
  rewrite (C_bind_run _ _ _ _ _ (server_init_run d users mallocs junk now)).
  by apply run_events_ok; [eapply start_ok|].
Qed.

(** The descriptors of the connected clients, by slot. *)
Definition slot_fds (h : gmap loc client) (cs : list (option loc)) : list Z :=
  omap (λ o, c ← o; c_fd <$> h !! c) cs.

(** The loop leaves slot [i] and goes on; [s1] is the state after its turn. *)
Lemma close_step (i : nat) (o : option loc) cs l : drop i l = o :: cs →
  drop (S i) (<[i := None]> l) = cs ∧
  take (S i) (<[i := None]> l) = take i l ++ [None].
Proof.
  intros E. assert (i < length l)%nat as Hi.
  { apply (f_equal length) in E. rewrite length_drop in E. cbn in E. lia. }
  split.
  - rewrite drop_insert_lt by lia. apply (f_equal (drop 1)) in E.
    by rewrite drop_drop, Nat.add_1_r in E.
  - rewrite (take_S_r _ _ None) by (by apply list_lookup_insert_eq).
    by rewrite take_insert_ge by lia.
Qed.

Lemma close_clients_run cs : ∀ i s,
  drop i (sv_clients s) = cs → NoDup (omap (λ o, o) cs) →
  (∀ c, Some c ∈ cs → ∃ y, heap s !! c = Some y ∧ c_is_active y ≠ 0) →
  ∃ s', close_clients i cs s = Some (tt, s') ∧
    sv_clients s' = take i (sv_clients s) ++ replicate (length cs) None ∧
    (∀ c, heap s' !! c = if decide (Some c ∈ cs) then None else heap s !! c) ∧
    sv_closed s' = sv_closed s ++ slot_fds (heap s) cs.
Proof.
  induction cs as [|[c|] cs IH]; intros i s Hcs Hnd Hlive; cbn [close_clients].
  - exists s. split; [done|]. split; [|split; [|by rewrite app_nil_r]].
    + rewrite app_nil_r, take_ge; [done|]. apply (f_equal length) in Hcs.
      rewrite length_drop in Hcs. cbn in Hcs. lia.
    + intros c. by rewrite decide_False by apply not_elem_of_nil.
  - destruct (Hlive c) as (y&Hy&Ha); [by left|].
    rewrite (C_bind_run _ _ _ _ _ (sv_read_client _ _ _ Hy)).
    rewrite (proj2 (Z.eqb_neq _ _) Ha). cbn [negb when].
    cbn [omap list_omap] in Hnd. apply NoDup_cons in Hnd as [Hc Hnd].
    assert (∀ d, Some d ∈ cs → d ≠ c) as Hother.
    { intros d Hd ->. apply Hc, list_elem_of_omap. by exists (Some c). }
    destruct (close_step _ _ _ _ Hcs) as [Hdrop Htake].
    set (s1 := with_clients (<[i := None]> (sv_clients s)) (sv_client_count s)
      (with_world (with_client_heap (delete c) (sv_world s))
         (with_closed (sv_closed s ++ [c_fd y]) s))).
    assert (∀ d, heap s1 !! d = if decide (d = c) then None else heap s !! d) as Hs1.
    { intros d. cbn. case_decide; subst; [apply lookup_delete_eq|by apply lookup_delete_ne]. }
    destruct (IH (S i) s1) as (s'&Hrun&Hcl&Hheap&Hclosed); [done|done| |].
    { intros d Hd. destruct (Hlive d) as (z&Hz&?); [by right|]. exists z. split; [|done].
      rewrite Hs1, decide_False; auto. }
    exists s'. split; [|split; [|split]].
    + erewrite C_bind_run; [exact Hrun|]. unfold close_fd. rewrite C_bind_puts.
      erewrite C_bind_run by (apply on_world_run; unfold free_client; cbn; by rewrite Hy).
      reflexivity.
    + rewrite Hcl. cbn [s1 sv_clients with_clients]. rewrite Htake, <-app_assoc. done.
    + intros d. rewrite Hheap, Hs1. destruct (decide (d = c)) as [->|Hne].
      * rewrite (decide_True (P := Some c ∈ Some c :: cs)) by (by left). by case_decide.
      * apply decide_ext. rewrite elem_of_cons. intuition congruence.
    + rewrite Hclosed. cbn [s1 sv_closed with_clients with_world with_closed].
      unfold slot_fds. cbn [omap list_omap]. cbn. rewrite Hy. cbn.
      rewrite <-app_assoc. cbn. do 2 f_equal. apply list_omap_ext, Forall_Forall2_diag.
      apply Forall_forall. intros [d|] Hd; [|done]. cbn.
      by rewrite lookup_delete_ne by (intros ->; by apply (Hother d)).
  - destruct (IH (S i) s) as (s'&Hrun&Hcl&Hheap&Hclosed).
    + apply (f_equal (drop 1)) in Hcs. by rewrite drop_drop, Nat.add_1_r in Hcs.
    + done.
    + intros d Hd. apply Hlive. by right.
    + exists s'. split; [done|]. split; [|split; [|by rewrite Hclosed]].
      * rewrite Hcl, (take_S_r _ _ None), <-app_assoc; [done|].
        rewrite <-(Nat.add_0_r i), <-lookup_drop, Hcs. done.
      * intros d. rewrite Hheap. apply decide_ext. rewrite elem_of_cons. intuition congruence.
Qed.

(** The connected clients are distinct objects. *)
Lemma NoDup_occupied (cs : list (option loc)) :
  (∀ (i j : nat) c, cs !! i = Some (Some c) → cs !! j = Some (Some c) → i = j) →
  NoDup (omap (λ o, o) cs).
Proof.
  induction cs as [|o cs IH]; intros Hin; cbn; [constructor|].
  assert (NoDup (omap (λ o, o) cs)) as Hnd.
  { apply IH. intros i j c Hi Hj. by apply (Hin (S i) (S j) c) in Hi; [lia|]. }
  destruct o as [c|]; [|done]. constructor; [|done].
  intros (o&Ho&->)%list_elem_of_omap. apply list_elem_of_lookup in Ho as [i Hi].
  by apply (Hin 0%nat (S i) c) in Hi.
Qed.

Lemma slots_distinct s rs q ts : sys_ok s rs q ts → NoDup (omap (λ o, o) (sv_clients s)).
Proof.
  intros Hs. apply NoDup_occupied. intros i j c Hi Hj.
  destruct (so_slot _ _ _ _ Hs i c Hi) as (y&Hy&_&Ei).
  destruct (so_slot _ _ _ _ Hs j c Hj) as (z&Hz&_&Ej). simplify_eq. lia.
Qed.

Lemma length_slot_fds (h : gmap loc client) cs : (∀ c, Some c ∈ cs → is_Some (h !! c)) →
  length (slot_fds h cs) = length (omap (λ o, o) cs).
Proof.
  induction cs as [|[c|] cs IH]; intros Hin; [done| |].
  - destruct (Hin c) as [y Hy]; [by left|]. unfold slot_fds. cbn. rewrite Hy. cbn. f_equal.
    apply IH. intros d Hd. apply Hin. by right.
  - apply IH. intros d Hd. apply Hin. by right.
Qed.

Lemma shutdown_run s fds : sys_inv s → ∃ s', shutdown_server fds s = Some (tt, s') ∧
  sv_clients s' = replicate (length (sv_clients s)) None ∧
  (∀ c, heap s' !! c = if decide (Some c ∈ sv_clients s) then None else heap s !! c) ∧
  sv_closed s' = sv_closed s ++ slot_fds (heap s) (sv_clients s) ++ filter (λ fd, fd ≠ -1) fds.
Proof.
  intros (rs&q&ts&Hs).
  destruct (close_clients_run (sv_clients s) 0 s) as (s1&Hrun&Hcl&Hheap&Hclosed).
  - by rewrite drop_0.
  - by eapply slots_distinct.
  - intros c [i Hi]%list_elem_of_lookup.
    destruct (so_slot _ _ _ _ Hs i c Hi) as (y&?&?&_). by exists y.
  - eexists. split; [|split; [|split]].
    + unfold shutdown_server. rewrite C_bind_gets, (C_bind_run _ _ _ _ _ Hrun). reflexivity.
    + exact Hcl.
    + exact Hheap.
    + cbn. by rewrite Hclosed, app_assoc.
Qed.

(** ** The claims *)

(** C1. Memory safety of the whole server, at the granularity of events: started
    on a room file with no active record, [main] never reaches undefined
    behaviour (freed or NULL pointers, indices out of range, endless list
    traversals), whatever the clients connect, send and close and in whatever
    order workers and mixer run, provided no datagram claims more than 2048
    bytes of audio; every run of events ends in a state of the invariant, and
    the shutdown after it is defined too. *)
Theorem server_never_undefined d recs users mallocs junk now es fds :
  store_rep d recs → Forall wf_room_record recs →
  Forall (λ r, rr_is_active r = 0) recs → wf_room_record junk → Forall admissible es →
  ∃ s s', server_run es (server_globals d users mallocs junk now) = Some (tt, s) ∧
    sys_inv s ∧ server_main es fds (server_globals d users mallocs junk now) = Some (tt, s').
Proof.
  intros Hrep Hwf Hact Hj He.
  destruct (server_run_ok d recs users mallocs junk now es) as ([]&s&Hrun&Hs); [done..|].
  destruct (shutdown_run s fds Hs) as (s'&Hs'&_).
  exists s, s'. split_and!; [done..|]. unfold server_main. by rewrite (C_bind_run _ _ _ _ _ Hrun).
Qed.

(** C31. Shutdown, in any state of the invariant: it is defined, closes the socket
    of every connected client once, by slot, and then the open descriptors of
    the server; afterwards no slot holds a client and no object of an active
    client is left. *)
Theorem shutdown_closes_everything s fds : sys_inv s →
  ∃ s', shutdown_server fds s = Some (tt, s') ∧
    sv_closed s' = sv_closed s ++ slot_fds (heap s) (sv_clients s) ++
                     filter (λ fd, fd ≠ -1) fds ∧
    length (slot_fds (heap s) (sv_clients s)) = Z.to_nat (sv_client_count s) ∧
    sv_clients s' = replicate 50 None ∧
    (∀ c y, heap s' !! c = Some y → c_is_active y = 0).
Proof.
  intros Hs. destruct (shutdown_run s fds Hs) as (s'&Hrun&Hcl&Hheap&Hclosed).
  destruct Hs as (rs&q&ts&Hs). exists s'. split_and!; [done..| | |].
  - rewrite (so_count _ _ _ _ Hs), Nat2Z.id. apply length_slot_fds.
    intros c [i Hi]%list_elem_of_lookup. by destruct (so_slot _ _ _ _ Hs i c Hi) as (y&?&_).
  - by rewrite Hcl, (so_length _ _ _ _ Hs).
  - intros c y Hy. rewrite Hheap in Hy. case_decide as Hc; [done|].
    destruct (decide (c_is_active y = 0)) as [|Ha]; [done|]. exfalso. apply Hc.
    destruct (so_active _ _ _ _ Hs c y Hy Ha) as [_ ?]. by eapply list_elem_of_lookup_2.
Qed.

(** C4. Every queued command is answered: in a state of the invariant with the
    tasks [ts] waiting, as many turns of workers as there are tasks empty the
    queue, and the responses sent meanwhile are exactly one per command of a
    client that is still connected, on that client's socket, in the order in
    which the commands came (a blank command has none). *)
Theorem queued_commands_answered s rs q ts : sys_ok s rs q ts →
  ∃ s' rs', run_events (replicate (length ts) Work) s = Some (tt, s') ∧
    sys_ok s' rs' q [] ∧
    ∃ rsps, sv_sent s' = sv_sent s ++ rsps ∧ rsps.*1 = omap (answered_on s) ts.
Proof.
  intros Hs. destruct (workers_run (length ts) s rs q ts Hs) as ([]&s'&Hrun&rs'&Hs'&Hans); [done|].
  by exists s', rs'.
Qed.

(** C15. What the invariant means for connections: the slots hold exactly the
    active clients, each at its own slot number; [client_count] is their
    number; a client object lives at least as long as a slot or a queued task
    refers to it; and an entry of [fd_to_slot] leads to the client with that
    descriptor. *)
Theorem connections_consistent d recs users mallocs junk now es s :
  store_rep d recs → Forall wf_room_record recs →
  Forall (λ r, rr_is_active r = 0) recs → wf_room_record junk → Forall admissible es →
  server_run es (server_globals d users mallocs junk now) = Some (tt, s) →
  (∀ (i : nat) c, sv_clients s !! i = Some (Some c) ↔
     ∃ y, heap s !! c = Some y ∧ c_is_active y ≠ 0 ∧ c_slot y = Z.of_nat i) ∧
  sv_client_count s = Z.of_nat (length (omap (λ o, o) (sv_clients s))) ∧
  (∀ (fd : nat) slot, sv_fd_to_slot s !! fd = Some slot → slot ≠ -1 →
     ∃ c y, sv_clients s !! Z.to_nat slot = Some (Some c) ∧ heap s !! c = Some y ∧
            c_fd y = Z.of_nat fd) ∧
  ∃ ts, queue_rep (sv_queue s) ts ∧ ∀ c, 0 < queued ts c → is_Some (heap s !! c).
Proof.
  intros Hrep Hwf Hact Hj He Hrun.
  destruct (server_run_ok d recs users mallocs junk now es) as ([]&s'&Hrun'&rs&q&ts&Hs); [done..|]. rewrite Hrun in Hrun'. injection Hrun' as <-.
  split_and!.
  - intros i c. split; [apply (so_slot _ _ _ _ Hs)|]. intros (y&Hy&Ha&Esl).
    destruct (so_active _ _ _ _ Hs c y Hy Ha) as [_ Hc]. by rewrite Esl, Nat2Z.id in Hc.
  - apply Hs.
  - intros fd slot Hfd Hne. by destruct (so_map _ _ _ _ Hs fd slot Hfd) as [?|(_&?)].
  - exists ts. split; [apply Hs|]. intros c Hq.
    destruct (heap s !! c) as [y|] eqn:Ey; [done|]. exfalso.
    assert (queued ts c = 0); [|lia]. apply queued_zero. intros t Ht Hc.
    destruct (so_tasks _ _ _ _ Hs t c Ht Hc). congruence.
Qed.
End system.

(** ** Runs of the server on [FileDb] *)
Definition new_process : server db :=
  server_globals demo_db (write_default_admin (File [] [])) [] demo_junk 1000.
Definition fresh_server : server db :=
  server_start demo_db (write_default_admin (File [] [])) [] demo_junk 1000.

Definition line (s : string) : recv_result := RecvData (str s ++ [10]).
Definition stream_packet (seq size : Z) : bytes :=
  take 2068 (encode_packet (AudioPacket 0 0 seq 0 size (memset 7 2048)) [0; 0]).
Definition packet_junk : bytes := memset 170 2068.

(** The responses and the datagrams of a run. *)
Definition responses (es : list event) : option (list (Z * Z * bytes * bytes)) :=
  '(_, s) ← run_events es fresh_server;
  Some ((λ p, (p.1, rp_status p.2, rp_message p.2, rp_data p.2)) <$> sv_sent s).

(** An administrator's session, from the default account to a room on disk:
    login, creation, join, listing, each answered as the protocol says. *)
Theorem admin_session :
  responses [Accept 7; Tcp 7 (line "login admin admin123"); Work;
             Tcp 7 (line "CREATE lobby secret"); Work; Tcp 7 (line "JOIN lobby wrong"); Work;
             Tcp 7 (line "JOIN lobby secret"); Work; Tcp 7 (line "LIST"); Work] =
  Some [(7, 200, str "Login successful", str "0");
        (7, 200, str "Room created successfully", []);
        (7, 403, str "Incorrect password", []);
        (7, 200, str "Joined room successfully", str "lobby");
        (7, 200, str "Active rooms:",
           list_header ++ room_line (ARoom 0 (str "lobby") (str "secret") [1%positive]))].
Proof. vm_done. Qed.

(** One datagram is enough to make the server undefined: a packet that claims
    65535 bytes is accepted by [handle_udp_packet] and copied by the next tick
    into the 2048 bytes of a jitter entry. *)
Theorem oversized_datagram_undefined :
  option_map fst (run_events [Udp (stream_packet 1 65535) packet_junk [] 16] fresh_server) = Some tt ∧
  run_events [Udp (stream_packet 1 65535) packet_junk [] 16; Tick] fresh_server = None ∧
  option_map fst (run_events [Udp (stream_packet 1 640) packet_junk [] 16; Tick] fresh_server) =
    Some tt.
Proof. split_and!; vm_done. Qed.

(** The objects left after a run in which the client has gone. *)
Definition objects_left (es : list event) : option nat :=
  '(_, s) ← run_events es fresh_server; Some (size (w_clients (sv_world s))).

(** A blank line leaks the client object: the worker goes on without releasing
    the task's reference, so the object is not freed when the client leaves,
    as it is after any other command. *)
Theorem blank_command_leaks_client :
  objects_left [Accept 7; Tcp 7 (line "STATUS"); Work; Tcp 7 RecvClosed] = Some 0%nat ∧
  objects_left [Accept 7; Tcp 7 (line " "); Work; Tcp 7 RecvClosed] = Some 1%nat.
Proof. split_and!; vm_done. Qed.

(** ** Witnesses *)
Lemma fresh_facts : store_rep demo_db [] ∧ Forall wf_room_record [] ∧
  Forall (λ r, rr_is_active r = 0) [] ∧ wf_room_record demo_junk.
Proof.
  split; [split; [done|done|done|constructor]|]. split; [constructor|].
  split; [constructor|apply demo_junk_wf].
Qed.

Definition demo_events : list event :=
  [Accept 7; Tcp 7 (line "LOGIN admin admin123"); Work; Tcp 7 (line "CREATE lobby"); Work;
   Tcp 7 (line "JOIN lobby"); Work; Udp (stream_packet 1 640) packet_junk [] 16; Tick;
   Tcp 7 RecvClosed; Tick].

Lemma demo_admissible : Forall admissible demo_events.
Proof.
  assert (admissible (Udp (stream_packet 1 640) packet_junk [] 16)) as H by (cbn -[stream_packet];
    split; [by_decision|split; [by_decision|split; [vm_done|by vm_compute]]]).
  repeat (constructor; [first [exact I|exact H]|]). constructor.
Qed.

Lemma server_never_undefined_witness : ∃ s s',
  server_run demo_events new_process = Some (tt, s) ∧ sys_inv s ∧
  server_main demo_events [10; 11; -1] new_process = Some (tt, s').
Proof.
  destruct fresh_facts as (H1&H2&H3&H4).
  exact (server_never_undefined demo_db [] (write_default_admin (File [] [])) [] demo_junk 1000
    demo_events [10; 11; -1] H1 H2 H3 H4 demo_admissible).
Defined.

Lemma connections_consistent_witness : ∃ s,
  server_run [Accept 7; Accept 8] new_process = Some (tt, s) ∧
  sv_client_count s = Z.of_nat (length (omap (λ o, o) (sv_clients s))).
Proof.
  destruct fresh_facts as (H1&H2&H3&H4).
  destruct (server_run_ok demo_db [] (write_default_admin (File [] [])) [] demo_junk 1000
    [Accept 7; Accept 8] H1 H2 H3 H4) as ([]&s&Hrun&_); [repeat constructor|].
  exists s. split; [exact Hrun|].
  apply (connections_consistent demo_db [] (write_default_admin (File [] [])) [] demo_junk 1000
    [Accept 7; Accept 8] s H1 H2 H3 H4); [repeat constructor|exact Hrun].
Defined.

Lemma shutdown_closes_everything_witness : ∃ s s',
  server_run [Accept 7; Accept 8] new_process = Some (tt, s) ∧
  shutdown_server [10; -1; 11] s = Some (tt, s') ∧ sv_clients s' = replicate 50 None ∧
  sv_closed s' = sv_closed s ++ slot_fds (w_clients (sv_world s)) (sv_clients s) ++ [10; 11].
Proof.
  destruct fresh_facts as (H1&H2&H3&H4).
  destruct (server_run_ok demo_db [] (write_default_admin (File [] [])) [] demo_junk 1000
    [Accept 7; Accept 8] H1 H2 H3 H4) as ([]&s&Hrun&Hs); [repeat constructor|].
  destruct (shutdown_closes_everything s [10; -1; 11] Hs) as (s'&Hrun'&Hc&_&Hcl&_).
  exists s, s'. split; [exact Hrun|]. split; [exact Hrun'|]. split; [exact Hcl|exact Hc].
Defined.

(** Three clients connect and send a command, one of them only blanks. *)
Definition demo_requests : list event :=
  [Accept 7; Accept 8; Tcp 8 (line "STATUS"); Tcp 7 (line "  "); Tcp 7 (line "LIST")].

Example demo_answers :
  option_map (λ '(_, s), (sv_sent s).*1)
    (server_run (demo_requests ++ [Work; Work; Work]) new_process) = Some [8; 7].
Proof. vm_done. Qed.

Lemma queued_commands_answered_witness : ∃ s rs q ts,
  server_run demo_requests new_process = Some (tt, s) ∧ sys_ok s rs q ts ∧
  ∃ s' rsps, run_events (replicate (length ts) Work) s = Some (tt, s') ∧
    sv_sent s' = sv_sent s ++ rsps ∧ rsps.*1 = omap (answered_on s) ts.
Proof.
  destruct fresh_facts as (H1&H2&H3&H4).
  destruct (server_run_ok demo_db [] (write_default_admin (File [] [])) [] demo_junk 1000
    demo_requests H1 H2 H3 H4) as ([]&s&Hrun&rs&q&ts&Hs); [repeat constructor|].
  destruct (queued_commands_answered s rs q ts Hs) as (s'&rs'&Hw&_&rsps&Hsent&Hfds).
  exists s, rs, q, ts. split; [exact Hrun|]. split; [exact Hs|].
  exists s', rsps. split; [exact Hw|]. split; [exact Hsent|exact Hfds].
Defined.
