(* ===== verification/EventLoop.v ===== *)
(** * [network_event_loop] of [src/server/network.c]

    The loop waits on epoll and hands each ready descriptor to the function
    for it; workers and mixer run between.  It is shown to be a sequence of
    the events of [System], so that what holds for every run of events holds
    for the loop. *)
From S2P Require Import Prelude CInt CString Protocol Posix Auth RoomStore FileDb World RoomManager RoomInv RoomState Rooms Ring Jitter ServerState Mixer MixerSpec ClientHandler HandlerSpec Network System.
#[local] Open Scope Z_scope.

Definition EPOLLIN : Z := 1.
Definition EPOLLERR : Z := 8.
Definition EPOLLHUP : Z := 16.

(** An entry of [events]: descriptor and mask; what [accept], [recv] or
    [recvfrom] gives when it is handled; and the turns other threads have taken
    before. *)
Record ready := Ready {
  rd_fd : Z; rd_mask : Z;
  rd_accept : Z;
  rd_recv : recv_result;
  rd_data : bytes; rd_junk : bytes; rd_addr : bytes; rd_addr_len : Z;
  rd_before : list event
}.

(** What [epoll_wait] gives. *)
Inductive wait :=
  | WaitInterrupted
  | WaitFailed
  | WaitReady (evs : list ready).

Section loop.
Context {D : Type} `{RoomStore D}.
Context (tcp_listen_fd udp_fd : Z).

Definition tcp_ready (r : ready) : bool :=
  negb (Z.land (rd_mask r) (Z.lor (Z.lor EPOLLIN EPOLLHUP) EPOLLERR) =? 0).

Definition handle_ready (r : ready) : C (server D) unit :=
  _ ← run_events (rd_before r);
  if rd_fd r =? tcp_listen_fd then accept_new_client (rd_accept r)
  else if rd_fd r =? udp_fd
  then handle_udp_packet (rd_data r) (rd_junk r) (rd_addr r) (rd_addr_len r)
  else when (tcp_ready r) (handle_tcp_command (rd_fd r) (rd_recv r)).

Fixpoint handle_all (rs : list ready) : C (server D) unit :=
  match rs with
  | [] => mret tt
  | r :: rs' => _ ← handle_ready r; handle_all rs'
  end.

(** The iterations to come, each with the value of [server_on] that it tests. *)
Fixpoint network_event_loop (ws : list (bool * wait)) : C (server D) unit :=
  match ws with
  | [] => mret tt
  | (server_on, w) :: ws' =>
    if server_on : bool then
      match w with
      | WaitInterrupted => network_event_loop ws'
      | WaitFailed => mret tt
      | WaitReady rs => _ ← handle_all rs; network_event_loop ws'
      end
    else mret tt
  end.

(** ** The loop as a sequence of events *)
Definition ready_events (r : ready) : list event :=
  rd_before r ++
  if rd_fd r =? tcp_listen_fd then [Accept (rd_accept r)]
  else if rd_fd r =? udp_fd then [Udp (rd_data r) (rd_junk r) (rd_addr r) (rd_addr_len r)]
  else if tcp_ready r then [Tcp (rd_fd r) (rd_recv r)] else [].

Fixpoint loop_events (ws : list (bool * wait)) : list event :=
  match ws with
  | (true, WaitInterrupted) :: ws' => loop_events ws'
  | (true, WaitReady rs) :: ws' => concat (ready_events <$> rs) ++ loop_events ws'
  | _ => []
  end.

Lemma run_events_app (es fs : list event) (s : server D) :
  run_events (es ++ fs) s = (_ ← run_events es; run_events fs) s.
Proof.
  revert s. induction es as [|e es IH]; intros s; [done|]. cbn [app run_events].
  rewrite C_bind_assoc. unfold mbind, C_bind in *. destruct (handle_event e s) as [[[] s']|]; [|done].
  apply IH.
Qed.

Lemma C_bind_ext {S A B} (m : C S A) (k l : A → C S B) s :
  (∀ a s', k a s' = l a s') → (m ≫= k) s = (m ≫= l) s.
Proof. intros E. unfold mbind, C_bind. by destruct (m s) as [[a s']|]. Qed.

Lemma handle_ready_events r (s : server D) :
  handle_ready r s = run_events (ready_events r) s.
Proof.
  unfold handle_ready, ready_events. rewrite run_events_app. apply C_bind_ext.
  intros [] s'. unfold when.
  assert (∀ (m : C (server D) unit), m s' = (_ ← m; mret tt) s') as Hret.
  { intros m. unfold mbind, C_bind. by destruct (m s') as [[[] ?]|]. }
  destruct (rd_fd r =? tcp_listen_fd); [apply Hret|].
  destruct (rd_fd r =? udp_fd); [apply Hret|]. destruct (tcp_ready r); [apply Hret|done].
Qed.

Lemma handle_all_events rs (s : server D) :
  handle_all rs s = run_events (concat (ready_events <$> rs)) s.
Proof.
  revert s. induction rs as [|r rs IH]; intros s; [done|].
  cbn [handle_all fmap list_fmap concat]. rewrite run_events_app.
  unfold mbind at 1, C_bind at 1. rewrite handle_ready_events.
  unfold mbind, C_bind. destruct (run_events _ s) as [[[] s']|]; [apply IH|done].
Qed.

Lemma event_loop_events ws (s : server D) :
  network_event_loop ws s = run_events (loop_events ws) s.
Proof.
  revert s. induction ws as [|[[] [| |rs]] ws IH]; intros s; cbn [network_event_loop loop_events];
    [done|apply IH|done| |done..].
  rewrite run_events_app. unfold mbind at 1, C_bind at 1. rewrite handle_all_events.
  unfold mbind, C_bind. destruct (run_events _ s) as [[[] s']|]; [apply IH|done].
Qed.

End loop.

(** ** What becomes of an entry *)


Section dispatch.
Context {D : Type} `{RoomStoreLaws D}.
Implicit Types s : server D.
Context (tcp_listen_fd udp_fd : Z).


End dispatch.

