(* ===== verification/Boot.v ===== *)
(** * From the disk to the running server

    [main] opens the room file, the log and the users file, recovers, and
    only then starts the components.  [main] below composes [file_db_init]
    ([FileDb]), [auth_init] ([Auth]), the sockets and the shared memory
    ([Startup]), the event loop ([EventLoop]) and the shutdown ([System]), for
    the real implementation of the room store. *)
From S2P Require Import Prelude CInt CString Protocol Hash Posix Auth RoomStore FileDb Wal World ServerState Rooms ClientHandler Network Startup System EventLoop.
#[local] Open Scope Z_scope.

(** The three files under [data/], if they exist. *)
Record disk := Disk { dk_rooms : option file; dk_wal : option file; dk_users : option file }.

(** A file that exists is opened, a missing one is created: [c] has what
    [open(...|O_CREAT)] gives then, nothing when it fails (there is no directory
    [data/], for example). *)
Definition open_or_create (existing created : option file) : option file :=
  match existing with Some f => Some f | None => created end.
Definition opened_files (k c : disk) : option (file * file * file) :=
  r ← open_or_create (dk_rooms k) (dk_rooms c);
  w ← open_or_create (dk_wal k) (dk_wal c);
  u ← open_or_create (dk_users k) (dk_users c);
  Some (r, w, u).

(** [file_db_init(); auth_init();]; [None] is their [exit(1)].  [mallocs],
    [truncate] and [junk] are those of [file_db_init]. *)
Definition boot (k c : disk) (mallocs : list bool) (truncate : bool) (junk : Z)
    : option (db * file) :=
  d ← file_db_init (dk_rooms k) (dk_rooms c) (dk_wal k) (dk_wal c) mallocs truncate junk;
  u ← auth_init (dk_users k) (dk_users c);
  Some (d, u).

(** The users file after [auth_init]: a created one gets the administrator. *)
Definition users_of (k : disk) (u : file) : file :=
  match dk_users k with Some _ => u | None => write_default_admin u end.

(** What is on the disk while the server runs, or after it has stopped. *)
Definition disk_of (s : server db) : disk :=
  Disk (Some (db_rooms (w_disk (sv_world s)))) (Some (db_wal (w_disk (sv_world s))))
    (Some (sv_users s)).

Lemma boot_run k c mallocs truncate junk :
  boot k c mallocs truncate junk =
  ('(r, w, u) ← opened_files k c;
   Some (wal_recover (Db 3 r 4 w 0 mallocs truncate junk), users_of k u)).
Proof. by destruct k as [[|] [|] [|]], c as [[|] [|] [|]]. Qed.

(** *** Recovery and the outcomes of [malloc] *)
Definition with_malloc (ms : list bool) (d : db) : db :=
  Db (db_rooms_fd d) (db_rooms d) (db_wal_fd d) (db_wal d) (db_wal_pos d)
    ms (db_truncate d) (db_junk d).

Lemma rooms_write_malloc ms d id r :
  (rooms_write (with_malloc ms d) id r).2 = with_malloc ms (rooms_write d id r).2.
Proof. unfold rooms_write. cbn [db_rooms with_malloc]. by destruct (file_write _ _ _). Qed.
Lemma restore_malloc ms record_id lines : ∀ d first,
  wal_restore_old (with_malloc ms d) record_id first lines =
  with_malloc ms (wal_restore_old d record_id first lines).
Proof.
  induction lines as [|l lines IH]; intros d first; cbn [wal_restore_old]; [done|].
  destruct (negb first && _); [done|]. destruct (starts_with _ _); [|apply IH].
  destruct (strstr _ _); apply rooms_write_malloc.
Qed.
Lemma recover_loop_malloc ms lines : ∀ d,
  recover_loop (with_malloc ms d) lines = with_malloc ms (recover_loop d lines).
Proof.
  induction lines as [|l lines IH]; intros d; cbn [recover_loop]; [done|].
  destruct (starts_with _ _); [|apply IH]. cbv zeta. cbn [db_junk with_malloc].
  destruct (tx_completed _ _ _); [apply IH|]. by rewrite restore_malloc, IH.
Qed.

(** Recovery leaves the room file as it is when its [malloc] fails; further
    calls make no difference. *)
Lemma recover_malloc r w ms truncate junk :
  let d ms := Db 3 r 4 w 0 ms truncate junk in
  let same (d1 d2 : db) := db_rooms d1 = db_rooms d2 ∧ db_rooms_fd d1 = db_rooms_fd d2 in
  same (wal_recover (d ms)) (d ms) ∨ same (wal_recover (d ms)) (wal_recover (d [])).
Proof.
  cbv zeta. unfold wal_recover. cbn [db_wal_fd db_wal]. change (4 =? -1) with false. cbv iota.
  destruct (length (f_data w) =? 0)%nat; [by left|].
  destruct ms as [|[] ms]; [by right|right|by left]. unfold malloc_ok. cbn [db_malloc negb].
  set (d := malloc_next _). set (d0 := malloc_next (with_wal (Db 3 r 4 w 0 [] truncate junk) w _)).
  assert (d = with_malloc ms d0) as -> by done.
  change (wal_lines (with_malloc ms d0)) with (wal_lines d0). by rewrite recover_loop_malloc.
Qed.

(** Recovery of a log without unfinished transaction changes no record. *)
Lemma recover_finished recs txs w ms truncate junk :
  f_data w = lines_text (log_lines txs) → Forall tx_ok txs → (4 * length txs ≤ 512)%nat →
  Forall wf_room_record recs →
  db_rep (wal_recover (Db 3 (File (concat (encode_room <$> recs)) []) 4 w 0 ms truncate junk)) recs.
Proof.
  intros Hl Htxs Hlen Hwf. set (r := File _ []).
  set (d ms := Db 3 r 4 w 0 ms truncate junk).
  assert (∀ ms, db_rep (d ms) recs) as Hd by (by split).
  destruct (recover_malloc r w ms truncate junk) as [[E1 E2]|[E1 E2]];
    (eapply db_rep_ext; [exact E1|exact E2|]); [apply Hd|].
  assert (wal_text (d []) (log_lines txs ++ []) []) as Hw.
  { split; [done| |done]. unfold d. cbn. by rewrite !app_nil_r. }
  destruct (recover_rep (d []) txs [] [] Hw Htxs) as (d0&E3&E4&Hend);
    [constructor|done|cbn; lia|].
  change (wal_recover (d [])) with (wal_recover (restart (d []))).
  apply Hend. cbn [app last_line recover_loop]. by eapply db_rep_ext.
Qed.

(** A start with files to open reads the records and the accounts on the disk. *)
Lemma boot_finished k c recs txs ms truncate junk r w u :
  opened_files k c = Some (r, w, u) → r = File (concat (encode_room <$> recs)) [] →
  f_data w = lines_text (log_lines txs) →
  Forall tx_ok txs → (4 * length txs ≤ 512)%nat → Forall wf_room_record recs →
  ∃ d, boot k c ms truncate junk = Some (d, users_of k u) ∧ db_rep d recs.
Proof.
  intros Ho -> Hl Htxs Hlen Hwf. rewrite boot_run, Ho. eexists. split; [done|].
  by eapply recover_finished.
Qed.

(** ** [main] *)

(** The run of a process: it exits with 1 during the start-up, or ends with 0,
    leaving this state of the server; and the descriptors it has then. *)
Definition outcome : Type := option (server db) * process.

(** [main]: the files, the sockets, the shared memory, the event loop with what
    its iterations find, and the shutdown.  The port of the command line only
    decides whether [bind] succeeds, which [e] says; the signal handler clears
    [server_on], which [ws] says.  [None] is undefined behaviour. *)
Definition main (k c : disk) (rec_mallocs : list bool) (truncate : bool) (rec_junk : Z)
    (mallocs : list (option loc))
    (junk : room_record) (now : Z) (e : net_env) (ie : ipc_env) (p : process)
    (ws : list (bool * wait)) : option outcome :=
  match boot k c rec_mallocs truncate rec_junk with
  | None => Some (None, p)
  | Some (d, users) =>
    match (_ ← open_sockets e; map_ring ie) p with
    | (None, p') => Some (None, p')
    | (Some _, p') =>
      let run := _ ← server_init;
                 _ ← network_event_loop (p_tcp_listen_fd p') (p_udp_fd p') ws;
                 shutdown_server (server_fds 5 3 4 p') in
      '(_, s) ← run (server_globals d users mallocs junk now);
      Some (Some s, (give_back 5 3 4 p').2)
    end
  end.

(** The process when [main] has opened the files. *)
Definition files_open (p : process) : Prop := p_open p = [3; 4; 5] ∧ p_fifo_fd p = -1.

Definition started (e : net_env) (ie : ipc_env) : bool := sockets_ok e && ipc_ok ie.

(** The resources part: exit with 1, or the two steps done. *)
Lemma resources_run e ie p : files_open p →
  NoDup (p_open p ++ [ne_tcp e; ne_udp e; ne_epoll e; ie_shm ie] ++ fifo_of ie) →
  if started e ie
  then ∃ p2, (_ ← open_sockets e; map_ring ie) p = (Some tt, p2) ∧
    p2 = sharing ie (listening e p) ∧ ∀ fd, fd ∈ p_open (give_back 5 3 4 p2).2 ↔ fd = ie_shm ie
  else ∃ p2, (_ ← open_sockets e; map_ring ie) p = (None, p2).
Proof.
  intros [Ho Hfifo] Hnd. unfold started.
  destruct (startup_fresh e ie p Hnd) as [Hf Hs].
  pose proof (open_sockets_correct_run e p Hf) as H1. unfold mbind, X_bind.
  destruct (open_sockets e p) as [r1 p1] eqn:E1.
  destruct (sockets_ok e) eqn:Ee; cbn [andb]; destruct H1 as [-> H1]; [|by exists p1].
  subst p1. pose proof (map_ring_correct ie _ Hs) as H2.
  destruct (map_ring ie (listening e p)) as [r2 p2] eqn:E2.
  destruct (ipc_ok ie) eqn:Ei; destruct H2 as [-> H2]; [|by exists p2].
  subst p2. eexists. split; [done|]. split; [done|].
  apply (release_startup e ie 5 3 4 p Ho Hfifo Ee Ei); [|done].
  rewrite Ho. by_decision.
Qed.

(** C16. From the disk to the exit of [main].  The data files exist or are created;
    those there are to open are a room file with whole records, none of them
    active, whose writes succeed, a log of at most 128 finished transactions as
    the server writes them (no newline in a name or password), and any users
    file.  Then [main] is defined whatever its loop meets and whatever the
    [malloc] calls of the recovery give, provided no datagram claims more than
    2048 bytes.  It ends with 1 exactly when a missing file could not be
    created, or the sockets or the shared memory could not be set up; otherwise
    it shuts down with no client left in a slot and, of the descriptors of the
    start-up, only that of the shared memory still open.  What the run starts
    from is the disk: its records, and its accounts (the default
    administrator's in a users file that was created and could be written). *)
Theorem main_correct k c recs txs rec_mallocs truncate rec_junk mallocs junk now e ie p ws :
  (∀ f, open_or_create (dk_rooms k) (dk_rooms c) = Some f → f = File (concat (encode_room <$> recs)) []) →
  (∀ f, open_or_create (dk_wal k) (dk_wal c) = Some f → f_data f = lines_text (log_lines txs)) →
  Forall tx_ok txs → (length txs ≤ 128)%nat → Forall wf_room_record recs →
  Forall (λ r, rr_is_active r = 0) recs → wf_room_record junk →
  files_open p →
  NoDup (p_open p ++ [ne_tcp e; ne_udp e; ne_epoll e; ie_shm ie] ++ fifo_of ie) →
  Forall admissible (loop_events (ne_tcp e) (ne_udp e) ws) →
  ∃ o p', main k c rec_mallocs truncate rec_junk mallocs junk now e ie p ws = Some (o, p') ∧
    match o with
    | None => opened_files k c = None ∨ started e ie = false
    | Some s => is_Some (opened_files k c) ∧ started e ie = true ∧
        sv_clients s = replicate 50 None ∧ ∀ fd, fd ∈ p_open p' ↔ fd = ie_shm ie
    end ∧
    (is_Some (opened_files k c) →
     ∃ d users, boot k c rec_mallocs truncate rec_junk = Some (d, users) ∧
      room_records (f_data (db_rooms d)) = recs ∧
      (dk_users k = Some users ∨
       dk_users k = None ∧
       (dk_users c = Some (File [] []) →
        auth_authenticate users (str "admin") (str "admin123") = Some ROLE_ADMIN))).
Proof.
  intros Hr Hl Htxs Hlen Hwf Hact Hj Hp Hnd He.
  destruct (opened_files k c) as [[[r w] u]|] eqn:Ho.
  2: { exists None, p. unfold main. rewrite boot_run, Ho. split_and!; [done|by left|].
       by intros [? [=]]. }
  assert (open_or_create (dk_rooms k) (dk_rooms c) = Some r ∧ open_or_create (dk_wal k) (dk_wal c) = Some w ∧
    open_or_create (dk_users k) (dk_users c) = Some u) as (Eor&Eow&Eou).
  { unfold opened_files in Ho. destruct (open_or_create _ (dk_rooms c)); [|done].
    destruct (open_or_create _ (dk_wal c)); [|done]. destruct (open_or_create _ (dk_users c)); [|done].
    by injection Ho as -> -> ->. }
  destruct (boot_finished k c recs txs rec_mallocs truncate rec_junk r w u Ho (Hr _ Eor)
    (Hl _ Eow) Htxs ltac:(lia) Hwf) as (d&Hb&Hrep).
  set (users := users_of k u) in *. assert (store_rep d recs) as Hstore by exact Hrep.
  assert (dk_users k = Some users ∨ dk_users k = None ∧ (dk_users c = Some (File [] []) →
    auth_authenticate users (str "admin") (str "admin123") = Some ROLE_ADMIN)) as Hu.
  { unfold users, users_of. destruct (dk_users k) as [f|]; [left; by injection Eou as ->|right].
    split; [done|]. intros E. cbn in Eou. rewrite E in Eou. injection Eou as <-. vm_done. }
  pose proof (db_rep_records _ _ Hrep) as Hrecs.
  assert (is_Some (Some (r, w, u))) as Hsome by done.
  unfold main. rewrite Hb. pose proof (resources_run e ie p Hp Hnd) as Hres.
  destruct (started e ie); [destruct Hres as (p2&->&->&Hopen)|destruct Hres as [p2 ->]; by eauto 12].
  destruct (server_run_ok d recs users mallocs junk now _ Hstore Hwf Hact Hj He)
    as ([]&s&Hrun&Hs).
  destruct (shutdown_run s (server_fds 5 3 4 (sharing ie (listening e p))) Hs)
    as (s'&Hs'&Hcl&_).
  assert (sv_clients s' = replicate 50 None) as Hcl'.
  { destruct Hs as (rs&q&ts&Hs). by rewrite Hcl, (so_length _ _ _ _ Hs). }
  unfold server_run in Hrun. rewrite (C_bind_run _ _ _ _ _ (server_init_run _ _ _ _ _)) in Hrun.
  rewrite <-event_loop_events in Hrun.
  rewrite (C_bind_run _ _ _ _ _ (server_init_run _ _ _ _ _)).
  cbn [p_tcp_listen_fd p_udp_fd sharing listening].
  rewrite (C_bind_run _ _ _ _ _ Hrun), Hs'. cbn. eauto 14.
Qed.

(** Missing files can be created. *)
Definition new_files : disk := Disk (Some (File [] [])) (Some (File [] [])) (Some (File [] [])).

(** Two runs on one disk: the account registered in the first run logs in
    after the restart. *)
Definition second_run (first second : list event) : option (list (Z * Z * bytes)) :=
  '(d, users) ← boot (Disk None None None) new_files [] true 0;
  '(_, s) ← server_main first [3; 4; 5; 6] (server_globals d users [] Rooms.demo_junk 1000);
  '(d', users') ← boot (disk_of s) new_files [] true 0;
  '(_, s') ← server_run second (server_globals d' users' [] Rooms.demo_junk 2000);
  Some ((λ p, (p.1, rp_status p.2, rp_message p.2)) <$> sv_sent s').

Theorem account_survives_restart :
  second_run [Accept 7; Tcp 7 (line "REGISTER ann pw"); Work; Tcp 7 RecvClosed]
             [Accept 9; Tcp 9 (line "LOGIN ann wrong"); Work; Tcp 9 (line "LOGIN ann pw"); Work] =
  Some [(9, 401, str "Invalid username or password"); (9, 200, str "Login successful")].
Proof. vm_done. Qed.

(** ** Witness: a disk with a deleted room and the log of its life *)
Definition old_room (a : Z) : room_record := mk_room (str "room") (str "pass") a 0.
Definition old_disk : disk :=
  Disk (Some (File (concat (encode_room <$> [old_room 0])) []))
    (Some (File (lines_text (log_lines
       [Tx 0 None (old_room 1) true; Tx 0 (Some (old_room 1)) (old_room 0) true])) []))
    None.

Lemma old_room_ok a : is_i32 a → wf_room_record (old_room a) ∧ clean_record (old_room a).
Proof.
  intros Ha. by destruct (demo_wf (str "room") (str "pass") a 0 eq_refl Ha) as (?&?&_);
    [by int_lia|].
Qed.

(** Epoll reports a connection, then two lines; the emergency command arrives. *)
Definition demo_ready (fd accepted : Z) (r : recv_result) (before : list event) : ready :=
  Ready fd EPOLLIN accepted r [] [] [] 0 before.
Definition demo_waits : list (bool * wait) :=
  [(true, WaitReady [demo_ready 6 11 RecvClosed [Tick]]); (true, WaitInterrupted);
   (true, WaitReady [demo_ready 11 0 (line "LOGIN admin admin123") [];
                     demo_ready 11 0 (line "CREATE hall") [Work]]);
   (false, WaitFailed)].

Lemma main_correct_witness : ∃ s p',
  main old_disk new_files [false] true 7 [] Rooms.demo_junk 1000 net_success ipc_success new_descriptors demo_waits =
    Some (Some s, p') ∧
  sv_clients s = replicate 50 None ∧ ∀ fd, fd ∈ p_open p' ↔ fd = 9.
Proof.
  destruct (old_room_ok 0) as [Hw0 Hc0]; [by int_lia|].
  destruct (old_room_ok 1) as [Hw1 Hc1]; [by int_lia|].
  destruct (main_correct old_disk new_files [old_room 0]
    [Tx 0 None (old_room 1) true; Tx 0 (Some (old_room 1)) (old_room 0) true]
    [false] true 7 [] Rooms.demo_junk 1000 net_success ipc_success new_descriptors demo_waits)
    as (o&p'&Hm&Ho&_); [by intros f [= <-]|by intros f [= <-]| |cbn; lia| | | |done|by_decision| |].
  - constructor; [|constructor; [|constructor]]; split;
      [by int_lia|by intros|done|by int_lia|by intros ? [= <-]|done].
  - by constructor.
  - by constructor.
  - apply demo_junk_wf.
  - repeat (constructor; [exact I|]). constructor.
  - destruct o as [s|]; [|by destruct Ho]. destruct Ho as (_&_&Hc&Hopen).
    exists s, p'. split; [exact Hm|]. split; [exact Hc|exact Hopen].
Defined.
