(* ===== verification/Display.v ===== *)
(** * [src/server/console_display.c]: the status screen

    What the display thread writes once a second: the counters, a line for
    every room, a line for every connected client.  It reads the shared state
    through the same pointers as the other threads, so being defined is a
    property of the invariant. *)
From S2P Require Import Prelude CInt CString Protocol Posix Auth RoomStore FileDb World RoomManager RoomInv RoomState Rooms Ring Jitter ServerState Mixer MixerSpec ClientHandler HandlerSpec Network System.
#[local] Open Scope Z_scope.

(** ** The lines *)
Definition ansi_clear : bytes := 27 :: str "[2J" ++ 27 :: str "[H".
Definition rule : bytes := str "----------------------------------" ++ [nl].
Definition opened (fd : Z) : bytes := str (if fd =? -1 then "closed" else "open").

(** ["  [%d] %s - %d users, %d speakers%s\n"]. *)
Definition room_status (x : room) : bytes :=
  str "  [" ++ print_int (r_room_id x) ++ str "] " ++ c_str (r_room_name x) ++ str " - " ++
  print_int (r_participant_count x) ++ str " users, " ++ print_int (r_active_speakers x) ++
  str " speakers" ++ (if (0 <? strlen (r_password x))%nat then str " (locked)" else []) ++ [nl].

(** ["  [%d] %s (role:%d) room:%s\n"]. *)
Definition client_status (i : Z) (y : client) (room_name : bytes) : bytes :=
  str "  [" ++ print_int i ++ str "] " ++
  (if c_user_id y =? -1 then str "(anon)" else c_str (c_username y)) ++ str " (role:" ++
  print_int (c_role y) ++ str ") room:" ++ room_name ++ [nl].

(** What stands above the rooms and below the clients. *)
Definition screen_top (now server_port client_count room_count : Z) : bytes :=
  ansi_clear ++ str "===== ECHOLINK SERVER STATUS =====" ++ [nl] ++
  str "Uptime: " ++ print_int now ++ str " ms | Port: " ++ print_int server_port ++
  str " | Clients: " ++ print_int client_count ++ str "/" ++ print_int MAX_CLIENTS ++ [nl] ++
  rule ++ str "Rooms (" ++ print_int room_count ++ str " active):" ++ [nl].
Definition screen_bottom (rooms_fd wal_fd users_fd : Z) : bytes :=
  rule ++ str "Database: " ++ opened rooms_fd ++ str " | WAL: " ++ opened wal_fd ++
  str " | users: " ++ opened users_fd ++ [nl] ++
  str "Emergency FIFO: /tmp/echolink_emergency" ++ [nl] ++
  str "Press Ctrl+C to stop the server" ++ [nl].

#[local] Arguments room_status : simpl never.
#[local] Arguments client_status : simpl never.

Section display.
Context {D : Type} `{RoomStore D}.
Implicit Types s : server D.

(** ** The loops *)
Fixpoint show_rooms (fuel : nat) (r : option loc) : C (server D) bytes :=
  match r with
  | None => mret []
  | Some l =>
    match fuel with
    | O => λ _, None
    | S fuel' =>
      x ← on_world (read_room l);
      text ← show_rooms fuel' (r_next x);
      mret (room_status x ++ text)
    end
  end.

Fixpoint show_clients (i : Z) (cs : list (option loc)) : C (server D) bytes :=
  match cs with
  | [] => mret []
  | None :: cs' => show_clients (i + 1) cs'
  | Some c :: cs' =>
    y ← on_world (read_client c);
    line ← (if c_is_active y =? 0 then mret []
            else
              name ← match c_current_room y with
                     | Some l => x ← on_world (read_room l); mret (c_str (r_room_name x))
                     | None => mret (str "none")
                     end;
              mret (client_status i y name));
    text ← show_clients (i + 1) cs';
    mret (line ++ text)
  end.

(** One iteration of [display_thread_main]. *)
Definition display_screen (server_port rooms_fd wal_fd users_fd : Z) : C (server D) bytes :=
  now ← gets sv_now;
  count ← gets sv_client_count;
  room_count ← gets (λ s, w_room_count (sv_world s));
  n ← gets (λ s, size (w_rooms (sv_world s)));
  head ← gets (λ s, w_room_head (sv_world s));
  rooms ← show_rooms (S n) head;
  cs ← gets sv_clients;
  clients ← show_clients 0 cs;
  mret (screen_top now server_port count room_count ++ rooms ++
    match head with None => str "  (no active rooms)" ++ [nl] | Some _ => [] end ++
    rule ++ str "Connected clients:" ++ [nl] ++ clients ++
    screen_bottom rooms_fd wal_fd users_fd).

(** ** What they show *)

(** The line of an abstract room with this number of speakers. *)
Definition room_shown (a : aroom) (speakers : Z) : bytes :=
  str "  [" ++ print_int (ar_id a) ++ str "] " ++ ar_name a ++ str " - " ++
  print_int (Z.of_nat (length (ar_members a))) ++ str " users, " ++ print_int speakers ++
  str " speakers" ++ (if bool_decide (ar_password a = []) then [] else str " (locked)") ++ [nl].

Lemma room_status_is x a : room_is x a → room_status x = room_shown a (r_active_speakers x).
Proof.
  intros []. unfold room_status, room_shown, strlen.
  rewrite ri_id, ri_name, ri_password, ri_count. do 9 f_equal.
  by destruct (ar_password a).
Qed.

(** The speaker counter of a room. *)
Definition speakers_of s (l : loc) : Z :=
  match w_rooms (sv_world s) !! l with Some x => r_active_speakers x | None => 0 end.

Lemma show_rooms_run s rs : mem_ok (sv_world s) rs → ∀ n i, (length rs ≤ i + n)%nat →
  show_rooms (S n) (fst <$> rs !! i) s =
  Some (concat ((λ la, room_shown la.2 (speakers_of s la.1)) <$> drop i rs), s).
Proof.
  intros Hm. induction n as [|n IH]; intros i Hi; cbn [show_rooms].
  { by rewrite lookup_ge_None_2, drop_ge by lia. }
  destruct (rs !! i) as [[l a]|] eqn:E; cbn [fmap option_fmap option_map fst].
  - destruct (mem_ok_room _ _ _ _ _ Hm E) as (x&Hx&Hxa&_&Hn).
    rewrite (C_bind_run _ _ _ _ _ (sv_read_room _ _ _ Hx)), Hn.
    rewrite (C_bind_run _ _ _ _ _ (IH (S i) ltac:(lia))), (drop_S _ _ _ E).
    cbv beta. rewrite (room_status_is _ _ Hxa). cbn [fmap list_fmap concat fst snd].
    unfold speakers_of at 2. by rewrite Hx.
  - by rewrite drop_ge by (by apply lookup_ge_None_1).
Qed.

(** The line of the client in slot [i]: its name once it has logged in, its
    role, the name of its room. *)
Definition client_shown s (rs : arooms) (i : nat) (o : option loc) : bytes :=
  match c ← o; w_clients (sv_world s) !! c with
  | Some y =>
    concat [str "  ["; print_int (Z.of_nat i); str "] ";
      if bool_decide (c_user_id y = -1) then str "(anon)" else c_str (c_username y);
      str " (role:"; print_int (c_role y); str ") room:";
      match l ← c_current_room y; List.find (λ la, bool_decide (la.1 = l)) rs with
      | Some la => ar_name la.2
      | None => str "none"
      end; [nl]]
  | None => []
  end.
Lemma client_status_is i y name : client_status i y name =
  concat [str "  ["; print_int i; str "] ";
    if bool_decide (c_user_id y = -1) then str "(anon)" else c_str (c_username y);
    str " (role:"; print_int (c_role y); str ") room:"; name; [nl]].
Proof.
  unfold client_status. cbn [concat]. rewrite app_nil_r. do 3 f_equal.
  destruct (Z.eqb_spec (c_user_id y) (-1)); [by rewrite bool_decide_eq_true_2|].
  by rewrite bool_decide_eq_false_2.
Qed.

(** The lines of the slots from [i] on. *)
Fixpoint clients_shown s (rs : arooms) (i : nat) (cs : list (option loc)) : bytes :=
  match cs with
  | [] => []
  | o :: cs' => client_shown s rs i o ++ clients_shown s rs (S i) cs'
  end.

Lemma find_key (rs : arooms) l a : NoDup rs.*1 → (l, a) ∈ rs →
  List.find (λ la, bool_decide (la.1 = l)) rs = Some (l, a).
Proof.
  induction rs as [|[k b] rs IH]; intros Hn Hin; [by apply elem_of_nil in Hin|].
  cbn in *. apply NoDup_cons in Hn as [Hk Hn]. apply elem_of_cons in Hin as [[= -> ->]|Hin].
  - by rewrite bool_decide_eq_true_2.
  - rewrite bool_decide_eq_false_2; [by apply IH|]. intros ->. apply Hk.
    apply list_elem_of_fmap. by exists (l, a).
Qed.

Lemma show_clients_run {L : RoomStoreLaws D} s rs q ts cs : sys_ok s rs q ts → ∀ i,
  cs = drop i (sv_clients s) →
  show_clients (Z.of_nat i) cs s = Some (clients_shown s rs i cs, s).
Proof.
  intros Hs. pose proof (so_rooms _ _ _ _ Hs) as [[Hm _] Hme].
  induction cs as [|[c|] cs IH]; intros i Hcs; cbn [show_clients]; [done| |].
  - assert (sv_clients s !! i = Some (Some c)) as Hi.
    { rewrite <-(Nat.add_0_r i), <-lookup_drop, <-Hcs. done. }
    assert (cs = drop (S i) (sv_clients s)) as Hcs'.
    { apply (f_equal (drop 1)) in Hcs. by rewrite drop_drop, Nat.add_1_r in Hcs. }
    destruct (so_slot _ _ _ _ Hs i c Hi) as (y&Hy&Ha&_).
    rewrite (C_bind_run _ _ _ _ _ (sv_read_client _ _ _ Hy)), (proj2 (Z.eqb_neq _ _) Ha).
    replace (Z.of_nat i + 1) with (Z.of_nat (S i)) by lia.
    rewrite C_bind_assoc. cbn [clients_shown].
    assert (∃ name, (match c_current_room y with
        | Some l => x ← on_world (read_room l); mret (c_str (r_room_name x))
        | None => mret (str "none") end) s = Some (name, s) ∧
      client_shown s rs i (Some c) = client_status (Z.of_nat i) y name)
      as (name&Hname&Hshown).
    { unfold client_shown. cbn [mbind option_bind]. rewrite Hy. setoid_rewrite client_status_is.
      destruct (c_current_room y) as [l|] eqn:El; [|by exists (str "none")]. cbn.
      destruct (me_room _ _ Hme c y l Hy Ha El) as (a&Hin&_).
      rewrite (find_key rs l a) by (apply Hm || done). cbn.
      pose proof Hin as [k Hk]%list_elem_of_lookup.
      destruct (mem_ok_room _ _ _ _ _ Hm Hk) as (x&Hx&Hxa&_).
      exists (ar_name a). split; [|done].
      rewrite (C_bind_run _ _ _ _ _ (sv_read_room _ _ _ Hx)). by rewrite (ri_name _ _ Hxa). }
    rewrite (C_bind_run _ _ _ _ _ Hname), C_bind_ret.
    by rewrite (C_bind_run _ _ _ _ _ (IH (S i) Hcs')), Hshown.
  - replace (Z.of_nat i + 1) with (Z.of_nat (S i)) by lia. apply (IH (S i)).
    apply (f_equal (drop 1)) in Hcs. by rewrite drop_drop, Nat.add_1_r in Hcs.
Qed.

(** The whole screen: the escape sequences that clear it, then lines. *)
Definition screen_shown s (rs : arooms) (port rooms_fd wal_fd users_fd : Z) : bytes :=
  let lines ls := concat ((λ l, l ++ [nl]) <$> ls) in
  let file fd := if bool_decide (fd = -1) then str "closed" else str "open" in
  let line34 := replicate 34 45 in
  [27; 91; 50; 74; 27; 91; 72] ++
  lines [str "===== ECHOLINK SERVER STATUS =====";
    concat [str "Uptime: "; print_int (sv_now s); str " ms | Port: "; print_int port;
      str " | Clients: "; print_int (sv_client_count s); str "/50"];
    line34;
    concat [str "Rooms ("; print_int (Z.of_nat (length rs)); str " active):"]] ++
  concat ((λ la, room_shown la.2 (speakers_of s la.1)) <$> rs) ++
  (if bool_decide (rs = []) then lines [str "  (no active rooms)"] else []) ++
  lines [line34; str "Connected clients:"] ++ clients_shown s rs 0 (sv_clients s) ++
  lines [line34;
    concat [str "Database: "; file rooms_fd; str " | WAL: "; file wal_fd;
      str " | users: "; file users_fd];
    str "Emergency FIFO: /tmp/echolink_emergency"; str "Press Ctrl+C to stop the server"].

Lemma opened_is fd : opened fd = if bool_decide (fd = -1) then str "closed" else str "open".
Proof.
  unfold opened. destruct (Z.eqb_spec fd (-1)); [by rewrite bool_decide_eq_true_2|].
  by rewrite bool_decide_eq_false_2.
Qed.

Lemma screen_is s rs port rooms_fd wal_fd users_fd :
  screen_top (sv_now s) port (sv_client_count s) (Z.of_nat (length rs)) ++
  concat ((λ la, room_shown la.2 (speakers_of s la.1)) <$> rs) ++
  match fst <$> rs !! 0%nat with None => str "  (no active rooms)" ++ [nl] | Some _ => [] end ++
  rule ++ str "Connected clients:" ++ [nl] ++ clients_shown s rs 0 (sv_clients s) ++
  screen_bottom rooms_fd wal_fd users_fd = screen_shown s rs port rooms_fd wal_fd users_fd.
Proof.
  unfold screen_shown. cbv zeta. rewrite <-!opened_is.
  unfold screen_top, screen_bottom, rule, ansi_clear.
  change (replicate 34 45) with (str "----------------------------------").
  change (print_int MAX_CLIENTS) with (str "50").
  change [27; 91; 50; 74; 27; 91; 72] with (27 :: str "[2J" ++ 27 :: str "[H").
  change (str "/50") with (str "/" ++ str "50"). cbn [concat fmap list_fmap app].
  rewrite !app_nil_r, <-!app_assoc. cbn [app]. repeat (rewrite <-!app_assoc; cbn [app]).
  do 20 f_equal. by destruct rs as [|[l a] rs].
Qed.

(** C39. The status screen, in any state of the invariant: it is defined (no freed
    client or room is read, the loop over the rooms ends), changes nothing,
    and is this text: the time, the port and the number of clients, the number
    of rooms, every room in order of creation with its id, name, members and
    speakers, every connected client with its slot, name, role and room, and
    which files are open. *)
Theorem status_screen_correct {L : RoomStoreLaws D} s port rooms_fd wal_fd users_fd :
  sys_inv s → ∃ rs, room_state (sv_world s) rs ∧
  display_screen port rooms_fd wal_fd users_fd s =
    Some (screen_shown s rs port rooms_fd wal_fd users_fd, s).
Proof.
  intros (rs&q&ts&Hs). exists rs. split; [apply Hs|].
  pose proof (so_rooms _ _ _ _ Hs) as [[Hm _] _].
  pose proof (dll_size _ _ _ (mo_dll _ _ Hm)) as Hsize.
  pose proof (dll_head _ _ _ (mo_dll _ _ Hm)) as Hhead.
  pose proof (show_rooms_run s rs Hm (size (w_rooms (sv_world s))) 0 ltac:(lia)) as Hrooms.
  rewrite drop_0, <-Hhead in Hrooms.
  pose proof (show_clients_run s rs q ts (sv_clients s) Hs 0 eq_refl) as Hclients.
  unfold display_screen. rewrite !C_bind_gets, (C_bind_run _ _ _ _ _ Hrooms), C_bind_gets.
  rewrite (C_bind_run _ _ _ _ _ Hclients), (mo_count _ _ Hm), Hhead.
  by rewrite <-screen_is.
Qed.
End display.

Lemma status_screen_correct_witness : ∃ s rs,
  server_run [Accept 7; Accept 8] new_process = Some (tt, s) ∧ room_state (sv_world s) rs ∧
  ∃ text, display_screen 8080 3 4 5 s = Some (text, s).
Proof.
  destruct fresh_facts as (H1&H2&H3&H4).
  destruct (server_run_ok demo_db [] (write_default_admin (File [] [])) [] demo_junk 1000
    [Accept 7; Accept 8] H1 H2 H3 H4) as ([]&s&Hrun&Hs); [repeat constructor|].
  destruct (status_screen_correct s 8080 3 4 5 Hs) as (rs&Hrs&Htext).
  exists s, rs. split; [exact Hrun|]. split; [exact Hrs|]. eexists. exact Htext.
Defined.
