(* ===== verification/ServerLocks.v ===== *)
(** * The threads of the server with their mutexes

    The handlers, the connections, the mixer, the display, the emergency FIFO
    and the shutdown as programs: each takes and gives back mutexes and accesses
    the shared state where the code does.  A log line that depends on [errno] is
    always written, and one access to the users file is one step; the room
    database is any [StoreCalls].  Without other threads the programs are the
    operations of [ClientHandler], [Network], [Mixer], [Display] and [System]
    ([ServerRuns]).  They take mutexes in the order clients, rooms, room, log,
    so that however the threads are interleaved the server does not deadlock. *)
From stdpp Require Import relations.
From S2P Require Import Prelude CInt CString Protocol Posix Auth RoomStore FileDb World RoomManager Control Ring Jitter ServerState Mixer ClientHandler Network System Display Interleave Locks RoomLocks.
#[local] Open Scope Z_scope.

Section programs.
Context {D : Type} {SC : StoreCalls D}.
Implicit Types s : server D.
Abbreviation code := (prog mutex (server D)).

(** A program of the room manager. *)
Definition rooms {A} (p : prog mutex (world D) A) : code A := lifted (λ B, on_world) p.

(** ** Handlers *)
Definition client_prog (c : loc) : code client := act (on_world (read_client c)).
Definition error_prog (c : loc) (status : Z) (msg : string) : code unit :=
  _ ← act (send_error c status msg); log_message.
Definition ok_prog (c : loc) (msg : bytes) (data : option bytes) : code unit :=
  _ ← act (send_ok c msg data); log_message.
(** A log line that names the client. *)
Definition log_client (c : loc) : code unit := _ ← client_prog c; log_message.

Definition login_prog (c : loc) (args : option bytes) : code unit :=
  y ← client_prog c;
  if negb (c_user_id y =? -1) then error_prog c STATUS_ERR_CONFLICT "Already logged in"
  else
    let '(username, password) := scan_two 31 63 args in
    if (strlen username =? 0)%nat || (strlen password =? 0)%nat
    then error_prog c STATUS_ERR_AUTH "Username and password required"
    else
      r ← act (users ← gets sv_users; mret (auth_authenticate users username password));
      match r with
      | Some role =>
        _ ← act (update_client c (λ y, c_with_login y 0
              (<[31%nat := 0]> (strncpy (c_username y) username 31)) role));
        _ ← ok_prog c (str "Login successful") (Some (print_int (c_slot y)));
        log_client c
      | None => error_prog c STATUS_ERR_AUTH "Invalid username or password"
      end.

(** [auth_add_user] and [auth_promote_user]: the result, and whether a line is
    logged. *)
Definition add_user (username password : bytes) : C (server D) (bool * bool) :=
  users ← gets sv_users;
  let '(ok, users') := auth_add_user users username password (str "USER") in
  _ ← puts (with_users users');
  mret (ok, if count_users (user_records (f_data users)) username 0 is Some _ then true else false).
Definition promote_user (username role : bytes) : C (server D) (bool * bool) :=
  users ← gets sv_users;
  let '(ok, users') := auth_promote_user users username role in
  _ ← puts (with_users users');
  mret (ok, if find_user (user_records (f_data users)) username 0 is Some _ then true else false).
Definition log_if (b : bool) : code unit := if b then log_message else mret tt.

Definition register_prog (c : loc) (args : option bytes) : code unit :=
  y ← client_prog c;
  if negb (c_user_id y =? -1) then error_prog c STATUS_ERR_CONFLICT "Already logged in"
  else
    let '(username, password) := scan_two 31 63 args in
    if (strlen username =? 0)%nat || (strlen password =? 0)%nat
    then error_prog c STATUS_ERR_AUTH "Username and password required"
    else
      r ← act (add_user username password);
      _ ← log_if r.2;
      if r.1 : bool then ok_prog c (str "Registration successful") None
      else error_prog c STATUS_ERR_CONFLICT "Username already exists".

Definition logout_prog (c : loc) : code unit :=
  y ← client_prog c;
  if c_user_id y =? -1 then error_prog c STATUS_ERR_AUTH "Not logged in"
  else
    _ ← match c_current_room y with
        | Some _ => _ ← rooms (leave_prog (Some c)); mret tt
        | None => mret tt
        end;
    _ ← act (update_client c (λ y, c_with_login y (-1) (<[0%nat := 0]> (c_username y)) ROLE_GUEST));
    _ ← ok_prog c (str "Logout successful") None;
    log_client c.

Definition create_room_prog (c : loc) (args : option bytes) : code unit :=
  y ← client_prog c;
  if c_user_id y =? -1 then error_prog c STATUS_ERR_AUTH "Login required"
  else if negb (auth_check_permission (c_role y) CMD_CREATE)
  then error_prog c STATUS_ERR_FORBIDDEN "Insufficient permissions to create room"
  else
    let '(room_name, password) := scan_two 31 63 args in
    if (strlen room_name =? 0)%nat then error_prog c STATUS_ERR_NOT_FOUND "Room name required"
    else
      result ← rooms (create_prog room_name password c);
      if result =? -1
      then error_prog c STATUS_ERR_CONFLICT "Room with this name already exists"
      else if result =? -2 then error_prog c STATUS_ERR_FULL "Maximum room limit reached"
      else if result =? -3
      then error_prog c STATUS_ERR_INTERNAL "Failed to create room due to server error"
      else if result =? -4
      then error_prog c STATUS_ERR_INTERNAL "Failed to write room to database"
      else ok_prog c (str "Room created successfully") None.

Definition join_room_prog (c : loc) (args : option bytes) : code unit :=
  y ← client_prog c;
  if c_user_id y =? -1 then error_prog c STATUS_ERR_AUTH "Login required"
  else
    let '(room_name, room_password) := scan_two 31 63 args in
    if (strlen room_name =? 0)%nat then error_prog c STATUS_ERR_NOT_FOUND "Room name required"
    else
      r ← rooms (find_by_name_prog room_name);
      match r with
      | None => error_prog c STATUS_ERR_NOT_FOUND "Room not found"
      | Some l =>
        x ← act (on_world (read_room l));
        result ← rooms (join_prog (r_room_id x) room_password c);
        if result =? -1
        then error_prog c STATUS_ERR_INTERNAL "Failed to join room due to server error"
        else if result =? -2 then error_prog c STATUS_ERR_NOT_FOUND "Room not found"
        else if result =? -3 then error_prog c STATUS_ERR_FORBIDDEN "Incorrect password"
        else if result =? -4 then error_prog c STATUS_ERR_FULL "Room is full"
        else
          x' ← act (on_world (read_room l));
          ok_prog c (str "Joined room successfully") (Some (c_str (r_room_name x')))
      end.

Definition leave_room_prog (c : loc) : code unit :=
  y ← client_prog c;
  if c_user_id y =? -1 then error_prog c STATUS_ERR_AUTH "Login required"
  else
    match c_current_room y with
    | None => error_prog c STATUS_ERR_NOT_FOUND "Not currently in a room"
    | Some _ =>
      _ ← rooms (leave_prog (Some c));
      ok_prog c (str "Left room successfully") None
    end.

Definition list_rooms_prog (c : loc) : code unit :=
  y ← client_prog c;
  if c_user_id y =? -1 then error_prog c STATUS_ERR_AUTH "Login required"
  else
    buffer ← rooms (list_prog MAX_PACKET_SIZE);
    ok_prog c (str "Active rooms:") (Some buffer).

(** [c->current_room], which the next access dereferences. *)
Definition current_room_of (c : loc) : C (server D) loc :=
  y ← on_world (read_client c); lift (c_current_room y).

(** The search for the target, in [c->current_room] at that time. *)
Definition search_target (c : loc) (name : bytes) : C (server D) (option loc) :=
  l ← current_room_of c;
  x ← on_world (read_room l);
  find_target (r_participants x) (Z.to_nat (r_participant_count x)) name.

(** The names for the log line of KICK. *)
Definition kick_names (c t : loc) : C (server D) unit :=
  y ← on_world (read_client c);
  _ ← match c_current_room y with
      | Some l => _ ← on_world (read_room l); mret tt
      | None => mret tt
      end;
  _ ← on_world (read_client t); mret tt.

Definition kick_prog (c : loc) (args : option bytes) : code unit :=
  y ← client_prog c;
  if c_user_id y =? -1 then error_prog c STATUS_ERR_AUTH "Login required"
  else if negb (auth_check_permission (c_role y) CMD_KICK)
  then error_prog c STATUS_ERR_FORBIDDEN "Permission denied"
  else
    match c_current_room y with
    | None => error_prog c STATUS_ERR_NOT_FOUND "Not currently in a room"
    | Some _ =>
      let target_name := scan_one 31 args in
      if (strlen target_name =? 0)%nat
      then error_prog c STATUS_ERR_NOT_FOUND "Target username required"
      else
        l ← act (current_room_of c);
        _ ← lock (RoomLock l);
        target ← act (search_target c target_name);
        l' ← act (current_room_of c);
        _ ← unlock (RoomLock l');
        match target with
        | None => error_prog c STATUS_ERR_NOT_FOUND "Target user not found in the room"
        | Some t =>
          _ ← act (kick_names c t);
          _ ← rooms (leave_prog (Some t));
          _ ← log_client c;
          ok_prog c (str "User kicked successfully") None
        end
    end.

(** [target->is_mute=!target->is_mute;] and the counter of the room: whether
    the target is muted now. *)
Definition toggle_mute (c t : loc) : C (server D) bool :=
  z ← on_world (read_client t);
  let is_mute := if c_is_mute z =? 0 then 1 else 0 in
  _ ← on_world (write_client t (c_with_mute z is_mute));
  l ← current_room_of c;
  x ← on_world (read_room l);
  _ ← on_world (write_room l (r_with_speakers x
        (if is_mute =? 0 then r_active_speakers x + 1 else r_active_speakers x - 1)));
  mret (negb (is_mute =? 0)).

Definition mute_prog (c : loc) (args : option bytes) : code unit :=
  y ← client_prog c;
  if c_user_id y =? -1 then error_prog c STATUS_ERR_AUTH "Login required"
  else if negb (auth_check_permission (c_role y) CMD_MUTE)
  then error_prog c STATUS_ERR_FORBIDDEN "Permission denied"
  else
    match c_current_room y with
    | None => error_prog c STATUS_ERR_NOT_FOUND "Not currently in a room"
    | Some _ =>
      let target_name := scan_one 31 args in
      if (strlen target_name =? 0)%nat
      then error_prog c STATUS_ERR_NOT_FOUND "Target username required"
      else
        l ← act (current_room_of c);
        _ ← lock (RoomLock l);
        target ← act (search_target c target_name);
        match target with
        | None =>
          l' ← act (current_room_of c);
          _ ← unlock (RoomLock l');
          error_prog c STATUS_ERR_NOT_FOUND "Target user not found in the room"
        | Some t =>
          muted ← act (toggle_mute c t);
          _ ← act (kick_names c t);
          _ ← log_message;
          _ ← ok_prog c (str (if muted : bool then "User muted successfully"
                              else "User unmuted successfully")) None;
          l' ← act (current_room_of c);
          unlock (RoomLock l')
        end
    end.

Definition status_prog (c : loc) : code unit :=
  y ← client_prog c;
  room_name ← act (match c_current_room y with
                   | Some l => x ← on_world (read_room l); mret (c_str (r_room_name x))
                   | None => mret (str "None")
                   end);
  ok_prog c (snprintf 256 (str "Username: " ++ c_str (c_username y) ++ str " | Role: " ++
    print_int (c_role y) ++ str " | Room: " ++ room_name ++ str " | Muted: " ++
    str (if c_is_mute y =? 0 then "No" else "Yes"))) None.

Definition promote_prog (c : loc) (args : option bytes) : code unit :=
  y ← client_prog c;
  if c_user_id y =? -1 then error_prog c STATUS_ERR_AUTH "Login required"
  else if negb (auth_check_permission (c_role y) CMD_PROMOTE)
  then error_prog c STATUS_ERR_FORBIDDEN "Permission denied. Only admins can promote."
  else
    let '(target_name, role_name) := scan_two 31 15 args in
    if (strlen target_name =? 0)%nat || (strlen role_name =? 0)%nat
    then error_prog c STATUS_ERR_NOT_FOUND "Target username and role required"
    else if negb (strcasecmp_eq role_name (str "MODERATOR")) &&
            negb (strcasecmp_eq role_name (str "USER")) &&
            negb (strcasecmp_eq role_name (str "ADMIN"))
    then error_prog c STATUS_ERR_CONFLICT "Invalid role (must be ADMIN, MODERATOR, or USER)"
    else
      let role_name := toupper <$> role_name in
      r ← act (promote_user target_name role_name);
      _ ← log_if r.2;
      if r.1 : bool then
        _ ← holding ClientsMutex
              (act (cs ← gets sv_clients; promote_loop cs target_name (role_code role_name)));
        ok_prog c (str "User promoted successfully") None
      else error_prog c STATUS_ERR_NOT_FOUND "Target user not found".

Definition dispatch_prog (c : loc) (cmd : bytes) (args : option bytes) : code unit :=
  if strcasecmp_eq cmd (str "LOGIN") then login_prog c args
  else if strcasecmp_eq cmd (str "REGISTER") then register_prog c args
  else if strcasecmp_eq cmd (str "LOGOUT") then logout_prog c
  else if strcasecmp_eq cmd (str "CREATE") then create_room_prog c args
  else if strcasecmp_eq cmd (str "JOIN") then join_room_prog c args
  else if strcasecmp_eq cmd (str "LEAVE") then leave_room_prog c
  else if strcasecmp_eq cmd (str "LIST") then list_rooms_prog c
  else if strcasecmp_eq cmd (str "KICK") then kick_prog c args
  else if strcasecmp_eq cmd (str "MUTE") then mute_prog c args
  else if strcasecmp_eq cmd (str "STATUS") then status_prog c
  else if strcasecmp_eq cmd (str "PROMOTE") then promote_prog c args
  else error_prog c STATUS_ERR_NOT_FOUND "Unknown command".

(** ** The queue and the workers *)
Definition release_prog (c : loc) : code unit := holding ClientsMutex (act (release c)).

Definition run_task_prog (task : worker_task) : code unit :=
  match wt_c task with
  | None => mret tt
  | Some c =>
    y ← client_prog c;
    if c_is_active y =? 0 then release_prog c
    else
      match split_command (wt_command task) with
      | None => mret tt
      | Some (cmd, args) => _ ← dispatch_prog c cmd args; release_prog c
      end
  end.

(** One iteration of [worker_thread_main]; when the queue is empty the thread
    waits on [task_cond], which gives [task_mutex] back; when the server is off
    it takes no task. *)
Definition worker_prog : code unit :=
  task ← holding TaskMutex (act (on ← gets sv_on; if on : bool then dequeue else mret None));
  match task with
  | None => mret tt
  | Some task => run_task_prog task
  end.

(** The part of [process_client_command] under [task_mutex]: false when the
    queue is full. *)
Definition enqueue (c : loc) (command : bytes) : C (server D) bool := λ s,
  let q := sv_queue s in
  if tq_count q =? 256 then Some (false, s)
  else if negb (strlen command <? MAX_PACKET_SIZE)%nat then None
  else
    match at_index (tq_tasks q) (tq_tail q) with
    | None => None
    | Some _ =>
      Some (true, with_queue (TaskQueue
        (<[Z.to_nat (tq_tail q) := WorkerTask (Some c) (c_str command)]> (tq_tasks q))
        (tq_count q + 1) (tq_head q) (Z.rem (tq_tail q + 1) 256)) s)
    end.

Definition process_prog (c : loc) (command : bytes) : code unit :=
  ok ← holding TaskMutex (act (enqueue c command));
  if ok : bool then mret tt
  else
    _ ← error_prog c STATUS_ERR_INTERNAL "Server is too busy. Try again later.";
    release_prog c.

(** ** Connections *)
Definition accept_prog (client_fd : Z) : code unit :=
  if client_fd =? -1 then log_message
  else
    ok ← holding ClientsMutex (
      count ← act (gets sv_client_count);
      if MAX_CLIENTS <=? count
      then _ ← log_message; _ ← act (close_fd client_fd); mret false
      else
        cs ← act (gets sv_clients);
        match find_free_slot cs 0 with
        | None => _ ← act (close_fd client_fd); mret false
        | Some slot =>
          new ← act (on_world (malloc_client (new_client client_fd slot)));
          match new with
          | None => _ ← log_message; _ ← act (close_fd client_fd); mret false
          | Some l =>
            _ ← act (puts (λ s, with_clients (<[Z.to_nat slot := Some l]> (sv_clients s))
                             (sv_client_count s + 1) s));
            _ ← act (set_fd_slot client_fd slot); mret true
          end
        end);
    if ok : bool then log_message else mret tt.

Definition disconnect_prog (client_fd : Z) : code unit :=
  holding ClientsMutex (
    found ← act (client_of_fd client_fd);
    match found with
    | None => mret tt
    | Some (slot, c) =>
      y ← client_prog c;
      if negb (c_fd y =? client_fd) then mret tt
      else
        _ ← match c_current_room y with
            | Some l => rooms (remove_client_prog (Some l) (Some c))
            | None => mret tt
            end;
        _ ← act (close_fd (c_fd y));
        _ ← act (update_client c (λ y, c_with_active y 0));
        _ ← act (puts (λ s, with_clients (<[Z.to_nat slot := None]> (sv_clients s))
                         (sv_client_count s - 1) s));
        _ ← act (set_fd_slot client_fd (-1));
        _ ← act (release c);
        log_message
    end).

Definition tcp_prog (client_fd : Z) (r : recv_result) : code unit :=
  match r with
  | RecvClosed | RecvError => _ ← log_message; disconnect_prog client_fd
  | RecvData data =>
    let buffer := take (MAX_PACKET_SIZE - 1) data in
    found ← holding ClientsMutex (act (
      found ← client_of_fd client_fd;
      match found with
      | None => mret None
      | Some (_, c) =>
        _ ← update_client c (λ y, c_with_refs y (c_ref_count y + 1)); mret (Some c)
      end));
    match found with
    | None => log_message
    | Some c => process_prog c buffer
    end
  end.

(** ** The ring *)

(** [sem_trywait(&ring_empty)] of a push, [sem_trywait(&ring_full)] of a pop;
    false also without shared memory. *)
Definition try_push : C (server D) bool := λ s,
  match sv_ring s with
  | None => Some (false, s)
  | Some r =>
    match sem_trywait (rs_empty r) with
    | None => Some (false, s)
    | Some e => Some (true, with_ring (Some (RingState (rs_ring r) e (rs_full r))) s)
    end
  end.
Definition try_pop : C (server D) bool := λ s,
  match sv_ring s with
  | None => Some (false, s)
  | Some r =>
    match sem_trywait (rs_full r) with
    | None => Some (false, s)
    | Some f => Some (true, with_ring (Some (RingState (rs_ring r) (rs_empty r) f)) s)
    end
  end.

(** The critical sections and the [sem_post] after them. *)
Definition ring_write (pkt : audio_packet) : C (server D) unit := λ s,
  r ← sv_ring s; r' ← ring_enter_push (rs_ring r) pkt;
  Some (tt, with_ring (Some (RingState r' (rs_empty r) (rs_full r))) s).
Definition ring_read : C (server D) audio_packet := λ s,
  r ← sv_ring s; '(pkt, r') ← ring_enter_pop (rs_ring r);
  Some (pkt, with_ring (Some (RingState r' (rs_empty r) (rs_full r))) s).
Definition post_full : C (server D) unit := λ s,
  r ← sv_ring s;
  Some (tt, with_ring (Some (RingState (rs_ring r) (rs_empty r) (sem_post (rs_full r)))) s).
Definition post_empty : C (server D) unit := λ s,
  r ← sv_ring s;
  Some (tt, with_ring (Some (RingState (rs_ring r) (sem_post (rs_empty r)) (rs_full r))) s).

Definition push_prog (pkt : audio_packet) : code unit :=
  ok ← act try_push;
  if ok : bool then _ ← holding RingMutex (act (ring_write pkt)); act post_full
  else log_message.
Definition pop_prog : code (option audio_packet) :=
  ok ← act try_pop;
  if ok : bool then
    pkt ← holding RingMutex (act ring_read); _ ← act post_empty; mret (Some pkt)
  else mret None.

Definition udp_prog (data junk addr : bytes) (addr_len : Z) : code unit :=
  match data with
  | [] => log_message
  | _ =>
    let pkt := received_packet data junk in
    _ ← (if ap_sender_id pkt <? MAX_CLIENTS then
           holding ClientsMutex (act (
             cs ← gets sv_clients;
             entry ← lift (at_index cs (ap_sender_id pkt));
             match entry with
             | Some c => update_client c (λ y, c_with_udp y addr addr_len)
             | None => mret tt
             end))
         else mret tt);
    if 0 <? ap_payload_size pkt then
      shm_ring ← act (gets sv_ring);
      match shm_ring with Some _ => push_prog pkt | None => mret tt end
    else mret tt
  end.

(** ** The mixer *)
Definition store_prog (pkt : audio_packet) : code unit :=
  let slot := i32 (ap_sender_id pkt) in
  if (slot <? 0) || (MAX_CLIENTS <=? slot) then mret tt
  else holding JitterMutex (act (store_packet pkt)).

(** The ring is emptied, while others may go on sending: false when the loop
    has not ended after [fuel] packets and is not followed further. *)
Fixpoint drain_prog (fuel : nat) : code bool :=
  match fuel with
  | O => mret false
  | S fuel' =>
    o ← pop_prog;
    match o with
    | None => mret true
    | Some pkt => _ ← store_prog pkt; drain_prog fuel'
    end
  end.

(** What [mix_room] does under the room's lock: the speakers, the listeners. *)
Definition collect_room (l : loc) : C (server D) (list speaker * list (option loc)) :=
  x ← on_world (read_room l);
  ps ← participants_read x;
  speakers ← collect_speakers (r_room_id x) ps [];
  _ ← on_world (write_room l (r_with_speakers x (Z.of_nat (length speakers))));
  mret (speakers, take (Z.to_nat MAX_CLIENTS) ps).

(** The sending after the lock is given back, listener by listener. *)
Fixpoint send_prog (speakers : list speaker) (snapshot : list (option loc)) : code unit :=
  match snapshot with
  | [] => mret tt
  | None :: snapshot' => send_prog speakers snapshot'
  | Some c :: snapshot' =>
    _ ← act (y ← on_world (read_client c);
             when (negb (c_is_active y =? 0))
               (send_audio_to_client c (mix_for (c_slot y) speakers)));
    send_prog speakers snapshot'
  end.

Definition mix_room_prog (l : loc) : code unit :=
  r ← holding (RoomLock l) (act (collect_room l));
  send_prog r.1 r.2.

(** The loop over the list, of which nobody changes the links meanwhile; false
    as above. *)
Fixpoint mix_rooms_prog (fuel : nat) (r : option loc) : code bool :=
  match r with
  | None => mret true
  | Some l =>
    match fuel with
    | O => mret false
    | S fuel' =>
      x ← act (on_world (read_room l));
      _ ← (if 0 <? r_participant_count x then mix_room_prog l else mret tt);
      x' ← act (on_world (read_room l));
      mix_rooms_prog fuel' (r_next x')
    end
  end.

Definition tick_prog (fuel : nat) : code bool :=
  drained ← drain_prog fuel;
  if drained : bool then
    holding RoomsMutex (
      n ← act (gets (λ s, size (w_rooms (sv_world s))));
      head ← act (gets (λ s, w_room_head (sv_world s)));
      mix_rooms_prog (S n) head)
  else mret false.

(** ** Display and shutdown *)
Definition display_prog (server_port rooms_fd wal_fd users_fd : Z) : code bytes :=
  now ← act (gets sv_now);
  count ← act (gets sv_client_count);
  room_count ← act (gets (λ s, w_room_count (sv_world s)));
  text ← holding RoomsMutex (
    n ← act (gets (λ s, size (w_rooms (sv_world s))));
    head ← act (gets (λ s, w_room_head (sv_world s)));
    act (show_rooms (S n) head));
  head ← act (gets (λ s, w_room_head (sv_world s)));
  clients ← holding ClientsMutex (cs ← act (gets sv_clients); act (show_clients 0 cs));
  mret (screen_top now server_port count room_count ++ text ++
    match head with None => str "  (no active rooms)" ++ [nl] | Some _ => [] end ++
    rule ++ str "Connected clients:" ++ [nl] ++ clients ++
    screen_bottom rooms_fd wal_fd users_fd).

Definition shutdown_prog (fds : list Z) : code unit :=
  _ ← log_message;
  _ ← holding ClientsMutex (cs ← act (gets sv_clients); act (close_clients 0 cs));
  _ ← act (puts (λ s, with_closed (sv_closed s ++ filter (λ fd, fd ≠ -1) fds) s));
  _ ← log_message;
  log_message.

(** ** The threads *)

(** False when the thread is not followed further. *)
Definition event_prog (fuel : nat) (e : event) : code bool :=
  match e with
  | Accept fd => _ ← accept_prog fd; mret true
  | Tcp fd r => _ ← tcp_prog fd r; mret true
  | Udp data junk addr len => _ ← udp_prog data junk addr len; mret true
  | Work => _ ← worker_prog; mret true
  | Tick => tick_prog fuel
  end.
Fixpoint events_prog (fuel : nat) (es : list event) : code bool :=
  match es with
  | [] => mret true
  | e :: es' =>
    more ← event_prog fuel e;
    if more : bool then events_prog fuel es' else mret false
  end.

(** [while(server_on)], each iteration with its events: what [epoll_wait]
    reports, a task, or a tick of the mixer. *)
Fixpoint loop_prog (fuel : nat) (iterations : list (list event)) : code unit :=
  match iterations with
  | [] => mret tt
  | es :: iterations' =>
    on ← act (gets sv_on);
    if on : bool then
      more ← events_prog fuel es;
      if more : bool then loop_prog fuel iterations' else mret tt
    else mret tt
  end.

(** The screen is drawn again and again. *)
Fixpoint displays_prog (n : nat) (server_port rooms_fd wal_fd users_fd : Z) : code unit :=
  match n with
  | O => mret tt
  | S n' =>
    on ← act (gets sv_on);
    if on : bool then
      _ ← display_prog server_port rooms_fd wal_fd users_fd;
      displays_prog n' server_port rooms_fd wal_fd users_fd
    else mret tt
  end.

(** [fifo_thread_main]. *)
Fixpoint fifo_prog (reads : list fifo_read) : code unit :=
  match reads with
  | [] => mret tt
  | r :: reads' =>
    on ← act (gets sv_on);
    if on : bool then
      match r with
      | FifoData (b :: data) =>
        _ ← log_message;
        if is_shutdown (b :: data) then act (puts (with_on false)) else fifo_prog reads'
      | _ => fifo_prog reads'
      end
    else mret tt
  end.

(** The log lines of the initialisation, while other threads run already. *)
Fixpoint logs_prog (n : nat) : code unit :=
  match n with
  | O => mret tt
  | S n' => _ ← log_message; logs_prog n'
  end.

(** The mixer and the workers; the display; the thread of the FIFO; and the
    main thread, which handles the connections and then shuts down. *)
Inductive server_thread : code unit → Prop :=
  | thread_loop (n fuel : nat) iterations :
      server_thread (_ ← logs_prog n; loop_prog fuel iterations)
  | thread_display (n : nat) port rooms_fd wal_fd users_fd :
      server_thread (displays_prog n port rooms_fd wal_fd users_fd)
  | thread_fifo reads : server_thread (fifo_prog reads)
  | thread_main (n fuel : nat) iterations fds :
      server_thread (_ ← logs_prog n; _ ← loop_prog fuel iterations;
                     _ ← log_message; shutdown_prog fds).
End programs.

(** ** The order of the mutexes *)
Section levels.
Context {D : Type} `{StoreCallsLevel D}.
Abbreviation level := (at_level (St:=server D) mutex_rank).

Lemma rooms_level {A} n (p : prog mutex (world D) A) :
  at_level mutex_rank n p → level n (rooms p).
Proof. apply level_lifted. Qed.
#[local] Hint Extern 2 (at_level _ _ (rooms _)) => simple apply rooms_level : locks.

Lemma client_level n c : level n (client_prog c).
Proof. apply level_act. Qed.
Lemma error_level c status msg : level 3 (error_prog c status msg).
Proof. unfold error_prog. leveled. Qed.
Lemma ok_level c msg data : level 3 (ok_prog c msg data).
Proof. unfold ok_prog. leveled. Qed.
Lemma log_if_level b : level 3 (log_if b).
Proof. unfold log_if. leveled. Qed.
#[local] Hint Resolve client_level error_level ok_level log_if_level : locks.
Lemma log_client_level c : level 3 (log_client c).
Proof. unfold log_client. leveled. Qed.
#[local] Hint Resolve log_client_level : locks.

(** A lock that is given back by a pointer read again: it is the same lock, or
    the run is undefined. *)
Definition closes {A} (l : loc) (p : prog mutex (server D) A) : Prop :=
  ∀ h, (∀ m, m ∈ h → (mutex_rank m < 1)%nat) → locks mutex_rank (RoomLock l :: h) p h.

Lemma closes_unlock {A} l l' (k : unit → prog mutex (server D) A) :
  level 1 (k tt) → closes l (unlock (RoomLock l') ≫= k).
Proof.
  intros Hk h Hh. destruct (decide (l' = l)) as [->|Hl].
  - right. exists h. split; [done|]. by apply Hk.
  - left. intros [[= ?]|Hin]%elem_of_cons; [done|]. specialize (Hh _ Hin). cbn in Hh. lia.
Qed.
Lemma closes_unlock_end l l' : closes l (unlock (RoomLock l') : prog mutex (server D) unit).
Proof. apply (closes_unlock l l' (λ _, mret tt)). apply level_ret. Qed.
Lemma closes_call {A B} l (p : prog mutex (server D) A) (k : A → prog mutex (server D) B) :
  level 3 p → (∀ a, closes l (k a)) → closes l (p ≫= k).
Proof.
  intros Hp Hk h Hh. eapply locks_bind; [apply Hp|].
  - intros m [->|Hm]%elem_of_cons; [cbn; lia|]. specialize (Hh m Hm). lia.
  - intros a. by apply Hk.
Qed.
Lemma level_lock {A} l (k : unit → prog mutex (server D) A) :
  closes l (k tt) → level 1 (lock (RoomLock l) ≫= k).
Proof.
  intros Hk. split. intros h Hh. split; [|by apply Hk]. intros m Hm. specialize (Hh m Hm). cbn. lia.
Qed.
(** Also through the sections that end with a pointer read again. *)
Ltac closing := repeat first
  [ apply level_lock | apply closes_unlock | apply closes_unlock_end
  | apply closes_call; [solve [leveled]|] | level_step ].

Lemma login_level c args : level 1 (login_prog c args).
Proof. unfold login_prog. leveled. Qed.
Lemma register_level c args : level 1 (register_prog c args).
Proof. unfold register_prog. leveled. Qed.
Lemma logout_level c : level 1 (logout_prog c).
Proof. unfold logout_prog. leveled. Qed.
Lemma create_room_level c args : level 1 (create_room_prog c args).
Proof. unfold create_room_prog. leveled. Qed.
Lemma join_room_level c args : level 1 (join_room_prog c args).
Proof. unfold join_room_prog. leveled. Qed.
Lemma leave_room_level c : level 1 (leave_room_prog c).
Proof. unfold leave_room_prog. leveled. Qed.
Lemma list_rooms_level c : level 1 (list_rooms_prog c).
Proof. unfold list_rooms_prog. leveled. Qed.
#[local] Hint Resolve login_level register_level logout_level create_room_level
  join_room_level leave_room_level list_rooms_level : locks.

Lemma kick_level c args : level 1 (kick_prog c args).
Proof. unfold kick_prog. closing. Qed.
Lemma mute_level c args : level 1 (mute_prog c args).
Proof. unfold mute_prog. closing. Qed.
Lemma status_level c : level 1 (status_prog c).
Proof. unfold status_prog. leveled. Qed.
Lemma promote_level c args : level 0 (promote_prog c args).
Proof. unfold promote_prog. leveled. Qed.
#[local] Hint Resolve kick_level mute_level status_level promote_level : locks.
Lemma dispatch_level c cmd args : level 0 (dispatch_prog c cmd args).
Proof. unfold dispatch_prog. leveled. Qed.
Lemma release_level c : level 0 (release_prog c).
Proof. unfold release_prog. leveled. Qed.
#[local] Hint Resolve dispatch_level release_level : locks.
Lemma worker_level : level 0 worker_prog.
Proof. unfold worker_prog, run_task_prog. leveled. Qed.
Lemma process_level c command : level 0 (process_prog c command).
Proof. unfold process_prog. leveled. Qed.
Lemma accept_level fd : level 0 (accept_prog fd).
Proof. unfold accept_prog. leveled. Qed.
Lemma disconnect_level fd : level 0 (disconnect_prog fd).
Proof. unfold disconnect_prog. leveled. Qed.
#[local] Hint Resolve worker_level process_level accept_level disconnect_level : locks.
Lemma tcp_level fd r : level 0 (tcp_prog fd r).
Proof. unfold tcp_prog. leveled. Qed.
Lemma push_level pkt : level 2 (push_prog pkt).
Proof. unfold push_prog. leveled. Qed.
Lemma pop_level : level 2 pop_prog.
Proof. unfold pop_prog. leveled. Qed.
Lemma store_level pkt : level 2 (store_prog pkt).
Proof. unfold store_prog. leveled. Qed.
#[local] Hint Resolve tcp_level push_level pop_level store_level : locks.
Lemma udp_level data junk addr len : level 0 (udp_prog data junk addr len).
Proof. unfold udp_prog. leveled. Qed.
Lemma drain_level fuel : level 2 (drain_prog fuel).
Proof. induction fuel; cbn [drain_prog]; leveled. Qed.
Lemma send_level speakers snapshot : level 3 (send_prog speakers snapshot).
Proof. induction snapshot; cbn [send_prog]; leveled. Qed.
#[local] Hint Resolve udp_level drain_level send_level : locks.
Lemma mix_room_level l : level 2 (mix_room_prog l).
Proof. unfold mix_room_prog. leveled. Qed.
#[local] Hint Resolve mix_room_level : locks.
Lemma mix_rooms_level fuel r : level 2 (mix_rooms_prog fuel r).
Proof. revert r. induction fuel; intros [l|]; cbn [mix_rooms_prog]; leveled. Qed.
#[local] Hint Resolve mix_rooms_level : locks.
Lemma tick_level fuel : level 1 (tick_prog fuel).
Proof. unfold tick_prog. leveled. Qed.
Lemma display_level port rooms_fd wal_fd users_fd :
  level 0 (display_prog port rooms_fd wal_fd users_fd).
Proof. unfold display_prog. leveled. Qed.
Lemma shutdown_level fds : level 0 (shutdown_prog fds).
Proof. unfold shutdown_prog. leveled. Qed.
#[local] Hint Resolve tick_level display_level shutdown_level : locks.
Lemma event_level fuel e : level 0 (event_prog fuel e).
Proof. destruct e; cbn [event_prog]; leveled. Qed.
#[local] Hint Resolve event_level : locks.
Lemma events_level fuel es : level 0 (events_prog fuel es).
Proof. induction es; cbn [events_prog]; leveled. Qed.
#[local] Hint Resolve events_level : locks.
Lemma loop_level fuel iterations : level 0 (loop_prog fuel iterations).
Proof. induction iterations; cbn [loop_prog]; leveled. Qed.
Lemma fifo_level reads : level 3 (fifo_prog reads).
Proof. induction reads as [|[[|b data]|fd|] reads IH]; cbn [fifo_prog]; leveled. Qed.
Lemma logs_level n : level 3 (logs_prog n).
Proof. induction n; cbn [logs_prog]; leveled. Qed.
#[local] Hint Resolve loop_level fifo_level logs_level : locks.

Lemma server_thread_level p : server_thread p → level 0 p.
Proof.
  intros [k fuel its|n port rooms_fd wal_fd users_fd|reads|k fuel its fds]; [leveled| |leveled|leveled].
  induction n; cbn [displays_prog]; leveled.
Qed.
End levels.

(** ** No deadlock *)
Section deadlock.
Context {D : Type} `{StoreCallsLevel D}.
Implicit Types s : server D.

Lemma server_threads_well_locked (ps : list (prog mutex (server D) unit)) :
  Forall server_thread ps → well_locked mutex_rank (fresh_worker <$> ps).
Proof.
  intros Hps. apply started_well_locked. eapply Forall_impl; [exact Hps|].
  intros p Hp. by eapply level_disciplined, server_thread_level.
Qed.
(** No mutex is ever held by two threads. *)
Lemma server_threads_exclusive ps s s' ts :
  Forall server_thread ps → rtc lstep (s, fresh_worker <$> ps) (s', ts) → exclusive ts.
Proof. intros Hps Hrun. apply (lstep_well_locked _ _ _ Hrun (server_threads_well_locked ps Hps)). Qed.

(** Well-locked threads do not deadlock. *)
Lemma well_locked_goes_on s (ts : list (worker mutex (server D) unit)) : well_locked mutex_rank ts →
  Forall (λ t, ended t = true) ts ∨ (∃ c, lstep (s, ts) c) ∨
  ∃ i, enabled ts i = true ∧ lturn i ts s = None.
Proof.
  intros Hw. destruct (no_deadlock mutex_rank 4 ltac:(intros []; cbn; lia) ts Hw) as [|[i Hi]];
    [by left|right].
  destruct (enabled_turn ts i s Hi); [by left|right]. by exists i.
Qed.

(** C18. However the turns of the server's threads fall, with any number of
    threads that handle connections, datagrams, commands and ticks, draw the
    screen, read the emergency FIFO or shut the server down: a thread that is
    to take a mutex holds only mutexes that come before it in the order
    clients; rooms; a room's lock, tasks, jitter buffers, ring; log.  So the
    threads never wait for each other in a circle: as long as not all have
    ended, one of them can take its next turn, unless the next turn of one of
    them has undefined behaviour, that is, it accesses an object that is not
    there or gives back a mutex it does not hold.  (Such turns are reachable:
    [Races] has use after free, and KICK that gives back the lock of another
    room.) *)
Theorem server_deadlock_free ps s s' ts :
  Forall server_thread ps → rtc lstep (s, fresh_worker <$> ps) (s', ts) →
  (∀ (i : nat) h l p, ts !! i = Some (Worker h (Lock l p)) →
     ∀ l', l' ∈ h → (mutex_rank l' < mutex_rank l)%nat) ∧
  (Forall (λ t, ended t = true) ts ∨ (∃ c, lstep (s', ts) c) ∨
   ∃ i, enabled ts i = true ∧ lturn i ts s' = None).
Proof.
  intros Hps Hrun.
  pose proof (lstep_well_locked _ _ _ Hrun (server_threads_well_locked ps Hps)) as Hw.
  split; [|by apply well_locked_goes_on]. intros i h l p Hi. by apply (wants_above _ ts i h l p).
Qed.
End deadlock.

(** A thread that handles these events, each in an iteration of its own. *)
Definition handling {D} {SC : StoreCalls D} (es : list event) : prog mutex (server D) unit :=
  _ ← logs_prog 0; loop_prog 129 ((λ e, [e]) <$> es).

(** The display has to wait for the connection that is being accepted. *)
Definition demo_threads : list (prog mutex (server db) unit) :=
  [handling [Accept 7; Tick]; displays_prog 1 8080 5 3 4; handling [Work]].
Definition demo_start : server db :=
  server_start (Db 3 (File [] []) 4 (File [] []) 0 [] true 0) (File [] [])
    [Some 1%positive] (RoomRecord 0 [] [] 0 0) 1000.
Definition demo_schedule : list nat := [0; 0; 1; 1; 1; 1; 1; 1; 1; 1; 1; 1; 2; 2]%nat.

Lemma server_deadlock_free_witness : ∃ s ts,
  linterleave demo_schedule (fresh_worker <$> demo_threads) demo_start = Some (ts, s) ∧
  enabled ts 1 = false ∧
  (Forall (λ t, ended t = true) ts ∨ (∃ c, lstep (s, ts) c) ∨
   ∃ i, enabled ts i = true ∧ lturn i ts s = None).
Proof.
  assert (option_map (λ r, enabled r.1 1)
    (linterleave demo_schedule (fresh_worker <$> demo_threads) demo_start) = Some false) as Hf
    by (vm_compute; reflexivity).
  destruct (linterleave _ _ _) as [[ts s]|] eqn:E; [|discriminate Hf].
  exists s, ts. split; [reflexivity|]. split; [by injection Hf|].
  apply (server_deadlock_free demo_threads demo_start s ts); [|by eapply linterleave_steps].
  repeat constructor.
Defined.
