(* ===== verification/ServerRuns.v ===== *)
(** * Without other threads, the threads do what the operations do

    Each program of [ServerLocks] run alone is the operation of
    [ClientHandler], [Network], [Mixer], [Display] or [System] it models: the
    sections make up the whole operation, and what the code reads again
    between them changes nothing when nobody else is running. *)
From S2P Require Import Prelude CInt CString Protocol Posix Auth RoomStore FileDb World RoomManager Ring Jitter ServerState Mixer ClientHandler Network System Boot Display Interleave Locks RoomLocks ServerLocks.
#[local] Open Scope Z_scope.

Section runs.
Context {D : Type} `{RoomStore D}.
Implicit Types s : server D.

(** ** Parts *)
Lemma on_world_bind {A B} (m : C (world D) A) (k : A → C (world D) B) s :
  on_world (m ≫= k) s = (a ← on_world m; on_world (k a)) s.
Proof.
  unfold on_world, mbind, C_bind. destruct (m (sv_world s)) as [[a w]|]; [|done].
  by destruct s.
Qed.

Lemma run_rooms {A} (p : prog mutex (world D) A) s : run (rooms p) s = on_world (run p) s.
Proof.
  unfold rooms. apply run_lifted.
  - intros B b s'. unfold on_world. cbn. by rewrite with_world_id.
  - intros. apply on_world_bind.
  - intros B m m' E s'. unfold on_world. by rewrite E.
Qed.
Lemma run_rooms_bind {A B} (p : prog mutex (world D) A) m (k : A → prog mutex (server D) B) s :
  (∀ w, run p w = m w) → run (rooms p ≫= k) s = (a ← on_world m; run (k a)) s.
Proof.
  intros E. rewrite run_bind. apply bind_head. rewrite run_rooms. unfold on_world. by rewrite E.
Qed.

Lemma sv_read_client_inv s c y s' : on_world (read_client c) s = Some (y, s') →
  w_clients (sv_world s) !! c = Some y ∧ s' = s.
Proof.
  unfold on_world. destruct (read_client c (sv_world s)) as [[z w]|] eqn:E; [|done].
  apply read_client_inv in E as [? ->]. intros [= <- <-]. by rewrite with_world_id.
Qed.
Lemma sv_read_room_inv s l x s' : on_world (read_room l) s = Some (x, s') →
  w_rooms (sv_world s) !! l = Some x ∧ s' = s.
Proof.
  unfold on_world. destruct (read_room l (sv_world s)) as [[z w]|] eqn:E; [|done].
  apply read_room_inv in E as [? ->]. intros [= <- <-]. by rewrite with_world_id.
Qed.

(** A response leaves the rooms and the clients alone and shows that its
    client is there. *)
Lemma send_response_inv fd r s u s' : send_response fd r s = Some (u, s') →
  sv_world s' = sv_world s.
Proof. by intros [= _ <-]. Qed.
Lemma send_ok_inv c msg data s u s' : send_ok c msg data s = Some (u, s') →
  sv_world s' = sv_world s ∧ is_Some (w_clients (sv_world s) !! c).
Proof.
  intros (y&s1&[Hy ->]%sv_read_client_inv&Hr%send_response_inv)%C_bind_inv.
  split; [done|]. by exists y.
Qed.

(** Reading a client that is there. *)
Lemma skip_client {A} c (m : C (server D) A) s : is_Some (w_clients (sv_world s) !! c) →
  (_ ← on_world (read_client c); m) s = m s.
Proof. intros [y Hy]. by rewrite (C_bind_run _ _ _ _ _ (sv_read_client _ _ _ Hy)). Qed.

Lemma log_end {A} (m : C (server D) A) s : run (_ ← act m; log_message) s = (_ ← m; mret tt) s.
Proof. done. Qed.
Lemma unit_end (m : C (server D) unit) s : (_ ← m; mret tt) s = m s.
Proof. by apply bind_end. Qed.
Lemma error_run c status msg s : run (error_prog c status msg) s = send_error c status msg s.
Proof. unfold error_prog. by rewrite log_end, unit_end. Qed.
Lemma ok_run c msg data s : run (ok_prog c msg data) s = send_ok c msg data s.
Proof. unfold ok_prog. by rewrite log_end, unit_end. Qed.
Lemma log_if_run {A} b (k : unit → prog mutex (server D) A) s : run (log_if b ≫= k) s = run (k tt) s.
Proof. by destruct b. Qed.

(** A log line before and after a response. *)
Lemma log_client_run c s : run (log_client c) s = (_ ← on_world (read_client c); mret tt) s.
Proof. done. Qed.
Lemma log_then_ok c msg data s :
  run (_ ← log_client c; ok_prog c msg data) s = send_ok c msg data s.
Proof.
  rewrite run_bind, (bind_head _ _ _ _ (log_client_run c s)), C_bind_assoc.
  transitivity ((_ ← on_world (read_client c); send_ok c msg data) s).
  { apply bind_cong. intros y s' _. rewrite C_bind_ret. apply ok_run. }
  unfold send_ok. unfold mbind, C_bind.
  destruct (on_world (read_client c) s) as [[y s']|] eqn:E; [|done].
  apply sv_read_client_inv in E as E'. destruct E' as [_ ->]. by rewrite E.
Qed.
Lemma ok_then_log c msg data s :
  run (_ ← ok_prog c msg data; log_client c) s = send_ok c msg data s.
Proof.
  rewrite run_bind, (bind_head _ _ _ _ (ok_run c msg data s)). unfold mbind, C_bind.
  destruct (send_ok c msg data s) as [[[] s']|] eqn:E; [|done].
  apply send_ok_inv in E as [Ew Hc]. rewrite log_client_run, skip_client; [done|]. by rewrite Ew.
Qed.

Lemma client_run {A} c (k : client → prog mutex (server D) A) s :
  run (client_prog c ≫= k) s = (y ← on_world (read_client c); run (k y)) s.
Proof. done. Qed.
Lemma log_run {A} (k : unit → prog mutex (server D) A) s :
  run (log_message ≫= k) s = run (k tt) s.
Proof. done. Qed.
Lemma log_run_end s : run (log_message : prog mutex (server D) unit) s = Some (tt, s).
Proof. done. Qed.
End runs.

(** The room manager's programs. *)
Ltac erase_rooms := first
  [ rewrite (run_rooms_bind _ _ _ _ (leave_run _))
  | rewrite (run_rooms_bind _ _ _ _ (create_run _ _ _))
  | rewrite (run_rooms_bind _ _ _ _ (find_by_name_run _))
  | rewrite (run_rooms_bind _ _ _ _ (join_run _ _ _))
  | rewrite (run_rooms_bind _ _ _ _ (list_run _))
  | rewrite (run_rooms_bind _ _ _ _ (remove_client_prog_run _ _)) ].
(** One step on both sides, by what the program does next. *)
Ltac erase_step := lazymatch goal with
  | |- run (client_prog _ ≫= _) _ = _ => rewrite client_run
  | |- run (log_message ≫= _) _ = _ => rewrite log_run
  | |- run (log_if _ ≫= _) _ = _ => rewrite log_if_run
  | |- run (log_client _ ≫= _) _ = _ => apply log_then_ok
  | |- run (ok_prog _ _ _ ≫= _) _ = _ => apply ok_then_log
  | |- run (error_prog _ _ _) _ = _ => apply error_run
  | |- run (ok_prog _ _ _) _ = _ => apply ok_run
  | |- run (rooms _ ≫= _) _ = _ => erase_rooms
  | |- run (act _ ≫= _) _ = _ => rewrite run_act
  | |- run (act _) _ = _ => rewrite run_act_end
  | |- run (holding _ (act _) ≫= _) _ = _ => rewrite run_holding_act
  | |- run (holding _ _ ≫= _) _ = _ => rewrite run_enter
  | |- run (holding _ _) _ = _ => rewrite run_holding_end
  | |- run ((_ ≫= _) ≫= _) _ = _ => rewrite run_assoc
  | |- run (mret _ ≫= _) _ = _ => rewrite run_ret_bind
  | |- run (mret _) _ = mret _ _ => reflexivity
  | |- run (mret _) _ = _ => rewrite run_ret
  | |- run (if true then _ else _) _ = _ => cbv iota
  | |- run (if false then _ else _) _ = _ => cbv iota
  | |- run log_message _ = _ => reflexivity
  | |- run (match _ with _ => _ end) _ = _ => case_match
  | |- run (match _ with _ => _ end ≫= _) _ = _ => case_match
  | |- ((_ ≫= _) ≫= _) _ = _ => rewrite C_bind_assoc
  | |- (mret _ ≫= _) _ = _ => rewrite C_bind_ret
  | |- _ = ((_ ≫= _) ≫= _) _ => rewrite C_bind_assoc
  | |- _ = (mret _ ≫= _) _ => rewrite C_bind_ret
  | |- (?m ≫= _) _ = (?m ≫= _) _ => apply bind_cong; intros ? ? _
  | |- (?m ≫= _) _ = ?m _ => apply bind_end; reflexivity
  | |- ?t = ?t => reflexivity
  | |- _ = (match _ with _ => _ end ≫= _) _ => case_match
  | |- _ = (match _ with _ => _ end) _ => case_match
  end.
Ltac erase := repeat erase_step.

Section handlers.
Context {D : Type} `{RoomStore D}.
Implicit Types s : server D.

Lemma login_alone c args s : run (login_prog c args) s = handle_login c args s.
Proof. unfold login_prog, handle_login. erase. Qed.
Lemma register_alone c args s : run (register_prog c args) s = handle_register c args s.
Proof.
  unfold register_prog, handle_register. rewrite client_run. apply bind_cong. intros y s0 _.
  case_match; [erase|]. case_match. case_match; [erase|]. rewrite run_act. unfold add_user.
  do 2 erase_step. destruct (auth_add_user _ _ _ _) as [ok f].
  rewrite C_bind_assoc. apply bind_cong. intros [] s1 _. rewrite C_bind_ret, log_if_run.
  cbn [fst snd]. destruct ok; [apply ok_run|apply error_run].
Qed.
Lemma logout_alone c s : run (logout_prog c) s = handle_logout c s.
Proof. unfold logout_prog, handle_logout. erase. Qed.
Lemma create_room_alone c args s : run (create_room_prog c args) s = handle_create_room c args s.
Proof. unfold create_room_prog, handle_create_room. erase. Qed.
Lemma join_room_alone c args s : run (join_room_prog c args) s = handle_join_room c args s.
Proof. unfold join_room_prog, handle_join_room. erase. Qed.
Lemma leave_room_alone c s : run (leave_room_prog c) s = handle_leave_room c s.
Proof. unfold leave_room_prog, handle_leave_room. erase. Qed.
Lemma list_rooms_alone c s : run (list_rooms_prog c) s = handle_list_rooms c s.
Proof. unfold list_rooms_prog, handle_list_rooms. erase. Qed.
Lemma status_alone c s : run (status_prog c) s = handle_status c s.
Proof. unfold status_prog, handle_status. erase. Qed.
Lemma promote_alone c args s : run (promote_prog c args) s = handle_promote c args s.
Proof.
  unfold promote_prog, handle_promote. rewrite client_run. apply bind_cong. intros y s0 _.
  do 2 (case_match; [erase|]). case_match. do 2 (case_match; [erase|]). cbv zeta.
  rewrite run_act. unfold promote_user.
  do 2 erase_step. destruct (auth_promote_user _ _ _) as [ok f].
  rewrite C_bind_assoc. apply bind_cong. intros [] s1 _. rewrite C_bind_ret, log_if_run.
  cbn [fst snd]. destruct ok; erase.
Qed.

(** *** KICK and MUTE: the room read again is the same *)
Lemma current_room_of_run s c y l : w_clients (sv_world s) !! c = Some y → c_current_room y = Some l →
  current_room_of c s = Some (l, s).
Proof.
  intros Hy Hl. unfold current_room_of. rewrite (C_bind_run _ _ _ _ _ (sv_read_client _ _ _ Hy)).
  by rewrite Hl.
Qed.
Lemma find_target_inv ps n name s o s' : find_target ps n name s = Some (o, s') →
  s' = s ∧ (∀ t, o = Some t → is_Some (w_clients (sv_world s) !! t)).
Proof.
  revert ps. induction n as [|n IH]; intros [|[p|] ps]; cbn [find_target]; try done.
  1-3: by intros [= <- <-].
  - intros (y&s1&[Hy ->]%sv_read_client_inv&Hr)%C_bind_inv.
    case_match; [|by apply IH in Hr]. injection Hr as <- <-. split; [done|].
    intros t [= <-]. by exists y.
  - apply IH.
Qed.
Lemma search_target_run s c y l name :
  w_clients (sv_world s) !! c = Some y → c_current_room y = Some l →
  search_target c name s =
  (x ← on_world (read_room l);
   find_target (r_participants x) (Z.to_nat (r_participant_count x)) name) s.
Proof.
  intros Hy Hl. unfold search_target. by rewrite (C_bind_run _ _ _ _ _ (current_room_of_run _ _ _ _ Hy Hl)).
Qed.
(** The reads for the log line. *)
Lemma kick_names_run s c y l x t : w_clients (sv_world s) !! c = Some y →
  c_current_room y = Some l → w_rooms (sv_world s) !! l = Some x →
  is_Some (w_clients (sv_world s) !! t) → kick_names c t s = Some (tt, s).
Proof.
  intros Hy Hl Hx [z Hz]. unfold kick_names.
  rewrite (C_bind_run _ _ _ _ _ (sv_read_client _ _ _ Hy)), Hl, C_bind_assoc.
  rewrite (C_bind_run _ _ _ _ _ (sv_read_room _ _ _ Hx)), C_bind_ret.
  by rewrite (C_bind_run _ _ _ _ _ (sv_read_client _ _ _ Hz)).
Qed.

Lemma kick_alone c args s : run (kick_prog c args) s = handle_kick c args s.
Proof.
  unfold kick_prog, handle_kick. rewrite client_run.
  apply bind_cong. intros y s0 [Hy ->]%sv_read_client_inv.
  do 2 (case_match; [erase_step|]). destruct (c_current_room y) as [l|] eqn:Hl; [|erase_step].
  case_match; [erase_step|].
  rewrite run_act, (C_bind_run _ _ _ _ _ (current_room_of_run _ _ _ _ Hy Hl)), run_lock, run_act.
  rewrite (bind_head _ _ _ _ (search_target_run _ _ _ _ _ Hy Hl)), C_bind_assoc.
  apply bind_cong. intros x s1 [Hx ->]%sv_read_room_inv.
  apply bind_cong. intros o s1 [-> Ho]%find_target_inv.
  rewrite run_act, (C_bind_run _ _ _ _ _ (current_room_of_run _ _ _ _ Hy Hl)), run_unlock.
  destruct o as [t|]; [|erase_step].
  rewrite run_act, (C_bind_run _ _ _ _ _ (kick_names_run _ _ _ _ _ _ Hy Hl Hx (Ho _ eq_refl))).
  erase.
Qed.

(** What muting leaves alone: the room a client is in. *)
Lemma toggle_mute_run s c y l x t z : w_clients (sv_world s) !! c = Some y →
  c_current_room y = Some l → w_rooms (sv_world s) !! l = Some x →
  w_clients (sv_world s) !! t = Some z →
  ∃ b s', toggle_mute c t s = Some (negb (b =? 0), s') ∧
    b = (if c_is_mute z =? 0 then 1 else 0) ∧
    (_ ← on_world (write_client t (c_with_mute z b));
     on_world (write_room l (r_with_speakers x
       (if b =? 0 then r_active_speakers x + 1 else r_active_speakers x - 1)))) s = Some (tt, s') ∧
    (∃ y', w_clients (sv_world s') !! c = Some y' ∧ c_current_room y' = Some l) ∧
    is_Some (w_rooms (sv_world s') !! l) ∧ is_Some (w_clients (sv_world s') !! t).
Proof.
  intros Hy Hl Hx Hz. set (b := if c_is_mute z =? 0 then 1 else 0).
  set (s1 := with_world (with_client_heap <[t := c_with_mute z b]> (sv_world s)) s).
  assert (on_world (write_client t (c_with_mute z b)) s = Some (tt, s1)) as Hw.
  { apply on_world_run. unfold write_client. by rewrite Hz. }
  assert (∃ y', w_clients (sv_world s1) !! c = Some y' ∧ c_current_room y' = Some l)
    as (y'&Hy'&Hl').
  { cbn. destruct (decide (c = t)) as [->|Hct].
    - exists (c_with_mute z b). rewrite lookup_insert_eq. split; [done|]. cbn. congruence.
    - exists y. by rewrite lookup_insert_ne. }
  set (x' := r_with_speakers x
    (if b =? 0 then r_active_speakers x + 1 else r_active_speakers x - 1)).
  set (s2 := with_world (with_room_heap <[l := x']> (sv_world s1)) s1).
  assert (on_world (write_room l x') s1 = Some (tt, s2)) as Hw2.
  { apply on_world_run. unfold write_room. cbn. by rewrite Hx. }
  exists b, s2. split_and!; [|done| | |by cbn; rewrite lookup_insert_eq; eexists|].
  - unfold toggle_mute. rewrite (C_bind_run _ _ _ _ _ (sv_read_client _ _ _ Hz)).
    rewrite (C_bind_run _ _ _ _ _ Hw).
    rewrite (C_bind_run _ _ _ _ _ (current_room_of_run _ _ _ _ Hy' Hl')).
    rewrite (C_bind_run _ _ _ _ _ (sv_read_room s1 l x Hx)).
    by rewrite (C_bind_run _ _ _ _ _ Hw2).
  - by rewrite (C_bind_run _ _ _ _ _ Hw).
  - by exists y'.
  - cbn. rewrite lookup_insert_eq. by eexists.
Qed.

(** The response under the lock, which is given back by the pointer read again. *)
Lemma ok_then_unlock s c msg data y l :
  w_clients (sv_world s) !! c = Some y → c_current_room y = Some l →
  run (_ ← ok_prog c msg data; l' ← act (current_room_of c); unlock (RoomLock l')) s =
  send_ok c msg data s.
Proof.
  intros Hy Hl. rewrite run_bind, (bind_head _ _ _ _ (ok_run c msg data s)).
  destruct (send_ok c msg data s) as [[[] s']|] eqn:E.
  - rewrite (C_bind_run _ _ _ _ _ E). apply send_ok_inv in E as [E _].
    rewrite run_act. by rewrite (C_bind_run _ _ _ _ _ (current_room_of_run s' c y l ltac:(by rewrite E) Hl)).
  - unfold mbind, C_bind. by rewrite E.
Qed.

Lemma mute_alone c args s : run (mute_prog c args) s = handle_mute c args s.
Proof.
  unfold mute_prog, handle_mute. rewrite client_run.
  apply bind_cong. intros y s0 [Hy ->]%sv_read_client_inv.
  do 2 (case_match; [erase_step|]). destruct (c_current_room y) as [l|] eqn:Hl; [|erase_step].
  case_match; [erase_step|].
  rewrite run_act, (C_bind_run _ _ _ _ _ (current_room_of_run _ _ _ _ Hy Hl)), run_lock, run_act.
  rewrite (bind_head _ _ _ _ (search_target_run _ _ _ _ _ Hy Hl)), C_bind_assoc.
  apply bind_cong. intros x s1 [Hx ->]%sv_read_room_inv.
  apply bind_cong. intros o s1 [-> Ho]%find_target_inv.
  destruct o as [t|].
  2: { rewrite run_act, (C_bind_run _ _ _ _ _ (current_room_of_run _ _ _ _ Hy Hl)), run_unlock.
       erase_step. }
  destruct (Ho t eq_refl) as [z Hz].
  destruct (toggle_mute_run s c y l x t z Hy Hl Hx Hz) as (b&s'&Ht&Hb&Hw&(y'&Hy'&Hl')&[x' Hx']&Hz').
  rewrite run_act, (C_bind_run _ _ _ _ _ Ht), run_act.
  rewrite (C_bind_run _ _ _ _ _ (kick_names_run _ _ _ _ _ _ Hy' Hl' Hx' Hz')), log_run.
  rewrite (C_bind_run _ _ _ _ _ (sv_read_client _ _ _ Hz)). cbv zeta.  rewrite <-Hb.
  rewrite <-C_bind_assoc, (C_bind_run _ _ _ _ _ Hw).
  destruct (b =? 0); cbn [negb]; by apply (ok_then_unlock _ _ _ _ y' l).
Qed.

Lemma dispatch_alone c cmd args s : run (dispatch_prog c cmd args) s = dispatch c cmd args s.
Proof.
  unfold dispatch_prog, dispatch.
  destruct (strcasecmp_eq _ _); [apply login_alone|].
  destruct (strcasecmp_eq _ _); [apply register_alone|].
  destruct (strcasecmp_eq _ _); [apply logout_alone|].
  destruct (strcasecmp_eq _ _); [apply create_room_alone|].
  destruct (strcasecmp_eq _ _); [apply join_room_alone|].
  destruct (strcasecmp_eq _ _); [apply leave_room_alone|].
  destruct (strcasecmp_eq _ _); [apply list_rooms_alone|].
  destruct (strcasecmp_eq _ _); [apply kick_alone|].
  destruct (strcasecmp_eq _ _); [apply mute_alone|].
  destruct (strcasecmp_eq _ _); [apply status_alone|].
  destruct (strcasecmp_eq _ _); [apply promote_alone|apply error_run].
Qed.

Lemma release_alone c s : run (release_prog c) s = release c s.
Proof. unfold release_prog. by rewrite run_holding_end, run_act_end. Qed.

Lemma worker_alone s : sv_on s = true → run worker_prog s = worker_step s.
Proof.
  intros Hon. unfold worker_prog, worker_step.
  rewrite run_holding_act, C_bind_assoc, C_bind_gets, Hon. apply bind_cong. intros [task|] s1 _; [|done].
  unfold run_task_prog, run_task. destruct (wt_c task) as [c|]; [|done].
  rewrite client_run. apply bind_cong. intros y s2 _. case_match; [apply release_alone|].
  destruct (split_command _) as [[cmd args]|]; [|done].
  rewrite run_bind, (bind_head _ _ _ _ (dispatch_alone c cmd args s2)). apply bind_cong.
  intros. apply release_alone.
Qed.

Lemma process_alone c command s : run (process_prog c command) s = process_client_command c command s.
Proof.
  unfold process_prog, process_client_command. rewrite run_holding_act.
  destruct (tq_count (sv_queue s) =? 256) eqn:E.
  - rewrite (C_bind_run _ _ _ false s) by (unfold enqueue; by rewrite E).
    cbv iota. rewrite run_bind, (bind_head _ _ _ _ (error_run _ _ _ _)). apply bind_cong.
    intros. apply release_alone.
  - unfold enqueue, mbind, C_bind. rewrite E.
    destruct (negb _); [done|]. by destruct (at_index _ _).
Qed.
End handlers.

Section connections.
Context {D : Type} `{RoomStore D}.
Implicit Types s : server D.

Lemma accept_alone fd s : run (accept_prog fd) s = accept_new_client fd s.
Proof. unfold accept_prog, accept_new_client. erase. Qed.
Lemma disconnect_alone fd s : run (disconnect_prog fd) s = disconnect_client fd s.
Proof. unfold disconnect_prog, disconnect_client. erase. Qed.
Lemma tcp_alone fd r s : run (tcp_prog fd r) s = handle_tcp_command fd r s.
Proof.
  unfold tcp_prog, handle_tcp_command. destruct r; erase; [|apply disconnect_alone..].
  apply process_alone.
Qed.

(** ** The ring and the mixer *)
Lemma with_ring_id s : with_ring (sv_ring s) s = s.
Proof. by destruct s. Qed.
Lemma push_alone pkt s : run (push_prog pkt) s = push_ring pkt s.
Proof.
  unfold push_prog, push_ring, ring_buffer_push. rewrite run_act. unfold try_push, mbind, C_bind.
  destruct (sv_ring s) as [[r e f]|] eqn:Er; [|done]. cbn [rs_empty rs_ring rs_full].
  destruct (sem_trywait e) as [e'|]; [|by rewrite <-Er, with_ring_id].
  change (run ?p) with (alone (sections p)). cbn. unfold ring_write, post_full, mbind, C_bind. cbn.
  by destruct (ring_enter_push r pkt).
Qed.
Lemma pop_alone s : run pop_prog s = pop_ring s.
Proof.
  unfold pop_prog, pop_ring, ring_buffer_pop. rewrite run_act. unfold try_pop, mbind, C_bind.
  destruct (sv_ring s) as [[r e f]|] eqn:Er; [|done]. cbn [rs_empty rs_ring rs_full].
  destruct (sem_trywait f) as [f'|]; [|by rewrite <-Er, with_ring_id].
  change (run ?p) with (alone (sections p)). cbn. unfold ring_read, post_empty, mbind, C_bind. cbn.
  by destruct (ring_enter_pop r) as [[pkt r']|].
Qed.
Lemma push_udp_alone pkt s :
  run (if 0 <? ap_payload_size pkt then
         shm_ring ← act (gets sv_ring);
         match shm_ring with Some _ => push_prog pkt | None => mret tt end
       else mret tt) s = when (0 <? ap_payload_size pkt) (push_ring pkt) s.
Proof.
  unfold when. case_match; [|done]. rewrite run_act, C_bind_gets.
  destruct (sv_ring s) eqn:E; [apply push_alone|]. unfold push_ring. by rewrite E.
Qed.
Lemma udp_alone data junk addr len s :
  run (udp_prog data junk addr len) s = handle_udp_packet data junk addr len s.
Proof.
  unfold udp_prog, handle_udp_packet. destruct data as [|b data]; [done|]. cbv zeta.
  set (pkt := received_packet _ _). rewrite run_bind. destruct (ap_sender_id pkt <? MAX_CLIENTS).
  - rewrite (bind_head _ _ _ _ (run_holding_end _ _ _)), (bind_head _ _ _ _ (run_act_end _ _)).
    apply bind_cong. intros [] s' _. apply push_udp_alone.
  - apply bind_cong. intros [] s' _. apply push_udp_alone.
Qed.

Lemma store_alone pkt s : run (store_prog pkt) s = store_packet pkt s.
Proof.
  unfold store_prog. cbv zeta. destruct (_ || _) eqn:E.
  - unfold store_packet. cbv zeta. by rewrite E.
  - by rewrite run_holding_end, run_act_end.
Qed.
(** What a thread did that has been followed to the end. *)
Definition followed {A} (o : option (bool * A)) : option (unit * A) :=
  match o with Some (true, s) => Some (tt, s) | _ => None end.
Lemma followed_bind {A} (m : C (server D) A) (k : A → C (server D) bool)
    (k' : A → C (server D) unit) s :
  (∀ a s', k' a s' = followed (k a s')) → (m ≫= k') s = followed ((m ≫= k) s).
Proof. intros E. unfold mbind, C_bind. by destruct (m s) as [[a s']|]. Qed.
Lemma followed_then (m' : C (server D) unit) (m : C (server D) bool) k' k s :
  m' s = followed (m s) → (∀ s', k' tt s' = followed (k true s')) →
  (∀ s', followed (k false s') = None) → (m' ≫= k') s = followed ((m ≫= k) s).
Proof.
  intros E E1 E0. unfold mbind, C_bind. rewrite E.
  destruct (m s) as [[[] s']|]; cbn [followed]; [apply E1|by rewrite E0|done].
Qed.

Lemma drain_alone fuel s : drain_ring fuel s = followed (run (drain_prog fuel) s).
Proof.
  revert s. induction fuel as [|fuel IH]; intros s; [done|]. cbn [drain_prog drain_ring].
  rewrite run_bind, (bind_head _ _ _ _ (pop_alone s)). apply followed_bind. intros [pkt|] s1; [|done].
  rewrite run_bind, (bind_head _ _ _ _ (store_alone pkt s1)). by apply followed_bind.
Qed.

Lemma send_alone speakers snapshot s : run (send_prog speakers snapshot) s = send_mixes speakers snapshot s.
Proof.
  revert s. induction snapshot as [|[c|] snapshot IH]; intros s; [done| |apply IH].
  cbn [send_prog send_mixes]. rewrite run_act, C_bind_assoc. apply bind_cong. intros y s1 _.
  apply bind_cong. intros [] s2 _. apply IH.
Qed.
Lemma mix_room_alone l s : run (mix_room_prog l) s = mix_room l s.
Proof.
  unfold mix_room_prog, mix_room. rewrite run_holding_act. unfold collect_room.
  do 4 (rewrite C_bind_assoc; apply bind_cong; intros ? ? _). apply send_alone.
Qed.
Lemma mix_rooms_alone fuel r s : mix_rooms fuel r s = followed (run (mix_rooms_prog fuel r) s).
Proof.
  revert r s. induction fuel as [|fuel IH]; intros [l|] s; [done..| |done].
  cbn [mix_rooms_prog mix_rooms]. rewrite run_act. apply followed_bind. intros x s1.
  rewrite run_bind. unfold when. destruct (0 <? _).
  - rewrite (bind_head _ _ _ _ (mix_room_alone l s1)). apply followed_bind. intros [] s2.
    rewrite run_act. by apply followed_bind.
  - apply followed_bind. intros [] s2. rewrite run_act. by apply followed_bind.
Qed.
Lemma tick_alone s : mixer_tick s = followed (run (tick_prog 129) s).
Proof.
  unfold tick_prog, mixer_tick. rewrite run_bind.
  apply followed_then; [apply drain_alone| |done]. intros s1.
  rewrite run_holding_end, run_act. apply followed_bind. intros n s2.
  rewrite run_act. apply followed_bind. intros r s3. apply mix_rooms_alone.
Qed.

(** ** The events *)
Lemma event_alone e s : sv_on s = true → handle_event e s = followed (run (event_prog 129 e) s).
Proof.
  intros Hon. assert (∀ (p : prog mutex (server D) unit) m, run p s = m s →
    m s = followed (run (_ ← p; mret true) s)) as Hk.
  { intros p m E. rewrite run_bind, (bind_head _ m _ _ E). unfold mbind, C_bind.
    by destruct (m s) as [[[] s']|]. }
  destruct e; cbn [event_prog handle_event];
    [apply Hk, accept_alone|apply Hk, tcp_alone|apply Hk, udp_alone|by apply Hk, worker_alone|
     apply tick_alone].
Qed.

Lemma show_rooms_pure fuel r s text s' : show_rooms fuel r s = Some (text, s') → s' = s.
Proof.
  revert r text s'. induction fuel as [|fuel IH]; intros [l|] text s'; cbn [show_rooms]; try done.
  1,3: by intros [= _ <-].
  intros (x&s1&[_ ->]%sv_read_room_inv&(t&s2&->%IH&[= _ <-])%C_bind_inv)%C_bind_inv. done.
Qed.
Lemma display_alone port rooms_fd wal_fd users_fd s :
  run (display_prog port rooms_fd wal_fd users_fd) s =
  display_screen port rooms_fd wal_fd users_fd s.
Proof.
  unfold display_prog, display_screen. do 12 erase_step.
  rewrite !C_bind_gets, run_act. apply bind_cong. intros text s1 ->%show_rooms_pure.
  rewrite run_act, C_bind_gets. erase.
Qed.
Lemma shutdown_alone fds s : run (shutdown_prog fds) s = shutdown_server fds s.
Proof. unfold shutdown_prog, shutdown_server. erase. Qed.
End connections.

(** What the threads do in their critical sections is, without other threads
    and while the server is on, what the operations do in one step: every
    event, the drawing of the screen and the shutdown, with the same result and
    the same final state, or both undefined. *)
Section theorem.
Context {D : Type} `{RoomStore D}.
Implicit Types s : server D.

Theorem server_threads_alone :
  (∀ (e : event) s, sv_on s = true → handle_event e s = followed (run (event_prog 129 e) s)) ∧
  (∀ port rooms_fd wal_fd users_fd s,
     run (display_prog port rooms_fd wal_fd users_fd) s =
     display_screen port rooms_fd wal_fd users_fd s) ∧
  (∀ fds s, run (shutdown_prog fds) s = shutdown_server fds s).
Proof. split_and!; [exact event_alone|exact display_alone|exact shutdown_alone]. Qed.
End theorem.
