(* ===== verification/Races.v ===== *)
(** * Races that the mutexes allow

    Runs of the server's threads, with every mutex taken as the code takes it,
    in which a thread accesses an object that another has freed, or follows a
    pointer that another has set to NULL.  The same events one after the other
    are harmless. *)
From stdpp Require Import relations.
From S2P Require Import Prelude CInt CString Protocol Posix RoomStore FileDb World RoomManager ServerState ClientHandler Network System Interleave Locks RoomLocks ServerLocks.
#[local] Open Scope Z_scope.

(** The server after some events, then the schedule: whether the next turn of
    thread [i], which need not wait, has no defined behaviour. *)
Definition crash_at (before : list event) (ps : list (prog mutex (server db) unit))
    (schedule : list nat) (i : nat) : option bool :=
  '(_, s) ← run_events before fresh_server;
  '(ts, s') ← linterleave schedule (fresh_worker <$> ps) s;
  Some (enabled ts i && match lturn i ts s' with None => true | Some _ => false end).

(** Whether the events after [before], one after the other, are defined. *)
Definition in_sequence (before es : list event) : bool :=
  match run_events (before ++ es) fresh_server with Some _ => true | None => false end.

(** The admin has connected, logged in and joined a room. *)
Definition admin_in_room : list event :=
  [Accept 7; Tcp 7 (line "LOGIN admin admin123"); Work; Tcp 7 (line "CREATE lobby"); Work;
   Tcp 7 (line "JOIN lobby"); Work].

(** The main thread when the loop has ended. *)
Definition stopping : prog mutex (server db) unit :=
  _ ← logs_prog 0; _ ← loop_prog 129 []; _ ← log_message; shutdown_prog [3; 4; 5].

Definition turns (i n : nat) : list nat := replicate n i.

(** Another client, with the name bob, is in the same room. *)
Definition two_in_room : list event :=
  admin_in_room ++ [Accept 8; Tcp 8 (line "REGISTER bob secret"); Work;
                    Tcp 8 (line "LOGIN bob secret"); Work; Tcp 8 (line "JOIN lobby"); Work].

(** The mixer sends to the members it has noted after it has given back the
    room's lock, and holds neither their reference count nor [clients_mutex];
    if the network thread disconnects one of them in between, the mixer reads
    a freed object.  One event after the other, in either order, is
    harmless. *)
Theorem mixer_races_with_disconnect :
  in_sequence two_in_room [Tick; Tcp 7 RecvClosed] = true ∧
  in_sequence two_in_room [Tcp 7 RecvClosed; Tick] = true ∧
  crash_at two_in_room [handling [Tick]; handling [Tcp 7 RecvClosed]]
    (turns 0 9 ++ turns 1 60) 0 = Some true.
Proof. split_and!; vm_done. Qed.

(** A worker that handles MUTE checks [current_room] and follows it when it
    takes the lock; if another worker handles LEAVE of the same client in
    between, the pointer is NULL.  KICK has the same two reads. *)
Theorem mute_races_with_leave :
  in_sequence (two_in_room ++ [Tcp 7 (line "MUTE bob"); Tcp 7 (line "LEAVE")]) [Work; Work] = true ∧
  crash_at (two_in_room ++ [Tcp 7 (line "MUTE bob"); Tcp 7 (line "LEAVE")])
    [handling [Work]; handling [Work]] (turns 0 6 ++ turns 1 60) 0 = Some true ∧
  crash_at (two_in_room ++ [Tcp 7 (line "KICK bob"); Tcp 7 (line "LEAVE")])
    [handling [Work]; handling [Work]] (turns 0 6 ++ turns 1 60) 0 = Some true.
Proof. split_and!; vm_done. Qed.

(** KICK finds its target under the room's lock and uses it after giving the
    lock back; if the target's connection is closed in between, it uses a
    freed object. *)
Theorem kick_races_with_disconnect :
  in_sequence (two_in_room ++ [Tcp 7 (line "KICK bob")]) [Work; Tcp 8 RecvClosed] = true ∧
  in_sequence (two_in_room ++ [Tcp 7 (line "KICK bob")]) [Tcp 8 RecvClosed; Work] = true ∧
  crash_at (two_in_room ++ [Tcp 7 (line "KICK bob")])
    [handling [Work]; handling [Tcp 8 RecvClosed]]
    (turns 0 11 ++ turns 1 60) 0 = Some true.
Proof. split_and!; vm_done. Qed.

(** [shutdown_server] frees the clients while workers and mixer are running:
    it waits for no thread and looks at no reference count.  A worker that has
    taken a task, or a mixer that has begun a room, then reads a freed
    object. *)
Theorem shutdown_races_with_threads :
  crash_at (two_in_room ++ [Tcp 7 (line "LIST")])
    [handling [Work]; stopping]
    (turns 0 4 ++ turns 1 60) 0 = Some true ∧
  crash_at two_in_room
    [handling [Tick]; stopping]
    (turns 0 9 ++ turns 1 60) 0 = Some true.
Proof. split_and!; vm_done. Qed.

(** A worker that handles KICK reads [current_room] to take the lock of the room
    and again to give it back.  If the same client's LEAVE and JOIN are handled
    in between, it gives back the lock of another room, which it does not hold,
    and keeps that of the first. *)
Definition den_ready : list event :=
  two_in_room ++ [Tcp 7 (line "CREATE den"); Work; Tcp 7 (line "KICK bob");
                  Tcp 7 (line "LEAVE"); Tcp 7 (line "JOIN den")].
Definition kick_and_moves : list (prog mutex (server db) unit) :=
  [handling [Work]; handling [Work; Work]].
Definition kick_schedule : list nat := turns 0 7 ++ turns 1 100 ++ turns 0 3.
Theorem kick_unlocks_other_room :
  in_sequence den_ready [Work; Work; Work] = true ∧
  crash_at den_ready kick_and_moves kick_schedule 0 = Some true ∧
  match run_events den_ready fresh_server with
  | Some (_, s) =>
    match linterleave kick_schedule (fresh_worker <$> kick_and_moves) s with
    | Some ([Worker [RoomLock l] (Unlock (RoomLock l') _); _], _) =>
      (l =? 2)%positive && (l' =? 3)%positive
    | _ => false
    end
  | None => false
  end = true.
Proof. split_and!; vm_done. Qed.

(** ** The signal handler and the log

    [handle_signal] calls [log_message] in whatever thread the signal
    interrupts, and then clears [server_on]. *)
Section signals.
Context {D : Type} `{StoreCallsLevel D}.
Implicit Types s : server D.
Implicit Types ts : list (worker mutex (server D) unit).

Definition handler_prog : prog mutex (server D) unit :=
  _ ← log_message; act (puts (with_on false)).
(** The thread does what the handler does and goes on. *)
Definition interrupt (i : nat) ts : list (worker mutex (server D) unit) :=
  match ts !! i with
  | Some (Worker h p) => <[i := Worker h (_ ← handler_prog; p)]> ts
  | None => ts
  end.

(** A thread that wants a mutex it holds stays where it is. *)
Lemma stuck_step (c c' : server D * list (worker mutex (server D) unit)) (i : nat) h l p :
  lstep c c' → c.2 !! i = Some (Worker h (Lock l p)) →
  l ∈ h → c'.2 !! i = Some (Worker h (Lock l p)).
Proof.
  intros [s ts j s' ts' He Ht] Hi Hl. cbn in *. destruct (decide (j = i)) as [->|Hne].
  - unfold enabled in He. rewrite Hi in He. apply bool_decide_eq_true in He.
    by destruct (Forall_lookup_1 _ _ _ _ He Hi).
  - unfold lturn in Ht. destruct (ts !! j) as [[g q]|]; [|by injection Ht as <- _].
    destruct q as [a|X m k|l' q|l' q].
    + by injection Ht as <- _.
    + apply C_bind_inv in Ht as (b&s1&_&[= <- _]). by rewrite list_lookup_insert_ne.
    + case_match; injection Ht as <- _; [|done]. by rewrite list_lookup_insert_ne.
    + case_match; [|done]. injection Ht as <- _. by rewrite list_lookup_insert_ne.
Qed.
Lemma stuck_run (c c' : server D * list (worker mutex (server D) unit)) (i : nat) h l p :
  rtc lstep c c' → c.2 !! i = Some (Worker h (Lock l p)) →
  l ∈ h → c'.2 !! i = Some (Worker h (Lock l p)).
Proof. induction 1; eauto using stuck_step. Qed.

(** C22. SIGINT in any reachable state of the threads, in a thread that is holding
    the mutexes [h].  If the log's mutex is among them, that is, if the signal
    comes while the thread is in [log_message], the thread waits for itself
    for ever: it never ends and keeps all it holds, and [server_on] is not
    cleared by it.  Otherwise the signal adds no deadlock: as long as not all
    threads have ended, one of them can take its next turn, or the next turn of
    one of them has undefined behaviour, just as without the signal (C18). *)
Theorem signal_deadlocks_iff_logging ps s s1 ts (i : nat) h p :
  Forall server_thread ps → rtc lstep (s, fresh_worker <$> ps) (s1, ts) →
  ts !! i = Some (Worker h p) →
  if decide (LogMutex ∈ h)
  then ∀ s2 ts2, rtc lstep (s1, interrupt i ts) (s2, ts2) →
    enabled ts2 i = false ∧
    ts2 !! i = Some (Worker h (Lock LogMutex (_ ← unlock LogMutex; _ ← act (puts (with_on false)); p)))
  else ∀ s2 ts2, rtc lstep (s1, interrupt i ts) (s2, ts2) →
    Forall (λ t, ended t = true) ts2 ∨ (∃ c, lstep (s2, ts2) c) ∨
    ∃ j, enabled ts2 j = true ∧ lturn j ts2 s2 = None.
Proof.
  intros Hps Hrun Hi.
  pose proof (lstep_well_locked _ _ _ Hrun (server_threads_well_locked ps Hps)) as [He Hd].
  assert (interrupt i ts = <[i := Worker h (_ ← handler_prog; p)]> ts) as ->
    by (unfold interrupt; by rewrite Hi).
  assert (i < length ts)%nat as Hlt by (by eapply lookup_lt_Some).
  destruct (decide (LogMutex ∈ h)) as [Hl|Hl]; intros s2 ts2 Hr.
  - eapply stuck_run in Hr; [|by apply list_lookup_insert_eq|exact Hl]. cbn in Hr. split; [|done].
    unfold enabled. rewrite Hr. cbn. apply bool_decide_eq_false_2. intros Hf.
    by destruct (Forall_lookup_1 _ _ _ _ Hf Hr).
  - apply well_locked_goes_on, (lstep_well_locked mutex_rank _ _ Hr). cbn. split.
    + eapply exclusive_update; [done..|]. cbn. tauto.
    + pose proof (Forall_lookup_1 _ _ _ _ Hd Hi) as [Hp Hn]. apply Forall_insert; [done|]. split; [|done].
      change (locks mutex_rank h (_ ← handler_prog; p) []).
      apply (locks_bind mutex_rank h handler_prog h); [|by intros _].
      assert (at_level mutex_rank 3 handler_prog) as [Hh] by (unfold handler_prog; leveled).
      apply Hh. intros l Hin. by destruct l; cbn; try lia.
Qed.
End signals.

(** SIGINT while the epoll thread reports a closed connection, and before. *)
Definition demo_closing : list (prog mutex (server db) unit) := [handling [Tcp 7 RecvClosed]].
Lemma signal_deadlocks_iff_logging_witness : ∃ s1 ts,
  linterleave [0; 0]%nat (fresh_worker <$> demo_closing) demo_start = Some (ts, s1) ∧
  ∀ s2 ts2, rtc lstep (s1, interrupt 0 ts) (s2, ts2) → enabled ts2 0 = false.
Proof.
  assert (((λ r, wk_held <$> r.1 !! 0%nat) <$>
    linterleave [0; 0]%nat (fresh_worker <$> demo_closing) demo_start) = Some (Some [LogMutex])) as Hf
    by (vm_compute; reflexivity).
  destruct (linterleave _ _ _) as [[ts s1]|] eqn:E; [|discriminate Hf]. cbn in Hf.
  destruct (ts !! 0%nat) as [[h p]|] eqn:Hi; [|discriminate Hf]. cbn in Hf. injection Hf as ->.
  exists s1, ts. split; [reflexivity|]. intros s2 ts2 Hr.
  apply linterleave_steps in E.
  assert (Forall server_thread demo_closing) as Hps by repeat constructor.
  exact (proj1 (signal_deadlocks_iff_logging demo_closing demo_start s1 ts 0 [LogMutex] p
    Hps E Hi s2 ts2 Hr)).
Defined.
