(* ===== verification/Workers.v ===== *)
(** * The worker threads of [src/server/client_handler.c]

    Workers wait on [task_cond] while the queue is empty; [process_client_command]
    signals it for every task it queues.  The queue, the threads and the
    condition variable as a step relation: signals, spurious wake-ups, the stop
    of the server, in any order.  No wake-up is lost, the tasks are taken in
    the order they came, and the workers by themselves empty the queue. *)
From stdpp Require Import relations.
From S2P Require Import Prelude CInt CString Protocol Posix RoomStore World ServerState ClientHandler Network System Locks RoomLocks ServerLocks.
#[local] Open Scope Z_scope.

Definition WORKER_THREADS : nat := 8.

(** ** The queue *)

(** A task is put in; [None] when the queue is full.  (The array is indexed
    within its bounds: [queue_rep].) *)
Definition put (q : task_queue) (t : worker_task) : option task_queue :=
  if tq_count q =? 256 then None
  else Some (TaskQueue (<[Z.to_nat (tq_tail q) := t]> (tq_tasks q)) (tq_count q + 1)
              (tq_head q) (Z.rem (tq_tail q + 1) 256)).
(** The oldest task; [None] when the queue is empty. *)
Definition take_task (q : task_queue) : option (worker_task * task_queue) :=
  if tq_count q =? 0 then None
  else
    t ← at_index (tq_tasks q) (tq_head q);
    Some (t, TaskQueue (tq_tasks q) (tq_count q - 1) (Z.rem (tq_head q + 1) 256) (tq_tail q)).

(** ** The threads *)
Inductive worker_state :=
  | Ready                        (** in the loop, wants [task_mutex] *)
  | Waiting                      (** in [pthread_cond_wait] *)
  | Busy (t : worker_task)       (** runs a task *)
  | Exited.
#[export] Instance worker_task_dec : EqDecision worker_task.
Proof. solve_decision. Defined.
#[export] Instance worker_state_dec : EqDecision worker_state.
Proof. solve_decision. Defined.

(** The pool, with the tasks accepted and taken so far. *)
Record pool := Pool {
  po_on : bool;                  (** [server_on] *)
  po_queue : task_queue;
  po_workers : list worker_state;
  po_accepted : list worker_task;
  po_taken : list worker_task
}.
Definition with_workers (ws : list worker_state) (p : pool) : pool :=
  Pool (po_on p) (po_queue p) ws (po_accepted p) (po_taken p).

(** [client_handler_init], with the queue as [main] finds it. *)
Definition client_handler_init : pool :=
  Pool true (TaskQueue (replicate 256 (WorkerTask None [])) 0 0 0)
    (replicate WORKER_THREADS Ready) [] [].

(** What a worker does with [task_mutex]: the loop around [pthread_cond_wait],
    and what follows it. *)
Definition test_queue (p : pool) (i : nat) : option pool :=
  if tq_count (po_queue p) =? 0
  then Some (with_workers (<[i := if po_on p then Waiting else Exited]> (po_workers p)) p)
  else if negb (po_on p) then Some (with_workers (<[i := Exited]> (po_workers p)) p)
  else
    '(t, q) ← take_task (po_queue p);
    Some (Pool (po_on p) q (<[i := Busy t]> (po_workers p)) (po_accepted p) (po_taken p ++ [t])).

(** Steps of the workers themselves. *)
Inductive worker_step_of : pool → pool → Prop :=
  (** [while(server_on)] and the section under [task_mutex] *)
  | step_test p p' (i : nat) : po_workers p !! i = Some Ready → test_queue p i = Some p' →
      worker_step_of p p'
  (** the task is done; [while(server_on)] is tested *)
  | step_finish p (i : nat) t : po_workers p !! i = Some (Busy t) →
      worker_step_of p (with_workers (<[i := if po_on p then Ready else Exited]> (po_workers p)) p).

(** Steps of the pool. *)
Inductive pool_step : pool → pool → Prop :=
  | step_worker p p' : worker_step_of p p' → pool_step p p'
  (** [process_client_command]: the task is queued, and [pthread_cond_signal]
      wakes one of the waiting threads, if there are any *)
  | step_put_signal p q t (i : nat) : put (po_queue p) t = Some q →
      po_workers p !! i = Some Waiting →
      pool_step p (Pool (po_on p) q (<[i := Ready]> (po_workers p)) (po_accepted p ++ [t]) (po_taken p))
  | step_put p q t : put (po_queue p) t = Some q → Waiting ∉ po_workers p →
      pool_step p (Pool (po_on p) q (po_workers p) (po_accepted p ++ [t]) (po_taken p))
  (** a wake-up without a signal *)
  | step_spurious p (i : nat) : po_workers p !! i = Some Waiting →
      pool_step p (with_workers (<[i := Ready]> (po_workers p)) p)
  (** the signal handler or the FIFO thread stops the server *)
  | step_stop p : pool_step p (Pool false (po_queue p) (po_workers p) (po_accepted p) (po_taken p)).

(** ** Counting threads *)
Definition is_ready (w : worker_state) : nat := if decide (w = Ready) then 1 else 0.
Definition ready_count (ws : list worker_state) : nat := sum_list_with is_ready ws.
#[local] Arguments ready_count : simpl never.

Lemma sum_insert (f : worker_state → nat) ws (i : nat) a b : ws !! i = Some a →
  (sum_list_with f (<[i := b]> ws) + f a = sum_list_with f ws + f b)%nat.
Proof.
  revert i. induction ws as [|w ws IH]; intros [|i] Hi; [done..| |].
  - injection Hi as ->. change (<[0%nat := b]> (a :: ws)) with (b :: ws). cbn. lia.
  - change (<[S i := b]> (w :: ws)) with (w :: <[i := b]> ws). specialize (IH i Hi). cbn. lia.
Qed.

Lemma ready_leave ws (i : nat) b : ws !! i = Some Ready → b ≠ Ready →
  S (ready_count (<[i := b]> ws)) = ready_count ws.
Proof.
  intros Hi Hb. pose proof (sum_insert is_ready ws i Ready b Hi) as E. unfold ready_count.
  unfold is_ready at 2 4 in E. rewrite decide_True, decide_False in E by done. lia.
Qed.
Lemma ready_enter ws (i : nat) a : ws !! i = Some a → a ≠ Ready →
  ready_count (<[i := Ready]> ws) = S (ready_count ws).
Proof.
  intros Hi Ha. pose proof (sum_insert is_ready ws i a Ready Hi) as E. unfold ready_count.
  unfold is_ready at 2 4 in E. rewrite decide_False, decide_True in E by done. lia.
Qed.

Lemma not_inserted (ws : list worker_state) (i : nat) a b : b ≠ a → a ∉ ws → a ∉ <[i := b]> ws.
Proof.
  intros Hb Hws [j Hj]%list_elem_of_lookup. apply list_lookup_insert_Some in Hj as [(_&?&_)|[_ Hj]];
    [done|]. apply Hws. by eapply list_elem_of_lookup_2.
Qed.

(** ** The invariant *)
Record pool_ok (p : pool) (ts : list worker_task) : Prop := {
  po_rep : queue_rep (po_queue p) ts;
  po_order : po_accepted p = po_taken p ++ ts;
  po_stay : po_on p = true → Exited ∉ po_workers p;
  po_wake : po_on p = true → Waiting ∉ po_workers p ∨ (length ts ≤ ready_count (po_workers p))%nat
}.

Lemma put_ok q t q' ts : queue_rep q ts → put q t = Some q' → queue_rep q' (ts ++ [t]).
Proof.
  intros Hq. unfold put. destruct (Z.eqb_spec (tq_count q) 256) as [|Hc]; [done|].
  intros [= <-]. apply queue_push; [done|]. destruct Hq. lia.
Qed.
Lemma take_task_ok q t ts : queue_rep q (t :: ts) →
  ∃ q', take_task q = Some (t, q') ∧ queue_rep q' ts.
Proof.
  intros Hq. destruct (queue_pop q t ts Hq) as [Ht Hq']. eexists. split; [|exact Hq'].
  unfold take_task. destruct (Z.eqb_spec (tq_count q) 0) as [Hc|].
  { destruct Hq. cbn in *. lia. }
  by rewrite Ht.
Qed.

Lemma queue_empty q ts : queue_rep q ts → ((tq_count q =? 0) = true) ↔ (ts = []).
Proof.
  intros []. rewrite Z.eqb_eq. destruct ts; cbn in *; split; try done; try lia.
Qed.

Lemma pool_init_ok : pool_ok client_handler_init [].
Proof.
  split; [|done|..].
  - split; [done|cbn; lia|done|cbn; lia|done|done].
  - intros _. by intros [? _]%elem_of_replicate.
  - intros _. left. by intros [? _]%elem_of_replicate.
Qed.

(** What a thread that has [task_mutex] finds. *)
Lemma test_queue_spec p ts (i : nat) : pool_ok p ts → po_workers p !! i = Some Ready →
  ∃ p', test_queue p i = Some p' ∧
    ((ts = [] ∨ po_on p = false) ∧
       p' = with_workers (<[i := if po_on p then Waiting else Exited]> (po_workers p)) p ∨
     ∃ t ts' q, ts = t :: ts' ∧ po_on p = true ∧ queue_rep q ts' ∧
       p' = Pool (po_on p) q (<[i := Busy t]> (po_workers p)) (po_accepted p) (po_taken p ++ [t])).
Proof.
  intros [Hq Ho He Hw] Hi. unfold test_queue. destruct (tq_count (po_queue p) =? 0) eqn:E.
  { apply (queue_empty _ _ Hq) in E. eexists. split; [done|]. left. by split; [left|]. }
  destruct ts as [|t ts].
  { apply (queue_empty _ _) in Hq as [_ Hq]. by rewrite Hq in E. }
  destruct (po_on p) eqn:Hon; cbn [negb].
  - destruct (take_task_ok _ _ _ Hq) as (q&->&Hq'). eexists. split; [reflexivity|].
    right. by exists t, ts, q.
  - eexists. split; [done|]. left. by split; [right|].
Qed.

Lemma worker_step_ok p p' ts : pool_ok p ts → worker_step_of p p' → ∃ ts', pool_ok p' ts'.
Proof.
  intros Hp Hs. pose proof Hp as [Hq Ho He Hw].
  destruct Hs as [p p' i Hi Ht|p i t Hi].
  - destruct (test_queue_spec p ts i Hp Hi) as (?&Ht'&Hcase). rewrite Ht in Ht'. injection Ht' as <-.
    destruct Hcase as [[Hts ->]|(t&ts'&q&->&Hon&Hq'&->)].
    + exists ts. split; [done|done|..]; cbn; intros Hon; rewrite Hon.
      * apply not_inserted; auto.
      * right. destruct Hts as [->|]; [cbn; lia|congruence].
    + exists ts'. split; [done|cbn; by rewrite Ho, <-app_assoc|..]; cbn; intros _.
      * apply not_inserted; auto.
      * destruct (Hw Hon) as [Hn|Hl]; [left; by apply not_inserted|right].
        pose proof (ready_leave _ i (Busy t) Hi ltac:(done)).
        cbn [length po_workers] in *. lia.
  - exists ts. split; [done|done|..]; cbn; intros Hon; rewrite Hon.
    + apply not_inserted; auto.
    + rewrite (ready_enter _ i (Busy t) Hi) by done.
      destruct (Hw Hon) as [Hn|Hl]; [left; by apply not_inserted|right; lia].
Qed.

Lemma pool_step_ok p p' ts : pool_ok p ts → pool_step p p' → ∃ ts', pool_ok p' ts'.
Proof.
  intros Hp Hs. destruct Hs as [p p' Hs|p q t i Hput Hi|p q t Hput Hn|p i Hi|p];
    [by eapply worker_step_ok|destruct Hp as [Hq Ho He Hw]..].
  - exists (ts ++ [t]). split; cbn; [by eapply put_ok|by rewrite Ho, app_assoc|..]; intros Hon.
    + apply not_inserted; auto.
    + right. rewrite (ready_enter _ i Waiting Hi), length_app by done. cbn.
      destruct (Hw Hon) as [Hn|]; [|lia]. destruct Hn. by eapply list_elem_of_lookup_2.
  - exists (ts ++ [t]). split; cbn; [by eapply put_ok|by rewrite Ho, app_assoc|done|by left].
  - exists ts. split; [done|done|..]; cbn; intros Hon; [apply not_inserted; auto|].
    rewrite (ready_enter _ i Waiting Hi) by done.
    destruct (Hw Hon) as [Hn|]; [|right; lia]. destruct Hn. by eapply list_elem_of_lookup_2.
  - exists ts. by split.
Qed.

Lemma pool_step_length p p' : pool_step p p' → length (po_workers p') = length (po_workers p).
Proof.
  intros Hs. destruct Hs as [p p' [? ? i Hi Ht|? i t Hi]|p q t i Hput Hi|p q t Hput Hn|p i Hi|p];
    cbn; rewrite ?length_insert; try done.
  unfold test_queue in Ht. repeat case_match; try (injection Ht as <-; cbn; by rewrite length_insert).
  destruct (take_task _) as [[t q]|]; [|done]. injection Ht as <-. cbn. by rewrite length_insert.
Qed.

Lemma pool_run_ok p : rtc pool_step client_handler_init p →
  (∃ ts, pool_ok p ts) ∧ length (po_workers p) = WORKER_THREADS.
Proof.
  apply (rtc_ind_r (λ p, (∃ ts, pool_ok p ts) ∧ length (po_workers p) = WORKER_THREADS)).
  - split; [by exists []; apply pool_init_ok|done].
  - intros y z _ Hs [[ts Hy] Hl]. split; [by eapply pool_step_ok|].
    by rewrite (pool_step_length _ _ Hs).
Qed.

(** ** The workers by themselves come to rest *)
Definition weight (w : worker_state) : nat :=
  match w with Ready => 1 | Busy _ => 2 | Waiting | Exited => 0 end.
Definition work_left (p : pool) (ts : list worker_task) : nat :=
  2 * length ts + sum_list_with weight (po_workers p).

Lemma worker_step_decreases p p' ts : pool_ok p ts → worker_step_of p p' →
  ∃ ts', pool_ok p' ts' ∧ (work_left p' ts' < work_left p ts)%nat.
Proof.
  intros Hp Hs. destruct (worker_step_ok p p' ts Hp Hs) as [ts' Hp']. exists ts'. split; [done|].
  assert (∀ q us vs, queue_rep q us → queue_rep q vs → length us = length vs) as Hlen.
  { intros q us vs [] []. lia. }
  unfold work_left. destruct Hs as [p p' i Hi Ht|p i t Hi].
  - destruct (test_queue_spec p ts i Hp Hi) as (?&Ht'&Hcase). rewrite Ht in Ht'. injection Ht' as <-.
    destruct Hcase as [[Hts ->]|(t&us&q&->&Hon&Hq'&->)].
    + rewrite (Hlen _ ts' ts (po_rep _ _ Hp') (po_rep _ _ Hp)).
      pose proof (sum_insert weight (po_workers p) i Ready (if po_on p then Waiting else Exited) Hi).
      cbn in *. destruct (po_on p); cbn in *; lia.
    + rewrite (Hlen _ ts' us (po_rep _ _ Hp') Hq').
      pose proof (sum_insert weight (po_workers p) i Ready (Busy t) Hi). cbn in *. lia.
  - rewrite (Hlen _ ts' ts (po_rep _ _ Hp') (po_rep _ _ Hp)).
    pose proof (sum_insert weight (po_workers p) i (Busy t) (if po_on p then Ready else Exited) Hi).
    cbn in *. destruct (po_on p); cbn in *; lia.
Qed.

Lemma workers_end p ts : pool_ok p ts → sn worker_step_of p.
Proof.
  remember (work_left p ts) as n eqn:E. revert p ts E.
  induction n as [n IH] using (well_founded_induction lt_wf). intros p ts -> Hp.
  constructor. intros p' Hs. destruct (worker_step_decreases p p' ts Hp Hs) as (ts'&Hp'&Hlt).
  by eapply (IH _ Hlt p' ts').
Qed.

(** At rest nobody is ready or busy. *)
Lemma at_rest p ts (i : nat) w : pool_ok p ts → nf worker_step_of p → po_workers p !! i = Some w →
  w = Waiting ∨ w = Exited.
Proof.
  intros Hp Hnf Hi. destruct w as [| |t|]; [|by left| |by right]; destruct Hnf.
  - destruct (test_queue_spec p ts i Hp Hi) as (p'&Ht&_). exists p'. by econstructor.
  - eexists. by eapply step_finish.
Qed.

Lemma worker_run_ok p p' ts : pool_ok p ts → rtc worker_step_of p p' →
  (∃ ts', pool_ok p' ts') ∧ length (po_workers p') = length (po_workers p) ∧ po_on p' = po_on p ∧
  po_accepted p' = po_accepted p.
Proof.
  intros Hp Hr. revert ts Hp. induction Hr as [|p p1 p2 Hs _ IH]; intros ts Hp; [by eauto|].
  destruct (worker_step_ok p p1 ts Hp Hs) as [ts1 Hp1].
  destruct (IH ts1 Hp1) as (H2&Hl&Ho&Ha). split; [done|].
  rewrite Hl, Ho, Ha, (pool_step_length p p1) by (by constructor).
  destruct Hs as [p p1 i Hi Ht|p i t Hi]; [|done].
  destruct (test_queue_spec p ts i Hp Hi) as (?&Ht'&Hcase). rewrite Ht in Ht'. injection Ht' as <-.
  by destruct Hcase as [[_ ->]|(t&us&q&_&_&_&->)].
Qed.

(** ** The theorems *)

(** C20. In every state that the workers, the commands, spurious wake-ups and the
    stop can reach, in any order: the array holds the tasks [ts] that were
    accepted and not taken, oldest first, at most 256, a task is refused
    exactly when there are 256, and tasks are taken in the order they came;
    no thread has left while the server is on; and no wake-up is lost: a
    thread waits only when there are at least as many threads on their way to
    the queue as there are tasks in it. *)
Theorem worker_pool_correct p : rtc pool_step client_handler_init p →
  ∃ ts, queue_rep (po_queue p) ts ∧ po_accepted p = po_taken p ++ ts ∧
    (∀ t, put (po_queue p) t = None ↔ (length ts = 256)%nat) ∧
    length (po_workers p) = WORKER_THREADS ∧
    (po_on p = true → (Exited ∉ po_workers p) ∧
       (Waiting ∉ po_workers p ∨ (length ts ≤ ready_count (po_workers p))%nat)).
Proof.
  intros [[ts [Hq Ho He Hw]] Hl]%pool_run_ok. exists ts. split_and!; [done|done| |done|by auto].
  intros t. unfold put. destruct Hq as [_ _ Hc _ _ _].
  destruct (Z.eqb_spec (tq_count (po_queue p)) 256); split; try done; lia.
Qed.

(** C21. From every reachable state in which the server is on, if no more
    commands come and it is not stopped, the workers come
    to rest after finitely many steps, whichever of them run; at rest every
    accepted task has been taken and all eight threads wait. *)
Theorem workers_empty_queue p : rtc pool_step client_handler_init p → po_on p = true →
  sn worker_step_of p ∧
  ∀ p', rtc worker_step_of p p' → nf worker_step_of p' →
    po_taken p' = po_accepted p ∧ po_workers p' = replicate WORKER_THREADS Waiting.
Proof.
  intros [[ts Hp] Hl]%pool_run_ok Hon. split; [by eapply workers_end|].
  intros p' Hr Hnf. destruct (worker_run_ok p p' ts Hp Hr) as ([ts' Hp']&Hl'&Hon'&Ha).
  rewrite Hon in Hon'. assert (po_workers p' = replicate WORKER_THREADS Waiting) as Hws.
  { symmetry. apply replicate_as_elem_of. split; [congruence|]. intros w [i Hi]%list_elem_of_lookup.
    destruct (at_rest p' ts' i w Hp' Hnf Hi) as [->| ->]; [done|].
    destruct (po_stay _ _ Hp' Hon'). by eapply list_elem_of_lookup_2. }
  split; [|done]. destruct Hp' as [_ Ho _ Hw]. rewrite <-Ha, Ho. specialize (Hw Hon').
  destruct Hw as [Hn|Hle].
  - destruct Hn. rewrite Hws. by left.
  - rewrite Hws in Hle. change (length ts' ≤ 0)%nat in Hle.
    destruct ts'; [by rewrite app_nil_r|cbn in Hle; lia].
Qed.

(** [server_on=0] wakes nobody: a thread that waits when the server stops
    waits for ever, unless it wakes up without a signal, and the tasks in the
    queue are not run. *)
Theorem stop_strands_workers p p' : rtc pool_step client_handler_init p → po_on p = false →
  rtc worker_step_of p p' →
  po_taken p' = po_taken p ∧
  ∀ (i : nat), po_workers p !! i = Some Waiting → po_workers p' !! i = Some Waiting.
Proof.
  intros [[ts Hp] Hl]%pool_run_ok Hoff Hr. clear Hl. revert ts Hp Hoff.
  induction Hr as [|p p1 p2 Hs _ IH]; intros ts Hp Hoff; [done|].
  destruct (worker_step_ok p p1 ts Hp Hs) as [ts1 Hp1].
  destruct Hs as [p p1 i Hi Ht|p i t Hi].
  - destruct (test_queue_spec p ts i Hp Hi) as (?&Ht'&Hcase). rewrite Ht in Ht'. injection Ht' as <-.
    destruct Hcase as [[_ ->]|(t&us&q&_&Hon&_)]; [|congruence].
    destruct (IH ts1 Hp1 Hoff) as [IHt IHw]. split; [done|]. intros j Hj. apply IHw. cbn.
    rewrite list_lookup_insert_ne; [done|]. intros ->. congruence.
  - destruct (IH ts1 Hp1 Hoff) as [IHt IHw]. split; [done|]. intros j Hj. apply IHw. cbn.
    rewrite list_lookup_insert_ne; [done|]. intros ->. congruence.
Qed.

(** The queue of the server is this queue. *)
Lemma queue_operations {D} (s : server D) c command :
  dequeue s =
    (if tq_count (sv_queue s) =? 0 then Some (None, s)
     else '(t, q) ← take_task (sv_queue s); Some (Some t, with_queue q s)) ∧
  (is_Some (at_index (tq_tasks (sv_queue s)) (tq_tail (sv_queue s))) →
   (strlen command < MAX_PACKET_SIZE)%nat →
   enqueue c command s =
     match put (sv_queue s) (WorkerTask (Some c) (c_str command)) with
     | Some q => Some (true, with_queue q s)
     | None => Some (false, s)
     end).
Proof.
  unfold dequeue, take_task, enqueue, put. split.
  - destruct (_ =? 0); [done|]. by destruct (at_index _ _).
  - intros [t Ht] Hl. destruct (_ =? 256); [done|]. rewrite Ht.
    by rewrite (proj2 (Nat.ltb_lt _ _) Hl).
Qed.

(** ** Witnesses *)

(** A command, taken by the first thread; the second waits. *)
Definition demo_task : worker_task := WorkerTask (Some 1%positive) (str "LIST").
Definition demo_pool : pool :=
  Pool true (TaskQueue (<[0%nat := demo_task]> (replicate 256 (WorkerTask None []))) 0 1 1)
    (Busy demo_task :: Waiting :: replicate 6 Ready) [demo_task] [demo_task].
Lemma demo_pool_reached : rtc pool_step client_handler_init demo_pool.
Proof.
  eapply rtc_l. { apply (step_put client_handler_init _ demo_task eq_refl). by intros [? _]%elem_of_replicate. }
  eapply rtc_l. { apply step_worker, (step_test _ _ 0); reflexivity. }
  eapply rtc_l. { apply step_worker, (step_test _ _ 1); reflexivity. }
  apply rtc_refl.
Qed.

Lemma worker_pool_correct_witness : ∃ ts, queue_rep (po_queue demo_pool) ts ∧
  po_accepted demo_pool = po_taken demo_pool ++ ts.
Proof.
  destruct (worker_pool_correct demo_pool demo_pool_reached) as (ts&Hq&Ho&_). by exists ts.
Defined.

Lemma workers_empty_queue_witness : sn worker_step_of demo_pool.
Proof. exact (proj1 (workers_empty_queue demo_pool demo_pool_reached eq_refl)). Defined.

Definition demo_stopped : pool :=
  Pool false (po_queue demo_pool) (po_workers demo_pool) (po_accepted demo_pool) (po_taken demo_pool).
Lemma stop_strands_workers_witness : ∃ p',
  rtc worker_step_of demo_stopped p' ∧ po_workers p' !! 1%nat = Some Waiting.
Proof.
  eexists. assert (rtc pool_step client_handler_init demo_stopped) as Hr
    by (eapply rtc_r; [exact demo_pool_reached|apply step_stop]).
  split; [apply rtc_once, (step_finish demo_stopped 0 demo_task eq_refl)|].
  refine (proj2 (stop_strands_workers demo_stopped _ Hr eq_refl _) 1%nat eq_refl).
  apply rtc_once, (step_finish demo_stopped 0 demo_task eq_refl).
Defined.
