(* ===== verification/Clock.v ===== *)
(** * The mixer's clock

    [get_time_ms] of [src/common/utils.c] and the loop of [mixer_thread_main]
    in [src/server/audio_mixer.c]: each iteration mixes once and sleeps until
    an absolute time.  The model has a clock: an iteration takes some time, the
    timer wakes the thread some time late, a signal wakes it early.  Since the
    deadlines are absolute, lateness does not add up. *)
From S2P Require Import Prelude CInt CString Protocol Posix RoomStore FileDb World ServerState Mixer ClientHandler Network System EventLoop Interleave.
#[local] Open Scope Z_scope.

(** ** [struct timespec] *)
Definition nanoseconds (t : Z * Z) : Z := t.1 * 1000000000 + t.2.
Definition wf_timespec (t : Z * Z) : Prop := 0 ≤ t.1 ∧ 0 ≤ t.2 < 1000000000.

(** [get_time_ms] at the time [t] of the monotonic clock. *)
Definition get_time_ms (t : Z * Z) : Z := t.1 * 1000 + Z.quot t.2 1000000.

Lemma get_time_ms_floor t : wf_timespec t → get_time_ms t = nanoseconds t / 1000000.
Proof.
  intros (Hs&Hn). unfold get_time_ms, nanoseconds. rewrite Z.quot_div_nonneg by lia.
  apply Z.div_unique with (r := t.2 mod 1000000).
  - left. apply Z.mod_pos_bound. lia.
  - pose proof (Z.div_mod t.2 1000000). lia.
Qed.

Lemma next_tick_ok t : wf_timespec t →
  wf_timespec (next_tick t) ∧ nanoseconds (next_tick t) = nanoseconds t + 20000000.
Proof.
  intros (Hs&Hn). unfold next_tick, wf_timespec, nanoseconds.
  destruct (Z.leb_spec 1000000000 (t.2 + 20000000)); cbn [fst snd]; lia.
Qed.

Lemma next_tick_ms t : wf_timespec t → get_time_ms (next_tick t) = get_time_ms t + 20.
Proof.
  intros Ht. destruct (next_tick_ok t Ht) as [Ht' E]. rewrite !get_time_ms_floor, E by done.
  replace 20000000 with (20 * 1000000) by lia. rewrite Z.div_add by lia. done.
Qed.

(** ** The loop *)

(** How [clock_nanosleep] ends: by the timer, so many nanoseconds late, or
    interrupted by a signal after so many. *)
Inductive wakeup :=
  | Timer (late : Z)
  | Interrupted (after : Z).

(** When it returns, called at [now] with this deadline; a deadline in the past
    does not wait. *)
Definition clock_nanosleep (deadline now : Z) (w : wakeup) : Z :=
  match w with
  | Timer late => Z.max deadline now + late
  | Interrupted after => Z.min (Z.max deadline now) (now + after)
  end.

(** An iteration to come: what the loop tests, [mixer_running && server_on], how
    long it takes up to the sleep, how the sleep ends, and the turns other
    threads take before the next. *)
Record iteration := Iteration {
  it_running : bool;
  it_took : Z;
  it_wake : wakeup;
  it_others : list event
}.

(** No signal, at most [late] ns late, and an iteration that with this lateness
    ends within its 20 ms. *)
Definition punctual (late : Z) (it : iteration) : Prop :=
  0 ≤ it_took it ≤ 20000000 - late ∧
  match it_wake it with Timer l => 0 ≤ l ≤ late | Interrupted _ => False end.

Section loop.
Context {D : Type} `{RoomStore D}.

(** [mixer_thread_main] with [next_tick = t], at the time [now]: when each
    iteration begins, and the time it sleeps until. *)
Fixpoint mixer_thread_main (t : Z * Z) (now : Z) (its : list iteration)
    : C (server D) (list (Z * (Z * Z))) :=
  match its with
  | [] => mret []
  | it :: its' =>
    if it_running it then
      _ ← mixer_tick;
      let t' := next_tick t in
      _ ← run_events (it_others it);
      rest ← mixer_thread_main t'
        (clock_nanosleep (nanoseconds t') (now + it_took it) (it_wake it)) its';
      mret ((now, t') :: rest)
    else mret []
  end.

Lemma main_next t now it its (s s' : server D) out :
  mixer_thread_main t now (it :: its) s = Some (out, s') →
  if it_running it then ∃ rest s1, out = (now, next_tick t) :: rest ∧
    mixer_thread_main (next_tick t)
      (clock_nanosleep (nanoseconds (next_tick t)) (now + it_took it) (it_wake it)) its s1 =
      Some (rest, s')
  else out = [].
Proof.
  cbn [mixer_thread_main]. destruct (it_running it); [|by intros [= <- _]].
  intros ([]&s1&_&([]&s2&_&(rest&s3&Hr&[= <- <-])%C_bind_inv)%C_bind_inv)%C_bind_inv.
  by exists rest, s2.
Qed.

(** The deadlines are those of the clock. *)
Lemma deadlines_exact its : ∀ t now (s s' : server D) out (k : nat) b t', wf_timespec t →
  mixer_thread_main t now its s = Some (out, s') → out !! k = Some (b, t') →
  wf_timespec t' ∧ nanoseconds t' = nanoseconds t + 20000000 * (Z.of_nat k + 1) ∧
  get_time_ms t' = get_time_ms t + 20 * (Z.of_nat k + 1).
Proof.
  induction its as [|it its IH]; intros t now s s' out k b t' Ht Hrun Hk.
  { injection Hrun as <- _. by rewrite lookup_nil in Hk. }
  apply main_next in Hrun. destruct (it_running it); [|subst out; by rewrite lookup_nil in Hk].
  destruct Hrun as (rest&s1&->&Hrun).
  destruct (next_tick_ok t Ht) as [Ht1 E]. pose proof (next_tick_ms t Ht) as Em.
  destruct k as [|k]; cbn in Hk.
  - injection Hk as _ <-. split; [done|]. lia.
  - destruct (IH _ _ _ _ _ _ _ _ Ht1 Hrun Hk) as (?&E2&E3). split; [done|]. lia.
Qed.

(** An iteration begins when the sleep before it has ended. *)
Lemma begins its : ∀ t now (s s' : server D) out (k : nat) b t' b2 t2 it,
  mixer_thread_main t now its s = Some (out, s') → out !! k = Some (b, t') →
  out !! S k = Some (b2, t2) → its !! k = Some it →
  b2 = clock_nanosleep (nanoseconds t') (b + it_took it) (it_wake it).
Proof.
  induction its as [|i its IH]; intros t now s s' out k b t' b2 t2 it Hrun Hk Hk2 Hit; [done|].
  apply main_next in Hrun. destruct (it_running i); [|subst out; by rewrite lookup_nil in Hk].
  destruct Hrun as (rest&s1&->&Hrun). destruct k as [|k]; cbn in Hk, Hk2, Hit.
  - injection Hk as <- <-. injection Hit as ->. destruct its as [|i2 its].
    { by injection Hrun as <- _. }
    apply main_next in Hrun. destruct (it_running i2); [|by subst rest].
    destruct Hrun as (rest'&s2&->&_). by injection Hk2 as <- _.
  - by eapply IH.
Qed.

(** Punctual iterations stay within their lateness. *)
Lemma punctual_begins late its : ∀ t now (s s' : server D) out (k : nat) b t',
  wf_timespec t → Forall (punctual late) its → 0 ≤ now - nanoseconds t ≤ late →
  mixer_thread_main t now its s = Some (out, s') → out !! k = Some (b, t') →
  0 ≤ b - (nanoseconds t + 20000000 * Z.of_nat k) ≤ late.
Proof.
  induction its as [|it its IH]; intros t now s s' out k b t' Ht Hp Hnow Hrun Hk.
  { injection Hrun as <- _. by rewrite lookup_nil in Hk. }
  apply main_next in Hrun. destruct (it_running it); [|subst out; by rewrite lookup_nil in Hk].
  destruct Hrun as (rest&s1&->&Hrun). destruct (next_tick_ok t Ht) as [Ht1 E].
  destruct k as [|k]; cbn in Hk; [injection Hk as <- _; lia|].
  inv Hp. destruct H2 as [Htook Hwake]. destruct (it_wake it) as [l|]; [|done].
  eapply IH in Hk; [|done|done| |exact Hrun]; [lia|]. cbn [clock_nanosleep]. lia.
Qed.

(** C36. The mixer's clock, started at the time [t]; an iteration takes the time
    it takes, and the timer wakes the thread as late as it does.  The deadline
    passed to the [k]-th sleep is [20 (k+1)] ms after the start, in nanoseconds
    and by [get_time_ms], and a valid [timespec].  By how much an iteration
    begins after its time, [20 k] ms after the start, depends only on how late
    the one before began, how long it took and how late the timer was: lateness
    up to 20 ms is made up by the next sleep.  So the clock does not drift: when no signal
    interrupts the sleeps, the timer is at most [late] ns late and each
    iteration takes at most 20 ms less that, every iteration begins at its time
    or at most [late] ns after it, however many there have been. *)
Theorem mixer_clock_exact t its (s s' : server D) out : wf_timespec t →
  mixer_thread_main t (nanoseconds t) its s = Some (out, s') →
  let delay (k : nat) b := b - (nanoseconds t + 20000000 * Z.of_nat k) in
  (∀ (k : nat) b t', out !! k = Some (b, t') →
     wf_timespec t' ∧ nanoseconds t' = nanoseconds t + 20000000 * (Z.of_nat k + 1) ∧
     get_time_ms t' = get_time_ms t + 20 * (Z.of_nat k + 1)) ∧
  (∀ (k : nat) b t' b2 t2 it late, out !! k = Some (b, t') → out !! S k = Some (b2, t2) →
     its !! k = Some it → it_wake it = Timer late →
     delay (S k) b2 = Z.max 0 (delay k b + it_took it - 20000000) + late) ∧
  (∀ late, 0 ≤ late → Forall (punctual late) its → ∀ (k : nat) b t',
     out !! k = Some (b, t') → 0 ≤ delay k b ≤ late).
Proof.
  intros Ht Hrun delay. split_and!.
  - intros k b t' Hk. by eapply deadlines_exact.
  - intros k b t' b2 t2 it late Hk Hk2 Hit Hw.
    pose proof (begins _ _ _ _ _ _ _ _ _ _ _ _ Hrun Hk Hk2 Hit) as Hb. rewrite Hw in Hb.
    destruct (deadlines_exact _ _ _ _ _ _ _ _ _ Ht Hrun Hk) as (_&E&_).
    unfold delay, clock_nanosleep in *. lia.
  - intros late Hl Hp k b t' Hk. eapply punctual_begins; [done|exact Hp| |exact Hrun|exact Hk]. lia.
Qed.

(** A signal can begin an iteration early, which then mixes before its time; the
    deadlines stay as they are. *)
Lemma interrupted_begins_early deadline now after : 0 ≤ after → now + after < deadline →
  clock_nanosleep deadline now (Interrupted after) = now + after ∧ now + after < deadline.
Proof. unfold clock_nanosleep. lia. Qed.
End loop.

(** From 5.97 s on, three mixes with a connection between: the second takes
    25 ms, so the third begins 5 ms late. *)
Definition demo_iterations : list iteration :=
  [Iteration true 3000000 (Timer 0) [Accept 7]; Iteration true 25000000 (Timer 0) [];
   Iteration true 1000000 (Timer 0) []; Iteration false 0 (Timer 0) []].
Lemma mixer_clock_exact_witness : ∃ out s',
  mixer_thread_main (5, 970000000) 5970000000 demo_iterations fresh_server = Some (out, s') ∧
  out = [(5970000000, (5, 990000000)); (5990000000, (6, 10000000)); (6015000000, (6, 30000000))] ∧
  6015000000 - (5970000000 + 40000000) = Z.max 0 (0 + 25000000 - 20000000) + 0.
Proof.
  assert (∃ out, option_map fst (mixer_thread_main (5, 970000000) 5970000000 demo_iterations
    fresh_server) = Some out ∧ out =
    [(5970000000, (5, 990000000)); (5990000000, (6, 10000000)); (6015000000, (6, 30000000))])
    as (out&Hf&->) by (eexists; split; [vm_compute; reflexivity|reflexivity]).
  destruct (mixer_thread_main _ _ _ _) as [[out s']|] eqn:E; [|discriminate Hf].
  injection Hf as ->. eexists _, s'. split; [reflexivity|]. split; [reflexivity|].
  destruct (mixer_clock_exact (5, 970000000) demo_iterations fresh_server s' _
    ltac:(split; cbn; lia) E) as (_&Hd&_).
  exact (Hd 1%nat _ _ _ _ _ 0 eq_refl eq_refl eq_refl eq_refl).
Defined.
