(* ===== verification/ClientApp.v ===== *)
(** * [src/client/client.c]: the client program

    What the client keeps, what it does with a line of input, a response of
    the server, a frame from the microphone and a datagram of mixed audio; and
    how it fits the server: the slot of LOGIN, the stream of packets that a
    jitter buffer plays back, the bytes that reach the loudspeaker.
    [arecord] and [aplay] are byte streams. *)
From S2P Require Import Prelude CInt CString Protocol Posix Auth RoomStore FileDb World RoomManager Ring Jitter ServerState Mixer MixerSpec ClientHandler HandlerSpec Network.
From stdpp Require Import sorting.
#[local] Open Scope Z_scope.

(** ** State *)

(** What [receive_response] prints. *)
Inductive shown :=
  | ShownSlot (slot : Z)
  | ShownSuccess (message : bytes)
  | ShownError (status : Z) (message : bytes)
  | ShownData (data : bytes)
  | ShownDisconnected.

Record app := App {
  a_client_slot : Z;
  a_current_room_id : Z;
  a_running : bool;
  a_audio_seq : Z;
  a_mic_muted : bool;
  a_audio_started : bool;      (** the receiver thread runs *)
  a_sender_started : bool;     (** the sender thread runs *)
  a_commands : list bytes;     (** sent over TCP *)
  a_datagrams : list bytes;    (** sent over UDP *)
  a_played : bytes;            (** written to [aplay] *)
  a_shown : list shown;
  a_pending : option bytes     (** a frame past the test of [mic_muted], not yet sent *)
}.

(** The globals and the locals of [main] at its start. *)
Definition app_init : app := App (-1) (-1) true 0 true false false [] [] [] [] None.

Definition a_stop (a : app) : app :=
  App (a_client_slot a) (a_current_room_id a) false (a_audio_seq a) (a_mic_muted a)
    (a_audio_started a) (a_sender_started a) (a_commands a) (a_datagrams a) (a_played a)
    (a_shown a) (a_pending a).
Definition a_with_slot (slot : Z) (a : app) : app :=
  App slot (a_current_room_id a) (a_running a) (a_audio_seq a) (a_mic_muted a)
    (a_audio_started a) (a_sender_started a) (a_commands a) (a_datagrams a) (a_played a)
    (a_shown a) (a_pending a).
Definition a_with_mic (muted sender : bool) (a : app) : app :=
  App (a_client_slot a) (a_current_room_id a) (a_running a) (a_audio_seq a) muted
    (a_audio_started a) sender (a_commands a) (a_datagrams a) (a_played a) (a_shown a) (a_pending a).
Definition a_show (l : list shown) (a : app) : app :=
  App (a_client_slot a) (a_current_room_id a) (a_running a) (a_audio_seq a) (a_mic_muted a)
    (a_audio_started a) (a_sender_started a) (a_commands a) (a_datagrams a) (a_played a)
    (a_shown a ++ l) (a_pending a).
Definition a_command (text : bytes) (a : app) : app :=
  App (a_client_slot a) (a_current_room_id a) (a_running a) (a_audio_seq a) (a_mic_muted a)
    (a_audio_started a) (a_sender_started a) (a_commands a ++ [text]) (a_datagrams a)
    (a_played a) (a_shown a) (a_pending a).
Definition a_play (b : bytes) (a : app) : app :=
  App (a_client_slot a) (a_current_room_id a) (a_running a) (a_audio_seq a) (a_mic_muted a)
    (a_audio_started a) (a_sender_started a) (a_commands a) (a_datagrams a) (a_played a ++ b)
    (a_shown a) (a_pending a).

(** ** Commands and responses *)

(** [send] succeeded or not. *)
Definition send_command (text : bytes) (sent : bool) (a : app) : app :=
  let buffer := snprintf MAX_PACKET_SIZE text in
  if sent then a_command buffer a else a_stop a.

(** [atoi]. *)
Definition atoi (s : bytes) : Z :=
  match scan_int s with
  | Some (z, _) => z
  | None => 0
  end.

(** [recv] gave these bytes, stored over the indeterminate [junk] of the local
    object, or none. *)
Definition receive_response (answer : option bytes) (junk : bytes) (a : app) : app :=
  match answer with
  | None | Some [] => a_stop (a_show [ShownDisconnected] a)
  | Some b =>
    let d := take sizeof_response_packet b in
    let resp := decode_response (d ++ drop (length d) junk) in
    let a1 :=
      if (rp_status resp =? 200) && strstr (str "Login successful") (rp_message resp) &&
         (0 <? strlen (rp_data resp))%nat
      then let slot := atoi (rp_data resp) in a_show [ShownSlot slot] (a_with_slot slot a)
      else a in
    let a2 := a_show [if rp_status resp =? 200 then ShownSuccess (rp_message resp)
                      else ShownError (i32 (rp_status resp)) (rp_message resp)] a1 in
    if (0 <? strlen (rp_data resp))%nat then a_show [ShownData (rp_data resp)] a2 else a2
  end.

(** ** Lines of input *)

(** The packet that registers the UDP address. *)
Definition hello (slot : Z) : bytes :=
  encode_packet (AudioPacket 0 (u32 slot) 0 0 0 (memset 0 AUDIO_PAYLOAD_SIZE)) (memset 0 2).

(** The silence [audio_receiver_thread] begins with: ten frames. *)
Definition silence : bytes := concat (replicate 10 (memset 0 640)).

(** START, the first time: the hello packet, and the receiver thread. *)
Definition start_audio (a : app) : app :=
  App (a_client_slot a) (a_current_room_id a) (a_running a) (a_audio_seq a) (a_mic_muted a)
    true (a_sender_started a) (a_commands a) (a_datagrams a ++ [hello (a_client_slot a)])
    (a_played a ++ silence) (a_shown a) (a_pending a).

(** [line[strcspn(line,"\n")]=0]. *)
Definition chomp (line : bytes) : bytes :=
  take_while (λ c, negb (c =? 10)) (c_str line).

(** One iteration of the loop of [main]. *)
Definition client_line (line : bytes) (sent : bool) (answer : option bytes) (junk : bytes)
    (a : app) : app :=
  let line := chomp line in
  if (strlen line =? 0)%nat then a
  else if strcasecmp_eq line (str "QUIT") || strcasecmp_eq line (str "EXIT")
  then a_stop (send_command (str "LOGOUT") sent a)
  else if strcasecmp_eq line (str "HELP") then a
  else if strcasecmp_eq line (str "START") then
    if a_audio_started a then a else start_audio a
  else if strcasecmp_eq line (str "UNMUTE") then
    if a_audio_started a then a_with_mic false true a else a
  else if strcasecmp_eq line (str "MUTE") then a_with_mic true (a_sender_started a) a
  else receive_response answer junk (send_command line sent a).

(** ** The audio threads *)

(** The loop that fills the frame: [reads] are what the coming [fread] calls
    give, nothing at the end. *)
Fixpoint read_frame (reads : list bytes) (pcm : bytes) : bytes :=
  match reads with
  | [] => pcm
  | r :: reads' =>
    if (length pcm <? 640)%nat then
      match take (640 - length pcm) r with
      | [] => pcm
      | b => read_frame reads' (pcm ++ b)
      end
    else pcm
  end.

(** The datagram of a frame; [junk] is the rest of the payload. *)
Definition voice_packet (a : app) (pcm junk : bytes) : audio_packet :=
  AudioPacket (u32 (a_current_room_id a)) (u32 (a_client_slot a)) (u32 (a_audio_seq a)) 0
    (u16 (Z.of_nat (length pcm))) (pcm ++ junk).
Definition voice_datagram (a : app) (pcm junk : bytes) : bytes :=
  take (Z.to_nat header_size + length pcm) (encode_packet (voice_packet a pcm junk) []).

(** The frame that has passed the test is sent; [audio_seq++] overflows after
    [INT_MAX] packets. *)
Definition send_frame (pcm junk : bytes) : C app unit := λ a,
  if a_audio_seq a =? 2 ^ 31 - 1 then None
  else Some (tt,
    App (a_client_slot a) (a_current_room_id a) (a_running a) (a_audio_seq a + 1)
      (a_mic_muted a) (a_audio_started a) (a_sender_started a) (a_commands a)
      (a_datagrams a ++ [voice_datagram a pcm junk]) (a_played a) (a_shown a) None).

Definition a_hold (pcm : bytes) (a : app) : app :=
  App (a_client_slot a) (a_current_room_id a) (a_running a) (a_audio_seq a) (a_mic_muted a)
    (a_audio_started a) (a_sender_started a) (a_commands a) (a_datagrams a) (a_played a)
    (a_shown a) (Some pcm).

(** One iteration of [audio_sender_thread] in its two parts, between which the
    other threads run: a frame is read and [mic_muted] is tested; then the
    packet is made and sent. *)
Definition sender_read (reads : list bytes) : C app unit :=
  pending ← gets a_pending;
  match pending with
  | Some _ => mret tt     (* the thread is past the test *)
  | None =>
    let pcm := read_frame reads [] in
    muted ← gets a_mic_muted;
    when ((length pcm =? 640)%nat && negb muted) (puts (a_hold pcm))
  end.
Definition sender_send (junk : bytes) : C app unit :=
  pending ← gets a_pending;
  match pending with
  | Some pcm => send_frame pcm junk
  | None => mret tt
  end.

(** One iteration of [audio_receiver_thread]: a datagram stored over [junk]. *)
Definition receiver_turn (data junk : bytes) (a : app) : app :=
  if header_size <=? Z.of_nat (length (take sizeof_audio_packet data)) then
    let pkt := received_packet data junk in
    if (0 <? ap_payload_size pkt) && (ap_payload_size pkt <=? Z.of_nat AUDIO_PAYLOAD_SIZE)
    then a_play (take (Z.to_nat (ap_payload_size pkt)) (ap_payload pkt)) a else a
  else a.

(** ** The program: its three threads, interleaved *)
Inductive input :=
  | Line (line : bytes) (sent : bool) (answer : option bytes) (junk : bytes)
  | Frame (reads : list bytes)
  | Send (junk : bytes)
  | Heard (data junk : bytes).

(** A thread does something while [running] is set and it has been started (a
    frame past its test when [running] is cleared is not sent here; the process
    is about to exit then). *)
Definition client_step (i : input) : C app unit :=
  running ← gets a_running;
  sender ← gets a_sender_started;
  receiver ← gets a_audio_started;
  match i with
  | Line line sent answer junk => when running (puts (client_line line sent answer junk))
  | Frame reads => when (running && sender) (sender_read reads)
  | Send junk => when (running && sender) (sender_send junk)
  | Heard data junk => when (running && receiver) (puts (receiver_turn data junk))
  end.

Fixpoint run_client (ins : list input) : C app unit :=
  match ins with
  | [] => mret tt
  | i :: ins' => _ ← client_step i; run_client ins'
  end.

(** ** Samples on the wire *)
Lemma i16_le_bytes z : is_i16 z → i16 (le_val (le_bytes 2 z)) = z.
Proof.
  intros Hz. rewrite le_val_bytes. change (256 ^ Z.of_nat 2) with (2 ^ 16). int_lia.
Qed.

Lemma length_bytes_of pcm : length (bytes_of pcm) = (2 * length pcm)%nat.
Proof.
  unfold bytes_of. induction pcm as [|z pcm IH]; [done|]. cbn [fmap list_fmap concat length].
  rewrite length_app, length_le_bytes, IH. lia.
Qed.

(** The samples read back from their bytes, whatever follows them. *)
Lemma pcm_of_bytes frame rest : Forall is_i16 frame →
  pcm_of (bytes_of frame ++ rest) (length frame) = frame.
Proof.
  intros Hf. apply list_eq. intros i. unfold pcm_of. rewrite list_lookup_fmap.
  destruct (frame !! i) as [z|] eqn:Ez.
  - rewrite lookup_seq_lt by (by eapply lookup_lt_Some). cbn. f_equal.
    rewrite <-(take_drop_middle _ _ _ Ez). unfold bytes_of. rewrite fmap_app, concat_app.
    cbn [fmap list_fmap concat]. rewrite <-!app_assoc.
    rewrite (take_drop_field _ (le_bytes 2 z) _ (2 * i) 2); [|fold (bytes_of (take i frame))|].
    + apply i16_le_bytes. by eapply Forall_lookup_1.
    + rewrite length_bytes_of, length_take_le; [done|]. apply lookup_lt_Some in Ez. lia.
    + apply length_le_bytes.
  - rewrite (lookup_ge_None_2 (seq _ _)); [done|]. rewrite length_seq.
    by apply lookup_ge_None.
Qed.

Definition frame_ok (frame : list Z) : Prop := length frame = 320%nat ∧ Forall is_i16 frame.

(** The server reads this frame, with this sender and number, from a datagram. *)
Definition voice_of (slot seq : Z) (frame : list Z) (d : bytes) : Prop :=
  ∀ junk, length junk = sizeof_audio_packet →
    let p := received_packet d junk in
    pushable p ∧ ap_sender_id p = u32 slot ∧ ap_seq_num p = u32 seq ∧
    ap_payload_size p = 640 ∧ take 640 (ap_payload p) = bytes_of frame.

Lemma voice_datagram_of a frame junk : frame_ok frame → length junk = 1408%nat →
  voice_of (a_client_slot a) (a_audio_seq a) frame (voice_datagram a (bytes_of frame) junk).
Proof.
  intros [Hl Hf] Hj junk' Hj'. assert (length (bytes_of frame) = 640%nat) as Hb.
  { rewrite length_bytes_of, Hl. done. }
  assert (wf_audio_packet (voice_packet a (bytes_of frame) junk)) as Hwf.
  { split; cbn; auto with vox; [int_lia|unfold AUDIO_PAYLOAD_SIZE; len]. }
  pose proof (decode_packet_prefix _ [] junk' 642 Hwf ltac:(lia) Hj') as Hdec.
  cbn zeta in Hdec. unfold voice_datagram. rewrite Hb.
  change (Z.to_nat header_size + 640)%nat with (offsetof_payload + 642)%nat.
  set (d := take _ _) in *. cbn zeta. unfold received_packet.
  rewrite (take_ge d) by (unfold d, sizeof_audio_packet, offsetof_payload; len).
  set (p := decode_packet _) in *. destruct Hdec as (E1&E2&E3&E4&E5&E6&E7).
  cbn [voice_packet ap_room_id ap_sender_id ap_seq_num ap_timestamp ap_payload_size ap_payload]
    in E1, E2, E3, E4, E5, E6.
  rewrite Hb in E5. change (u16 (Z.of_nat 640)) with 640 in E5.
  split_and!; [|done..|].
  - split; [|lia]. split; rewrite ?E1, ?E2, ?E3, ?E4, ?E5; auto with vox; int_lia.
  - apply (f_equal (take 640)) in E6. rewrite !take_take, !Nat.min_l in E6 by lia.
    rewrite E6. by apply take_app_exact.
Qed.

(** ** A stream of frames *)
Definition speaking (a : app) : Prop :=
  a_running a = true ∧ a_sender_started a = true ∧ a_mic_muted a = false ∧ a_pending a = None.

(** A frame is recorded and sent. *)
Definition frame_inputs (junk : bytes) (frame : list Z) : list input :=
  [Frame [bytes_of frame]; Send junk].

Lemma read_frame_whole frame : frame_ok frame → read_frame [bytes_of frame] [] = bytes_of frame.
Proof.
  intros [Hl _]. pose proof (length_bytes_of frame) as Hb. rewrite Hl in Hb. cbn [read_frame length].
  change (0 <? 640)%nat with true. cbv iota. change (640 - 0)%nat with 640%nat.
  rewrite take_ge by lia. destruct (bytes_of frame) as [|b bs] eqn:E; [done|]. by rewrite app_nil_l.
Qed.

Lemma stream_run junk frames : length junk = 1408%nat → Forall frame_ok frames →
  ∀ a, speaking a → 0 ≤ a_audio_seq a → a_audio_seq a + Z.of_nat (length frames) < 2 ^ 31 →
  ∃ a' dgs, run_client (concat (frame_inputs junk <$> frames)) a = Some (tt, a') ∧
    a_datagrams a' = a_datagrams a ++ dgs ∧ length dgs = length frames ∧
    ∀ (i : nat) f, frames !! i = Some f → ∃ d, dgs !! i = Some d ∧
      voice_of (a_client_slot a) (a_audio_seq a + Z.of_nat i) f d.
Proof.
  intros Hj. induction 1 as [|f frames Hf Hfs IH]; intros a Hsp Hseq Hn; cbn [fmap list_fmap run_client].
  { exists a, []. by rewrite app_nil_r. }
  destruct Hsp as (Hr&Hs&Hm&Hpe). cbn [length] in Hn. rewrite Nat2Z.inj_succ in Hn.
  set (a1 := App (a_client_slot a) (a_current_room_id a) (a_running a) (a_audio_seq a + 1)
    (a_mic_muted a) (a_audio_started a) (a_sender_started a) (a_commands a)
    (a_datagrams a ++ [voice_datagram a (bytes_of f) junk]) (a_played a) (a_shown a) None).
  destruct (IH a1) as (a'&dgs&Hrun&Hd&Hl&Hvoice); [done|cbn; lia|cbn; lia|].
  exists a', (voice_datagram a (bytes_of f) junk :: dgs). split_and!.
  - cbn [frame_inputs concat Datatypes.app run_client].
    rewrite (C_bind_run (client_step _) _ a tt (a_hold (bytes_of f) a)).
    2: { unfold client_step. c_steps. rewrite Hr, Hs. cbn [andb when]. unfold sender_read. c_steps.
         rewrite Hpe, (read_frame_whole _ Hf). c_steps. rewrite Hm, length_bytes_of, (proj1 Hf).
         reflexivity. }
    rewrite (C_bind_run (client_step _) _ (a_hold (bytes_of f) a) tt a1); [exact Hrun|].
    unfold client_step. c_steps. cbn [a_hold a_running a_sender_started]. rewrite Hr, Hs.
    cbn [andb when]. unfold sender_send. c_steps. cbn [a_hold a_pending]. unfold send_frame.
    cbn [a_hold a_audio_seq]. by rewrite (proj2 (Z.eqb_neq _ _)) by lia.
  - rewrite Hd. cbn. by rewrite <-app_assoc.
  - cbn. by rewrite Hl.
  - intros [|i] g Hi; cbn in Hi.
    + injection Hi as <-. eexists. split; [reflexivity|]. rewrite Z.add_0_r.
      by apply voice_datagram_of.
    + destruct (Hvoice i g Hi) as (d&Hdi&Hv). exists d. split; [done|].
      cbn [a1 a_client_slot a_audio_seq] in Hv.
      by replace (a_audio_seq a + Z.of_nat (S i)) with (a_audio_seq a + 1 + Z.of_nat i) by lia.
Qed.

(** Packets in order of their offset from [base]. *)
Definition earlier (base : Z) (p q : audio_packet) : Prop :=
  offset base (ap_seq_num p) ≤ offset base (ap_seq_num q).

Lemma carries_sorted base es ps : Forall2 carries es ps →
  StronglySorted (before base) es → StronglySorted (earlier base) ps.
Proof.
  induction 1 as [|e p es ps Hc Hcs IH]; intros Hs; [constructor|].
  apply StronglySorted_inv in Hs as [Hs He]. constructor; [by apply IH|].
  clear IH Hs. induction Hcs as [|e' p' es ps Hc' Hcs IH]; constructor.
  - inv He. unfold before, earlier in *. destruct Hc as (<-&_), Hc' as (<-&_). done.
  - apply IH. by inv He.
Qed.

Lemma numbered_sorted base (ps : list audio_packet) : ∀ z,
  (∀ (i : nat) p, ps !! i = Some p → offset base (ap_seq_num p) = z + Z.of_nat i) →
  StronglySorted (earlier base) ps.
Proof.
  induction ps as [|p ps IH]; intros z Hps; constructor.
  - apply (IH (z + 1)). intros i q Hi. rewrite (Hps (S i) q Hi). lia.
  - apply Forall_lookup. intros i q Hi. unfold earlier.
    rewrite (Hps 0%nat p eq_refl), (Hps (S i) q Hi). lia.
Qed.

(** Numbered packets have only one rearrangement in order. *)
Lemma sorted_rearrangement base (ps qs : list audio_packet) :
  (∀ (i : nat) p, ps !! i = Some p → offset base (ap_seq_num p) = Z.of_nat i) →
  qs ≡ₚ ps → StronglySorted (earlier base) qs → qs = ps.
Proof.
  intros Hps Hperm Hsort. apply (StronglySorted_unique_strong (earlier base)); [|done| |done].
  - intros p q Hp [j Hj]%list_elem_of_lookup H1 H2. rewrite Hperm in Hp.
    apply list_elem_of_lookup in Hp as [i Hi]. unfold earlier in H1, H2.
    rewrite (Hps i p Hi), (Hps j q Hj) in H1, H2.
    assert (i = j) as <- by lia. congruence.
  - by apply (numbered_sorted _ _ 0).
Qed.

(** A jitter entry that carries a frame is heard as that frame. *)
Lemma carried_voice slot seq f d junk e : frame_ok f → voice_of slot seq f d →
  length junk = sizeof_audio_packet → carries e (received_packet d junk) →
  speaker_of slot e = Speaker slot f.
Proof.
  intros [Hl Hf] Hv Hj (_&_&Hsz&Hpay&_). destruct (Hv junk Hj) as (_&_&_&E&Hb).
  rewrite E in Hsz, Hpay. unfold speaker_of. rewrite Hsz.
  change (Z.to_nat 640) with 640%nat in Hpay. rewrite Hb in Hpay.
  change (Z.to_nat (640 / 2)) with 320%nat. cbn [Nat.ltb Nat.leb]. f_equal.
  rewrite <-(take_drop 640 (je_payload e)), Hpay, <-Hl. by apply pcm_of_bytes.
Qed.

(** The frames a client speaks come out of the jitter buffer in their order,
    whatever the order of the datagrams. *)
Lemma stream_played slot seq frames dgs arrived junk jb :
  Forall frame_ok frames → length dgs = length frames → is_u32 slot → 0 ≤ seq →
  (∀ (i : nat) f, frames !! i = Some f → ∃ d, dgs !! i = Some d ∧
     voice_of slot (seq + Z.of_nat i) f d) →
  arrived ≡ₚ dgs → length junk = sizeof_audio_packet →
  jitter_ok jb → pending jb = [] → (5 ≤ length frames ≤ 20)%nat →
  ∃ jb1 out jb2, push_all jb ((λ d, received_packet d junk) <$> arrived) = Some jb1 ∧
    drain (length frames) jb1 = (Some <$> out, jb2) ∧ pending jb2 = [] ∧
    speaker_of slot <$> out = Speaker slot <$> frames.
Proof.
  intros Hfs Hlen Hslot Hseq Hv Harr Hj Hok Hpend Hn.
  set (recv := λ d, received_packet d junk). set (base := u32 seq).
  assert (∀ (i : nat) p, (recv <$> dgs) !! i = Some p → pushable p ∧
    ap_seq_num p = u32 (seq + Z.of_nat i) ∧ (i < 20)%nat) as Hpkts.
  { intros i p (d&->&Hd)%list_lookup_fmap_Some. pose proof (lookup_lt_Some _ _ _ Hd) as Hi.
    destruct (lookup_lt_is_Some_2 frames i) as [f Hf]; [lia|].
    destruct (Hv i f Hf) as (d'&Hd'&Hvo). simplify_eq.
    destruct (Hvo junk Hj) as (?&_&?&_). split_and!; [done..|lia]. }
  assert (∀ (i : nat) p, (recv <$> dgs) !! i = Some p →
    offset base (ap_seq_num p) = Z.of_nat i) as Hoff.
  { intros i p Hi. destruct (Hpkts i p Hi) as (_&->&?). unfold offset, base. int_lia. }
  assert (recv <$> arrived ≡ₚ recv <$> dgs) as Hperm by (by rewrite Harr).
  destruct (burst_run base jb (recv <$> arrived)) as (jb1&out&jb2&qs&Hpush&Hdrain&Hend&Hs&Hq&Hc).
  - done.
  - done.
  - rewrite Hperm. apply Forall_lookup. intros i p Hi. by apply (Hpkts i p).
  - rewrite Hperm. apply Forall_lookup. intros i p Hi. split; [by apply (Hpkts i p)|].
    destruct (Hpkts i p Hi) as (_&_&?). rewrite (Hoff i p Hi). lia.
  - rewrite Hperm. len.
  - right. rewrite Hperm. len.
  - assert (length (recv <$> arrived) = length frames) as Hla.
    { rewrite Hperm, length_fmap. done. }
    rewrite Hla in Hdrain. exists jb1, out, jb2. split_and!; [done..|].
    assert (qs = recv <$> dgs) as ->.
    { eapply sorted_rearrangement; [done|by rewrite Hq|by eapply carries_sorted]. }
    apply list_eq. intros i. rewrite !list_lookup_fmap.
    pose proof (Forall2_length _ _ _ Hc) as Hlo. rewrite length_fmap in Hlo.
    destruct (frames !! i) as [f|] eqn:Ef; cbn.
    + destruct (Hv i f Ef) as (d&Hd&Hvo).
      destruct (Forall2_lookup_r _ _ _ i (recv d) Hc) as (e&->&He).
      { by rewrite list_lookup_fmap, Hd. }
      cbn. f_equal. eapply carried_voice; [|done..]. by eapply Forall_lookup_1.
    + rewrite lookup_ge_None_2; [done|]. apply lookup_ge_None in Ef. lia.
Qed.

(** ** What the listener plays *)

(** The bytes of a datagram of the mixer: the packet object was zeroed. *)
Definition wire (d : datagram) : bytes :=
  take (Z.to_nat (dg_size d)) (encode_packet (dg_packet d) (memset 0 2)).

Lemma mixed_packet_wf room_id now pcm : length pcm = 320%nat →
  wf_audio_packet (mixed_packet room_id now pcm) ∧
  ap_payload_size (mixed_packet room_id now pcm) = 640 ∧
  take 640 (ap_payload (mixed_packet room_id now pcm)) = bytes_of pcm.
Proof.
  intros Hl. pose proof (length_bytes_of pcm) as Hb. rewrite Hl in Hb.
  unfold mixed_packet. rewrite Hl. change (u16 (Z.of_nat 320 * 2)) with 640.
  change (Z.of_nat AUDIO_PAYLOAD_SIZE <? 640) with false. cbv iota zeta.
  change (Z.to_nat 640) with 640%nat. rewrite (take_ge (bytes_of pcm)) by lia.
  split_and!; [|done|by apply take_app_exact].
  split; cbn [ap_room_id ap_sender_id ap_seq_num ap_timestamp ap_payload_size ap_payload];
    [apply u32_range|int_lia|int_lia|apply u32_range|int_lia|].
  unfold AUDIO_PAYLOAD_SIZE, memset. len.
Qed.

Lemma mix_played {D} (s : server D) room_id speakers y junk a :
  Forall well_formed_speaker speakers → length junk = sizeof_audio_packet →
  receiver_turn (wire (mix_datagram s room_id speakers y)) junk a =
  a_play (bytes_of (mix_for (c_slot y) speakers)) a.
Proof.
  intros Hs Hj. destruct (mix_for_facts (c_slot y) speakers Hs) as [Hl _].
  destruct (mixed_packet_wf room_id (sv_now s) _ Hl) as (Hwf&Hsz&Hpay).
  unfold wire, mix_datagram. cbn [dg_size dg_packet]. set (p := mixed_packet _ _ _) in *.
  rewrite Hsz. change (Z.to_nat (header_size + 640)) with (offsetof_payload + 642)%nat.
  pose proof (decode_packet_prefix p (memset 0 2) junk 642 Hwf ltac:(lia) Hj) as Hdec.
  cbn zeta in Hdec. set (d := take (offsetof_payload + 642) _) in *.
  assert (length d = 660%nat) as Hd.
  { unfold d, encode_packet, offsetof_payload, memset. pose proof (wap_payload _ Hwf) as Hp.
    unfold AUDIO_PAYLOAD_SIZE in Hp. len. }
  unfold receiver_turn, received_packet.
  rewrite (take_ge d) by (unfold sizeof_audio_packet; lia).
  set (q := decode_packet _) in *. destruct Hdec as (_&_&_&_&E5&E6&_).
  rewrite Hd. change (header_size <=? Z.of_nat 660) with true. cbv iota zeta.
  rewrite E5, Hsz. change ((0 <? 640) && (640 <=? Z.of_nat AUDIO_PAYLOAD_SIZE)) with true.
  cbv iota. change (Z.to_nat 640) with 640%nat. f_equal. rewrite <-Hpay.
  apply (f_equal (take 640)) in E6. by rewrite !take_take, !Nat.min_l in E6 by lia.
Qed.

(** The listener [y] in another slot gets the mix of each entry in turn. *)
Fixpoint listen {D} (s : server D) (room_id : Z) (y : client) (slot : Z) (junk : bytes)
    (out : list jitter_entry) (a : app) : app :=
  match out with
  | [] => a
  | e :: out' => listen s room_id y slot junk out'
      (receiver_turn (wire (mix_datagram s room_id [speaker_of slot e] y)) junk a)
  end.

Lemma listen_run {D} (s : server D) room_id y slot junk frames : c_slot y ≠ slot →
  length junk = sizeof_audio_packet → Forall frame_ok frames → ∀ out a,
  speaker_of slot <$> out = Speaker slot <$> frames →
  a_played (listen s room_id y slot junk out a) = a_played a ++ concat (bytes_of <$> frames).
Proof.
  intros Hne Hj. induction 1 as [|f frames [Hl Hf] Hfs IH]; intros [|e out] a E;
    [by rewrite app_nil_r|done|done|]. apply (inj2 cons) in E as [Ee Eo].
  assert (Forall well_formed_speaker [speaker_of slot e]) as Hsp.
  { constructor; [apply speaker_of_wf|constructor]. }
  cbn [listen fmap list_fmap concat]. rewrite (mix_played _ _ _ _ _ _ Hsp Hj), (IH _ _ Eo).
  cbn [a_play a_played]. rewrite <-app_assoc. do 3 f_equal. rewrite Ee. apply (mix_for_one _ _ (Speaker slot f)); [|done..].
  unfold others. by rewrite filter_cons_True, filter_nil by (cbn; congruence).
Qed.

(** ** The microphone *)

(** The datagram carries no audio: the server puts nothing into its ring. *)
Definition no_audio (d : bytes) : Prop :=
  ∀ junk, length junk = sizeof_audio_packet → ap_payload_size (received_packet d junk) = 0.

Lemma hello_fields slot junk : is_u32 slot →
  ap_payload_size (received_packet (hello slot) junk) = 0 ∧
  ap_sender_id (received_packet (hello slot) junk) = slot.
Proof.
  intros Hs. unfold received_packet, hello, encode_packet, decode_packet.
  cbn [ap_room_id ap_sender_id ap_seq_num ap_timestamp ap_payload_size ap_payload].
  rewrite !(take_ge _ sizeof_audio_packet)
    by (unfold memset, AUDIO_PAYLOAD_SIZE, sizeof_audio_packet; len).
  rewrite <-!app_assoc, (u32_id slot) by done. split; read_field.
  - by apply u16_le_bytes.
  - by apply u32_le_bytes.
Qed.

Lemma hello_u32 slot : hello (u32 slot) = hello slot.
Proof. unfold hello. by rewrite (u32_id (u32 slot)) by apply u32_range. Qed.

Lemma hello_no_audio slot : no_audio (hello slot).
Proof.
  intros junk _. rewrite <-hello_u32. apply hello_fields, u32_range.
Qed.

(** The server takes the address of a client from its hello packet. *)
Lemma hello_registers {D} `{RoomStore D} (s : server D) slot c y junk addr len :
  0 ≤ slot < MAX_CLIENTS → sv_clients s !! Z.to_nat slot = Some (Some c) →
  w_clients (sv_world s) !! c = Some y →
  ∃ s', handle_udp_packet (hello slot) junk addr len s = Some (tt, s') ∧
    w_clients (sv_world s') = <[c := c_with_udp y addr len]> (w_clients (sv_world s)) ∧
    sv_ring s' = sv_ring s.
Proof.
  intros Hs Hc Hy. unfold MAX_CLIENTS in Hs.
  destruct (hello_fields slot junk ltac:(int_lia)) as [Esz Esnd].
  unfold handle_udp_packet. destruct (hello slot) as [|b0 bs] eqn:E; [done|]. rewrite <-E in *.
  clear E. cbv zeta. rewrite Esz, Esnd, (proj2 (Z.ltb_lt slot MAX_CLIENTS)) by (unfold MAX_CLIENTS; lia).
  rewrite C_bind_assoc, C_bind_gets, C_bind_assoc.
  rewrite at_index_nonneg, Hc by lia. rewrite C_bind_lift_Some.
  unfold update_client. rewrite C_bind_assoc, (C_bind_run _ _ _ _ _ (sv_read_client _ _ _ Hy)).
  erewrite C_bind_run by (apply on_world_run; by eapply write_client_run).
  eexists. split; [reflexivity|]. done.
Qed.

(** UNMUTE is the only input that opens the microphone. *)
Definition keeps_mic_off (i : input) : bool :=
  match i with
  | Line line _ _ _ => negb (strcasecmp_eq (chomp line) (str "UNMUTE"))
  | _ => true
  end.

(** Commands and responses leave the microphone and the datagrams alone. *)
Lemma response_mic answer junk a : let a' := receive_response answer junk a in
  a_mic_muted a' = a_mic_muted a ∧ a_datagrams a' = a_datagrams a.
Proof. unfold receive_response. repeat case_match; done. Qed.

Lemma command_mic text sent a : let a' := send_command text sent a in
  a_mic_muted a' = a_mic_muted a ∧ a_datagrams a' = a_datagrams a.
Proof. unfold send_command. by destruct sent. Qed.

(** What a line other than UNMUTE does with the microphone off. *)
Lemma mic_off_line line sent answer junk a : a_mic_muted a = true →
  strcasecmp_eq (chomp line) (str "UNMUTE") = false →
  let a' := client_line line sent answer junk a in
  a_mic_muted a' = true ∧
  (a_datagrams a' = a_datagrams a ∨
   a_datagrams a' = a_datagrams a ++ [hello (a_client_slot a)]).
Proof.
  intros Hm Hl. unfold client_line. cbv zeta. rewrite Hl. cbv iota.
  destruct (strlen _ =? 0)%nat; [auto|].
  destruct (strcasecmp_eq (chomp line) (str "QUIT") || strcasecmp_eq (chomp line) (str "EXIT")).
  { destruct (command_mic (str "LOGOUT") sent a) as [E1 E2]. cbn in *. rewrite E1, E2. auto. }
  destruct (strcasecmp_eq (chomp line) (str "HELP")); [auto|].
  destruct (strcasecmp_eq (chomp line) (str "START")); [destruct (a_audio_started a); cbn; auto|].
  destruct (strcasecmp_eq (chomp line) (str "MUTE")); [cbn; auto|].
  destruct (response_mic answer junk (send_command (chomp line) sent a)) as [-> ->].
  destruct (command_mic (chomp line) sent a) as [-> ->]. auto.
Qed.

(** Lines and datagrams leave the frame of the sender alone. *)
Lemma client_line_pending line sent answer junk a :
  a_pending (client_line line sent answer junk a) = a_pending a ∧
  a_audio_seq (client_line line sent answer junk a) = a_audio_seq a.
Proof.
  unfold client_line, receive_response, send_command. cbv zeta. repeat case_match; done.
Qed.

(** A step with the microphone off and no frame past the test. *)
Lemma mic_off_step i a : a_mic_muted a = true → a_pending a = None → keeps_mic_off i = true →
  ∃ a', client_step i a = Some (tt, a') ∧ a_mic_muted a' = true ∧ a_pending a' = None ∧
  (a_datagrams a' = a_datagrams a ∨
   a_datagrams a' = a_datagrams a ++ [hello (a_client_slot a)]).
Proof.
  intros Hm Hp Hi. unfold client_step. c_steps.
  destruct i as [line sent answer junk|reads|junk|data junk]; cbn [keeps_mic_off] in Hi.
  - destruct (a_running a); cbn [when]; [|by exists a; auto].
    eexists. split; [reflexivity|]. destruct (client_line_pending line sent answer junk a) as [-> _].
    destruct (mic_off_line line sent answer junk a Hm) as [??]; [by apply negb_true_iff|auto].
  - exists a. destruct (a_running a && a_sender_started a); cbn [when]; [|by auto].
    unfold sender_read. c_steps. rewrite Hp. c_steps. rewrite Hm, andb_false_r. by auto.
  - exists a. destruct (a_running a && a_sender_started a); cbn [when]; [|by auto].
    unfold sender_send. c_steps. rewrite Hp. by auto.
  - destruct (a_running a && a_audio_started a); cbn [when]; [|by exists a; auto].
    eexists. split; [reflexivity|]. unfold receiver_turn. repeat case_match; cbn; auto.
Qed.

Lemma mic_off_run ins : ∀ a, a_mic_muted a = true → a_pending a = None →
  Forall (λ i, keeps_mic_off i = true) ins →
  ∃ a' dgs, run_client ins a = Some (tt, a') ∧ a_mic_muted a' = true ∧
    a_datagrams a' = a_datagrams a ++ dgs ∧ Forall no_audio dgs.
Proof.
  induction ins as [|i ins IH]; intros a Hm Hp Hins; cbn [run_client].
  { exists a, []. by rewrite app_nil_r. }
  apply Forall_cons in Hins as [Hi Hins].
  destruct (mic_off_step i a Hm Hp Hi) as (a1&Hstep&Hm1&Hp1&Hd1).
  destruct (IH a1 Hm1 Hp1 Hins) as (a'&dgs&Hrun&Hm'&Hd&Hno).
  rewrite (C_bind_run _ _ _ _ _ Hstep). exists a'.
  destruct Hd1 as [E|E]; rewrite E in Hd; [by exists dgs|].
  exists (hello (a_client_slot a) :: dgs). rewrite Hd, <-app_assoc.
  split_and!; [done..|constructor; [apply hello_no_audio|done]].
Qed.

(** The datagram of this frame. *)
Definition audio_of (pcm d : bytes) : Prop := ∃ a junk, d = voice_datagram a pcm junk.

Lemma receiver_rest data junk a : let a' := receiver_turn data junk a in
  a_mic_muted a' = a_mic_muted a ∧ a_pending a' = a_pending a ∧
  a_audio_seq a' = a_audio_seq a ∧ a_datagrams a' = a_datagrams a.
Proof. unfold receiver_turn. repeat case_match; done. Qed.

(** With a frame past the test, that frame may still be sent. *)
Lemma mic_off_pending ins : ∀ a pcm, a_mic_muted a = true → a_pending a = Some pcm →
  a_audio_seq a < 2 ^ 31 - 1 → Forall (λ i, keeps_mic_off i = true) ins →
  ∃ a' dgs, run_client ins a = Some (tt, a') ∧ a_mic_muted a' = true ∧
    a_datagrams a' = a_datagrams a ++ dgs ∧
    (Forall no_audio dgs ∨ ∃ before d after, dgs = before ++ d :: after ∧
       Forall no_audio (before ++ after) ∧ audio_of pcm d).
Proof.
  induction ins as [|i ins IH]; intros a pcm Hm Hp Hseq Hins; cbn [run_client].
  { exists a, []. rewrite app_nil_r. auto. }
  apply Forall_cons in Hins as [Hi Hins].
  assert (∀ a1 (d1 : list bytes), client_step i a = Some (tt, a1) → a_mic_muted a1 = true →
    a_pending a1 = Some pcm → a_audio_seq a1 < 2 ^ 31 - 1 → a_datagrams a1 = a_datagrams a ++ d1 →
    Forall no_audio d1 → ∃ a' dgs, (_ ← client_step i; run_client ins) a = Some (tt, a') ∧
    a_mic_muted a' = true ∧ a_datagrams a' = a_datagrams a ++ dgs ∧
    (Forall no_audio dgs ∨ ∃ before d after, dgs = before ++ d :: after ∧
       Forall no_audio (before ++ after) ∧ audio_of pcm d)) as Hon.
  { intros a1 d1 Hstep Hm1 Hp1 Hs1 Hd1 Hno1.
    destruct (IH a1 pcm Hm1 Hp1 Hs1 Hins) as (a'&dgs&Hrun&Hm'&Hd&Hcase).
    rewrite (C_bind_run _ _ _ _ _ Hstep). exists a', (d1 ++ dgs).
    split_and!; [done..|by rewrite Hd, Hd1, app_assoc|]. destruct Hcase as [Hno|(b&d&e&->&Hno&Hau)].
    - left. by apply Forall_app.
    - right. exists (d1 ++ b), d, e. split_and!; [by rewrite app_assoc| |done].
      rewrite <-app_assoc. by apply Forall_app. }
  assert (client_step i a = Some (tt, a) → ∃ a' dgs,
    (_ ← client_step i; run_client ins) a = Some (tt, a') ∧
    a_mic_muted a' = true ∧ a_datagrams a' = a_datagrams a ++ dgs ∧
    (Forall no_audio dgs ∨ ∃ before d after, dgs = before ++ d :: after ∧
       Forall no_audio (before ++ after) ∧ audio_of pcm d)) as Hstill.
  { intros Hstep. apply (Hon a []); try done. by rewrite app_nil_r. }
  destruct i as [line sent answer junk|reads|junk|data junk]; cbn [keeps_mic_off] in Hi.
  - destruct (a_running a) eqn:Er.
    + destruct (client_line_pending line sent answer junk a) as [Ep Es].
      destruct (mic_off_line line sent answer junk a Hm) as [Hm1 Hd1]; [by apply negb_true_iff|].
      destruct Hd1 as [E|E]; (eapply Hon; [unfold client_step; c_steps; rewrite Er; reflexivity|done|
        by rewrite Ep|by rewrite Es|..]).
      * by rewrite E, app_nil_r.
      * constructor.
      * exact E.
      * constructor; [apply hello_no_audio|constructor].
    + apply Hstill. unfold client_step. c_steps. by rewrite Er.
  - apply Hstill. unfold client_step. c_steps. destruct (_ && _); [|done]. cbn [when]. unfold sender_read.
    c_steps. by rewrite Hp.
  - destruct (a_running a && a_sender_started a) eqn:Er.
    + set (a1 := App (a_client_slot a) (a_current_room_id a) (a_running a) (a_audio_seq a + 1)
        (a_mic_muted a) (a_audio_started a) (a_sender_started a) (a_commands a)
        (a_datagrams a ++ [voice_datagram a pcm junk]) (a_played a) (a_shown a) None).
      assert (client_step (Send junk) a = Some (tt, a1)) as Hstep.
      { unfold client_step. c_steps. rewrite Er. cbn [when]. unfold sender_send. c_steps. rewrite Hp.
        unfold send_frame. by rewrite (proj2 (Z.eqb_neq _ _)) by lia. }
      destruct (mic_off_run ins a1 Hm eq_refl Hins) as (a'&dgs&Hrun&Hm'&Hd&Hno).
      rewrite (C_bind_run _ _ _ _ _ Hstep). exists a', (voice_datagram a pcm junk :: dgs).
      split_and!; [done..|by rewrite Hd; cbn; rewrite <-app_assoc|].
      right. exists [], (voice_datagram a pcm junk), dgs. split_and!; [done|done|by eexists _, _].
    + apply Hstill. unfold client_step. c_steps. by rewrite Er.
  - destruct (a_running a && a_audio_started a) eqn:Er.
    + destruct (receiver_rest data junk a) as (E1&E2&E3&E4).
      apply (Hon (receiver_turn data junk a) []);
        rewrite ?E1, ?E2, ?E3, ?E4, ?app_nil_r; try done.
      unfold client_step. c_steps. by rewrite Er.
    + apply Hstill. unfold client_step. c_steps. by rewrite Er.
Qed.

(** The line MUTE, in any case of letters. *)
Lemma mute_line line sent answer junk a : strcasecmp_eq (chomp line) (str "MUTE") = true →
  client_line line sent answer junk a = a_with_mic true (a_sender_started a) a.
Proof.
  intros Hm. unfold client_line. cbv zeta. rewrite Hm. unfold strcasecmp_eq in *.
  apply bool_decide_eq_true in Hm. rewrite Hm. unfold strlen.
  destruct (c_str (chomp line)); [discriminate Hm|]. reflexivity.
Qed.

(** ** Login and START *)
Lemma length_encode_response r : (strlen (rp_message r) < 256)%nat →
  (strlen (rp_data r) < 4096)%nat → length (encode_response r) = sizeof_response_packet.
Proof.
  intros Hm Hd. unfold encode_response, sizeof_response_packet.
  rewrite !length_app, !length_le_bytes, !length_strcpy; unfold memset; len.
Qed.

(** The response to LOGIN gives the client its slot. *)
Lemma login_response_slot slot junk a : 0 ≤ slot < MAX_CLIENTS →
  let r := ResponsePacket 0 STATUS_OK (str "Login successful") (snprintf 4096 (print_int slot)) in
  let a' := receive_response (Some (encode_response r)) junk a in
  a_client_slot a' = slot ∧ a_running a' = a_running a ∧
  a_audio_started a' = a_audio_started a ∧ a_datagrams a' = a_datagrams a.
Proof.
  intros Hs. unfold MAX_CLIENTS in Hs. cbv zeta.
  assert (is_i32 slot) as Hi by int_lia. pose proof (length_print_int slot Hi) as Hlen.
  assert (no_nul (print_int slot)) as Hnn by (apply is_word_no_nul, print_int_word).
  rewrite snprintf_fits by (done || lia).
  set (r := ResponsePacket _ _ _ _).
  assert (strlen (rp_message r) < 256)%nat as Hm by (vm_compute; lia).
  assert (strlen (rp_data r) < 4096)%nat as Hd by (cbn; unfold strlen; rewrite c_str_id by done; lia).
  pose proof (length_encode_response r Hm Hd) as Hl. unfold receive_response.
  destruct (encode_response r) as [|b0 bs] eqn:E; [done|]. rewrite <-E in *. clear E.
  rewrite (take_ge (encode_response r)) by lia. cbv zeta.
  rewrite decode_encode_response by (done || (cbn; int_lia)). cbn [rp_status rp_message rp_data r].
  rewrite (c_str_id (print_int slot)) by done.
  change ((STATUS_OK =? 200) && strstr (str "Login successful") (c_str (str "Login successful")))
    with true.
  assert ((0 <? strlen (print_int slot))%nat = true) as ->.
  { apply Nat.ltb_lt. unfold strlen. rewrite c_str_id by done.
    pose proof (print_int_ne slot). destruct (print_int slot); [done|cbn; lia]. }
  cbn [andb]. unfold atoi.
  rewrite <-(app_nil_r (print_int slot)), scan_int_print_int by done. done.
Qed.

(** ** The claims *)

(** C12. A voice from microphone to loudspeaker: a client with its microphone on
    speaks 5 to 20 frames of 20 ms; the datagrams reach the server in any
    order and go through an empty jitter buffer; each tick the mixer sends the
    mix to a listener in another slot, who hears nobody else.  Then the
    listener's loudspeaker gets exactly the samples that were spoken, in the
    order they were spoken. *)
Theorem voice_end_to_end {D} a frames sender_junk junk jb (s : server D) room_id y listener :
  speaking a → 0 ≤ a_client_slot a < MAX_CLIENTS → 0 ≤ a_audio_seq a →
  a_audio_seq a + Z.of_nat (length frames) < 2 ^ 31 →
  Forall frame_ok frames → (5 ≤ length frames ≤ 20)%nat →
  length sender_junk = 1408%nat → length junk = sizeof_audio_packet →
  jitter_ok jb → pending jb = [] → c_slot y ≠ a_client_slot a →
  ∃ a' dgs, run_client (concat (frame_inputs sender_junk <$> frames)) a = Some (tt, a') ∧
    a_datagrams a' = a_datagrams a ++ dgs ∧
    ∀ arrived, arrived ≡ₚ dgs → ∃ jb1 out jb2,
      push_all jb ((λ d, received_packet d junk) <$> arrived) = Some jb1 ∧
      drain (length frames) jb1 = (Some <$> out, jb2) ∧
      a_played (listen s room_id y (a_client_slot a) junk out listener) =
        a_played listener ++ concat (bytes_of <$> frames).
Proof.
  intros Hsp Hslot Hseq Hmax Hfs Hn Hsj Hj Hok Hpend Hne.
  destruct (stream_run sender_junk frames Hsj Hfs a Hsp Hseq Hmax) as (a'&dgs&Hrun&Hd&Hl&Hv).
  exists a', dgs. split_and!; [done..|]. intros arrived Harr.
  destruct (stream_played (a_client_slot a) (a_audio_seq a) frames dgs arrived junk jb)
    as (jb1&out&jb2&Hpush&Hdrain&_&Hout); try done.
  { unfold MAX_CLIENTS in Hslot. int_lia. }
  exists jb1, out, jb2. split_and!; [done..|]. by apply listen_run.
Qed.

(** C35. Privacy of the microphone, whatever is typed (UNMUTE excepted), whatever
    the server answers and however much is recorded.  From the start of the
    program the microphone is off, and no datagram with audio is sent.  The
    line MUTE, in any state of a running client, turns it off, and of what has
    been recorded at most the one frame that has already passed the test of
    [mic_muted] is still sent; all other datagrams carry no audio.  In both
    cases the client runs on with the microphone off. *)
Theorem muted_mic_sends_nothing ins : Forall (λ i, keeps_mic_off i = true) ins →
  (∃ a', run_client ins app_init = Some (tt, a') ∧ a_mic_muted a' = true ∧
     Forall no_audio (a_datagrams a')) ∧
  (∀ a line sent answer junk, a_running a = true → a_audio_seq a < 2 ^ 31 - 1 →
     strcasecmp_eq (chomp line) (str "MUTE") = true →
     ∃ a' dgs, run_client (Line line sent answer junk :: ins) a = Some (tt, a') ∧
       a_mic_muted a' = true ∧ a_datagrams a' = a_datagrams a ++ dgs ∧
       (Forall no_audio dgs ∨
        ∃ pcm before d after, a_pending a = Some pcm ∧ dgs = before ++ d :: after ∧
          Forall no_audio (before ++ after) ∧ audio_of pcm d)).
Proof.
  intros Hins. split.
  - destruct (mic_off_run ins app_init eq_refl eq_refl Hins) as (a'&dgs&?&?&E&?).
    exists a'. by rewrite E.
  - intros a line sent answer junk Hr Hseq Hl. cbn [run_client].
    rewrite (C_bind_run (client_step _) _ a tt (a_with_mic true (a_sender_started a) a)).
    2: { unfold client_step. c_steps. rewrite Hr. cbn [when]. unfold puts. by rewrite mute_line. }
    destruct (a_pending a) as [pcm|] eqn:Hp.
    + destruct (mic_off_pending ins (a_with_mic true (a_sender_started a) a) pcm)
        as (a'&dgs&?&?&?&[?|(b&d&e&?&?&?)]); try done; exists a', dgs; split_and!; try done; [by left|].
      right. by exists pcm, b, d, e.
    + destruct (mic_off_run ins (a_with_mic true (a_sender_started a) a)) as (a'&dgs&?&?&?&?); try done.
      exists a', dgs. split_and!; try done. by left.
Qed.

(** C34. How a client's audio finds it: after a correct LOGIN the client has the
    slot the server gave it; START then sends one packet, and when the server
    gets it, the client's UDP address is the one the packet came from, and
    nothing enters the ring. *)
Theorem login_then_start {D} `{RoomStore D} (s : server D) c y args name password role a
    rjunk pjunk addr len sent answer ljunk :
  w_clients (sv_world s) !! c = Some y → c_user_id y = -1 →
  0 ≤ c_slot y < MAX_CLIENTS → sv_clients s !! Z.to_nat (c_slot y) = Some (Some c) →
  scan_two 31 63 args = (name, password) → name ≠ [] → password ≠ [] →
  no_nul name → no_nul password →
  auth_authenticate (sv_users s) name password = Some role →
  a_running a = true → a_audio_started a = false → length pjunk = sizeof_audio_packet →
  ∃ s' r a2, handle_login c args s = Some (tt, s') ∧
    sv_sent s' = sv_sent s ++ [(c_fd y, r)] ∧
    let a1 := receive_response (Some (encode_response r)) rjunk a in
    a_client_slot a1 = c_slot y ∧
    client_step (Line (str "START" ++ [10]) sent answer ljunk) a1 = Some (tt, a2) ∧
    ∃ packet s'' y'', a_datagrams a2 = a_datagrams a ++ [packet] ∧
      handle_udp_packet packet pjunk addr len s' = Some (tt, s'') ∧
      w_clients (sv_world s'') !! c = Some y'' ∧ c_udp_addr y'' = addr ∧
      c_udp_addr_len y'' = len ∧ sv_ring s'' = sv_ring s'.
Proof.
  intros Hy Hid Hslot Hsl Hscan Hn Hp Hnn Hpn Hauth Hrun Hstart Hj.
  destruct (login_run s c y args name password role Hy Hid Hscan Hn Hp Hnn Hpn Hauth)
    as (s'&y'&Hlogin&Hw&_&_&_&_&_&Hcl&_&Hsent).
  destruct (login_response_slot (c_slot y) rjunk a Hslot) as (E1&E2&E3&E4).
  set (a1 := receive_response _ _ _) in E1, E2, E3, E4.
  exists s'. eexists. exists (start_audio a1).
  split; [exact Hlogin|]. split; [exact Hsent|]. cbv zeta. fold a1.
  split; [exact E1|].
  destruct (hello_registers s' (c_slot y) c y' pjunk addr len) as (s2&Hudp&Hw2&Hring);
    [done|by rewrite Hcl|by rewrite Hw, lookup_insert_eq|].
  split.
  - unfold client_step. c_steps. rewrite E2, Hrun. cbn [when].
    unfold puts. change (client_line (str "START" ++ [10]) sent answer ljunk a1)
      with (if a_audio_started a1 then a1 else start_audio a1).
    by rewrite E3, Hstart.
  - cbn [start_audio a_datagrams]. rewrite E1, E4.
    eexists _, s2, _. split; [reflexivity|]. split; [exact Hudp|].
    rewrite Hw2, lookup_insert_eq. by split_and!.
Qed.

(** ** Witnesses *)
Definition demo_app : app := a_with_mic false true (start_audio (a_with_slot 3 app_init)).
Definition demo_frames : list (list Z) := (λ v, replicate 320 v) <$> [1; 200; -300; 32767; -32768].

Lemma demo_frames_ok : Forall frame_ok demo_frames.
Proof.
  unfold demo_frames. apply Forall_fmap, Forall_forall. intros v Hv. split; [apply length_replicate|].
  apply Forall_replicate. repeat (apply elem_of_cons in Hv as [->|Hv]; [int_lia|]). by apply elem_of_nil in Hv.
Qed.

Lemma voice_end_to_end_witness : ∃ a' dgs,
  run_client (concat (frame_inputs (memset 9 1408) <$> demo_frames)) demo_app = Some (tt, a') ∧
  a_datagrams a' = a_datagrams demo_app ++ dgs ∧
  ∃ jb1 out jb2, push_all jitter_init ((λ d, received_packet d (memset 170 2068)) <$> reverse dgs)
      = Some jb1 ∧
    drain 5 jb1 = (Some <$> out, jb2) ∧
    a_played (listen guest_server 7 (new_client 6 1) 3 (memset 170 2068) out app_init) =
      concat (bytes_of <$> demo_frames).
Proof.
  destruct (voice_end_to_end demo_app demo_frames (memset 9 1408) (memset 170 2068) jitter_init
    guest_server 7 (new_client 6 1) app_init) as (a'&dgs&Hrun&Hd&Hall).
  - split_and!; reflexivity.
  - cbn. unfold MAX_CLIENTS. lia.
  - cbn. lia.
  - cbn. lia.
  - exact demo_frames_ok.
  - cbn. lia.
  - apply length_replicate.
  - apply length_replicate.
  - apply jitter_init_ok.
  - apply jitter_init_pending.
  - discriminate.
  - exists a', dgs. split; [exact Hrun|]. split; [exact Hd|].
    exact (Hall (reverse dgs) (reverse_Permutation dgs)).
Defined.

(** A frame passes the test, MUTE is typed, the frame is sent, the next is not. *)
Definition demo_muted : list input :=
  [Send (memset 0 1408); Frame [memset 2 640]; Send (memset 0 1408);
   Line (str "JOIN lobby") true None []].
Definition demo_past_test : app := a_hold (memset 1 640) demo_app.
Lemma muted_mic_sends_nothing_witness :
  (∃ a', run_client demo_muted app_init = Some (tt, a') ∧ a_mic_muted a' = true) ∧
  ∃ a' dgs, run_client (Line (str "mute" ++ [10]) true None [] :: demo_muted) demo_past_test =
    Some (tt, a') ∧ a_mic_muted a' = true ∧ a_datagrams a' = a_datagrams demo_past_test ++ dgs ∧
    length dgs = 1%nat.
Proof.
  destruct (muted_mic_sends_nothing demo_muted) as [(a1&H1&H2&_) Hmute];
    [repeat (constructor; [reflexivity|]); constructor|].
  split; [by exists a1|].
  destruct (Hmute demo_past_test (str "mute" ++ [10]) true None []) as (a'&dgs&H3&H4&H5&_);
    [reflexivity|reflexivity|reflexivity|].
  exists a', dgs. split_and!; [exact H3|exact H4|exact H5|].
  assert (option_map (λ r, length (a_datagrams r.2))
    (run_client (Line (str "mute" ++ [10]) true None [] :: demo_muted) demo_past_test) = Some 2%nat)
    as Hn by (vm_compute; reflexivity).
  rewrite H3 in Hn. cbn [option_map snd] in Hn. rewrite H5, length_app in Hn. injection Hn as Hn.
  change (length (a_datagrams demo_past_test)) with 1%nat in Hn. lia.
Defined.

Lemma login_then_start_witness : ∃ s' r a2,
  handle_login 1%positive (Some (str "admin admin123")) guest_server = Some (tt, s') ∧
  sv_sent s' = [(5, r)] ∧
  client_step (Line (str "START" ++ [10]) true None [])
    (receive_response (Some (encode_response r)) [] app_init) = Some (tt, a2).
Proof.
  destruct (login_then_start guest_server 1%positive demo_guest (Some (str "admin admin123"))
    (str "admin") (str "admin123") ROLE_ADMIN app_init [] (memset 0 2068) [1] 16 true None [])
    as (s'&r&a2&H1&H2&_&H3&_).
  - reflexivity.
  - reflexivity.
  - cbn. unfold MAX_CLIENTS. lia.
  - reflexivity.
  - reflexivity.
  - discriminate.
  - discriminate.
  - reflexivity.
  - reflexivity.
  - vm_done.
  - reflexivity.
  - reflexivity.
  - apply length_replicate.
  - exists s', r, a2. split; [exact H1|]. split; [exact H2|exact H3].
Defined.
