(* ===== verification/ClientMain.v ===== *)
(** * [main] of [src/client/client.c]

    From the arguments and the sockets, with every error path, through the
    lines of the standard input to the end of the process; and the help
    text. *)
From S2P Require Import Prelude CInt CString Protocol Posix FileDb Interleave ClientApp.
#[local] Open Scope Z_scope.

(** ** The help text *)

(** A part of the text in an ANSI style. *)
Definition styled (code text : string) : bytes :=
  27 :: str "[" ++ str code ++ str "m" ++ str text ++ 27 :: str "[0m".
Definition help_rule : bytes :=
  styled "1;36" "==============================================================" ++ [nl].
Definition heading (text : string) : bytes := styled "1;33" text ++ [nl].
Definition help_entry (name text : string) : bytes :=
  str "  " ++ styled "1" name ++ str text ++ [nl].

Definition print_help : bytes :=
  [nl] ++ help_rule ++
  styled "1;32" "                    EchoLink Client Commands                    " ++ [nl] ++
  help_rule ++
  heading "[ Authentication ]" ++
  help_entry "REGISTER <user> <pass>" " - Create a new account" ++
  help_entry "LOGIN <user> <pass>" "    - Log into your account" ++
  help_entry "LOGOUT" "                 - Log out of your account" ++
  [nl] ++ heading "[ Rooms & Voice ]" ++
  help_entry "CREATE <room> <pass>" "   - Create a new voice room" ++
  help_entry "JOIN <room> <pass>" "     - Join an existing room" ++
  help_entry "START" "                  - Connect to the audio stream (Mic is OFF)" ++
  help_entry "UNMUTE" "                 - Turn your microphone ON" ++
  help_entry "MUTE" "                   - Turn your microphone OFF" ++
  help_entry "LEAVE" "                  - Leave the current room" ++
  [nl] ++ heading "[ Information ]" ++
  help_entry "LIST" "                   - List all active rooms" ++
  help_entry "STATUS" "                 - See your current role and room status" ++
  [nl] ++ heading "[ Administration ]" ++
  help_entry "PROMOTE <user> <ROLE>" "  - Change user role (Roles: ADMIN, MODERATOR)" ++
  help_entry "KICK <user>" "            - Kick a user from your room" ++
  [nl] ++ heading "[ System ]" ++
  help_entry "HELP" "                   - Show this help menu" ++
  help_entry "QUIT / EXIT" "            - Close the EchoLink client" ++
  help_rule ++ [nl].

(** ** Lines *)

(** [fgets(line,size,stdin)]: at most [size-1] bytes, up to the first newline
    and with it; [None] at the end of the input. *)
Fixpoint fgets (room : nat) (stdin : bytes) : bytes * bytes :=
  match room, stdin with
  | S room', b :: rest =>
    if b =? 10 then ([b], rest)
    else let '(line, rest') := fgets room' rest in (b :: line, rest')
  | _, _ => ([], stdin)
  end.
Definition fgets_line (size : nat) (stdin : bytes) : option (bytes * bytes) :=
  match stdin with [] => None | _ => Some (fgets (size - 1) stdin) end.

Definition LINE_SIZE : nat := 512.

(** ** The loop *)

(** An iteration to come: what [send] and [recv] give for its command, and the
    turns of the audio threads after it. *)
Record round := Round {
  ro_sent : bool;
  ro_answer : option bytes;
  ro_junk : bytes;
  ro_audio : list input
}.

(** [while(running && fgets(line,sizeof(line),stdin))]: the iterations to
    come, and the input not read. *)
Fixpoint main_loop (stdin : bytes) (rs : list round) : C app unit :=
  match rs with
  | [] => mret tt
  | r :: rs' =>
    running ← gets a_running;
    if running : bool then
      match fgets_line LINE_SIZE stdin with
      | None => mret tt
      | Some (line, rest) =>
        _ ← puts (client_line line (ro_sent r) (ro_answer r) (ro_junk r));
        _ ← run_client (ro_audio r);
        main_loop rest rs'
      end
    else mret tt
  end.

(** ** The process *)

(** What the system calls of the start give: descriptors or -1. *)
Record client_env := ClientEnv {
  ce_tcp_socket : Z;
  ce_connected : bool;
  ce_udp_socket : Z
}.

(** How the process ended, its descriptors closed in this order, and its
    last state. *)
Record client_exit := ClientExit {
  cx_status : Z;
  cx_closed : list Z;
  cx_app : app
}.

Definition client_main (argc : Z) (e : client_env) (stdin : bytes) (rs : list round)
    : option client_exit :=
  if argc <? 3 then Some (ClientExit 1 [] app_init)
  else if ce_tcp_socket e =? -1 then Some (ClientExit 1 [] app_init)
  else if negb (ce_connected e) then Some (ClientExit 1 [ce_tcp_socket e] app_init)
  else if ce_udp_socket e =? -1 then Some (ClientExit 1 [ce_tcp_socket e] app_init)
  else
    '(_, a) ← main_loop stdin rs app_init;
    Some (ClientExit 0 [ce_udp_socket e; ce_tcp_socket e] (a_stop a)).

(** The descriptors that the calls opened: those before the first failure. *)
Definition client_opened (argc : Z) (e : client_env) : list Z :=
  if (argc <? 3) || (ce_tcp_socket e =? -1) then []
  else if negb (ce_connected e) || (ce_udp_socket e =? -1) then [ce_tcp_socket e]
  else [ce_udp_socket e; ce_tcp_socket e].

(** ** The loop as a run of the client's threads *)

(** The lines of the input, one per iteration. *)
Fixpoint input_lines (stdin : bytes) (n : nat) : list bytes :=
  match n with
  | O => []
  | S n' =>
    match fgets_line LINE_SIZE stdin with
    | None => []
    | Some (line, rest) => line :: input_lines rest n'
    end
  end.
Fixpoint loop_inputs (lines : list bytes) (rs : list round) : list input :=
  match lines, rs with
  | line :: lines', r :: rs' =>
    Line line (ro_sent r) (ro_answer r) (ro_junk r) :: ro_audio r ++ loop_inputs lines' rs'
  | _, _ => []
  end.

Lemma run_client_app ins js a :
  run_client (ins ++ js) a = (_ ← run_client ins; run_client js) a.
Proof.
  revert a. induction ins as [|i ins IH]; intros a; [done|]. cbn [Datatypes.app run_client].
  rewrite C_bind_assoc. apply bind_cong. intros [] a' _. apply IH.
Qed.

Lemma run_client_stopped ins a : a_running a = false → run_client ins a = Some (tt, a).
Proof.
  intros Ha. induction ins as [|i ins IH]; [done|]. cbn [run_client].
  rewrite (C_bind_run _ _ a tt a); [apply IH|]. unfold client_step. rewrite !C_bind_gets, Ha.
  by destruct i.
Qed.

Lemma main_loop_run stdin rs a :
  main_loop stdin rs a = run_client (loop_inputs (input_lines stdin (length rs)) rs) a.
Proof.
  revert stdin a. induction rs as [|r rs IH]; intros stdin a; [done|].
  cbn [main_loop length input_lines]. rewrite C_bind_gets.
  destruct (a_running a) eqn:Ha; [|by rewrite run_client_stopped].
  destruct (fgets_line LINE_SIZE stdin) as [[line rest]|]; [|done].
  cbn [loop_inputs run_client].
  rewrite (C_bind_run (client_step _) _ a tt (client_line line (ro_sent r) (ro_answer r) (ro_junk r) a)).
  2: { unfold client_step. by rewrite !C_bind_gets, Ha. }
  rewrite (C_bind_run (puts _) _ a tt (client_line line (ro_sent r) (ro_answer r) (ro_junk r) a) eq_refl).
  rewrite run_client_app. apply bind_cong. intros [] a' _. apply IH.
Qed.

Lemma fgets_split n stdin : (fgets n stdin).1 ++ (fgets n stdin).2 = stdin ∧
  (length (fgets n stdin).1 ≤ n)%nat ∧ (n ≠ O → stdin ≠ [] → (fgets n stdin).1 ≠ []) ∧
  (∀ b, b ∈ removelast (fgets n stdin).1 → b ≠ 10).
Proof.
  revert stdin. induction n as [|n IH]; intros [|b stdin]; cbn [fgets fst snd].
  1-3: by split_and!; [done|cbn; lia|done|intros b' Hin%not_elem_of_nil].
  destruct (Z.eqb_spec b 10) as [->|Hb]; cbn.
  { split_and!; [done|lia|done|]. by intros b Hin%not_elem_of_nil. }
  specialize (IH stdin). destruct (fgets n stdin) as [line rest]. cbn in *.
  destruct IH as (E&Hl&_&Hn). split_and!; [by rewrite E|lia|done|].
  destruct line as [|c line]; [by intros x Hin%not_elem_of_nil|].
  intros x [->|Hin]%elem_of_cons; [done|]. by apply Hn.
Qed.

Lemma input_lines_split n stdin : ∃ rest, stdin = concat (input_lines stdin n) ++ rest ∧
  Forall (λ line, line ≠ [] ∧ (length line ≤ 511)%nat ∧ ∀ b, b ∈ removelast line → b ≠ 10)
    (input_lines stdin n).
Proof.
  revert stdin. induction n as [|n IH]; intros stdin; cbn [input_lines]; [by exists stdin|].
  unfold fgets_line. destruct stdin as [|b stdin]; [by exists []|].
  destruct (fgets_split (LINE_SIZE - 1) (b :: stdin)) as (E&Hl&Hne&Hn).
  destruct (fgets (LINE_SIZE - 1) (b :: stdin)) as [line rest]. cbn [fst snd] in *.
  destruct (IH rest) as (rest'&Er&Hf). exists rest'. cbn [concat]. split.
  - by rewrite <-app_assoc, <-Er.
  - constructor; [|done]. split_and!; [by apply Hne|done|done].
Qed.

(** ** The theorem *)

(** C33. The client process: it exits with 1 exactly when an argument is missing,
    a socket cannot be opened or TCP cannot be connected, and with 0 otherwise
    (the [connect] of the UDP socket is not looked at); on every
    path it closes the descriptors it has opened, each once.  On the way to 0
    it has run the three threads on the lines of its input, which lose no byte
    of it, hold at most 511 bytes and end at the first newline. *)
Theorem client_main_correct argc e stdin rs :
  client_main argc e stdin rs =
    match client_opened argc e with
    | [udp; tcp] =>
      '(_, a) ← run_client (loop_inputs (input_lines stdin (length rs)) rs) app_init;
      Some (ClientExit 0 [udp; tcp] (a_stop a))
    | opened => Some (ClientExit 1 opened app_init)
    end ∧
  ∃ rest, stdin = concat (input_lines stdin (length rs)) ++ rest ∧
    Forall (λ line, line ≠ [] ∧ (length line ≤ 511)%nat ∧ ∀ b, b ∈ removelast line → b ≠ 10)
      (input_lines stdin (length rs)).
Proof.
  split; [|apply input_lines_split]. unfold client_main, client_opened.
  destruct (argc <? 3); [done|]. destruct (ce_tcp_socket e =? -1); [done|]. cbn [orb].
  destruct (ce_connected e); [|done]. cbn [negb orb].
  destruct (ce_udp_socket e =? -1); [done|]. by rewrite main_loop_run.
Qed.

(** A line that is longer than the buffer becomes two commands. *)
Theorem long_line_is_two_commands : option_map (λ x, length <$> a_commands (cx_app x))
  (client_main 3 (ClientEnv 3 true 4) (replicate 600 97 ++ [10])
     [Round true (Some [0]) (memset 0 5000) []; Round true (Some [0]) (memset 0 5000) []]) =
  Some [511; 89]%nat.
Proof. vm_compute. reflexivity. Qed.
